(* ===== verification/_CoqProject ===== *)
-Q . S2P
Prelude.v
GoStd.v
K8s.v
Api.v
Objects.v
Client.v
Clients.v
Base.v
ClientFacts.v
Workload.v
Web.v
WorkloadFacts.v
Url.v
GoNet.v
GoNetFacts.v
Duration.v
OperatorConfig.v
Flags.v
Proxy.v
Tenant.v
TenantFacts.v
Ingester.v
IngesterFacts.v
Router.v
RouterFacts.v
Store.v
StoreFacts.v
Compactor.v
CompactorFacts.v
Block.v
BlockFacts.v
Gateway.v
GatewayFacts.v
Watcher.v
GatewayCommand.v
GatewayProcess.v
AgentCommand.v
Ruler.v
RulerFacts.v
Query.v
QueryFrontend.v
EnvoyConfig.v
QueryFacts.v
GatewayWorkload.v
BlockManager.v
BlockManagerFacts.v
RulerWorkload.v
RulerWorkloadFacts.v
Pods.v
RequestFacts.v
Controllers.v
ManagerCommand.v
ControllersFacts.v
GatewayWorkloadFacts.v
CommandFacts.v
GatewayCommandFacts.v
GatewayProcessFacts.v
Std.v
Witnesses.v
WorkloadWitnesses.v
ControllersWitnesses.v
CommandWitnesses.v
ProcessWitnesses.v
