(* ===== verification/Prelude.v ===== *)
(** * Whizard, verified

    Whizard runs a multi-tenant Prometheus on Kubernetes. Tenants write samples
    through a gateway and a router into ingesters, which ship blocks to an
    object store; queries, rules, stores and compactors read them back. This
    library models the Go code of its operator and of its commands as Rocq
    functions and proves what makes it correct.

    ** How the code is represented

    A function that can fail or panic returns an [Outcome]; one with effects is a
    computation of the monad [M S], which keeps its state on an error, as Go
    does. [W] is always an arbitrary world behind the client interface
    [Client.Kube]; a theorem over it holds whatever the API server answers.
    Integers are [Z], with the wrap-around written where the code can reach it
    (hashes, unix times, shards, ports, durations). Go's nil and empty slices
    and maps are identified, and the order of a Go map is a parameter,
    [MapRange]. The Go standard library that the code uses is defined
    ([GoStd], [Url], [GoNet], [Duration], [Proxy]). The log is left out.

    Third-party code is the fields of classes, with the laws the code relies on:
    - of Kubernetes: [Kube], [K8sLib], [BaseLib], [Clock], [RuntimeLib],
      [ManagerLib], [BlockEnv], [PatchLib];
    - of the workloads: [WorkLib], [WebLib], [RouterLib], [StoreLib],
      [CompactorLib], [QueryLib], [FrontendLib], [GatewayLib], [RuleLib],
      [RulerLib], [Md5];
    - of the commands: [CommandLine] with [Kingpin], [Pflag] and [Kong],
      [ClientConfigs], [CommandLib], [AgentLib], [TLSLib], [RunGroup], [Viper],
      [ConfigLib];
    - of the gateway and the block manager: [Mux], [PromQL], [HttpClient],
      [WatchLib], [BlockApi].

    Instances in [Clients], [Base], [TenantFacts], [BlockFacts], [Std] and the
    files of witnesses show that the laws hold together.

    ** The files

    - [Prelude]: errors, outcomes, the monad, loops and their rules.
    - [GoStd], [Url], [GoNet], [GoNetFacts], [Duration]: strings, decimal
      integers, sorting, map iteration; queries and headers; paths, addresses
      and URLs; [time.ParseDuration]; with their round trips.
    - [K8s], [Api], [Objects]: Kubernetes structs; [pkg/api/monitoring/v1alpha1]
      and [pkg/constants]; the sum of the object types and their interface.
    - [Client]: the API-server interface and [pkg/util/k8s.go], [errors.go].
      [Clients]: a client that logs its requests, with the logic [effects] and
      its tactic [reads], and an API server in memory. [ClientFacts]: the
      requests of the utilities.
    - [Base]: [pkg/util/utils.go], [relabel_config.go],
      [resources/base.go], [resources/service.go], with their theorems.
    - [Workload], [Web], [WorkloadFacts]: what the workloads share, and
      [resources/web_config.go].
    - One file per component of [pkg/controllers/resources], with its controller
      of [pkg/controllers], and one for what it guarantees: [Tenant],
      [Ingester], [Router], [Store], [Compactor], [Query] and [QueryFrontend]
      ([QueryFacts]), [GatewayWorkload], [BlockManager] for [resources/storage],
      [Ruler] for the rules and [RulerWorkload] for the stateful sets.
      [EnvoyConfig]: [pkg/util/envoy_config.go] and what renders it. [Pods]
      types the pod templates; [RequestFacts] says what their reconciliations
      may ask of the API server.
    - [Controllers], [ControllersFacts]: the [SetupWithManager] of every
      reconciler and [cmd/controller-manager/app/controllers.go].
    - [Block], [BlockFacts]: [pkg/block]. [Gateway], [GatewayFacts]:
      [pkg/monitoring-gateway] and [pkg/monitoring-agent-proxy]. [Watcher]:
      [config_watcher.go], with its theorems. [Proxy]: the reverse proxies.
    - [GatewayProcess], [GatewayProcessFacts]: the running gateway, with the
      goroutines of [gateway.go], [main.go] and [config_watcher.go], the channels
      they share and the group that runs them.
    - [Flags], [GatewayCommand], [AgentCommand], [ManagerCommand]: the command
      lines, and the commands of [cmd]: the gateway and the agent proxy, the
      operator, the block manager. [CommandFacts], [GatewayCommandFacts]: what
      a command started by the operator runs with. [OperatorConfig]:
      [pkg/controllers/config].
    - [Std], [Witnesses], [WorkloadWitnesses], [ControllersWitnesses],
      [CommandWitnesses], [ProcessWitnesses]: concrete parameters, and every property that has
      hypotheses applied at concrete data.

    ** How the parts interact

    [TenantReconciler_Reconcile] places a tenant: it lists ingesters and writes
    the tenant's name into [spec.tenants] of one. [IngesterReconciler_Reconcile]
    follows that list into the status and the pods, and deletes an ingester the
    tenant reconciler marked. [hashringsConfigMap] turns the same lists into the
    rings that route a tenant's samples. [gc_round] deletes the blocks of
    tenants whose objects are gone.

    In front, [NewHandler] routes a request by its tenant, [wrap] admits it
    against the map that [Run] of the watcher feeds through
    [SetAdmissionControlHandler], and [query] and [matcher] confine it to the
    tenant's series. The operator builds that gateway too: [gateway_deployment]
    writes the arguments, the config maps and the secrets from which
    [runGateway] makes the handler, the proxies and the watcher, and
    [ruler_statefulSet] the proxies that write the rulers' samples through it.
    Once it runs, a step of [perform] is a step of one goroutine, and [exec] any
    interleaving of them: [Run_at] is [Run] of the watcher up to a blocking
    operation, [ConfigFromWatcher_at] what forwards its configurations,
    [updater_at] what applies them.

    [query_deployment] collects the addresses that ingesters, stores and rulers
    announce. The controllers meet through events: [enqueued] says which
    reconciliations an event of an object gives a controller.

    ** What the theorems show

    - Isolation: an upstream query carries the tenant's matcher, and so does
      each of the client's selectors beside its own ([query_is_confined],
      [matcher_is_confined]); a request of no tenant or of one that is not
      admitted reaches no upstream ([not_admitted_not_forwarded]); writes go out
      under the tenant of the path, to every external target too
      ([remoteWrite_fans_out]); an endpoint's handler gets the request without
      the tenant in its path ([tenant_endpoint_served]), from an agent too
      ([agent_route_reaches_gateway], [strip_tenant_prefix]).
    - Admission: the tenants of the custom resources are those the gateway
      admits ([gateway_admits_its_tenants]); the map is the last configuration
      ([admission_is_last_config]), changes without refusing a tenant that stays
      ([admission_update_is_gradual]), and follows the file through any run of
      the watcher's machine ([admission_follows_file]); a gateway that is ready
      has one ([ready_means_admitting]).
    - The process: under every schedule the gateway follows its file
      ([running_gateway_follows_file]) and does not panic
      ([gateway_process_never_panics]); its shutdown ends unless the forwarder is
      stuck on a full channel ([shutdown_ends_unless_wedged]).
    - From resource to process: the gateway runs with what its custom resource
      declares ([gateway_runs_as_declared], [remote_query_gateway]), lets its
      rulers in ([gateway_lets_its_rulers_in]), and the agent and the collector
      read what they are given ([agent_sends_to_its_gateway],
      [collector_reads_its_settings]).
    - Placement: the search ends at the first ingester with room
      ([choose_ingester_placed]), which the next reconciliation accepts
      ([assigned_ingester_fits]; [new_tenant_settles] runs one cluster); leaving
      and joining keep other data ([removal_keeps_others],
      [joining_revives_ingester]); the writes of a reconciliation of the stores
      are the difference between those there are and those tenants ask for, and
      nothing else ([store_reconciles_difference]).
    - Ingesters: an empty one is deleted at the end of its retention period and
      not before, and nothing but its own objects is written
      ([recycled_after_retention], [ingester_deleted_only_when_due]), its status
      forgets nobody, its flags merge; [tenant_routed_to_its_ingester] and
      [router_requests_confined] for the router; [gc_marks_orphans] for blocks:
      those of no live tenant are marked, and no others.
    - Reading back: a query has every endpoint of its service, as the components
      announce them ([query_reads_every_component]), its proxied stores have
      their own listeners ([proxied_stores_listen]) and a frontend reaches it
      ([frontend_reaches_its_querier]); a store's partitions select the blocks
      of its tenants ([store_selects_its_tenants]) and announce their own
      services ([store_endpoints_are_services]); a compactor keeps blocks as
      long as its specification says ([retention_is_the_specification]).
    - Rules: groups are sharded and files packed without loss
      ([shard_groups_partition], [pack_partitions]), stale config maps and
      stateful sets are the ruler's own ([rule_configmap_owner],
      [stale_statefulsets_deleted]), and samples carry the labels of the ruler
      ([rules_carry_the_labels]).
    - Events: what a reconciliation reads is heard by its controller
      ([reconciled_kinds_are_heard]), an event of a component reaches those that
      depend on it ([component_event_reaches]), and a rotated secret the pods
      ([secret_rotation_reaches_pods]); [tenant_update_unheard] is an event that
      reaches no gateway.
    - Everywhere: pods are well formed ([pods_well_formed], but for two stores of
      a query with one certificate secret), requests stay among the kinds and
      names of the object reconciled, whose specification decides what is deleted
      ([workload_requests_confined]), and defaults are complete
      ([ApplyDefaults_complete]).
    - Error paths: the theorems named in the findings prove, on the model, where
      the code does not do what it means to.

    ** Recursion and bounds

    Most definitions are structural. [pick_ingester] counts the turns the loop of
    the source has left, one more than the number of ingesters listed; the
    candidate names are distinct, so one of them is free, and
    [choose_ingester_placed] shows that the loop always finds a place and the
    code after it never sees an empty ingester. [time_ParseDuration] takes
    its turns from the length of the text, of which each reads a character or
    more, so that they never run out; its round trip ([ParseDuration_String'])
    holds for every duration. Retries on conflict are
    the library's: [RetryOnConflict_spec] allows any number. At most seven steps
    forward what is on its way in the gateway, and the shutdown has the measure
    [remaining].

    ** Not modelled

    - What nothing runs: the commented-out code of [ruler/statefulset.go] and of
      [store/hpa.go], and the ruler's edit of a password node.
    - Generated deep copies, clients, informers and listers.
    - Profiling, metrics and logs. The life of the processes other than the
      gateway: such a command is what it starts, with its arguments and its
      exit. In the gateway an update of the admission map is one step; that
      requests see it in parts is [admission_update_is_gradual].
    - An external remote write without a URL, which the gateway dereferences at
      its first write. *)
From stdpp Require Import base gmap strings list pretty sorting numbers.

(** ** Errors *)

(** A Go [error] as the source inspects it: an API status error (the code and
    reason the [apierrors] predicates read, and the causes
    [ReconcileResources] reports), a plain message, or a wrapped error. *)
Inductive GoError : Type :=
  | EStatus (code : Z) (reason : string) (causes : list string)
  | EMsg (msg : string)
  | EWrap (msg : string) (e : GoError).

#[export] Instance GoError_eq_dec : EqDecision GoError.
Proof. solve_decision. Defined.

(** The result of running a Go function: a value, an error, or a run-time
    panic (index out of range, nil dereference). *)
Inductive Outcome (A : Type) : Type :=
  | Ok (a : A)
  | Err (e : GoError)
  | Panic (why : string).
Arguments Ok {A} a.
Arguments Err {A} e.
Arguments Panic {A} why.

(** ** The state, error and panic monad *)

(** The state survives an error: what a Go function mutated before it returned
    an error stays mutated. *)
Definition M (S A : Type) : Type := S → Outcome A * S.

Section monad.
Context {S : Type}.

Definition M_ret {A} (a : A) : M S A := λ s, (Ok a, s).

Definition M_bind {A B} (f : A → M S B) (m : M S A) : M S B := λ s,
  match m s with
  | (Ok a, s') => f a s'
  | (Err e, s') => (Err e, s')
  | (Panic p, s') => (Panic p, s')
  end.

Definition fail {A} (e : GoError) : M S A := λ s, (Err e, s).
Definition panic {A} (why : string) : M S A := λ s, (Panic why, s).
Definition get_st : M S S := λ s, (Ok s, s).
Definition put_st (s : S) : M S unit := λ _, (Ok tt, s).
Definition modify_st (f : S → S) : M S unit := λ s, (Ok tt, f s).

(** [v, err := m]: the error becomes a value the caller inspects. *)
Definition attempt {A} (m : M S A) : M S (GoError + A) := λ s,
  match m s with
  | (Ok a, s') => (Ok (inr a), s')
  | (Err e, s') => (Ok (inl e), s')
  | (Panic p, s') => (Panic p, s')
  end.

(** A Go value that may be a panic, with no effect on the state. *)
Definition lift_outcome {A} (o : Outcome A) : M S A := λ s, (o, s).

Definition of_option {A} (why : string) (o : option A) : M S A :=
  match o with Some a => M_ret a | None => panic why end.
End monad.

#[export] Instance M_mret {S} : MRet (M S) := λ A, M_ret.
#[export] Instance M_mbind {S} : MBind (M S) := λ A B, M_bind.

(** Run a computation on a component of the state. *)
Definition zoom {S T A} (get : T → S) (set : S → T → T) (m : M S A) : M T A :=
  λ t, let '(r, s') := m (get t) in (r, set s' t).

(** [for _, x := range l { body x }] where the body may return an error. *)
Fixpoint for_each {S A} (f : A → M S unit) (l : list A) : M S unit :=
  match l with
  | [] => mret tt
  | x :: l' => f x ;; for_each f l'
  end.

(** The same loop with an accumulator. *)
Fixpoint fold_each {S A B} (f : B → A → M S B) (b : B) (l : list A) : M S B :=
  match l with
  | [] => mret b
  | x :: l' => b' ← f b x; fold_each f b' l'
  end.

(** ** Laws and inversion of the monad *)

Section monad_laws.
Context {S : Type}.

Lemma bind_ret_l {A B} (a : A) (f : A → M S B) : (mret a ≫= f) = f a.
Proof. reflexivity. Qed.

Lemma bind_ret_r {A} (m : M S A) s : (m ≫= mret) s = m s.
Proof. unfold mbind, M_mbind, M_bind. by destruct (m s) as [[]]. Qed.

Lemma bind_assoc {A B C} (m : M S A) (f : A → M S B) (g : B → M S C) s :
  ((m ≫= f) ≫= g) s = (m ≫= λ a, f a ≫= g) s.
Proof. unfold mbind, M_mbind, M_bind. by destruct (m s) as [[]]. Qed.

Lemma bind_step {A B} (m : M S A) (f : A → M S B) s a s' :
  m s = (Ok a, s') → (m ≫= f) s = f a s'.
Proof. intros H. unfold mbind, M_mbind, M_bind. by rewrite H. Qed.

Lemma bind_err {A B} (m : M S A) (f : A → M S B) s e s' :
  m s = (Err e, s') → (m ≫= f) s = (Err e, s').
Proof. intros H. unfold mbind, M_mbind, M_bind. by rewrite H. Qed.

Lemma bind_Ok_inv {A B} (m : M S A) (f : A → M S B) s b s2 :
  (m ≫= f) s = (Ok b, s2) → ∃ a s1, m s = (Ok a, s1) ∧ f a s1 = (Ok b, s2).
Proof.
  unfold mbind, M_mbind, M_bind. destruct (m s) as [[a|e|p] s1]; naive_solver.
Qed.

Lemma attempt_Ok {A} (m : M S A) s a s' :
  m s = (Ok a, s') → attempt m s = (Ok (inr a), s').
Proof. intros H. unfold attempt. by rewrite H. Qed.

Lemma attempt_Err {A} (m : M S A) s e s' :
  m s = (Err e, s') → attempt m s = (Ok (inl e), s').
Proof. intros H. unfold attempt. by rewrite H. Qed.

Lemma for_each_app {A} (f : A → M S unit) l1 l2 s :
  for_each f (l1 ++ l2) s = (for_each f l1 ;; for_each f l2) s.
Proof.
  revert s. induction l1 as [|x l1 IH]; intros s; [done|].
  simpl. rewrite bind_assoc. unfold mbind, M_mbind, M_bind in *.
  destruct (f x s) as [[[]|e|p] s1]; [|done..]. apply IH.
Qed.

(** The loop rule: an invariant every iteration keeps holds at the end. *)
Lemma for_each_inv {A} (P : S → Prop) (f : A → M S unit) l s s' :
  (∀ x s1 s2, x ∈ l → P s1 → f x s1 = (Ok tt, s2) → P s2) →
  P s → for_each f l s = (Ok tt, s') → P s'.
Proof.
  revert s. induction l as [|x l IH]; intros s Hf HP Hrun; simpl in Hrun.
  - by inversion Hrun; subst.
  - apply bind_Ok_inv in Hrun as ([] & s1 & H1 & H2).
    eapply IH; [|eapply (Hf x); [left|exact HP|exact H1]|exact H2].
    intros y t1 t2 Hy. apply Hf. by right.
Qed.
End monad_laws.

(** [m_inv H] takes a successful run of a sequence of binds apart. *)
Ltac m_inv H :=
  lazymatch type of H with
  | (_ ≫= _) _ = (Ok _, _) =>
      let a := fresh "a" in let s := fresh "s" in
      let H1 := fresh "Hrun" in let H2 := fresh "Hrun" in
      apply bind_Ok_inv in H as (a & s & H1 & H2); m_inv H1; m_inv H2
  | (Ok _, _) = (Ok _, _) => inversion H; subst; clear H
  | mret _ _ = (Ok _, _) => inversion H; subst; clear H
  | fail _ _ = (Ok _, _) => discriminate H
  | panic _ _ = (Ok _, _) => discriminate H
  | _ => idtac
  end.

(** Case analysis on the condition of a conditional in the goal or in [H]. *)
Ltac case_if_in H :=
  match type of H with
  | context [if decide ?P then _ else _] => destruct (decide P) eqn:?
  | context [if ?b then _ else _] => destruct b eqn:?
  end.

Create Rewrite HintDb whizard_rw.

(** ** Lists *)

Section lists.
Context {A : Type}.

(** [n] pigeons do not fill [S n] distinct holes. *)
Lemma pigeonhole_fresh `{EqDecision A} (f : nat → A) (occupied : list A) :
  Inj (=) (=) f → ∃ i, i ≤ length occupied ∧ f i ∉ occupied.
Proof.
  intros Hinj. destruct (decide (Forall (λ i, f i ∈ occupied)
    (seq 0 (S (length occupied))))) as [Hall|Hnot].
  - exfalso. assert (Hsub : f <$> seq 0 (S (length occupied)) ⊆+ occupied).
    { apply NoDup_submseteq.
      - apply (NoDup_fmap_2 f), NoDup_seq.
      - intros x (i & -> & Hi)%list_elem_of_fmap.
        rewrite list.Forall_forall in Hall. exact (Hall i Hi). }
    apply submseteq_length in Hsub. rewrite length_fmap, length_seq in Hsub. lia.
  - apply (not_Forall_Exists _) in Hnot.
    apply list.Exists_exists in Hnot as (i & Hi & Hfi).
    apply elem_of_seq in Hi. exists i. split; [lia|done].
Qed.
End lists.
