(* ===== verification/GoStd.v ===== *)
(** The Go language and standard-library operations the source uses: byte
    strings ([strings.Split], [Join], [Trim...]), decimal integers
    ([strconv.Itoa], [ParseInt]), [sort.Strings], and iteration over a Go map,
    whose order the language leaves open. *)
From stdpp Require Import base gmap strings list pretty sorting numbers.
From Stdlib Require Import Ascii String.
From S2P Require Import Prelude.
Open Scope string_scope.
Open Scope list_scope.
(** [length] is the length of a list; a string's is [String.length]. *)
Abbreviation length := Datatypes.length.

(** ** Byte strings *)

Fixpoint split_on (c : ascii) (s : string) : list string :=
  match s with
  | EmptyString => [""]
  | String a s' =>
      if Ascii.eqb a c then "" :: split_on c s'
      else match split_on c s' with
           | [] => [String a ""]
           | h :: t => String a h :: t
           end
  end.

Definition join (sep : string) (l : list string) : string := String.concat sep l.

Definition has_prefix (s p : string) : bool := String.prefix p s.

Fixpoint drop_str (n : nat) (s : string) : string :=
  match n, s with
  | O, _ => s
  | _, EmptyString => EmptyString
  | S n', String _ s' => drop_str n' s'
  end.

Fixpoint take_str (n : nat) (s : string) : string :=
  match n, s with
  | S n', String a s' => String a (take_str n' s')
  | _, _ => EmptyString
  end.

Definition trim_prefix (s p : string) : string :=
  if has_prefix s p then drop_str (String.length p) s else s.

Definition has_suffix (s p : string) : bool :=
  (String.length p <=? String.length s)%nat &&
  String.eqb (drop_str (String.length s - String.length p) s) p.

Definition trim_suffix (s p : string) : string :=
  if has_suffix s p then take_str (String.length s - String.length p) s else s.

(** [strings.Contains]. *)
Fixpoint contains_sub (s p : string) : bool :=
  has_prefix s p ||
  match s with
  | EmptyString => false
  | String _ s' => contains_sub s' p
  end.

Fixpoint contains_char (c : ascii) (s : string) : bool :=
  match s with
  | EmptyString => false
  | String a s' => Ascii.eqb a c || contains_char c s'
  end.

(** [strings.Trim(s, "c")] for a one-character cutset. *)
Fixpoint trim_left (c : ascii) (s : string) : string :=
  match s with
  | String a s' => if Ascii.eqb a c then trim_left c s' else s
  | EmptyString => EmptyString
  end.

Fixpoint trim_right (c : ascii) (s : string) : string :=
  match s with
  | EmptyString => EmptyString
  | String a s' =>
      match trim_right c s' with
      | EmptyString => if Ascii.eqb a c then EmptyString else String a EmptyString
      | t => String a t
      end
  end.

Definition trim_char (c : ascii) (s : string) : string := trim_right c (trim_left c s).

(** ** Decimal integers *)

Definition itoa (z : Z) : string := pretty z.

Definition digit_of (a : ascii) : option Z :=
  let n := N_of_ascii a in
  if (48 <=? n)%N && (n <=? 57)%N then Some (Z.of_N (n - 48)%N) else None.

Fixpoint parse_digits (acc : Z) (s : string) : option Z :=
  match s with
  | EmptyString => Some acc
  | String a s' =>
      match digit_of a with
      | Some d => parse_digits (acc * 10 + d) s'
      | None => None
      end
  end.

Definition min_int64 : Z := - 2 ^ 63.
Definition max_int64 : Z := 2 ^ 63 - 1.

(** [strconv.ParseInt(s, 10, 64)]: an optional sign, at least one digit, and
    the value within 64 bits. *)
Definition parse_int64 (s : string) : option Z :=
  let unsigned d := match d with EmptyString => None | _ => parse_digits 0 d end in
  let v := match s with
           | String "-"%char d => Z.opp <$> unsigned d
           | String "+"%char d => unsigned d
           | _ => unsigned s
           end in
  match v with
  | Some z => if (min_int64 <=? z)%Z && (z <=? max_int64)%Z then Some z else None
  | None => None
  end.

(** ** [sort.Strings] *)

Definition sort_strings (l : list string) : list string := merge_sort String.le l.

(** ** Map iteration *)

(** [for k, v := range m]: Go visits every entry once, in an order it does not
    specify and that may differ from loop to loop; [site] tells the loops of
    the source apart. *)
Class MapRange := {
  map_range : ∀ {V : Type}, string → gmap string V → list (string * V);
  map_range_perm : ∀ {V} (site : string) (m : gmap string V),
    map_range site m ≡ₚ map_to_list m;
}.

(** One admissible order, for evaluating definitions on concrete inputs. *)
#[export] Program Instance map_range_default : MapRange | 100 := {
  map_range V _ m := map_to_list m;
}.
Next Obligation. done. Qed.

(** ** Lemmas *)

Lemma digit_of_pretty x : (x < 10)%N → digit_of (pretty_N_char x) = Some (Z.of_N x).
Proof.
  intros H. assert (x ∈ (N.of_nat <$> seq 0 10)) as Hin.
  { apply list_elem_of_fmap. exists (N.to_nat x). rewrite elem_of_seq. lia. }
  repeat (apply elem_of_cons in Hin as [->|Hin]; [reflexivity|]).
  by apply elem_of_nil in Hin.
Qed.

Lemma parse_digits_pretty_go x s :
  parse_digits 0 (pretty_N_go x s) = parse_digits (Z.of_N x) s.
Proof.
  revert s. induction (N.lt_wf_0 x) as [x _ IH]; intros s.
  destruct (decide (x = 0)%N) as [->|Hx]; [done|].
  rewrite pretty_N_go_step by lia. rewrite IH by (apply N.div_lt; lia).
  cbn [parse_digits]. rewrite digit_of_pretty by (apply N.mod_lt; lia).
  f_equal. pose proof (N.Div0.div_mod x 10). lia.
Qed.

(** The first character of a non-empty run of digits. *)
Lemma pretty_go_digit x s :
  (0 < x)%N → ∃ d s', (d < 10)%N ∧ pretty_N_go x s = String (pretty_N_char d) s'.
Proof.
  revert s. induction (N.lt_wf_0 x) as [x _ IH]; intros s Hx.
  rewrite pretty_N_go_step by done.
  destruct (decide (x `div` 10 = 0)%N) as [E|E].
  - rewrite E, pretty_N_go_0. eexists _, _. split; [|done]. apply N.mod_lt. lia.
  - apply IH; [apply N.div_lt; lia|]. by apply N.neq_0_lt_0.
Qed.

Lemma pretty_char_cases d :
  (d < 10)%N → pretty_N_char d ≠ "-"%char ∧ pretty_N_char d ≠ "+"%char.
Proof. intros _. unfold pretty_N_char. split; by repeat case_match. Qed.

(** What [strconv.Itoa] prints, [strconv.ParseInt] reads back. *)
Lemma parse_int64_itoa z :
  (min_int64 ≤ z ≤ max_int64)%Z → parse_int64 (itoa z) = Some z.
Proof.
  intros [Hlo Hhi].
  assert (Hr : (min_int64 <=? z)%Z && (z <=? max_int64)%Z = true) by lia.
  unfold itoa, pretty, pretty_Z. destruct z as [|p|p]; [done| |].
  - unfold pretty, pretty_positive, pretty, pretty_N. rewrite decide_False by done.
    destruct (pretty_go_digit (N.pos p) "") as (d & s' & Hd & E); [done|].
    pose proof (parse_digits_pretty_go (N.pos p) "") as Hp. rewrite E in Hp |- *.
    destruct (pretty_char_cases d Hd) as [Hm Hpl]. unfold parse_int64.
    revert Hm Hpl Hp. destruct (pretty_N_char d) as [[] [] [] [] [] [] [] []];
      intros Hm Hpl Hp; try done; rewrite Hp; cbn [parse_digits];
      change (Z.of_N (N.pos p)) with (Z.pos p); by rewrite Hr.
  - unfold pretty, pretty_positive, pretty, pretty_N. rewrite decide_False by done.
    destruct (pretty_go_digit (N.pos p) "") as (d & s' & Hd & E); [done|].
    pose proof (parse_digits_pretty_go (N.pos p) "") as Hp. rewrite E in Hp |- *.
    unfold parse_int64. change ("-" +:+ String (pretty_N_char d) s') with
      (String "-" (String (pretty_N_char d) s')). cbv zeta beta iota.
    rewrite Hp. cbn [parse_digits fmap option_fmap option_map].
    change (- Z.of_N (N.pos p))%Z with (Z.neg p). by rewrite Hr.
Qed.

#[export] Instance itoa_inj : Inj (=) (=) itoa.
Proof. unfold itoa. apply _. Qed.

(** Splitting. *)

Lemma split_on_nonempty c s : split_on c s ≠ [].
Proof.
  induction s as [|a s IH]; simpl; [done|].
  destruct (Ascii.eqb a c); [done|]. by destruct (split_on c s).
Qed.

Lemma contains_char_app c a b : contains_char c (a +:+ b) = contains_char c a || contains_char c b.
Proof. induction a as [|x a IH]; [done|]. simpl. by rewrite IH, orb_assoc. Qed.

Lemma split_on_no_sep c s : contains_char c s = false → split_on c s = [s].
Proof.
  induction s as [|a s IH]; simpl; [done|]. intros [Ha Hs]%orb_false_iff.
  rewrite Ha. by rewrite (IH Hs).
Qed.

Lemma split_on_app c a b :
  contains_char c a = false → split_on c (a +:+ String c b) = a :: split_on c b.
Proof.
  induction a as [|x a IH]; simpl.
  - intros _. by rewrite Ascii.eqb_refl.
  - intros [Hx Ha]%orb_false_iff. rewrite Hx. by rewrite (IH Ha).
Qed.

Lemma join_cons_char sep a h t : join sep (String a h :: t) = String a (join sep (h :: t)).
Proof. unfold join. by destruct t. Qed.

Lemma join_split c s : join (String c "") (split_on c s) = s.
Proof.
  induction s as [|a s IH]; [done|]. cbn [split_on].
  pose proof (split_on_nonempty c s) as Hne.
  destruct (Ascii.eqb a c) eqn:E.
  - apply Ascii.eqb_eq in E as ->. destruct (split_on c s) as [|h t]; [done|].
    change (String c (join (String c "") (h :: t)) = String c s). by rewrite IH.
  - destruct (split_on c s) as [|h t]; [done|]. rewrite join_cons_char. by rewrite IH.
Qed.

Lemma trim_prefix_app p s : trim_prefix (p +:+ s) p = s.
Proof.
  unfold trim_prefix, has_prefix.
  assert (String.prefix p (p +:+ s) = true) as ->.
  { induction p as [|a p IH]; simpl; [by destruct s|]. by destruct (ascii_dec a a). }
  induction p as [|a p IH]; [done|]. apply IH.
Qed.

Lemma has_prefix_inv s p : has_prefix s p = true → ∃ x, s = p +:+ x.
Proof.
  unfold has_prefix. revert s. induction p as [|a p IH]; intros s H; [by exists s|].
  destruct s as [|b s]; simpl in H; [done|]. destruct (ascii_dec a b) as [->|]; [|done].
  destruct (IH s H) as [x ->]. by exists x.
Qed.

Lemma has_prefix_app p x : has_prefix (p +:+ x) p = true.
Proof. unfold has_prefix. induction p as [|a p IH]; simpl; [by destruct x|]. by destruct (ascii_dec a a). Qed.

Lemma length_append a b : String.length (a +:+ b) = (String.length a + String.length b)%nat.
Proof. induction a as [|x a IH]; simpl; [done|]. by rewrite IH. Qed.

Lemma append_assoc a b c : (a +:+ b) +:+ c = a +:+ (b +:+ c).
Proof. induction a as [|x a IH]; [done|]. exact (f_equal (String x) IH). Qed.

Lemma drop_str_append t p : drop_str (String.length t) (t +:+ p) = p.
Proof. induction t as [|a t IH]; [by destruct p|]. exact IH. Qed.

Lemma has_suffix_app a b : has_suffix (a +:+ b) b = true.
Proof.
  unfold has_suffix. rewrite length_append. apply andb_true_iff. split; [apply Nat.leb_le; lia|].
  replace (String.length a + String.length b - String.length b) with (String.length a) by lia.
  apply String.eqb_eq, drop_str_append.
Qed.

Lemma append_inj_r a b x : a +:+ x = b +:+ x → a = b.
Proof.
  revert b. induction a as [|c a IH]; intros [|d b] H; [done|..].
  - apply (f_equal String.length) in H. rewrite !length_append in H. simpl in H. lia.
  - apply (f_equal String.length) in H. rewrite !length_append in H. simpl in H. lia.
  - inversion H as [[Hc Hr]]. by rewrite (IH b).
Qed.

Lemma append_nil_r a : a +:+ "" = a.
Proof. induction a as [|c a IH]; [done|]. by rewrite <-IH at 2. Qed.

Lemma append_inj_l (a b c : string) : a +:+ b = a +:+ c → b = c.
Proof. induction a as [|x a IH]; simpl; [done|]. intros [= H]. by apply IH. Qed.
