(* ===== verification/K8s.v ===== *)
(** The Kubernetes API structs the source builds and reads, with the fields it
    touches. They are third-party types ([metav1], [corev1], [appsv1]): only
    their data is represented. A value the source copies without looking inside
    (affinity, tolerations, resource lists, ...) is [Opaque], its serialised
    form, with the empty string for the nil or zero value. Go's nil and empty slices and
    maps are both the empty list and the empty [gmap]. *)
From stdpp Require Import base gmap strings list.
From S2P Require Import Prelude GoStd.

Definition Opaque : Type := string.
Abbreviation StrMap := (gmap string string).

(** ** metav1 *)

Record NamespacedName := { nn_Namespace : string; nn_Name : string }.

Record OwnerReference := {
  or_APIVersion : string; or_Kind : string; or_Name : string; or_UID : string;
  or_Controller : option bool;
}.

Record TypeMeta := { tm_APIVersion : string; tm_Kind : string }.

(** [om_DeletionTimestamp] is a pointer to a [metav1.Time], in seconds of the
    Unix epoch. *)
Record ObjectMeta := {
  om_Name : string;
  om_GenerateName : string;
  om_Namespace : string;
  om_UID : string;
  om_ResourceVersion : string;
  om_Labels : gmap string string;
  om_Annotations : gmap string string;
  om_Finalizers : list string;
  om_DeletionTimestamp : option Z;
  om_OwnerReferences : list OwnerReference;
}.

Definition emptyMeta : ObjectMeta := {|
  om_Name := ""; om_GenerateName := ""; om_Namespace := ""; om_UID := "";
  om_ResourceVersion := ""; om_Labels := ∅; om_Annotations := ∅;
  om_Finalizers := []; om_DeletionTimestamp := None; om_OwnerReferences := [] |}.

(** Go's zero [time.Time], January 1 of year 1, in Unix seconds. *)
Definition zero_time : Z := -62135596800.

(** [metav1.Time.IsZero], true on the nil pointer. *)
Definition time_IsZero (t : option Z) : bool :=
  match t with None => true | Some z => Z.eqb z zero_time end.

Definition is_nil {A} (p : option A) : bool :=
  match p with None => true | Some _ => false end.

(** [m\[k\]] of a string map: the zero value when the key is missing. *)
Definition map_get (m : gmap string string) (k : string) : string := default "" (m !! k).

(** Field updates of the metadata. *)
Definition set_om_Name (n : string) (m : ObjectMeta) : ObjectMeta := {|
  om_Name := n; om_GenerateName := om_GenerateName m; om_Namespace := om_Namespace m;
  om_UID := om_UID m; om_ResourceVersion := om_ResourceVersion m;
  om_Labels := om_Labels m; om_Annotations := om_Annotations m;
  om_Finalizers := om_Finalizers m; om_DeletionTimestamp := om_DeletionTimestamp m;
  om_OwnerReferences := om_OwnerReferences m |}.
Definition set_om_ResourceVersion (v : string) (m : ObjectMeta) : ObjectMeta := {|
  om_Name := om_Name m; om_GenerateName := om_GenerateName m; om_Namespace := om_Namespace m;
  om_UID := om_UID m; om_ResourceVersion := v;
  om_Labels := om_Labels m; om_Annotations := om_Annotations m;
  om_Finalizers := om_Finalizers m; om_DeletionTimestamp := om_DeletionTimestamp m;
  om_OwnerReferences := om_OwnerReferences m |}.
Definition set_om_Labels (l : gmap string string) (m : ObjectMeta) : ObjectMeta := {|
  om_Name := om_Name m; om_GenerateName := om_GenerateName m; om_Namespace := om_Namespace m;
  om_UID := om_UID m; om_ResourceVersion := om_ResourceVersion m;
  om_Labels := l; om_Annotations := om_Annotations m;
  om_Finalizers := om_Finalizers m; om_DeletionTimestamp := om_DeletionTimestamp m;
  om_OwnerReferences := om_OwnerReferences m |}.
Definition set_om_Annotations (a : gmap string string) (m : ObjectMeta) : ObjectMeta := {|
  om_Name := om_Name m; om_GenerateName := om_GenerateName m; om_Namespace := om_Namespace m;
  om_UID := om_UID m; om_ResourceVersion := om_ResourceVersion m;
  om_Labels := om_Labels m; om_Annotations := a;
  om_Finalizers := om_Finalizers m; om_DeletionTimestamp := om_DeletionTimestamp m;
  om_OwnerReferences := om_OwnerReferences m |}.
Definition set_om_Finalizers (f : list string) (m : ObjectMeta) : ObjectMeta := {|
  om_Name := om_Name m; om_GenerateName := om_GenerateName m; om_Namespace := om_Namespace m;
  om_UID := om_UID m; om_ResourceVersion := om_ResourceVersion m;
  om_Labels := om_Labels m; om_Annotations := om_Annotations m;
  om_Finalizers := f; om_DeletionTimestamp := om_DeletionTimestamp m;
  om_OwnerReferences := om_OwnerReferences m |}.
Definition set_om_OwnerReferences (o : list OwnerReference) (m : ObjectMeta) : ObjectMeta := {|
  om_Name := om_Name m; om_GenerateName := om_GenerateName m; om_Namespace := om_Namespace m;
  om_UID := om_UID m; om_ResourceVersion := om_ResourceVersion m;
  om_Labels := om_Labels m; om_Annotations := om_Annotations m;
  om_Finalizers := om_Finalizers m; om_DeletionTimestamp := om_DeletionTimestamp m;
  om_OwnerReferences := o |}.

Record LabelSelectorRequirement := {
  lsr_Key : string; lsr_Operator : string; lsr_Values : list string;
}.

Record LabelSelector := {
  ls_MatchLabels : gmap string string;
  ls_MatchExpressions : list LabelSelectorRequirement;
}.

(** ** corev1 *)

Record SecretKeySelector := { sks_Name : string; sks_Key : string }.

Record ResourceRequirements := {
  rr_Limits : gmap string string; rr_Requests : gmap string string; rr_Claims : list string;
}.
Definition emptyResources : ResourceRequirements := {| rr_Limits := ∅; rr_Requests := ∅; rr_Claims := [] |}.

Record KeyToPath := { kp_Key : string; kp_Path : string }.

Record SecretVolumeSource := {
  svs_SecretName : string; svs_DefaultMode : option Z; svs_Items : list KeyToPath;
}.

(** The members of [corev1.VolumeSource] the source sets. *)
Inductive VolumeSource :=
  | VSEmptyDir (e : Opaque)
  | VSSecret (s : SecretVolumeSource)
  | VSConfigMap (name : string)
  | VSProjected (secrets : list string).

Record Volume := { vol_Name : string; vol_Source : VolumeSource }.

Record VolumeMount := {
  vm_Name : string; vm_ReadOnly : bool; vm_MountPath : string; vm_SubPath : string;
}.

Inductive EnvValue := EnvLiteral (v : string) | EnvFieldRef (path : string)
  | EnvSecretRef (s : SecretKeySelector).
Record EnvVar := { ev_Name : string; ev_Value : EnvValue }.

Record ContainerPort := { cp_Protocol : string; cp_Name : string; cp_ContainerPort : Z }.

Inductive ProbeHandler := HTTPGet (scheme path port : string) | TCPSocket (port : string).
Record Probe := {
  pr_InitialDelaySeconds : Z; pr_TimeoutSeconds : Z; pr_PeriodSeconds : Z;
  pr_SuccessThreshold : Z; pr_FailureThreshold : Z; pr_Handler : ProbeHandler;
}.

Record Container := {
  c_Name : string; c_Image : string; c_ImagePullPolicy : string;
  c_Command : list string; c_Args : list string;
  c_Resources : ResourceRequirements; c_Ports : list ContainerPort;
  c_Env : list EnvVar; c_VolumeMounts : list VolumeMount;
  c_LivenessProbe : option Probe; c_ReadinessProbe : option Probe;
}.

Record PodSpec := {
  ps_NodeSelector : gmap string string; ps_Tolerations : Opaque; ps_Affinity : Opaque;
  ps_SecurityContext : Opaque; ps_ImagePullSecrets : list string;
  ps_ServiceAccountName : string; ps_TerminationGracePeriodSeconds : option Z;
  ps_Volumes : list Volume; ps_InitContainers : list Container; ps_Containers : list Container;
}.

Record PodTemplateSpec := {
  pt_Labels : gmap string string; pt_Annotations : gmap string string; pt_Spec : PodSpec;
}.

Record PersistentVolumeClaim := {
  pvc_Meta : ObjectMeta; pvc_AccessModes : list string; pvc_Rest : Opaque;
}.

Record ServicePort := {
  sp_Protocol : string; sp_Name : string; sp_Port : Z; sp_TargetPort : Z; sp_NodePort : Z;
}.

Record CoreService := {
  svc_Meta : ObjectMeta; svc_Type : string; svc_Selector : gmap string string;
  svc_Ports : list ServicePort; svc_IPFamilies : list string; svc_IPFamilyPolicy : string;
  svc_ClusterIP : string; svc_ClusterIPs : list string;
}.

Record ConfigMap := { cm_Meta : ObjectMeta; cm_Data : gmap string string }.
(** [sec_StringData] is the write-only form of [sec_Data]. *)
Record Secret := {
  sec_Meta : ObjectMeta; sec_Data : gmap string string; sec_StringData : gmap string string;
}.
Record ServiceAccount := { sa_Meta : ObjectMeta; sa_Secrets : list string }.
Record Namespace := { ns_Meta : ObjectMeta }.

(** ** appsv1 *)

Record PVCRetentionPolicy := { rp_WhenDeleted : string; rp_WhenScaled : string }.

Record StatefulSet := {
  sts_Meta : ObjectMeta; sts_Replicas : option Z; sts_Selector : gmap string string;
  sts_ServiceName : string; sts_Template : PodTemplateSpec;
  sts_VolumeClaimTemplates : list PersistentVolumeClaim;
  sts_PVCRetentionPolicy : option PVCRetentionPolicy;
}.

Record Deployment := {
  dep_Meta : ObjectMeta; dep_Replicas : option Z; dep_Selector : gmap string string;
  dep_Template : PodTemplateSpec;
}.

(** ** Decidable equality *)

Ltac deq := solve_decision.
#[export] Instance NamespacedName_eq : EqDecision NamespacedName. Proof. deq. Defined.
#[export] Instance OwnerReference_eq : EqDecision OwnerReference. Proof. deq. Defined.
#[export] Instance ObjectMeta_eq : EqDecision ObjectMeta. Proof. deq. Defined.
#[export] Instance LSR_eq : EqDecision LabelSelectorRequirement. Proof. deq. Defined.
#[export] Instance LabelSelector_eq : EqDecision LabelSelector. Proof. deq. Defined.
#[export] Instance SecretKeySelector_eq : EqDecision SecretKeySelector. Proof. deq. Defined.
#[export] Instance Resources_eq : EqDecision ResourceRequirements. Proof. deq. Defined.
#[export] Instance KeyToPath_eq : EqDecision KeyToPath. Proof. deq. Defined.
#[export] Instance SecretVolumeSource_eq : EqDecision SecretVolumeSource. Proof. deq. Defined.
#[export] Instance VolumeSource_eq : EqDecision VolumeSource. Proof. deq. Defined.
#[export] Instance Volume_eq : EqDecision Volume. Proof. deq. Defined.
#[export] Instance VolumeMount_eq : EqDecision VolumeMount. Proof. deq. Defined.
#[export] Instance EnvValue_eq : EqDecision EnvValue. Proof. deq. Defined.
#[export] Instance EnvVar_eq : EqDecision EnvVar. Proof. deq. Defined.
#[export] Instance ContainerPort_eq : EqDecision ContainerPort. Proof. deq. Defined.
#[export] Instance ProbeHandler_eq : EqDecision ProbeHandler. Proof. deq. Defined.
#[export] Instance Probe_eq : EqDecision Probe. Proof. deq. Defined.
#[export] Instance Container_eq : EqDecision Container. Proof. deq. Defined.
#[export] Instance PodSpec_eq : EqDecision PodSpec. Proof. deq. Defined.
#[export] Instance PodTemplateSpec_eq : EqDecision PodTemplateSpec. Proof. deq. Defined.
#[export] Instance PVC_eq : EqDecision PersistentVolumeClaim. Proof. deq. Defined.
#[export] Instance ServicePort_eq : EqDecision ServicePort. Proof. deq. Defined.
#[export] Instance CoreService_eq : EqDecision CoreService. Proof. deq. Defined.
#[export] Instance ConfigMap_eq : EqDecision ConfigMap. Proof. deq. Defined.
#[export] Instance Secret_eq : EqDecision Secret. Proof. deq. Defined.
#[export] Instance ServiceAccount_eq : EqDecision ServiceAccount. Proof. deq. Defined.
#[export] Instance Namespace_eq : EqDecision Namespace. Proof. deq. Defined.
#[export] Instance PVCRetentionPolicy_eq : EqDecision PVCRetentionPolicy. Proof. deq. Defined.
#[export] Instance StatefulSet_eq : EqDecision StatefulSet. Proof. deq. Defined.
#[export] Instance Deployment_eq : EqDecision Deployment. Proof. deq. Defined.

(** ** prometheus-operator's PrometheusRule *)

Record RuleGroup := { rg_Name : string; rg_Body : Opaque }.
Record PrometheusRuleSpec := { prs_Groups : list RuleGroup }.
Record PrometheusRule := { prule_Meta : ObjectMeta; prule_Spec : PrometheusRuleSpec }.

#[export] Instance TypeMeta_eq : EqDecision TypeMeta. Proof. deq. Defined.
#[export] Instance RuleGroup_eq : EqDecision RuleGroup. Proof. deq. Defined.
#[export] Instance PrometheusRuleSpec_eq : EqDecision PrometheusRuleSpec. Proof. deq. Defined.
#[export] Instance PrometheusRule_eq : EqDecision PrometheusRule. Proof. deq. Defined.
