(* ===== verification/Api.v ===== *)
(** The data of [pkg/api/monitoring/v1alpha1] (the custom resources, one record
    per struct, field for field) and the constants of [pkg/constants] the
    modelled code uses. *)
From stdpp Require Import base gmap strings list.
From S2P Require Import Prelude GoStd K8s.

(** ** pkg/constants *)

Definition DefaultTenantHeader : string := "WHIZARD-TENANT".
Definition DefaultTenantId : string := "default-tenant".
Definition DefaultTenantLabelName : string := "tenant_id".
Definition ServiceLabelKey : string := "monitoring.whizard.io/service".
Definition StorageLabelKey : string := "monitoring.whizard.io/storage".
Definition TenantLabelKey : string := "monitoring.whizard.io/tenant".
Definition ExclusiveLabelKey : string := "monitoring.whizard.io/exclusive".
Definition SoftTenantLabelKey : string := "monitoring.whizard.io/soft-tenant".
Definition FinalizerIngester : string := "finalizers.monitoring.whizard.io/ingester".
Definition FinalizerCompactor : string := "finalizers.monitoring.whizard.io/compactor".
Definition FinalizerDeletePVC : string := "finalizers.monitoring.whizard.io/deletePVC".
Definition DefaultStorage : string := "default".
Definition LocalStorage : string := "local".
Definition ReceiveReplicaLabelName : string := "receive_replica".
Definition RulerReplicaLabelName : string := "ruler_replica".
Definition AppNameGateway : string := "gateway".
Definition AppNameQuery : string := "query".
Definition AppNameQueryFrontend : string := "query-frontend".
Definition AppNameRouter : string := "router".
Definition AppNameIngester : string := "ingester".
Definition AppNameRuler : string := "ruler".
Definition AppNameStore : string := "store".
Definition AppNameCompactor : string := "compactor".
Definition AppNameStorage : string := "storage".
Definition AppNameBlockManager : string := "block-manager".
Definition ServiceNameSuffix : string := "operated".
Definition LabelNameAppName : string := "app.kubernetes.io/name".
Definition LabelNameAppManagedBy : string := "app.kubernetes.io/managed-by".
Definition LabelNameIngesterState : string := "monitoring.whizard.io/ingester-state".
Definition LabelNameIngesterDeletingTime : string := "monitoring.whizard.io/ingester-deleting-time".
Definition LabelNameStorePartition : string := "monitoring.whizard.io/store-partition".
Definition LabelNameRulerShardSn : string := "monitoring.whizard.io/ruler-shard-sn".
Definition LabelNameStorageHash : string := "monitoring.whizard.io/storage-hash".
Definition LabelNameTenantHash : string := "monitoring.whizard.io/tenant-hash".
Definition LabelNameConfigHash : string := "monitoring.whizard.io/config-hash".
Definition TenantHash : string := "TENANT_HASH".
Definition StorageHash : string := "STORAGE_HASH".
Definition IngesterStateDeleting : string := "deleting".
Definition IngesterStateRunning : string := "running".
Definition ConfigPath : string := "/etc/whizard/".
Definition StorageDir : string := "/whizard".
Definition TSDBVolumeName : string := "tsdb".
Definition WhizardConfigMountPath : string := "/etc/whizard/config/".
Definition WhizardWebConfigMountPath : string := "/etc/whizard/web_config/".
Definition WhizardWebConfigFile : string := "web-config.yaml".
Definition WhizardCertsMountPath : string := "/etc/whizard/certs/".
Definition EnvoyConfigMountPath : string := "/etc/envoy/config/".
Definition EnvoyCertsMountPath : string := "/etc/envoy/certs/".
Definition EnvoyConfigMapMountPath : string := "/etc/envoy/configmap/".
Definition EnvoySecretMountPath : string := "/etc/envoy/secret/".
Definition StorageProviderS3 : string := "S3".
Definition DefaultWhizardBaseImage : string := "docker.io/thanosio/thanos:v0.38.0".
Definition DefaultPrometheusConfigReloaderImage : string :=
  "quay.io/prometheus-operator/prometheus-config-reloader:v0.81.0".
Definition DefaultEnvoyImage : string := "docker.io/envoyproxy/envoy:v1.20.2".
Definition DefaultRulerWriteProxyImage : string := "docker.io/kubesphere/cortex-tenant:v1.12.5".
Definition DefaultIngesterTSDBCleanupImage : string := "bash:5.1.16".
Definition GRPCPortName : string := "grpc".
Definition GRPCPort : Z := 10901.
Definition HTTPPortName : string := "http".
Definition HTTPPort : Z := 10902.
Definition RemoteWritePortName : string := "remote-write".
Definition RemoteWritePort : Z := 19291.
Definition CapNProtoPortName : string := "capnproto".
Definition CapNProtoPort : Z := 19391.

(** The resource presets; a [resource.Quantity] is its canonical text. *)
Definition resourceList (cpu memory : string) : gmap string string :=
  <["cpu" := cpu]> (<["memory" := memory]> ∅).
Definition ComponentResourcePresetMedium : ResourceRequirements := {|
  rr_Requests := resourceList "50m" "64Mi"; rr_Limits := resourceList "2" "4Gi"; rr_Claims := [] |}.
Definition ComponentResourcePresetLarge : ResourceRequirements := {|
  rr_Requests := resourceList "50m" "64Mi"; rr_Limits := resourceList "4" "16Gi"; rr_Claims := [] |}.
Definition ComponentResourcePresetSmall : ResourceRequirements := {|
  rr_Requests := resourceList "50m" "64Mi"; rr_Limits := resourceList "500m" "512Mi"; rr_Claims := [] |}.

(** ** types.go *)

Record EmbeddedObjectMetadata := {
  em_Name : string; em_Labels : gmap string string; em_Annotations : gmap string string;
}.

Record CommonSpec := {
  Replicas : option Z;
  Image : string;
  ImagePullPolicy : string;
  Resources : ResourceRequirements;
  LogLevel : string;
  LogFormat : string;
  Flags : list string;
  PodMetadata : option EmbeddedObjectMetadata;
  ConfigMaps : list string;
  Secrets : list string;
  Containers : string;                     (* the raw JSON of the extension *)
  EmbeddedContainers : list Container;
  ImagePullSecrets : list string;
  SecurityContext : Opaque;
  Affinity : Opaque;
  NodeSelector : gmap string string;
  Tolerations : Opaque;
}.

Record KubernetesVolume := {
  kv_EmptyDir : option Opaque;
  kv_PersistentVolumeClaim : option PersistentVolumeClaim;
  kv_PersistentVolumeClaimRetentionPolicy : option PVCRetentionPolicy;
}.

Record SidecarSpec := { sc_Image : string; sc_Resources : ResourceRequirements }.

Record ObjectReference := { ref_Namespace : string; ref_Name : string }.

Record BasicAuth := { ba_Username : SecretKeySelector; ba_Password : SecretKeySelector }.

Record HTTPServerTLSConfig := {
  KeySecret : SecretKeySelector; CertSecret : SecretKeySelector; ClientCASecret : SecretKeySelector;
}.

(** [HTTPServerConfig] is an empty struct behind a pointer. *)
Record WebConfig := {
  wc_HTTPServerTLSConfig : option HTTPServerTLSConfig;
  wc_HTTPServerConfig : option unit;
  wc_BasicAuthUsers : list BasicAuth;
}.

Record HTTPClientConfig := { hc_BasicAuth : BasicAuth; hc_BearerToken : string }.

(** ** components_types.go *)

Record Retention := { RetentionRaw : string; Retention5m : string; Retention1h : string }.

Record CompactorSpec := {
  csp_Tenants : list string; csp_DisableDownsampling : option bool;
  csp_Retention : option Retention; csp_DataVolume : option KubernetesVolume;
  csp_Common : CommonSpec;
}.

Record Compactor := { cmp_Type : TypeMeta; cmp_Meta : ObjectMeta; cmp_Spec : CompactorSpec }.

Record GatewaySpec := {
  gsp_WebConfig : option WebConfig; gsp_DebugMode : bool; gsp_EnabledTenantsAdmission : bool;
  gsp_NodePort : Z; gsp_Common : CommonSpec;
}.

Record Gateway := { gw_Type : TypeMeta; gw_Meta : ObjectMeta; gw_Spec : GatewaySpec }.

Record IngesterSpec := {
  isp_Tenants : list string; isp_OtlpEnableTargetInfo : option bool;
  isp_OtlpResourceAttributes : list string; isp_LocalTsdbRetention : string;
  isp_DataVolume : option KubernetesVolume; isp_Common : CommonSpec;
  isp_IngesterTSDBCleanUp : SidecarSpec;
}.

Record IngesterTenantStatus := { its_Name : string; its_Obsolete : bool }.

Record IngesterStatus := { is_Tenants : list IngesterTenantStatus }.

Record Ingester := {
  ig_Type : TypeMeta; ig_Meta : ObjectMeta; ig_Spec : IngesterSpec; ig_Status : IngesterStatus;
}.

Record QueryStores := { qs_Addresses : list string; qs_CASecret : option SecretKeySelector }.

Record QuerySpec := {
  qsp_PromqlEngine : string; qsp_SelectorLabels : gmap string string;
  qsp_ReplicaLabelNames : list string; qsp_WebConfig : option WebConfig;
  qsp_Stores : list QueryStores; qsp_Envoy : SidecarSpec; qsp_Common : CommonSpec;
}.

Record Query := { q_Type : TypeMeta; q_Meta : ObjectMeta; q_Spec : QuerySpec }.

(** [Validity] is a [time.Duration], in nanoseconds. *)
Record InMemoryResponseCacheConfig := {
  MaxSize : string; MaxSizeItems : Z; Validity : Z;
}.

Record ResponseCacheProviderConfig := {
  rc_Type : string; rc_InMemory : option InMemoryResponseCacheConfig;
}.

Record QueryFrontendSpec := {
  qfs_CacheConfig : option ResponseCacheProviderConfig; qfs_WebConfig : option WebConfig;
  qfs_Common : CommonSpec;
}.

Record QueryFrontend := { qf_Type : TypeMeta; qf_Meta : ObjectMeta; qf_Spec : QueryFrontendSpec }.

Record RouterSpec := {
  rsp_ReplicationFactor : option Z; rsp_ReplicationProtocol : string;
  rsp_WebConfig : option WebConfig; rsp_Common : CommonSpec;
}.

Record Router := { rt_Type : TypeMeta; rt_Meta : ObjectMeta; rt_Spec : RouterSpec }.

Record RulerSpec := {
  rls_RuleSelectors : list LabelSelector; rls_RuleNamespaceSelector : option LabelSelector;
  rls_Shards : option Z; rls_Tenant : string;
  rls_QueryConfig : option SecretKeySelector; rls_RemoteWriteConfig : option SecretKeySelector;
  rls_Labels : gmap string string; rls_AlertDropLabels : list string;
  rls_AlertmanagersURL : list string; rls_AlertmanagersConfig : option SecretKeySelector;
  rls_EvaluationInterval : string; rls_DataVolume : option KubernetesVolume;
  rls_RulerQueryProxy : SidecarSpec; rls_RulerWriteProxy : SidecarSpec;
  rls_PrometheusConfigReloader : SidecarSpec; rls_Common : CommonSpec;
}.

Record Ruler := { rl_Type : TypeMeta; rl_Meta : ObjectMeta; rl_Spec : RulerSpec }.

Record TimeRange := { tr_MinTime : string; tr_MaxTime : string }.

(** The embedded pointer [*InMemoryIndexCacheConfig] and its [MaxSize]. *)
Record IndexCacheConfig := { ic_InMemoryMaxSize : option string }.

Record StoreSpec := {
  ssp_MinTime : string; ssp_MaxTime : string; ssp_TimeRanges : list TimeRange;
  ssp_IndexCacheConfig : option IndexCacheConfig; ssp_DataVolume : option KubernetesVolume;
  ssp_Common : CommonSpec;
}.

Record Store := { st_Type : TypeMeta; st_Meta : ObjectMeta; st_Spec : StoreSpec }.

(** ** tenant_types.go *)

Record TenantSpec := { tsp_Tenant : string }.

Record TenantStatus := {
  tst_Ruler : option ObjectReference; tst_Compactor : option ObjectReference;
  tst_Ingester : option ObjectReference;
}.

Record Tenant := {
  tn_Type : TypeMeta; tn_Meta : ObjectMeta; tn_Spec : TenantSpec; tn_Status : TenantStatus;
}.

(** ** storage_types.go *)

Record BlockGC := {
  gc_Enable : option bool; gc_Resources : ResourceRequirements; gc_Image : string;
  gc_ImagePullPolicy : string; gc_GCInterval : option Z; gc_CleanupTimeout : option Z;
  gc_DefaultTenantId : string; gc_TenantLabelName : string;
}.

Record BlockManagerSpec := {
  bm_Enable : option bool; bm_Common : CommonSpec; bm_ServiceAccountName : string;
  bm_NodePort : Z; bm_BlockSyncInterval : option Z; bm_GC : option BlockGC;
}.

Record S3SSEConfig := {
  sse_Type : string; sse_KMSKeyID : string;
  sse_KMSEncryptionContext : gmap string string; sse_EncryptionKey : string;
}.

Record TLSConfig := {
  tls_CA : option SecretKeySelector; tls_Cert : option SecretKeySelector;
  tls_Key : option SecretKeySelector; tls_ServerName : string; tls_InsecureSkipVerify : bool;
}.

Record S3HTTPConfig := {
  h_IdleConnTimeout : Z; h_ResponseHeaderTimeout : Z; h_InsecureSkipVerify : bool;
  h_TLSHandshakeTimeout : Z; h_ExpectContinueTimeout : Z; h_MaxIdleConns : Z;
  h_MaxIdleConnsPerHost : Z; h_MaxConnsPerHost : Z; h_TLSConfig : TLSConfig;
  h_DisableCompression : bool;
}.

Record S3 := {
  s3_Bucket : string; s3_Endpoint : string; s3_Region : string; s3_DisableDualstack : bool;
  s3_AWSSDKAuth : bool; s3_AccessKey : option SecretKeySelector; s3_Insecure : bool;
  s3_SignatureV2 : bool; s3_SecretKey : option SecretKeySelector;
  s3_PutUserMetadata : gmap string string; s3_HTTPConfig : S3HTTPConfig; s3_Trace : bool;
  s3_ListObjectsVersion : string; s3_SendContentMd5 : bool; s3_DisableMultipart : bool;
  s3_PartSize : Z; s3_SSEConfig : S3SSEConfig; s3_STSEndpoint : string;
}.

Record StorageSpec := { sto_BlockManager : option BlockManagerSpec; sto_S3 : option S3 }.

Record Storage := { stg_Type : TypeMeta; stg_Meta : ObjectMeta; stg_Spec : StorageSpec }.

(** ** service_types.go *)

Record RemoteQuerySpec := { rq_Name : string; rq_URL : string; rq_HTTPClientConfig : HTTPClientConfig }.

Record RemoteWriteSpec := {
  rw_Name : string; rw_URL : string; rw_Headers : gmap string string; rw_RemoteTimeout : string;
  rw_HTTPClientConfig : HTTPClientConfig;
}.

Record CompactorTemplateSpec := { ct_Spec : CompactorSpec; DefaultTenantsPerCompactor : Z }.

Record IngesterTemplateSpec := {
  it_Spec : IngesterSpec; DefaultTenantsPerIngester : Z;
  DefaultIngesterRetentionPeriod : string; DisableTSDBCleanup : option bool;
}.

Record RulerTemplateSpec := { rlt_Spec : RulerSpec; DisableAlertingRulesAutoSelection : option bool }.

Record ServiceSpec := {
  sv_TenantHeader : string; sv_DefaultTenantId : string; sv_TenantLabelName : string;
  sv_Storage : option ObjectReference; sv_RemoteWrites : list RemoteWriteSpec;
  sv_RemoteQuery : option RemoteQuerySpec;
  GatewayTemplateSpec : GatewaySpec; QueryFrontendTemplateSpec : QueryFrontendSpec;
  QueryTemplateSpec : QuerySpec; sv_RulerTemplateSpec : RulerTemplateSpec;
  RouterTemplateSpec : RouterSpec; sv_IngesterTemplateSpec : IngesterTemplateSpec;
  StoreTemplateSpec : StoreSpec; sv_CompactorTemplateSpec : CompactorTemplateSpec;
}.

Record Service := { sv_Type : TypeMeta; sv_Meta : ObjectMeta; sv_Spec : ServiceSpec }.

(** ** Decidable equality *)

#[export] Instance EmbeddedObjectMetadata_eq : EqDecision EmbeddedObjectMetadata. Proof. deq. Defined.
#[export] Instance CommonSpec_eq : EqDecision CommonSpec. Proof. deq. Defined.
#[export] Instance KubernetesVolume_eq : EqDecision KubernetesVolume. Proof. deq. Defined.
#[export] Instance SidecarSpec_eq : EqDecision SidecarSpec. Proof. deq. Defined.
#[export] Instance ObjectReference_eq : EqDecision ObjectReference. Proof. deq. Defined.
#[export] Instance BasicAuth_eq : EqDecision BasicAuth. Proof. deq. Defined.
#[export] Instance HTTPServerTLSConfig_eq : EqDecision HTTPServerTLSConfig. Proof. deq. Defined.
#[export] Instance WebConfig_eq : EqDecision WebConfig. Proof. deq. Defined.
#[export] Instance HTTPClientConfig_eq : EqDecision HTTPClientConfig. Proof. deq. Defined.
#[export] Instance Retention_eq : EqDecision Retention. Proof. deq. Defined.
#[export] Instance CompactorSpec_eq : EqDecision CompactorSpec. Proof. deq. Defined.
#[export] Instance Compactor_eq : EqDecision Compactor. Proof. deq. Defined.
#[export] Instance GatewaySpec_eq : EqDecision GatewaySpec. Proof. deq. Defined.
#[export] Instance Gateway_eq : EqDecision Gateway. Proof. deq. Defined.
#[export] Instance IngesterSpec_eq : EqDecision IngesterSpec. Proof. deq. Defined.
#[export] Instance IngesterTenantStatus_eq : EqDecision IngesterTenantStatus. Proof. deq. Defined.
#[export] Instance IngesterStatus_eq : EqDecision IngesterStatus. Proof. deq. Defined.
#[export] Instance Ingester_eq : EqDecision Ingester. Proof. deq. Defined.
#[export] Instance QueryStores_eq : EqDecision QueryStores. Proof. deq. Defined.
#[export] Instance QuerySpec_eq : EqDecision QuerySpec. Proof. deq. Defined.
#[export] Instance Query_eq : EqDecision Query. Proof. deq. Defined.
#[export] Instance InMemoryCache_eq : EqDecision InMemoryResponseCacheConfig. Proof. deq. Defined.
#[export] Instance ResponseCache_eq : EqDecision ResponseCacheProviderConfig. Proof. deq. Defined.
#[export] Instance QueryFrontendSpec_eq : EqDecision QueryFrontendSpec. Proof. deq. Defined.
#[export] Instance QueryFrontend_eq : EqDecision QueryFrontend. Proof. deq. Defined.
#[export] Instance RouterSpec_eq : EqDecision RouterSpec. Proof. deq. Defined.
#[export] Instance Router_eq : EqDecision Router. Proof. deq. Defined.
#[export] Instance RulerSpec_eq : EqDecision RulerSpec. Proof. deq. Defined.
#[export] Instance Ruler_eq : EqDecision Ruler. Proof. deq. Defined.
#[export] Instance TimeRange_eq : EqDecision TimeRange. Proof. deq. Defined.
#[export] Instance IndexCacheConfig_eq : EqDecision IndexCacheConfig. Proof. deq. Defined.
#[export] Instance StoreSpec_eq : EqDecision StoreSpec. Proof. deq. Defined.
#[export] Instance Store_eq : EqDecision Store. Proof. deq. Defined.
#[export] Instance TenantSpec_eq : EqDecision TenantSpec. Proof. deq. Defined.
#[export] Instance TenantStatus_eq : EqDecision TenantStatus. Proof. deq. Defined.
#[export] Instance Tenant_eq : EqDecision Tenant. Proof. deq. Defined.
#[export] Instance BlockGC_eq : EqDecision BlockGC. Proof. deq. Defined.
#[export] Instance BlockManagerSpec_eq : EqDecision BlockManagerSpec. Proof. deq. Defined.
#[export] Instance S3SSEConfig_eq : EqDecision S3SSEConfig. Proof. deq. Defined.
#[export] Instance TLSConfig_eq : EqDecision TLSConfig. Proof. deq. Defined.
#[export] Instance S3HTTPConfig_eq : EqDecision S3HTTPConfig. Proof. deq. Defined.
#[export] Instance S3_eq : EqDecision S3. Proof. deq. Defined.
#[export] Instance StorageSpec_eq : EqDecision StorageSpec. Proof. deq. Defined.
#[export] Instance Storage_eq : EqDecision Storage. Proof. deq. Defined.
#[export] Instance RemoteQuerySpec_eq : EqDecision RemoteQuerySpec. Proof. deq. Defined.
#[export] Instance RemoteWriteSpec_eq : EqDecision RemoteWriteSpec. Proof. deq. Defined.
#[export] Instance CompactorTemplateSpec_eq : EqDecision CompactorTemplateSpec. Proof. deq. Defined.
#[export] Instance IngesterTemplateSpec_eq : EqDecision IngesterTemplateSpec. Proof. deq. Defined.
#[export] Instance RulerTemplateSpec_eq : EqDecision RulerTemplateSpec. Proof. deq. Defined.
#[export] Instance ServiceSpec_eq : EqDecision ServiceSpec. Proof. deq. Defined.
#[export] Instance Service_eq : EqDecision Service. Proof. deq. Defined.
