(* ===== verification/Objects.v ===== *)
(** The objects the Kubernetes client handles: the sum of the API types, their
    kinds, and the [Resource] interface that ties a Go type to its kind. *)
From stdpp Require Import base gmap strings list.
From S2P Require Import Prelude GoStd K8s Api.

Inductive Kind :=
  | KTenant
  | KIngester
  | KCompactor
  | KRuler
  | KStore
  | KService
  | KStorage
  | KGateway
  | KQuery
  | KQueryFrontend
  | KRouter
  | KSecret
  | KConfigMap
  | KCoreService
  | KServiceAccount
  | KStatefulSet
  | KDeployment
  | KPVC
  | KNamespace
  | KPrometheusRule.

Inductive Object :=
  | OTenant (o : Tenant)
  | OIngester (o : Ingester)
  | OCompactor (o : Compactor)
  | ORuler (o : Ruler)
  | OStore (o : Store)
  | OService (o : Service)
  | OStorage (o : Storage)
  | OGateway (o : Gateway)
  | OQuery (o : Query)
  | OQueryFrontend (o : QueryFrontend)
  | ORouter (o : Router)
  | OSecret (o : Secret)
  | OConfigMap (o : ConfigMap)
  | OCoreService (o : CoreService)
  | OServiceAccount (o : ServiceAccount)
  | OStatefulSet (o : StatefulSet)
  | ODeployment (o : Deployment)
  | OPVC (o : PersistentVolumeClaim)
  | ONamespace (o : Namespace)
  | OPrometheusRule (o : PrometheusRule).

#[export] Instance Kind_eq : EqDecision Kind. Proof. deq. Defined.
#[export] Instance Object_eq : EqDecision Object. Proof. deq. Defined.

Definition obj_kind (o : Object) : Kind :=
  match o with
  | OTenant _ => KTenant
  | OIngester _ => KIngester
  | OCompactor _ => KCompactor
  | ORuler _ => KRuler
  | OStore _ => KStore
  | OService _ => KService
  | OStorage _ => KStorage
  | OGateway _ => KGateway
  | OQuery _ => KQuery
  | OQueryFrontend _ => KQueryFrontend
  | ORouter _ => KRouter
  | OSecret _ => KSecret
  | OConfigMap _ => KConfigMap
  | OCoreService _ => KCoreService
  | OServiceAccount _ => KServiceAccount
  | OStatefulSet _ => KStatefulSet
  | ODeployment _ => KDeployment
  | OPVC _ => KPVC
  | ONamespace _ => KNamespace
  | OPrometheusRule _ => KPrometheusRule
  end.

Definition obj_meta (o : Object) : ObjectMeta :=
  match o with
  | OTenant o => tn_Meta o
  | OIngester o => ig_Meta o
  | OCompactor o => cmp_Meta o
  | ORuler o => rl_Meta o
  | OStore o => st_Meta o
  | OService o => sv_Meta o
  | OStorage o => stg_Meta o
  | OGateway o => gw_Meta o
  | OQuery o => q_Meta o
  | OQueryFrontend o => qf_Meta o
  | ORouter o => rt_Meta o
  | OSecret o => sec_Meta o
  | OConfigMap o => cm_Meta o
  | OCoreService o => svc_Meta o
  | OServiceAccount o => sa_Meta o
  | OStatefulSet o => sts_Meta o
  | ODeployment o => dep_Meta o
  | OPVC o => pvc_Meta o
  | ONamespace o => ns_Meta o
  | OPrometheusRule o => prule_Meta o
  end.

(** Replacing the metadata of a typed object. *)
Definition set_tn_Meta (m : ObjectMeta) (o : Tenant) : Tenant :=
  {| tn_Type := tn_Type o; tn_Meta := m; tn_Spec := tn_Spec o; tn_Status := tn_Status o |}.
Definition set_ig_Meta (m : ObjectMeta) (o : Ingester) : Ingester :=
  {| ig_Type := ig_Type o; ig_Meta := m; ig_Spec := ig_Spec o; ig_Status := ig_Status o |}.
Definition set_cmp_Meta (m : ObjectMeta) (o : Compactor) : Compactor :=
  {| cmp_Type := cmp_Type o; cmp_Meta := m; cmp_Spec := cmp_Spec o |}.
Definition set_rl_Meta (m : ObjectMeta) (o : Ruler) : Ruler :=
  {| rl_Type := rl_Type o; rl_Meta := m; rl_Spec := rl_Spec o |}.
Definition set_st_Meta (m : ObjectMeta) (o : Store) : Store :=
  {| st_Type := st_Type o; st_Meta := m; st_Spec := st_Spec o |}.
Definition set_sv_Meta (m : ObjectMeta) (o : Service) : Service :=
  {| sv_Type := sv_Type o; sv_Meta := m; sv_Spec := sv_Spec o |}.
Definition set_stg_Meta (m : ObjectMeta) (o : Storage) : Storage :=
  {| stg_Type := stg_Type o; stg_Meta := m; stg_Spec := stg_Spec o |}.
Definition set_gw_Meta (m : ObjectMeta) (o : Gateway) : Gateway :=
  {| gw_Type := gw_Type o; gw_Meta := m; gw_Spec := gw_Spec o |}.
Definition set_q_Meta (m : ObjectMeta) (o : Query) : Query :=
  {| q_Type := q_Type o; q_Meta := m; q_Spec := q_Spec o |}.
Definition set_qf_Meta (m : ObjectMeta) (o : QueryFrontend) : QueryFrontend :=
  {| qf_Type := qf_Type o; qf_Meta := m; qf_Spec := qf_Spec o |}.
Definition set_rt_Meta (m : ObjectMeta) (o : Router) : Router :=
  {| rt_Type := rt_Type o; rt_Meta := m; rt_Spec := rt_Spec o |}.
Definition set_sec_Meta (m : ObjectMeta) (o : Secret) : Secret :=
  {| sec_Meta := m; sec_Data := sec_Data o; sec_StringData := sec_StringData o |}.
Definition set_cm_Meta (m : ObjectMeta) (o : ConfigMap) : ConfigMap :=
  {| cm_Meta := m; cm_Data := cm_Data o |}.
Definition set_svc_Meta (m : ObjectMeta) (o : CoreService) : CoreService :=
  {| svc_Meta := m; svc_Type := svc_Type o; svc_Selector := svc_Selector o; svc_Ports := svc_Ports o; svc_IPFamilies := svc_IPFamilies o; svc_IPFamilyPolicy := svc_IPFamilyPolicy o; svc_ClusterIP := svc_ClusterIP o; svc_ClusterIPs := svc_ClusterIPs o |}.
Definition set_sa_Meta (m : ObjectMeta) (o : ServiceAccount) : ServiceAccount :=
  {| sa_Meta := m; sa_Secrets := sa_Secrets o |}.
Definition set_sts_Meta (m : ObjectMeta) (o : StatefulSet) : StatefulSet :=
  {| sts_Meta := m; sts_Replicas := sts_Replicas o; sts_Selector := sts_Selector o; sts_ServiceName := sts_ServiceName o; sts_Template := sts_Template o; sts_VolumeClaimTemplates := sts_VolumeClaimTemplates o; sts_PVCRetentionPolicy := sts_PVCRetentionPolicy o |}.
Definition set_dep_Meta (m : ObjectMeta) (o : Deployment) : Deployment :=
  {| dep_Meta := m; dep_Replicas := dep_Replicas o; dep_Selector := dep_Selector o; dep_Template := dep_Template o |}.
Definition set_pvc_Meta (m : ObjectMeta) (o : PersistentVolumeClaim) : PersistentVolumeClaim :=
  {| pvc_Meta := m; pvc_AccessModes := pvc_AccessModes o; pvc_Rest := pvc_Rest o |}.
Definition set_ns_Meta (m : ObjectMeta) (o : Namespace) : Namespace :=
  {| ns_Meta := m |}.
Definition set_prule_Meta (m : ObjectMeta) (o : PrometheusRule) : PrometheusRule :=
  {| prule_Meta := m; prule_Spec := prule_Spec o |}.

Definition obj_set_meta (m : ObjectMeta) (o : Object) : Object :=
  match o with
  | OTenant o => OTenant (set_tn_Meta m o)
  | OIngester o => OIngester (set_ig_Meta m o)
  | OCompactor o => OCompactor (set_cmp_Meta m o)
  | ORuler o => ORuler (set_rl_Meta m o)
  | OStore o => OStore (set_st_Meta m o)
  | OService o => OService (set_sv_Meta m o)
  | OStorage o => OStorage (set_stg_Meta m o)
  | OGateway o => OGateway (set_gw_Meta m o)
  | OQuery o => OQuery (set_q_Meta m o)
  | OQueryFrontend o => OQueryFrontend (set_qf_Meta m o)
  | ORouter o => ORouter (set_rt_Meta m o)
  | OSecret o => OSecret (set_sec_Meta m o)
  | OConfigMap o => OConfigMap (set_cm_Meta m o)
  | OCoreService o => OCoreService (set_svc_Meta m o)
  | OServiceAccount o => OServiceAccount (set_sa_Meta m o)
  | OStatefulSet o => OStatefulSet (set_sts_Meta m o)
  | ODeployment o => ODeployment (set_dep_Meta m o)
  | OPVC o => OPVC (set_pvc_Meta m o)
  | ONamespace o => ONamespace (set_ns_Meta m o)
  | OPrometheusRule o => OPrometheusRule (set_prule_Meta m o)
  end.

(** A Go type that the client stores: its kind and its place in [Object]. *)
Class Resource (A : Type) := {
  r_kind : Kind;
  r_obj : A → Object;
  r_of : Object → option A;
  r_of_obj a : r_of (r_obj a) = Some a;
  r_obj_kind a : obj_kind (r_obj a) = r_kind;
}.

#[export] Program Instance Tenant_resource : Resource Tenant := {
  r_kind := KTenant; r_obj := OTenant; r_of o := match o with OTenant x => Some x | _ => None end }.
Solve All Obligations with done.
#[export] Program Instance Ingester_resource : Resource Ingester := {
  r_kind := KIngester; r_obj := OIngester; r_of o := match o with OIngester x => Some x | _ => None end }.
Solve All Obligations with done.
#[export] Program Instance Compactor_resource : Resource Compactor := {
  r_kind := KCompactor; r_obj := OCompactor; r_of o := match o with OCompactor x => Some x | _ => None end }.
Solve All Obligations with done.
#[export] Program Instance Ruler_resource : Resource Ruler := {
  r_kind := KRuler; r_obj := ORuler; r_of o := match o with ORuler x => Some x | _ => None end }.
Solve All Obligations with done.
#[export] Program Instance Store_resource : Resource Store := {
  r_kind := KStore; r_obj := OStore; r_of o := match o with OStore x => Some x | _ => None end }.
Solve All Obligations with done.
#[export] Program Instance Service_resource : Resource Service := {
  r_kind := KService; r_obj := OService; r_of o := match o with OService x => Some x | _ => None end }.
Solve All Obligations with done.
#[export] Program Instance Storage_resource : Resource Storage := {
  r_kind := KStorage; r_obj := OStorage; r_of o := match o with OStorage x => Some x | _ => None end }.
Solve All Obligations with done.
#[export] Program Instance Gateway_resource : Resource Gateway := {
  r_kind := KGateway; r_obj := OGateway; r_of o := match o with OGateway x => Some x | _ => None end }.
Solve All Obligations with done.
#[export] Program Instance Query_resource : Resource Query := {
  r_kind := KQuery; r_obj := OQuery; r_of o := match o with OQuery x => Some x | _ => None end }.
Solve All Obligations with done.
#[export] Program Instance QueryFrontend_resource : Resource QueryFrontend := {
  r_kind := KQueryFrontend; r_obj := OQueryFrontend; r_of o := match o with OQueryFrontend x => Some x | _ => None end }.
Solve All Obligations with done.
#[export] Program Instance Router_resource : Resource Router := {
  r_kind := KRouter; r_obj := ORouter; r_of o := match o with ORouter x => Some x | _ => None end }.
Solve All Obligations with done.
#[export] Program Instance Secret_resource : Resource Secret := {
  r_kind := KSecret; r_obj := OSecret; r_of o := match o with OSecret x => Some x | _ => None end }.
Solve All Obligations with done.
#[export] Program Instance ConfigMap_resource : Resource ConfigMap := {
  r_kind := KConfigMap; r_obj := OConfigMap; r_of o := match o with OConfigMap x => Some x | _ => None end }.
Solve All Obligations with done.
#[export] Program Instance CoreService_resource : Resource CoreService := {
  r_kind := KCoreService; r_obj := OCoreService; r_of o := match o with OCoreService x => Some x | _ => None end }.
Solve All Obligations with done.
#[export] Program Instance ServiceAccount_resource : Resource ServiceAccount := {
  r_kind := KServiceAccount; r_obj := OServiceAccount; r_of o := match o with OServiceAccount x => Some x | _ => None end }.
Solve All Obligations with done.
#[export] Program Instance StatefulSet_resource : Resource StatefulSet := {
  r_kind := KStatefulSet; r_obj := OStatefulSet; r_of o := match o with OStatefulSet x => Some x | _ => None end }.
Solve All Obligations with done.
#[export] Program Instance Deployment_resource : Resource Deployment := {
  r_kind := KDeployment; r_obj := ODeployment; r_of o := match o with ODeployment x => Some x | _ => None end }.
Solve All Obligations with done.
#[export] Program Instance PVC_resource : Resource PersistentVolumeClaim := {
  r_kind := KPVC; r_obj := OPVC; r_of o := match o with OPVC x => Some x | _ => None end }.
Solve All Obligations with done.
#[export] Program Instance Namespace_resource : Resource Namespace := {
  r_kind := KNamespace; r_obj := ONamespace; r_of o := match o with ONamespace x => Some x | _ => None end }.
Solve All Obligations with done.
#[export] Program Instance PrometheusRule_resource : Resource PrometheusRule := {
  r_kind := KPrometheusRule; r_obj := OPrometheusRule; r_of o := match o with OPrometheusRule x => Some x | _ => None end }.
Solve All Obligations with done.

(** ** Metadata accessors of [client.Object] *)

Definition obj_Name (o : Object) : string := om_Name (obj_meta o).
Definition obj_Namespace (o : Object) : string := om_Namespace (obj_meta o).
Definition obj_Labels (o : Object) : gmap string string := om_Labels (obj_meta o).

Definition ObjectKeyFromObject (o : Object) : NamespacedName :=
  {| nn_Namespace := obj_Namespace o; nn_Name := obj_Name o |}.

Lemma obj_meta_set m o : obj_meta (obj_set_meta m o) = m.
Proof. by destruct o. Qed.

Lemma obj_kind_set m o : obj_kind (obj_set_meta m o) = obj_kind o.
Proof. by destruct o. Qed.

Lemma obj_set_meta_twice m m' o : obj_set_meta m (obj_set_meta m' o) = obj_set_meta m o.
Proof. by destruct o. Qed.

#[export] Hint Rewrite obj_meta_set obj_kind_set obj_set_meta_twice : whizard_rw.

(** ** Keys of the API server's store *)

Definition kind_index (k : Kind) : nat :=
  match k with
  | KTenant => 0 | KIngester => 1 | KCompactor => 2 | KRuler => 3 | KStore => 4
  | KService => 5 | KStorage => 6 | KGateway => 7 | KQuery => 8 | KQueryFrontend => 9
  | KRouter => 10 | KSecret => 11 | KConfigMap => 12 | KCoreService => 13
  | KServiceAccount => 14 | KStatefulSet => 15 | KDeployment => 16 | KPVC => 17
  | KNamespace => 18 | KPrometheusRule => 19
  end.

#[export] Instance kind_index_inj : Inj (=) (=) kind_index.
Proof. intros [] []; simpl; congruence. Qed.

Definition kind_of_index (n : nat) : option Kind :=
  nth_error [KTenant; KIngester; KCompactor; KRuler; KStore; KService; KStorage; KGateway;
    KQuery; KQueryFrontend; KRouter; KSecret; KConfigMap; KCoreService; KServiceAccount;
    KStatefulSet; KDeployment; KPVC; KNamespace; KPrometheusRule] n.

#[export] Instance kind_countable : Countable Kind.
Proof. apply (inj_countable kind_index kind_of_index). by intros []. Defined.

Definition Key : Type := Kind * string * string.

Definition obj_key (o : Object) : Key := (obj_kind o, obj_Namespace o, obj_Name o).
