(* ===== verification/Client.v ===== *)
(** The interface between Whizard and the Kubernetes API server, and
    [pkg/util/k8s.go] and [pkg/util/errors.go] on top of it.

    [Kube W] is the controller-runtime client over a world [W]; [K8sLib] the
    functions of the Kubernetes libraries the source calls, with what it relies
    on as laws. Two worlds implement [Kube]: [Logged], which records the
    requests a handler issues to any client, and [Mem], an API server in
    memory, used to evaluate the definitions. *)
From stdpp Require Import base gmap strings list pretty.
From S2P Require Import Prelude GoStd K8s Api Objects.

(** ** The interface *)

(** [client.ListOptions]: the namespace, when one is given, and the label
    selector. *)
Record ListOptions := {
  lo_Namespace : option string;
  lo_Selector : gmap string string → bool;
}.

Class Kube (W : Type) := {
  kube_get : Kind → NamespacedName → M W Object;
  kube_list : Kind → ListOptions → M W (list Object);
  kube_create : Object → M W Object;
  kube_update : Object → M W Object;
  kube_status_update : Object → M W Object;
  kube_delete : Object → M W unit;
}.

(** Runs of [m] that all ended in a conflict. *)
Inductive conflict_runs (IsConflict : GoError → bool) {S} (m : M S unit) : S → S → Prop :=
  | conflict_done s : conflict_runs IsConflict m s s
  | conflict_again s e s1 s2 :
      m s = (Err e, s1) → IsConflict e = true →
      conflict_runs IsConflict m s1 s2 → conflict_runs IsConflict m s s2.

Class K8sLib := {
  (* apierrors *)
  ReasonForError : GoError → string;
  apierrors_IsNotFound : GoError → bool;
  apierrors_IsConflict : GoError → bool;
  reason_status : ∀ c r cs, ReasonForError (EStatus c r cs) = r;
  reason_msg : ∀ m, ReasonForError (EMsg m) = "";
  isNotFound_reason : ∀ e, ReasonForError e = "NotFound" → apierrors_IsNotFound e = true;
  isConflict_not_notfound : ∀ e, apierrors_IsConflict e = true → apierrors_IsNotFound e = false;
  (* labels *)
  labels_Merge : gmap string string → gmap string string → gmap string string;
  SelectorFromSet : gmap string string → gmap string string → bool;
  labels_Merge_lookup : ∀ a b k,
    labels_Merge a b !! k = match b !! k with Some v => Some v | None => a !! k end;
  SelectorFromSet_spec : ∀ sel l,
    SelectorFromSet sel l = true ↔ (∀ k v, sel !! k = Some v → l !! k = Some v);
  LabelSelectorAsSelector : LabelSelector → Outcome (gmap string string → bool);
  (* equality.Semantic.DeepEqual *)
  Semantic_DeepEqual : Object → Object → bool;
  Semantic_DeepEqual_spec : ∀ a b, Semantic_DeepEqual a b = true ↔ a = b;
  (* schema.ParseGroupVersion: the group, or an error *)
  ParseGroupVersion : string → GoError + string;
  (* ctrl.SetControllerReference: the object with the owner added, or an error *)
  SetControllerReference : Object → Object → Outcome Object;
  SetControllerReference_key : ∀ owner o o',
    SetControllerReference owner o = Ok o' → obj_key o' = obj_key o;
  SetControllerReference_refs : ∀ owner o o',
    SetControllerReference owner o = Ok o' → ∃ refs, o' = obj_set_meta (set_om_OwnerReferences refs (obj_meta o)) o;
  (* retry.RetryOnConflict with retry.DefaultRetry *)
  RetryOnConflict : ∀ {S : Type}, M S unit → M S unit;
  RetryOnConflict_spec : ∀ {S} (m : M S unit) s, ∃ s',
    conflict_runs apierrors_IsConflict m s s' ∧ RetryOnConflict m s = m s';
}.

Section retry.
Context `{!K8sLib}.

(** A body that does not end in a conflict runs once. *)
Lemma RetryOnConflict_once {S} (m : M S unit) s :
  (∀ e s', m s = (Err e, s') → apierrors_IsConflict e = false) →
  RetryOnConflict m s = m s.
Proof.
  intros Hnc. destruct (RetryOnConflict_spec m s) as (s' & Hruns & ->).
  inversion Hruns as [|? e s1 ? Hm Hc]; subst; [done|].
  rewrite (Hnc _ _ Hm) in Hc. done.
Qed.

(** What every run keeps, the retried run keeps. *)
Lemma RetryOnConflict_inv {S} (P : S → Prop) (m : M S unit) s r s' :
  (∀ s1 r1 s2, P s1 → m s1 = (r1, s2) → P s2) →
  P s → RetryOnConflict m s = (r, s') → P s'.
Proof.
  intros Hm HP Hrun. destruct (RetryOnConflict_spec m s) as (s1 & Hruns & E).
  rewrite E in Hrun. eapply Hm; [|exact Hrun].
  clear E Hrun. induction Hruns; [done|]. eauto.
Qed.
End retry.

(** ** pkg/util/errors.go *)

Section errors.
Context `{!K8sLib}.

Definition CRNotFound : string := "not found".

(** [IgnoreNotFound]; [None] is the nil error. *)
Definition IgnoreNotFound (err : option GoError) : option GoError :=
  match err with
  | None => None
  | Some e =>
      if String.eqb (ReasonForError e) CRNotFound || String.eqb (ReasonForError e) "NotFound"
      then None else Some e
  end.

Definition IsNotFound (err : option GoError) : bool :=
  match err with
  | None => false
  | Some e => apierrors_IsNotFound e
  end.

(** [return util.IgnoreNotFound(err)] as the end of a Go function. *)
Definition ret_err {S} (err : option GoError) : M S unit :=
  match err with None => mret tt | Some e => fail e end.

Definition err_of {A} (r : GoError + A) : option GoError :=
  match r with inl e => Some e | inr _ => None end.
End errors.

(** ** The typed client *)

Section typed.
Context {W : Type} `{!Kube W}.

Definition Get {A} `{!Resource A} (key : NamespacedName) : M W A :=
  o ← kube_get r_kind key; of_option "client: wrong kind" (r_of o).

Definition List {A} `{!Resource A} (opts : ListOptions) : M W (list A) :=
  os ← kube_list r_kind opts; mret (omap r_of os).

Definition Create {A} `{!Resource A} (a : A) : M W A :=
  o ← kube_create (r_obj a); of_option "client: wrong kind" (r_of o).

Definition Update {A} `{!Resource A} (a : A) : M W A :=
  o ← kube_update (r_obj a); of_option "client: wrong kind" (r_of o).

Definition StatusUpdate {A} `{!Resource A} (a : A) : M W A :=
  o ← kube_status_update (r_obj a); of_option "client: wrong kind" (r_of o).

Definition Delete {A} `{!Resource A} (a : A) : M W unit := kube_delete (r_obj a).

Definition everywhere : ListOptions := {| lo_Namespace := None; lo_Selector := λ _, true |}.
(** The empty namespace means all of them. *)
Definition ns_opt (ns : string) : option string := if String.eqb ns "" then None else Some ns.
Definition InNamespace (ns : string) : ListOptions :=
  {| lo_Namespace := ns_opt ns; lo_Selector := λ _, true |}.
Definition MatchingLabels `{!K8sLib} (ls : gmap string string) : ListOptions :=
  {| lo_Namespace := None; lo_Selector := SelectorFromSet ls |}.
Definition InNamespaceMatching `{!K8sLib} (ns : string) (ls : gmap string string) : ListOptions :=
  {| lo_Namespace := ns_opt ns; lo_Selector := SelectorFromSet ls |}.
End typed.

(** ** pkg/util/k8s.go *)

Section util_k8s.
Context {W : Type} `{!Kube W} `{!K8sLib}.

(** The body of the [CreateOrUpdate...] functions runs inside
    [RetryOnConflict] and mutates [desired]: its state is the world and the
    object [desired] points to. *)
Definition on_world {A} (m : M W A) : M (W * Object) A := zoom fst (λ w s, (w, s.2)) m.
Definition desired_obj : M (W * Object) Object := λ s, (Ok s.2, s).
Definition set_desired (o : Object) : M (W * Object) unit := λ s, (Ok tt, (s.1, o)).

Definition with_desired (m : M (W * Object) unit) (desired : Object) : M W Object := λ w,
  match m (w, desired) with
  | (Ok _, (w', d)) => (Ok d, w')
  | (Err e, (w', _)) => (Err e, w')
  | (Panic p, (w', _)) => (Panic p, w')
  end.

Definition mergeMetadata (new old : ObjectMeta) : ObjectMeta :=
  set_om_Annotations (labels_Merge (om_Annotations old) (om_Annotations new))
    (set_om_Labels (labels_Merge (om_Labels old) (om_Labels new))
      (set_om_ResourceVersion (om_ResourceVersion old) new)).

Definition merge_into (current desired : Object) : Object :=
  obj_set_meta (mergeMetadata (obj_meta desired) (obj_meta current)) desired.

Definition create_desired : M (W * Object) unit :=
  d ← desired_obj; d' ← on_world (kube_create d); set_desired d'.
Definition update_desired : M (W * Object) unit :=
  d ← desired_obj; d' ← on_world (kube_update d); set_desired d'.

Definition CreateOrUpdateStatefulSet_try : M (W * Object) unit :=
  desired ← desired_obj;
  r ← attempt (on_world (kube_get KStatefulSet (ObjectKeyFromObject desired)));
  match r with
  | inl err => if negb (apierrors_IsNotFound err) then fail err else create_desired
  | inr current => set_desired (merge_into current desired) ;; update_desired
  end.
Definition CreateOrUpdateStatefulSet (desired : StatefulSet) : M W Object :=
  with_desired (RetryOnConflict CreateOrUpdateStatefulSet_try) (OStatefulSet desired).

Definition CreateOrUpdateDeployment_try : M (W * Object) unit :=
  desired ← desired_obj;
  r ← attempt (on_world (kube_get KDeployment (ObjectKeyFromObject desired)));
  match r with
  | inl err => if negb (apierrors_IsNotFound err) then fail err else create_desired
  | inr current => set_desired (merge_into current desired) ;; update_desired
  end.
Definition CreateOrUpdateDeployment (desired : Deployment) : M W Object :=
  with_desired (RetryOnConflict CreateOrUpdateDeployment_try) (ODeployment desired).

(** The immutable fields of an existing service. *)
Definition keep_service_ips (current desired : Object) : Object :=
  match current, desired with
  | OCoreService c, OCoreService d => OCoreService {|
      svc_Meta := svc_Meta d; svc_Type := svc_Type d; svc_Selector := svc_Selector d;
      svc_Ports := svc_Ports d; svc_IPFamilies := svc_IPFamilies c;
      svc_IPFamilyPolicy := svc_IPFamilyPolicy c; svc_ClusterIP := svc_ClusterIP c;
      svc_ClusterIPs := svc_ClusterIPs c |}
  | _, _ => desired
  end.
Definition CreateOrUpdateService_try : M (W * Object) unit :=
  desired ← desired_obj;
  r ← attempt (on_world (kube_get KCoreService (ObjectKeyFromObject desired)));
  match r with
  | inl err => if negb (apierrors_IsNotFound err) then fail err else create_desired
  | inr current =>
      set_desired (merge_into current (keep_service_ips current desired)) ;; update_desired
  end.
Definition CreateOrUpdateService (desired : CoreService) : M W Object :=
  with_desired (RetryOnConflict CreateOrUpdateService_try) (OCoreService desired).

(** The source declares [current] as an [appsv1.Deployment]: the lookup is in
    the deployments, whatever the config maps hold. *)
Definition CreateOrUpdateConfigMap_try : M (W * Object) unit :=
  desired ← desired_obj;
  r ← attempt (on_world (kube_get KDeployment (ObjectKeyFromObject desired)));
  match r with
  | inl err => if negb (apierrors_IsNotFound err) then fail err else create_desired
  | inr current =>
      let desired' := merge_into current desired in
      set_desired desired' ;;
      if Semantic_DeepEqual current desired' then mret tt else update_desired
  end.
Definition CreateOrUpdateConfigMap (desired : ConfigMap) : M W Object :=
  with_desired (RetryOnConflict CreateOrUpdateConfigMap_try) (OConfigMap desired).

Definition keep_account_secrets (current desired : Object) : Object :=
  match current, desired with
  | OServiceAccount c, OServiceAccount d =>
      OServiceAccount {| sa_Meta := sa_Meta d; sa_Secrets := sa_Secrets c |}
  | _, _ => desired
  end.
Definition CreateOrUpdateServiceAccount_try : M (W * Object) unit :=
  desired ← desired_obj;
  r ← attempt (on_world (kube_get KServiceAccount (ObjectKeyFromObject desired)));
  match r with
  | inl err => if negb (apierrors_IsNotFound err) then fail err else create_desired
  | inr current =>
      let desired' := merge_into current desired in
      set_desired desired' ;;
      if Semantic_DeepEqual current desired' then mret tt
      else set_desired (keep_account_secrets current desired') ;; update_desired
  end.
Definition CreateOrUpdateServiceAccount (desired : ServiceAccount) : M W Object :=
  with_desired (RetryOnConflict CreateOrUpdateServiceAccount_try) (OServiceAccount desired).

(** [CreateOrUpdate] of any object: [current] has the type of [desired]. *)
Definition CreateOrUpdate_try : M (W * Object) unit :=
  desired ← desired_obj;
  r ← attempt (on_world (kube_get (obj_kind desired) (ObjectKeyFromObject desired)));
  match r with
  | inl err => if negb (apierrors_IsNotFound err) then fail err else create_desired
  | inr current =>
      let desired' := merge_into current desired in
      set_desired desired' ;;
      if Semantic_DeepEqual current desired' then mret tt else update_desired
  end.
Definition CreateOrUpdate (desired : Object) : M W Object :=
  with_desired (RetryOnConflict CreateOrUpdate_try) desired.

Definition CreateIfNotExists_try : M (W * Object) unit :=
  desired ← desired_obj;
  r ← attempt (on_world (kube_get (obj_kind desired) (ObjectKeyFromObject desired)));
  match r with
  | inl err => if negb (apierrors_IsNotFound err) then fail err else create_desired
  | inr current => mret tt
  end.
Definition CreateIfNotExists (desired : Object) : M W Object :=
  with_desired (RetryOnConflict CreateIfNotExists_try) desired.

(** ** Owner references *)

Definition referSameObject (a b : OwnerReference) : bool :=
  match ParseGroupVersion (or_APIVersion a) with
  | inl _ => false
  | inr aGV =>
      match ParseGroupVersion (or_APIVersion b) with
      | inl _ => false
      | inr bGV => String.eqb aGV bGV && String.eqb (or_Kind a) (or_Kind b)
                   && String.eqb (or_Name a) (or_Name b)
      end
  end.

Fixpoint IndexOwnerRef_from (index : Z) (refs : list OwnerReference) (ref : OwnerReference) : Z :=
  match refs with
  | [] => -1
  | r :: refs' => if referSameObject r ref then index
                  else IndexOwnerRef_from (index + 1) refs' ref
  end.
Definition IndexOwnerRef (refs : list OwnerReference) (ref : OwnerReference) : Z :=
  IndexOwnerRef_from 0 refs ref.

(** ** Deleting the claims of a stateful set *)

Definition pvc_named (ns name : string) : PersistentVolumeClaim := {|
  pvc_Meta := {| om_Name := name; om_GenerateName := ""; om_Namespace := ns; om_UID := "";
    om_ResourceVersion := ""; om_Labels := ∅; om_Annotations := ∅; om_Finalizers := [];
    om_DeletionTimestamp := None; om_OwnerReferences := [] |};
  pvc_AccessModes := []; pvc_Rest := "" |}.

Definition delete_claim (ns name : string) : M W unit :=
  r ← attempt (Delete (pvc_named ns name));
  match r with
  | inl err => if negb (IsNotFound (Some err)) then fail err else mret tt
  | inr _ => mret tt
  end.

Definition DeletePVC (obj : Object) : M W unit :=
  sts ← Get (A:=StatefulSet) (ObjectKeyFromObject obj);
  let replicas := match sts_Replicas sts with Some n => n | None => 1%Z end in
  for_each (λ item : PersistentVolumeClaim,
    for_each (λ index : nat,
      delete_claim (om_Namespace (sts_Meta sts))
        (om_Name (pvc_Meta item) +:+ "-" +:+ om_Name (sts_Meta sts) +:+ "-" +:+ itoa (Z.of_nat index)))
      (seq 0 (Z.to_nat replicas)))
    (sts_VolumeClaimTemplates sts).
End util_k8s.
