(* ===== verification/Clients.v ===== *)
(** Two implementations of the client interface and the reasoning principles
    that come with them: [Logged W] records the requests a handler issues to an
    arbitrary client, with a small program logic ([effects]) for statements
    about every request of a run; [Mem] is an API server in memory on which the
    definitions evaluate. *)
From stdpp Require Import base gmap strings list pretty.
From S2P Require Import Prelude GoStd K8s Api Objects Client.

(** ** Recording the requests *)

Inductive Call :=
  | CGet (k : Kind) (key : NamespacedName)
  | CList (k : Kind) (ns : option string)
  | CCreate (o : Object)
  | CUpdate (o : Object)
  | CStatusUpdate (o : Object)
  | CDelete (o : Object).

Record Logged (W : Type) := { lg_calls : list Call; lg_world : W }.
Arguments lg_calls {W} l.
Arguments lg_world {W} l.

Definition record {W A} (c : Call) (m : M W A) : M (Logged W) A := λ s,
  let '(r, w') := m (lg_world s) in
  (r, {| lg_calls := lg_calls s ++ [c]; lg_world := w' |}).

#[export] Instance logged_kube {W} `{!Kube W} : Kube (Logged W) := {
  kube_get k key := record (CGet k key) (kube_get k key);
  kube_list k opts := record (CList k (lo_Namespace opts)) (kube_list k opts);
  kube_create o := record (CCreate o) (kube_create o);
  kube_update o := record (CUpdate o) (kube_update o);
  kube_status_update o := record (CStatusUpdate o) (kube_status_update o);
  kube_delete o := record (CDelete o) (kube_delete o);
}.

(** States that carry a log. *)
Class HasLog (S : Type) := log_of : S → list Call.
#[export] Instance logged_log {W} : HasLog (Logged W) := lg_calls.
#[export] Instance pair_log {S T} `{!HasLog S} : HasLog (S * T) := λ s, log_of s.1.

(** [effects P m Q]: whatever the client answers, every request [m] issues
    satisfies [P], and the value it returns satisfies [Q]. *)
Definition effects {S A} `{!HasLog S} (P : Call → Prop) (m : M S A) (Q : A → Prop) : Prop :=
  ∀ s r s', m s = (r, s') →
    (∃ l, log_of s' = log_of s ++ l ∧ Forall P l) ∧ (∀ a, r = Ok a → Q a).

Section effects.
Context {S : Type} `{!HasLog S} (P : Call → Prop).

Lemma effects_ret {A} (a : A) (Q : A → Prop) : Q a → effects P (mret a : M S A) Q.
Proof.
  intros HQ s r s' H. inversion H; subst. split.
  - exists []. by rewrite app_nil_r.
  - by intros ? [= <-].
Qed.

Lemma effects_fail {A} e (Q : A → Prop) : effects P (fail e : M S A) Q.
Proof.
  intros s r s' H. inversion H; subst. split; [|done].
  exists []. by rewrite app_nil_r.
Qed.

Lemma effects_panic {A} p (Q : A → Prop) : effects P (panic p : M S A) Q.
Proof.
  intros s r s' H. inversion H; subst. split; [|done].
  exists []. by rewrite app_nil_r.
Qed.

Lemma effects_lift {A} (o : Outcome A) (Q : A → Prop) :
  (∀ a, o = Ok a → Q a) → effects P (lift_outcome o : M S A) Q.
Proof.
  intros HQ s r s' H. inversion H; subst. split; [|done].
  exists []. by rewrite app_nil_r.
Qed.

Lemma effects_option {A} why (o : option A) (Q : A → Prop) :
  (∀ a, o = Some a → Q a) → effects P (of_option why o : M S A) Q.
Proof. destruct o; intros HQ; [by apply effects_ret, HQ|apply effects_panic]. Qed.

Lemma effects_bind {A B} (m : M S A) (f : A → M S B) (Q : A → Prop) (R : B → Prop) :
  effects P m Q → (∀ a, Q a → effects P (f a) R) → effects P (m ≫= f) R.
Proof.
  intros Hm Hf s r s' H. unfold mbind, M_mbind, M_bind in H.
  destruct (m s) as [[a|e|p] s1] eqn:E; destruct (Hm _ _ _ E) as [(l & Hl & HP) HQ].
  - destruct (Hf a (HQ a eq_refl) _ _ _ H) as [(l' & Hl' & HP') HR].
    split; [|done]. exists (l ++ l'). rewrite Hl', Hl, <-app_assoc. split; [done|].
    by apply Forall_app.
  - inversion H; subst. split; [by exists l|done].
  - inversion H; subst. split; [by exists l|done].
Qed.

Lemma effects_step {A B} (m : M S A) (f : A → M S B) (R : B → Prop) :
  effects P m (λ _, True) → (∀ a, effects P (f a) R) → effects P (m ≫= f) R.
Proof. intros Hm Hf. by eapply effects_bind; [exact Hm|]. Qed.

Lemma effects_attempt {A} (m : M S A) (Q : A → Prop) :
  effects P m Q → effects P (attempt m) (λ r, ∀ a, r = inr a → Q a).
Proof.
  intros Hm s r s' H. unfold attempt in H.
  destruct (m s) as [[a|e|p] s1] eqn:E; destruct (Hm _ _ _ E) as [Hl HQ];
    inversion H; subst; (split; [done|]).
  - intros ? [= <-] ? [= <-]. by apply HQ.
  - by intros ? [= <-] ? [=].
  - done.
Qed.

Lemma effects_for_each {A} (f : A → M S unit) l :
  (∀ x, x ∈ l → effects P (f x) (λ _, True)) → effects P (for_each f l) (λ _, True).
Proof.
  induction l as [|x l IH]; intros Hf; [by apply effects_ret|].
  apply (effects_bind _ _ (λ _, True)); [apply Hf; by left|].
  intros _ _. apply IH. intros y Hy. apply Hf. by right.
Qed.

Lemma effects_fold_each {A B} (f : B → A → M S B) b l (Q : B → Prop) :
  Q b → (∀ b x, x ∈ l → Q b → effects P (f b x) Q) → effects P (fold_each f b l) Q.
Proof.
  revert b. induction l as [|x l IH]; intros b HQ Hf; [by apply effects_ret|].
  apply (effects_bind _ _ Q); [by apply Hf; [left|]|].
  intros b' HQ'. apply IH; [done|]. intros b'' y Hy. apply Hf. by right.
Qed.

Lemma effects_weaken {A} (m : M S A) (Q R : A → Prop) :
  effects P m Q → (∀ a, Q a → R a) → effects P m R.
Proof. intros Hm HQR s r s' H. destruct (Hm _ _ _ H) as [? HQ]. split; [done|].
  intros a ->. by apply HQR, HQ. Qed.

Lemma effects_pure {A} (m : M S A) :
  (∀ s, ∃ r s', m s = (r, s') ∧ log_of s' = log_of s) → effects P m (λ _, True).
Proof.
  intros Hm s r s' H. destruct (Hm s) as (r1 & s1 & E & Hlog).
  rewrite E in H. inversion H; subst. split; [|done]. exists [].
  by rewrite app_nil_r.
Qed.

Lemma effects_zoom {T A} `{!HasLog T} (get : T → S) (set : S → T → T) (m : M S A) Q :
  (∀ t, log_of (get t) = log_of t) → (∀ s t, log_of (set s t) = log_of s) →
  effects P m Q → effects P (zoom get set m) Q.
Proof.
  intros Hget Hset Hm t r t' H. unfold zoom in H.
  destruct (m (get t)) as [r1 s1] eqn:E. inversion H; subst.
  destruct (Hm _ _ _ E) as [(l & Hl & HP) HQ]. split; [|done].
  exists l. by rewrite Hset, Hl, Hget.
Qed.

Lemma effects_true {A} (m : M S A) (Q : A → Prop) : effects P m Q → effects P m (λ _, True).
Proof. intros Hm. by eapply effects_weaken. Qed.
End effects.

(** *** Automation *)

(** [effects] holds what is known of the requests of named operations; [reads]
    walks over a handler, branch by branch, and closes what these hints close. *)
Create HintDb effects.
#[export] Hint Extern 9 => (intros; done) : effects.

Ltac effects_hint := solve [typeclasses eauto 6 with effects nocore].
Ltac reads_step :=
  first
  [ effects_hint
  | lazymatch goal with
    | |- effects _ (let _ := _ in _) _ => cbv zeta
    | |- effects _ (mret _) _ => apply effects_ret; try done
    | |- effects _ (fail _) _ => apply effects_fail
    | |- effects _ (panic _) _ => apply effects_panic
    | |- effects _ (lift_outcome _) _ => apply effects_lift; done
    | |- effects _ (of_option _ _) _ => apply effects_option; done
    | |- effects _ (attempt _) (λ _, True) => eapply effects_true, effects_attempt
    | |- effects _ (mbind _ _) _ => apply effects_step; [|intro]
    | |- effects _ (match ?x with _ => _ end) _ => destruct x eqn:?
    | |- ∀ _, _ => intro
    end ].
Ltac reads := repeat reads_step.

Lemma effects_impl {S A} `{!HasLog S} (P P' : Call → Prop) (m : M S A) (Q : A → Prop) :
  (∀ c, P c → P' c) → effects P m Q → effects P' m Q.
Proof.
  intros Hi Hm s r s' H. destruct (Hm _ _ _ H) as [(l & Hl & HP) HQ]. split; [|done].
  exists l. split; [done|]. by eapply list.Forall_impl.
Qed.

Section logged.
Context {W : Type} `{!Kube W} (P : Call → Prop).

Lemma effects_record {A} c (m : M W A) : P c → effects P (record c m) (λ _, True).
Proof.
  intros HP s r s' H. unfold record in H. destruct (m (lg_world s)) as [r1 w1].
  inversion H; subst. split; [|done]. exists [c]. split; [done|]. by apply Forall_singleton.
Qed.
End logged.

(** [run_calls m w]: the requests of a run from an empty log. *)
Definition calls_from {W A} (m : M (Logged W) A) (w : W) : list Call :=
  lg_calls (m {| lg_calls := []; lg_world := w |}).2.

Lemma effects_calls {W A} (P : Call → Prop) (m : M (Logged W) A) (Q : A → Prop) w :
  effects P m Q → Forall P (calls_from m w).
Proof.
  intros Hm. unfold calls_from.
  destruct (m {| lg_calls := []; lg_world := w |}) as [r s] eqn:E.
  destruct (Hm _ _ _ E) as [(l & Hl & HP) _].
  unfold log_of, logged_log in Hl. simpl in *. by rewrite Hl.
Qed.

(** ** An API server in memory *)

Record Mem := { mem_objs : gmap Key Object; mem_next : Z }.

Definition mem_empty : Mem := {| mem_objs := ∅; mem_next := 1 |}.

Definition err_NotFound : GoError := EStatus 404 "NotFound" [].
Definition err_AlreadyExists : GoError := EStatus 409 "AlreadyExists" [].
Definition err_Conflict : GoError := EStatus 409 "Conflict" [].
Definition err_Invalid : GoError := EStatus 422 "Invalid" [].

(** What is kept of an object: the string data of a secret is merged into its
    data. *)
Definition mem_admit (o : Object) : Object :=
  match o with
  | OSecret s => OSecret {| sec_Meta := sec_Meta s; sec_Data := sec_StringData s ∪ sec_Data s; sec_StringData := ∅ |}
  | _ => o
  end.

(** Store an object under its key, with a fresh resource version. *)
Definition mem_store (o : Object) : M Mem Object := λ s,
  let o' := mem_admit (obj_set_meta (set_om_ResourceVersion (itoa (mem_next s)) (obj_meta o)) o) in
  (Ok o', {| mem_objs := <[obj_key o' := o']> (mem_objs s); mem_next := mem_next s + 1 |}).

Definition mem_get (k : Kind) (key : NamespacedName) : M Mem Object := λ s,
  match mem_objs s !! (k, nn_Namespace key, nn_Name key) with
  | Some o => (Ok o, s)
  | None => (Err err_NotFound, s)
  end.

Definition mem_matches (k : Kind) (opts : ListOptions) (o : Object) : bool :=
  bool_decide (obj_kind o = k)
  && match lo_Namespace opts with None => true | Some ns => String.eqb (obj_Namespace o) ns end
  && lo_Selector opts (obj_Labels o).

Definition mem_list (k : Kind) (opts : ListOptions) : M Mem (list Object) := λ s,
  (Ok (filter (λ o, mem_matches k opts o = true) (map_to_list (mem_objs s)).*2), s).

Definition mem_create (o : Object) : M Mem Object := λ s,
  let m := obj_meta o in
  let name := if String.eqb (om_Name m) "" && negb (String.eqb (om_GenerateName m) "")
              then om_GenerateName m +:+ itoa (mem_next s) else om_Name m in
  let o' := obj_set_meta (set_om_Name name m) o in
  if String.eqb name "" then (Err err_Invalid, s)
  else match mem_objs s !! obj_key o' with
       | Some _ => (Err err_AlreadyExists, s)
       | None => mem_store o' s
       end.

(** The status a plain update keeps, and a status update replaces. *)
Definition with_status_of (old new : Object) : Object :=
  match old, new with
  | OTenant o, OTenant n => OTenant {| tn_Type := tn_Type n; tn_Meta := tn_Meta n;
      tn_Spec := tn_Spec n; tn_Status := tn_Status o |}
  | OIngester o, OIngester n => OIngester {| ig_Type := ig_Type n; ig_Meta := ig_Meta n;
      ig_Spec := ig_Spec n; ig_Status := ig_Status o |}
  | _, _ => new
  end.

Definition mem_write (f : Object → Object → Object) (o : Object) : M Mem Object := λ s,
  match mem_objs s !! obj_key o with
  | None => (Err err_NotFound, s)
  | Some old =>
      if negb (String.eqb (om_ResourceVersion (obj_meta o)) "")
         && negb (String.eqb (om_ResourceVersion (obj_meta o)) (om_ResourceVersion (obj_meta old)))
      then (Err err_Conflict, s)
      else let new := f old o in
        if negb (is_nil (om_DeletionTimestamp (obj_meta old))) && bool_decide (om_Finalizers (obj_meta new) = [])
        then (Ok new, {| mem_objs := delete (obj_key o) (mem_objs s); mem_next := mem_next s |})
        else mem_store new s
  end.

Definition mem_delete (o : Object) : M Mem unit := λ s,
  match mem_objs s !! obj_key o with
  | None => (Err err_NotFound, s)
  | Some old =>
      match om_Finalizers (obj_meta old) with
      | [] => (Ok tt, {| mem_objs := delete (obj_key o) (mem_objs s); mem_next := mem_next s |})
      | _ =>
          let m := obj_meta old in
          let m' := {| om_Name := om_Name m; om_GenerateName := om_GenerateName m;
            om_Namespace := om_Namespace m; om_UID := om_UID m;
            om_ResourceVersion := om_ResourceVersion m; om_Labels := om_Labels m;
            om_Annotations := om_Annotations m; om_Finalizers := om_Finalizers m;
            om_DeletionTimestamp := Some (mem_next s);
            om_OwnerReferences := om_OwnerReferences m |} in
          let '(_, s') := mem_store (obj_set_meta m' old) s in (Ok tt, s')
      end
  end.

#[export] Instance mem_kube : Kube Mem := {
  kube_get := mem_get;
  kube_list := mem_list;
  kube_create := mem_create;
  kube_update := mem_write with_status_of;
  kube_status_update := mem_write (λ old new, with_status_of new old);
  kube_delete := mem_delete;
}.

(** A store that holds the given objects. *)
Definition mem_of (l : list Object) : Mem :=
  {| mem_objs := list_to_map ((λ o, (obj_key o, o)) <$> l); mem_next := 100 |}.

(** ** The Kubernetes libraries *)

Definition std_reason (e : GoError) : string :=
  match e with EStatus _ r _ => r | _ => "" end.

Fixpoint std_retry (fuel : nat) {S} (m : M S unit) : M S unit := λ s,
  match fuel, m s with
  | Datatypes.S n, (Err e, s') =>
      if String.eqb (std_reason e) "Conflict" then std_retry n m s' else (Err e, s')
  | _, r => r
  end.

Lemma std_retry_spec n {S} (m : M S unit) s :
  ∃ s', conflict_runs (λ e, String.eqb (std_reason e) "Conflict") m s s' ∧ std_retry n m s = m s'.
Proof.
  revert s. induction n as [|n IH]; intros s; simpl; [exists s; split; [constructor|done]|].
  destruct (m s) as [[a|e|p] s1] eqn:E; [exists s; split; [constructor|done]| |exists s; split; [constructor|done]].
  destruct (String.eqb (std_reason e) "Conflict") eqn:Ec; [|exists s; split; [constructor|done]].
  destruct (IH s1) as (s' & Hr & ->). exists s'. split; [|done]. by eapply conflict_again.
Qed.

(** [SelectorFromSet]: every label of the set is there. *)
Definition std_selector (sel l : gmap string string) : bool :=
  forallb (λ kv, match l !! kv.1 with Some v => String.eqb v kv.2 | None => false end)
    (map_to_list sel).

Lemma std_selector_spec sel l :
  std_selector sel l = true ↔ (∀ k v, sel !! k = Some v → l !! k = Some v).
Proof.
  unfold std_selector. rewrite forallb_forall. split.
  - intros H k v Hk. apply elem_of_map_to_list, list_elem_of_In, H in Hk. simpl in Hk.
    destruct (l !! k) eqn:E; [|done]. by apply String.eqb_eq in Hk as ->.
  - intros H [k v] Hk. apply list_elem_of_In, elem_of_map_to_list, H in Hk. simpl.
    rewrite Hk. apply String.eqb_refl.
Qed.

Definition owner_ref (owner : Object) : OwnerReference := {|
  or_APIVersion := "monitoring.whizard.io/v1alpha1"; or_Kind := "";
  or_Name := obj_Name owner; or_UID := om_UID (obj_meta owner); or_Controller := Some true |}.

Definition std_set_owner (owner o : Object) : Outcome Object :=
  if existsb (λ r, bool_decide (or_Controller r = Some true ∧ or_UID r ≠ om_UID (obj_meta owner)))
       (om_OwnerReferences (obj_meta o))
  then Err (EMsg "already owned")
  else Ok (obj_set_meta (set_om_OwnerReferences
         (filter (λ r, or_UID r ≠ om_UID (obj_meta owner)) (om_OwnerReferences (obj_meta o))
          ++ [owner_ref owner]) (obj_meta o)) o).

#[export] Program Instance std_k8slib : K8sLib | 100 := {
  ReasonForError := std_reason;
  apierrors_IsNotFound e := String.eqb (std_reason e) "NotFound";
  apierrors_IsConflict e := String.eqb (std_reason e) "Conflict";
  labels_Merge a b := b ∪ a;
  SelectorFromSet := std_selector;
  LabelSelectorAsSelector sel := Ok (std_selector (ls_MatchLabels sel));
  Semantic_DeepEqual a b := bool_decide (a = b);
  ParseGroupVersion s := inr s;
  SetControllerReference := std_set_owner;
  RetryOnConflict S m := std_retry 5 m;
}.
Next Obligation. done. Qed.
Next Obligation. done. Qed.
Next Obligation. intros e H. simpl in *. by rewrite H. Qed.
Next Obligation. intros e H. simpl in *. apply String.eqb_eq in H as ->. done. Qed.
Next Obligation.
  intros a b k. simpl. rewrite lookup_union. destruct (b !! k), (a !! k); done.
Qed.
Next Obligation. apply std_selector_spec. Qed.
Next Obligation. intros a b. simpl. apply bool_decide_eq_true. Qed.
Next Obligation.
  intros owner o o' H. simpl in H. unfold std_set_owner in H.
  destruct (existsb _ _); inversion H; subst.
  unfold obj_key, obj_Namespace, obj_Name. by rewrite obj_kind_set, obj_meta_set.
Qed.
Next Obligation.
  intros owner o o' H. simpl in H. unfold std_set_owner in H.
  destruct (existsb _ _); inversion H; subst. by eexists.
Qed.
Next Obligation. intros S m s. apply std_retry_spec. Qed.
