(* ===== verification/Base.v ===== *)
(** [pkg/util/utils.go], [pkg/util/relabel_config.go] and the shared reconciler
    of [pkg/controllers/resources] ([base.go], [service.go]): labels and names,
    hashes of tenants and storages, the object-store configuration, volumes,
    the resource loop, and the defaults of a service. *)
From stdpp Require Import base gmap strings list pretty sorting.
From Stdlib Require Import Ascii String.
From S2P Require Import Prelude GoStd K8s Api Objects Client.

(** ** Third-party functions *)

(** A [yaml.Node] as the source walks it: its value and its children, with the
    rest of the node (kind, tag, style) kept as data. *)
#[warnings="-register-all"]
Inductive YNode := YN (value : string) (rest : Opaque) (content : list YNode).

Definition yn_Value (n : YNode) : string := let 'YN v _ _ := n in v.
Definition yn_Content (n : YNode) : list YNode := let 'YN _ _ c := n in c.

(** [crypto/md5]: the sixteen bytes of a digest. *)
Class Md5 := {
  md5_Sum : string → list Z;
  md5_Sum_bytes : ∀ s, length (md5_Sum s) = 16%nat ∧ Forall (λ b, (0 ≤ b < 256)%Z) (md5_Sum s);
}.

(** [hex.EncodeToString]. *)
Definition hex_char (d : Z) : ascii := ascii_of_N (Z.to_N (if (d <? 10)%Z then 48 + d else 87 + d))%Z.
Definition hex_EncodeToString (bytes : list Z) : string :=
  foldr (λ b s, String (hex_char (b / 16)) (String (hex_char (b mod 16)) s)) EmptyString bytes.

(** The digest, in hexadecimal, of all the bytes written to the hash. *)
Definition md5_hex `{!Md5} (s : string) : string := hex_EncodeToString (md5_Sum s).

Class BaseLib := {
  base_md5 :: Md5;
  (* gopkg.in/yaml.v3 on a bucketConfig, a document and back *)
  yaml_Marshal_bucket : string → S3 → GoError + string;
  yaml_Unmarshal : string → GoError + YNode;
  yaml_Marshal_node : YNode → GoError + string;
  node_SetString : string → YNode → YNode;
  (* yaml of a list of relabel configs: action, source labels, regex *)
  yaml_Marshal_relabel : list (string * list string * string) → GoError + string;
  (* k8sutil.ResourceNamer with a prefix *)
  DNS1123Label : string → string → GoError + string;
  UniqueDNS1123Label : string → string → string;
  (* the serialised size of resource requirements, 0 when nothing is set *)
  resources_Size : ResourceRequirements → Z;
  resources_Size_empty : resources_Size emptyResources = 0%Z;
  resources_Size_set : ∀ r, resources_Size r = 0%Z → r = emptyResources;
  (* prometheus/common/version.Version, set at build time *)
  build_version : string;
}.

(** [model.ParseDuration] and the reading of [time.Now()], in nanoseconds. *)
Class Clock := {
  ParseDuration : string → GoError + Z;
  now : Z;
}.

(** [d, _ := model.ParseDuration(s)]: zero on an error. *)
Definition ParseDuration_ `{!Clock} (s : string) : Z :=
  match ParseDuration s with inl _ => 0 | inr d => d end.

Definition second : Z := 1000000000.

(** ** pkg/util/utils.go *)

(** [arr\[i\]]: a run-time panic out of range. *)
Definition index_str (l : list string) (i : nat) : Outcome string :=
  match l !! i with Some s => Ok s | None => Panic "index out of range" end.

Section utils.
Context `{!MapRange}.

(** The write into a nil map allocated in the function is lost to the
    caller; into any other map it is shared. *)
Definition AppendLabel (m1 : option StrMap) (m2 : StrMap) : option StrMap :=
  match m1 with
  | None => None
  | Some m1 =>
      Some (foldl (λ acc kv, match acc !! kv.1 with
                             | Some _ => acc
                             | None => <[kv.1 := kv.2]> acc
                             end) m1 (map_range "AppendLabel" m2))
  end.

Fixpoint Contains (l : list string) (key : string) : bool :=
  match l with
  | [] => false
  | k :: l' => if String.eqb k key then true else Contains l' key
  end.

Definition MegerMap (src dest : StrMap) : StrMap :=
  foldl (λ acc kv, <[kv.1 := kv.2]> acc) dest (map_range "MegerMap" src).

(** The slice after the call, and whether an element was replaced. *)
Fixpoint ReplaceInSlice {A} (s : list A) (fn : A → bool) (new : A) : list A * bool :=
  match s with
  | [] => ([], false)
  | x :: s' => if fn x then (new :: s', true)
               else let '(r, b) := ReplaceInSlice s' fn new in (x :: r, b)
  end.

Definition GetArgName (s : string) : string := default "" (head (split_on "="%char s)).

Definition dotted (ns name : string) : string := ns +:+ "." +:+ name.

Definition ManagedLabelByService (service : ObjectMeta) : StrMap :=
  <[ServiceLabelKey := om_Namespace service +:+ "." +:+ om_Name service]> ∅.
Definition ManagedLabelBySameService (o : ObjectMeta) : StrMap :=
  <[ServiceLabelKey := map_get (om_Labels o) ServiceLabelKey]> ∅.
Definition ManagedLabelByStorage (storage : ObjectMeta) : StrMap :=
  <[StorageLabelKey := om_Namespace storage +:+ "." +:+ om_Name storage]> ∅.

Definition ServiceNamespacedName (o : ObjectMeta) : option NamespacedName :=
  if bool_decide (om_Labels o = ∅) then None
  else match split_on "."%char (map_get (om_Labels o) ServiceLabelKey) with
       | [ns; name] => Some {| nn_Namespace := ns; nn_Name := name |}
       | _ => None
       end.

Definition StorageNamespacedName (o : ObjectMeta) : option NamespacedName :=
  if bool_decide (om_Labels o = ∅) then None
  else match split_on "."%char (map_get (om_Labels o) StorageLabelKey) with
       | [ns; name] => Some {| nn_Namespace := ns; nn_Name := name |}
       | _ => None
       end.
End utils.

(** ** pkg/util/relabel_config.go *)

Definition keep_regex (tenants : list string) : string :=
  trim_prefix (foldl (λ regex tenant, regex +:+ "|^" +:+ tenant +:+ "$") "" tenants) "|".

Definition CreateKeepTenantsRelabelConfig `{!BaseLib} (tenantLabelName : string)
    (tenants : list string) : GoError + string :=
  yaml_Marshal_relabel [("keep", [tenantLabelName], keep_regex tenants)].

(** ** base.go *)

Inductive Operation := OperationCreateOrUpdate | OperationDelete.

(** A [Resource] function; [None] is [(nil, "", nil)]. *)
Definition ResourceFn (W : Type) : Type := M W (option (Object * Operation)).

Section base.
Context {W : Type} `{!Kube W} `{!K8sLib} `{!MapRange} `{!BaseLib}.

Definition set_service_names (h l d : string) (s : ServiceSpec) : ServiceSpec := {|
  sv_TenantHeader := h; sv_DefaultTenantId := d; sv_TenantLabelName := l;
  sv_Storage := sv_Storage s; sv_RemoteWrites := sv_RemoteWrites s;
  sv_RemoteQuery := sv_RemoteQuery s; GatewayTemplateSpec := GatewayTemplateSpec s;
  QueryFrontendTemplateSpec := QueryFrontendTemplateSpec s;
  QueryTemplateSpec := QueryTemplateSpec s; sv_RulerTemplateSpec := sv_RulerTemplateSpec s;
  RouterTemplateSpec := RouterTemplateSpec s;
  sv_IngesterTemplateSpec := sv_IngesterTemplateSpec s;
  StoreTemplateSpec := StoreTemplateSpec s;
  sv_CompactorTemplateSpec := sv_CompactorTemplateSpec s |}.

Definition or_default (s d : string) : string := if String.eqb s "" then d else s.

(** The service an object belongs to, with its defaults; the caller keeps it
    in the [Service] field of the reconciler. *)
Definition SetService (o : ObjectMeta) : M W Service :=
  if String.eqb (map_get (om_Labels o) ServiceLabelKey) "" then fail (EMsg "service missing")
  else
    let namespacedName := split_on "."%char (map_get (om_Labels o) ServiceLabelKey) in
    name ← lift_outcome (index_str namespacedName 1);
    ns ← lift_outcome (index_str namespacedName 0);
    s ← Get (A:=Service) {| nn_Namespace := ns; nn_Name := name |};
    mret {| sv_Type := sv_Type s; sv_Meta := sv_Meta s;
      sv_Spec := set_service_names
        (or_default (sv_TenantHeader (sv_Spec s)) DefaultTenantHeader)
        (or_default (sv_TenantLabelName (sv_Spec s)) DefaultTenantLabelName)
        (or_default (sv_DefaultTenantId (sv_Spec s)) DefaultTenantId) (sv_Spec s) |}.

Definition GetStorage (service : option Service) (storage : string) : string :=
  let storage := if String.eqb storage "" then DefaultStorage else storage in
  if String.eqb storage DefaultStorage then
    match service with
    | Some s => match sv_Storage (sv_Spec s) with
                | Some ref => ref_Namespace ref +:+ "." +:+ ref_Name ref
                | None => LocalStorage
                end
    | None => LocalStorage
    end
  else storage.

Definition BaseLabels : StrMap := ∅.

Definition reconcile_statefulset (desired : StatefulSet) : M W unit :=
  r ← attempt (CreateOrUpdateStatefulSet desired);
  match r with
  | inl err =>
      match err with
      | EStatus 422 reason _ =>
          if String.eqb reason "Invalid" then
            d ← attempt (kube_delete (OStatefulSet desired));
            match d with
            | inl e => fail (EWrap "failed to delete StatefulSet to avoid forbidden action" e)
            | inr _ => mret tt
            end
          else fail (EWrap "updating StatefulSet failed" err)
      | _ => fail (EWrap "updating StatefulSet failed" err)
      end
  | inr _ => mret tt
  end.

Definition reconcile_resource (resource : ResourceFn W) : M W unit :=
  r ← resource;
  match r with
  | None => mret tt
  | Some (obj, OperationDelete) =>
      d ← attempt (kube_delete obj);
      match d with
      | inl err => if negb (apierrors_IsNotFound err) then fail err else mret tt
      | inr _ => mret tt
      end
  | Some (obj, OperationCreateOrUpdate) =>
      match obj with
      | ODeployment desired => CreateOrUpdateDeployment desired ;; mret tt
      | OCoreService desired => CreateOrUpdateService desired ;; mret tt
      | OServiceAccount desired => CreateOrUpdateServiceAccount desired ;; mret tt
      | OStatefulSet desired => reconcile_statefulset desired
      | _ => CreateOrUpdate obj ;; mret tt
      end
  end.

Definition ReconcileResources (resources : list (ResourceFn W)) : M W unit :=
  for_each reconcile_resource resources.

Definition QualifiedName (appName instanceName : string) (suffix : list string) : string :=
  let name := appName +:+ "-" +:+ instanceName in
  match suffix with [] => name | _ => name +:+ "-" +:+ join "-" suffix end.

Definition probe (failure period : Z) (scheme path : string) : Probe := {|
  pr_InitialDelaySeconds := 0; pr_TimeoutSeconds := 0; pr_PeriodSeconds := period;
  pr_SuccessThreshold := 0; pr_FailureThreshold := failure;
  pr_Handler := HTTPGet scheme path HTTPPortName |}.
Definition DefaultLivenessProbe : Probe := probe 4 30 "HTTP" "/-/healthy".
Definition DefaultReadinessProbe : Probe := probe 20 5 "HTTP" "/-/ready".
Definition DefaultLivenessProbeWithTLS : Probe := probe 4 30 "HTTPS" "/-/healthy".
Definition DefaultReadinessProbeWithTLS : Probe := probe 20 5 "HTTPS" "/-/ready".

(** *** Data volumes *)

Definition add_volume (v : Volume) (sts : StatefulSet) : StatefulSet :=
  let t := sts_Template sts in
  let p := pt_Spec t in
  {| sts_Meta := sts_Meta sts; sts_Replicas := sts_Replicas sts;
     sts_Selector := sts_Selector sts; sts_ServiceName := sts_ServiceName sts;
     sts_Template := {| pt_Labels := pt_Labels t; pt_Annotations := pt_Annotations t;
       pt_Spec := {| ps_NodeSelector := ps_NodeSelector p; ps_Tolerations := ps_Tolerations p;
         ps_Affinity := ps_Affinity p; ps_SecurityContext := ps_SecurityContext p;
         ps_ImagePullSecrets := ps_ImagePullSecrets p;
         ps_ServiceAccountName := ps_ServiceAccountName p;
         ps_TerminationGracePeriodSeconds := ps_TerminationGracePeriodSeconds p;
         ps_Volumes := ps_Volumes p ++ [v]; ps_InitContainers := ps_InitContainers p;
         ps_Containers := ps_Containers p |} |};
     sts_VolumeClaimTemplates := sts_VolumeClaimTemplates sts;
     sts_PVCRetentionPolicy := sts_PVCRetentionPolicy sts |}.

Definition set_claims (claims : list PersistentVolumeClaim)
    (policy : option PVCRetentionPolicy) (sts : StatefulSet) : StatefulSet :=
  {| sts_Meta := sts_Meta sts; sts_Replicas := sts_Replicas sts;
     sts_Selector := sts_Selector sts; sts_ServiceName := sts_ServiceName sts;
     sts_Template := sts_Template sts; sts_VolumeClaimTemplates := claims;
     sts_PVCRetentionPolicy := policy |}.

Definition add_mount (m : VolumeMount) (c : Container) : Container :=
  {| c_Name := c_Name c; c_Image := c_Image c; c_ImagePullPolicy := c_ImagePullPolicy c;
     c_Command := c_Command c; c_Args := c_Args c; c_Resources := c_Resources c;
     c_Ports := c_Ports c; c_Env := c_Env c; c_VolumeMounts := c_VolumeMounts c ++ [m];
     c_LivenessProbe := c_LivenessProbe c; c_ReadinessProbe := c_ReadinessProbe c |}.

Definition valid_policy (p : string) : string :=
  if negb (String.eqb p "Retain") && negb (String.eqb p "Delete") then "Retain" else p.

Definition normalize_policy (p : PVCRetentionPolicy) : PVCRetentionPolicy :=
  {| rp_WhenDeleted := valid_policy (rp_WhenDeleted p); rp_WhenScaled := valid_policy (rp_WhenScaled p) |}.

Definition claim_with_defaults (pvc : PersistentVolumeClaim) : PersistentVolumeClaim :=
  {| pvc_Meta := if String.eqb (om_Name (pvc_Meta pvc)) ""
                 then set_om_Name TSDBVolumeName (pvc_Meta pvc) else pvc_Meta pvc;
     pvc_AccessModes := match pvc_AccessModes pvc with [] => ["ReadWriteOnce"] | l => l end;
     pvc_Rest := pvc_Rest pvc |}.

(** The stateful set, the container, and the data volume, whose retention
    policy is normalised in place. *)
Definition AddTSDBVolume (sts : StatefulSet) (container : Container)
    (dataVolume : option KubernetesVolume) : StatefulSet * Container * option KubernetesVolume :=
  let mount name := {| vm_Name := name; vm_ReadOnly := false; vm_MountPath := StorageDir; vm_SubPath := "" |} in
  let emptyDir e := {| vol_Name := TSDBVolumeName; vol_Source := VSEmptyDir e |} in
  match dataVolume with
  | None => (add_volume (emptyDir "") sts, add_mount (mount TSDBVolumeName) container, dataVolume)
  | Some dv =>
      match kv_PersistentVolumeClaim dv, kv_EmptyDir dv with
      | None, None =>
          (add_volume (emptyDir "") sts, add_mount (mount TSDBVolumeName) container, dataVolume)
      | Some pvc, _ =>
          let pvc := claim_with_defaults pvc in
          let policy := normalize_policy <$> kv_PersistentVolumeClaimRetentionPolicy dv in
          (set_claims [pvc] (match policy with None => sts_PVCRetentionPolicy sts | _ => policy end) sts,
           add_mount (mount (om_Name (pvc_Meta pvc))) container,
           Some {| kv_EmptyDir := kv_EmptyDir dv;
                   kv_PersistentVolumeClaim := kv_PersistentVolumeClaim dv;
                   kv_PersistentVolumeClaimRetentionPolicy := policy |})
      | None, Some e =>
          (add_volume (emptyDir e) sts, add_mount (mount TSDBVolumeName) container, dataVolume)
      end
  end.
End base.

Section hashes.
Context {W : Type} `{!Kube W} `{!K8sLib} `{!MapRange} `{!BaseLib}.

(** The key of [namespaceName]; a panic when it has no dot. *)
Definition split_key (namespaceName : string) : M W NamespacedName :=
  let array := split_on "."%char namespaceName in
  name ← lift_outcome (index_str array 1);
  ns ← lift_outcome (index_str array 0);
  mret {| nn_Namespace := ns; nn_Name := name |}.

(** The tenants that are not being deleted, and the bytes hashed. *)
Definition live_tenants (items : list Tenant) : list string :=
  (λ item, om_Name (tn_Meta item)) <$>
    filter (λ item : Tenant, om_DeletionTimestamp (tn_Meta item) = None) items.

Definition tenant_digest (items : list Tenant) : string :=
  md5_hex (String.concat "" (sort_strings (live_tenants items))).

Definition GetTenantHash (selector : StrMap) : M W string :=
  items ← List (A:=Tenant) (MatchingLabels selector);
  mret (tenant_digest items).

Definition getValueFromSecret (ref : option SecretKeySelector) (namespace : string) : M W string :=
  match ref with
  | None => mret ""
  | Some ref =>
      secret ← Get (A:=Secret) {| nn_Namespace := namespace; nn_Name := sks_Name ref |};
      mret (map_get (sec_Data secret) (sks_Key ref))
  end.
Definition GetValueFromSecret := getValueFromSecret.

(** *** Searching and editing a YAML document *)

(** [findYamlNodeByKey] returns a pointer into the document: here the path
    to the node, child index by child index. *)
Fixpoint findYamlNodeByKey (key : string) (root : YNode) : option (list nat) :=
  let 'YN _ _ content := root in
  (fix go (i : nat) (l : list YNode) : option (list nat) :=
     match l with
     | [] => None
     | n :: l' =>
         if String.eqb (yn_Value n) key && (match l' with [] => false | _ => true end)
         then Some [S i]
         else match findYamlNodeByKey key n with
              | Some p => Some (i :: p)
              | None => go (S i) l'
              end
     end) O content.

Fixpoint node_at (p : list nat) (n : YNode) : option YNode :=
  match p with
  | [] => Some n
  | i :: p' => match yn_Content n !! i with Some c => node_at p' c | None => None end
  end.

Fixpoint edit_at (p : list nat) (f : YNode → YNode) (n : YNode) : YNode :=
  match p with
  | [] => f n
  | i :: p' => let 'YN v r c := n in YN v r (alter (edit_at p' f) i c)
  end.

(** [if n := findYamlNodeByKey(root, key); n != nil { n.SetString(s) }] *)
Definition set_key (key s : string) (root : YNode) : YNode :=
  match findYamlNodeByKey key root with
  | Some p => edit_at p (node_SetString s) root
  | None => root
  end.

(** *** The object-store configuration *)

Definition secret_file (ref : SecretKeySelector) : string :=
  ConfigPath +:+ sks_Name ref +:+ "/" +:+ sks_Key ref.

Definition set_file (key : string) (ref : option SecretKeySelector) (root : YNode) : YNode :=
  match ref with Some ref => set_key key (secret_file ref) root | None => root end.

(** A nil slice of bytes is the empty string. *)
Definition GetStorageConfig (namespaceName : string) : M W string :=
  if String.eqb namespaceName LocalStorage then mret ""
  else
    key ← split_key namespaceName;
    storage ← Get (A:=Storage) key;
    match sto_S3 (stg_Spec storage) with
    | None => mret ""
    | Some s3 =>
        match yaml_Marshal_bucket StorageProviderS3 s3 with
        | inl err => fail err
        | inr bs =>
            match yaml_Unmarshal bs with
            | inl err => fail err
            | inr root =>
                access ← getValueFromSecret (s3_AccessKey s3) (om_Namespace (stg_Meta storage));
                let root := set_key "access_key" access root in
                secret ← getValueFromSecret (s3_SecretKey s3) (om_Namespace (stg_Meta storage));
                let root := set_key "secret_key" secret root in
                let tls := h_TLSConfig (s3_HTTPConfig s3) in
                let root := set_file "ca_file" (tls_CA tls) root in
                let root := set_file "cert_file" (tls_Cert tls) root in
                let root := set_file "key_file" (tls_Key tls) root in
                match yaml_Marshal_node root with
                | inl err => fail err
                | inr out => mret out
                end
            end
        end
    end.

Definition GetStorageHash (namespaceName : string) : M W string :=
  key ← split_key namespaceName;
  storage ← Get (A:=Storage) key;
  storageConfig ← GetStorageConfig namespaceName;
  match sto_S3 (stg_Spec storage) with
  | None => mret (md5_hex storageConfig)
  | Some s3 =>
      let tls := h_TLSConfig (s3_HTTPConfig s3) in
      let ns := om_Namespace (stg_Meta storage) in
      ca ← getValueFromSecret (tls_CA tls) ns;
      key ← getValueFromSecret (tls_Key tls) ns;
      cert ← getValueFromSecret (tls_Cert tls) ns;
      mret (md5_hex (storageConfig +:+ ca +:+ key +:+ cert))
  end.

(** *** Volumes *)

Definition appendVolumesAndVolumeMounts (volumes : list Volume) (volumeMounts : list VolumeMount)
    (ref : option SecretKeySelector) : list Volume * list VolumeMount :=
  match ref with
  | None => (volumes, volumeMounts)
  | Some ref =>
      let volume := {| vol_Name := sks_Name ref;
        vol_Source := VSSecret {| svs_SecretName := sks_Name ref;
          svs_DefaultMode := Some 420%Z; svs_Items := [] |} |} in
      let '(volumes', replaced) :=
        ReplaceInSlice volumes (λ v, String.eqb (vol_Name v) (vol_Name volume)) volume in
      let volumes' := if negb replaced then volumes' ++ [volume] else volumes' in
      let volumeMount := {| vm_Name := sks_Name ref; vm_ReadOnly := true;
        vm_MountPath := ConfigPath +:+ sks_Name ref +:+ "/"; vm_SubPath := "" |} in
      let '(mounts', replaced) :=
        ReplaceInSlice volumeMounts (λ v, String.eqb (vm_Name v) (vm_Name volumeMount)) volumeMount in
      let mounts' := if negb replaced then mounts' ++ [volumeMount] else mounts' in
      (volumes', mounts')
  end.

Definition VolumesAndVolumeMountsForStorage (namespaceName : string)
    : M W (list Volume * list VolumeMount) :=
  key ← split_key namespaceName;
  storage ← Get (A:=Storage) key;
  match sto_S3 (stg_Spec storage) with
  | None => mret ([], [])
  | Some s3 =>
      let tls := h_TLSConfig (s3_HTTPConfig s3) in
      let '(v, m) := appendVolumesAndVolumeMounts [] [] (tls_CA tls) in
      let '(v, m) := appendVolumesAndVolumeMounts v m (tls_Cert tls) in
      mret (appendVolumesAndVolumeMounts v m (tls_Key tls))
  end.

Definition BuildEnvoySidecarContainer (spec : SidecarSpec) (volumeMounts : list VolumeMount) : Container := {|
  c_Name := "envoy-sidecar"; c_Image := sc_Image spec; c_ImagePullPolicy := "";
  c_Command := []; c_Args := ["-c"; EnvoyConfigMountPath +:+ "envoy.yaml"];
  c_Resources := sc_Resources spec; c_Ports := []; c_Env := []; c_VolumeMounts := volumeMounts;
  c_LivenessProbe := None; c_ReadinessProbe := None |}.

Definition ro_mount (name path : string) : VolumeMount :=
  {| vm_Name := name; vm_ReadOnly := true; vm_MountPath := path; vm_SubPath := "" |}.

(** One loop of [BuildCommonVolumes]: a volume and a mount per name. *)
Fixpoint named_volumes (prefix path : string) (source : string → VolumeSource)
    (names : list string) (acc : list Volume * list VolumeMount)
    : GoError + (list Volume * list VolumeMount) :=
  match names with
  | [] => inr acc
  | s :: names' =>
      match DNS1123Label prefix s with
      | inl err => inl err
      | inr name =>
          named_volumes prefix path source names'
            (acc.1 ++ [{| vol_Name := name; vol_Source := source s |}],
             acc.2 ++ [ro_mount name (path +:+ s)])
      end
  end.

Definition BuildCommonVolumes (tlsAssetSecrets : list string) (config : string)
    (configmaps secrets : list string) : GoError + (list Volume * list VolumeMount) :=
  let volumes := [{| vol_Name := "envoy-config"; vol_Source := VSConfigMap config |}] in
  let volumeMounts := [ro_mount "envoy-config" EnvoyConfigMountPath] in
  let '(volumes, volumeMounts) :=
    match tlsAssetSecrets with
    | [] => (volumes, volumeMounts)
    | _ => (volumes ++ [{| vol_Name := "tls-assets"; vol_Source := VSProjected tlsAssetSecrets |}],
            volumeMounts ++ [ro_mount "tls-assets" EnvoyCertsMountPath])
    end in
  match named_volumes "secret" EnvoySecretMountPath
          (λ s, VSSecret {| svs_SecretName := s; svs_DefaultMode := None; svs_Items := [] |})
          secrets (volumes, volumeMounts) with
  | inl err => inl err
  | inr acc => named_volumes "configmap" EnvoyConfigMapMountPath VSConfigMap configmaps acc
  end.
End hashes.

(** ** service.go: the defaults of a service *)

Section defaults.
Context `{!BaseLib}.

Definition DefaultWhizardMonitoringGatewayImage : string :=
  "docker.io/kubesphere/whizard-monitoring-gateway:" +:+ build_version.
Definition DefaultWhizardBlockManagerImage : string :=
  "docker.io/kubesphere/whizard-monitoring-block-manager:" +:+ build_version.

Definition default_image (image d : string) : string := if String.eqb image "" then d else image.
Definition default_resources (r d : ResourceRequirements) : ResourceRequirements :=
  if Z.eqb (resources_Size r) 0 then d else r.

(** The three tests the source repeats for every component. *)
Definition default_common (image : string) (replicas : Z) (res : ResourceRequirements)
    (c : CommonSpec) : CommonSpec := {|
  Replicas := match Replicas c with None => Some replicas | r => r end;
  Image := default_image (Image c) image;
  ImagePullPolicy := ImagePullPolicy c;
  Resources := default_resources (Resources c) res;
  LogLevel := LogLevel c; LogFormat := LogFormat c; Flags := Flags c;
  PodMetadata := PodMetadata c; ConfigMaps := ConfigMaps c; Secrets := Secrets c;
  Containers := Containers c; EmbeddedContainers := EmbeddedContainers c;
  ImagePullSecrets := ImagePullSecrets c; SecurityContext := SecurityContext c;
  Affinity := Affinity c; NodeSelector := NodeSelector c; Tolerations := Tolerations c |}.

Definition default_sidecar (image : string) (res : ResourceRequirements) (s : SidecarSpec) : SidecarSpec :=
  {| sc_Image := default_image (sc_Image s) image; sc_Resources := default_resources (sc_Resources s) res |}.

Definition default_compactor (t : CompactorTemplateSpec) : CompactorTemplateSpec :=
  let s := ct_Spec t in {|
  ct_Spec := {| csp_Tenants := csp_Tenants s; csp_DisableDownsampling := csp_DisableDownsampling s;
    csp_Retention := csp_Retention s; csp_DataVolume := csp_DataVolume s;
    csp_Common := default_common DefaultWhizardBaseImage 1 ComponentResourcePresetMedium (csp_Common s) |};
  DefaultTenantsPerCompactor := DefaultTenantsPerCompactor t |}.

Definition default_gateway (s : GatewaySpec) : GatewaySpec := {|
  gsp_WebConfig := gsp_WebConfig s; gsp_DebugMode := gsp_DebugMode s;
  gsp_EnabledTenantsAdmission := gsp_EnabledTenantsAdmission s; gsp_NodePort := gsp_NodePort s;
  gsp_Common := default_common DefaultWhizardMonitoringGatewayImage 2
    ComponentResourcePresetMedium (gsp_Common s) |}.

Definition default_ingester (t : IngesterTemplateSpec) : IngesterTemplateSpec :=
  let s := it_Spec t in {|
  it_Spec := {| isp_Tenants := isp_Tenants s; isp_OtlpEnableTargetInfo := isp_OtlpEnableTargetInfo s;
    isp_OtlpResourceAttributes := isp_OtlpResourceAttributes s;
    isp_LocalTsdbRetention := if String.eqb (isp_LocalTsdbRetention s) "" then "7d" else isp_LocalTsdbRetention s;
    isp_DataVolume := isp_DataVolume s;
    isp_Common := default_common DefaultWhizardBaseImage 2 ComponentResourcePresetLarge (isp_Common s);
    isp_IngesterTSDBCleanUp := default_sidecar DefaultIngesterTSDBCleanupImage
      ComponentResourcePresetMedium (isp_IngesterTSDBCleanUp s) |};
  DefaultTenantsPerIngester := DefaultTenantsPerIngester t;
  DefaultIngesterRetentionPeriod := DefaultIngesterRetentionPeriod t;
  DisableTSDBCleanup := DisableTSDBCleanup t |}.

Definition default_query_frontend (s : QueryFrontendSpec) : QueryFrontendSpec := {|
  qfs_CacheConfig := qfs_CacheConfig s; qfs_WebConfig := qfs_WebConfig s;
  qfs_Common := default_common DefaultWhizardBaseImage 2 ComponentResourcePresetMedium (qfs_Common s) |}.

Definition default_query (s : QuerySpec) : QuerySpec := {|
  qsp_PromqlEngine := qsp_PromqlEngine s; qsp_SelectorLabels := qsp_SelectorLabels s;
  qsp_ReplicaLabelNames := qsp_ReplicaLabelNames s; qsp_WebConfig := qsp_WebConfig s;
  qsp_Stores := qsp_Stores s;
  qsp_Envoy := default_sidecar DefaultEnvoyImage ComponentResourcePresetMedium (qsp_Envoy s);
  qsp_Common := default_common DefaultWhizardBaseImage 3 ComponentResourcePresetMedium (qsp_Common s) |}.

Definition reloader_resources : ResourceRequirements := {|
  rr_Requests := resourceList "100m" "128Mi"; rr_Limits := resourceList "100m" "128Mi"; rr_Claims := [] |}.

Definition default_ruler (t : RulerTemplateSpec) : RulerTemplateSpec :=
  let s := rlt_Spec t in {|
  rlt_Spec := {| rls_RuleSelectors := rls_RuleSelectors s;
    rls_RuleNamespaceSelector := rls_RuleNamespaceSelector s; rls_Shards := rls_Shards s;
    rls_Tenant := rls_Tenant s; rls_QueryConfig := rls_QueryConfig s;
    rls_RemoteWriteConfig := rls_RemoteWriteConfig s; rls_Labels := rls_Labels s;
    rls_AlertDropLabels := rls_AlertDropLabels s; rls_AlertmanagersURL := rls_AlertmanagersURL s;
    rls_AlertmanagersConfig := rls_AlertmanagersConfig s;
    rls_EvaluationInterval := rls_EvaluationInterval s; rls_DataVolume := rls_DataVolume s;
    rls_RulerQueryProxy := default_sidecar DefaultWhizardMonitoringGatewayImage
      ComponentResourcePresetMedium (rls_RulerQueryProxy s);
    rls_RulerWriteProxy := default_sidecar DefaultRulerWriteProxyImage
      ComponentResourcePresetMedium (rls_RulerWriteProxy s);
    rls_PrometheusConfigReloader := default_sidecar DefaultPrometheusConfigReloaderImage
      reloader_resources (rls_PrometheusConfigReloader s);
    rls_Common := default_common DefaultWhizardBaseImage 1 ComponentResourcePresetMedium (rls_Common s) |};
  DisableAlertingRulesAutoSelection := DisableAlertingRulesAutoSelection t |}.

Definition default_router (s : RouterSpec) : RouterSpec := {|
  rsp_ReplicationFactor := match rsp_ReplicationFactor s with None => Some 1%Z | r => r end;
  rsp_ReplicationProtocol := rsp_ReplicationProtocol s; rsp_WebConfig := rsp_WebConfig s;
  rsp_Common := default_common DefaultWhizardBaseImage 2 ComponentResourcePresetMedium (rsp_Common s) |}.

Definition default_store (s : StoreSpec) : StoreSpec := {|
  ssp_MinTime := ssp_MinTime s; ssp_MaxTime := ssp_MaxTime s; ssp_TimeRanges := ssp_TimeRanges s;
  ssp_IndexCacheConfig := ssp_IndexCacheConfig s; ssp_DataVolume := ssp_DataVolume s;
  ssp_Common := default_common DefaultWhizardBaseImage 2 ComponentResourcePresetLarge (ssp_Common s) |}.

Definition ApplyDefaults (service : Service) : Service :=
  let s := sv_Spec service in {|
  sv_Type := sv_Type service; sv_Meta := sv_Meta service;
  sv_Spec := {|
    sv_TenantHeader := sv_TenantHeader s; sv_DefaultTenantId := sv_DefaultTenantId s;
    sv_TenantLabelName := sv_TenantLabelName s; sv_Storage := sv_Storage s;
    sv_RemoteWrites := sv_RemoteWrites s; sv_RemoteQuery := sv_RemoteQuery s;
    GatewayTemplateSpec := default_gateway (GatewayTemplateSpec s);
    QueryFrontendTemplateSpec := default_query_frontend (QueryFrontendTemplateSpec s);
    QueryTemplateSpec := default_query (QueryTemplateSpec s);
    sv_RulerTemplateSpec := default_ruler (sv_RulerTemplateSpec s);
    RouterTemplateSpec := default_router (RouterTemplateSpec s);
    sv_IngesterTemplateSpec := default_ingester (sv_IngesterTemplateSpec s);
    StoreTemplateSpec := default_store (StoreTemplateSpec s);
    sv_CompactorTemplateSpec := default_compactor (sv_CompactorTemplateSpec s) |} |}.
End defaults.

(** ** A concrete instance of the third-party functions, to evaluate with *)

(** A digest to evaluate with: sums of the bytes with different weights. *)
Fixpoint bytes_of (s : string) : list Z :=
  match s with EmptyString => [] | String a s' => Z.of_N (N_of_ascii a) :: bytes_of s' end.
Definition toy_sum (k : nat) (l : list Z) : Z :=
  (foldl (λ acc b, acc * (31 + 2 * Z.of_nat k) + b + 1) 7 l mod 256)%Z.

#[export] Program Instance toy_md5 : Md5 | 100 := {
  md5_Sum s := (λ k, toy_sum k (bytes_of s)) <$> seq 0 16;
}.
Next Obligation.
  intros s. split; [by rewrite length_fmap, length_seq|]. apply list.Forall_forall.
  intros b (k & -> & _)%list_elem_of_fmap. apply Z.mod_pos_bound. lia.
Qed.

#[export] Program Instance std_baselib : BaseLib | 100 := {
  base_md5 := toy_md5;
  yaml_Marshal_bucket t s3 := inr (s3_Bucket s3);
  yaml_Unmarshal s := inr (YN "" "" [YN "config" "" []; YN "" "" [
    YN "bucket" "" []; YN s "" []; YN "access_key" "" []; YN "" "" []; YN "secret_key" "" []; YN "" "" []]]);
  yaml_Marshal_node n := inr (yn_Value n);
  node_SetString s n := YN s "" [];
  yaml_Marshal_relabel l := inr (join "," ((λ x, x.2) <$> l));
  DNS1123Label p s := inr (p +:+ "-" +:+ s);
  UniqueDNS1123Label p s := s +:+ "-01234567";
  resources_Size r := if decide (r = emptyResources) then 0%Z else 1%Z;
  build_version := "v0";
}.
Next Obligation. done. Qed.
Next Obligation. intros r H. simpl in H. by destruct (decide (r = emptyResources)). Qed.

(** ** Lemmas *)

Lemma index_str_Ok l i s : index_str l i = Ok s ↔ l !! i = Some s.
Proof. unfold index_str. destruct (l !! i); naive_solver. Qed.

Lemma Contains_spec l key : Contains l key = true ↔ key ∈ l.
Proof.
  induction l as [|k l IH]; simpl; [by rewrite elem_of_nil|].
  rewrite elem_of_cons. rewrite <-IH. destruct (String.eqb_spec k key) as [->|Hne].
  - split; [by left|done].
  - split; [by right|by intros [->|H]].
Qed.

(** A fold of insertions that never overwrites is the left-biased union. *)
Lemma fold_append_labels (l : list (string * string)) (m1 : StrMap) k :
  NoDup l.*1 →
  foldl (λ acc kv, match acc !! kv.1 with Some _ => acc | None => <[kv.1 := kv.2]> acc end) m1 l !! k
  = match m1 !! k with Some v => Some v | None => (list_to_map l : StrMap) !! k end.
Proof.
  revert m1. induction l as [|[k' v'] l IH]; intros m1 Hnd; simpl.
  - rewrite lookup_empty. by destruct (m1 !! k).
  - apply NoDup_cons in Hnd as [Hk' Hnd]. rewrite IH by done.
    destruct (m1 !! k') eqn:E.
    + destruct (m1 !! k) eqn:E'; [done|].
      rewrite lookup_insert_ne; [done|]. intros ->. congruence.
    + destruct (decide (k' = k)) as [->|Hne].
      * by rewrite !lookup_insert_eq, E.
      * by rewrite !lookup_insert_ne.
Qed.

Lemma map_range_list_to_map `{!MapRange} {V} site (m : gmap string V) :
  list_to_map (map_range site m) = m.
Proof.
  rewrite (list_to_map_proper _ (map_to_list m)).
  - apply list_to_map_to_list.
  - rewrite (fmap_Permutation _ _ _ (map_range_perm site m)). apply NoDup_fst_map_to_list.
  - apply map_range_perm.
Qed.

Lemma map_range_NoDup `{!MapRange} {V} site (m : gmap string V) : NoDup (map_range site m).*1.
Proof. rewrite (fmap_Permutation _ _ _ (map_range_perm site m)). apply NoDup_fst_map_to_list. Qed.

Lemma elem_of_map_range `{!MapRange} {V} site (m : gmap string V) k v :
  (k, v) ∈ map_range site m ↔ m !! k = Some v.
Proof. rewrite (map_range_perm site m). apply elem_of_map_to_list. Qed.

Lemma AppendLabel_union `{!MapRange} (m1 m2 : StrMap) :
  AppendLabel (Some m1) m2 = Some (m1 ∪ m2).
Proof.
  unfold AppendLabel. f_equal. apply map_eq. intros k.
  rewrite fold_append_labels by apply map_range_NoDup.
  rewrite map_range_list_to_map, lookup_union. by destruct (m1 !! k), (m2 !! k).
Qed.

(** Sorting forgets the order. *)
Lemma sort_strings_perm l l' : l ≡ₚ l' → sort_strings l = sort_strings l'.
Proof.
  intros Hp. unfold sort_strings.
  apply (StronglySorted_unique String.le).
  - apply StronglySorted_merge_sort; apply _.
  - apply StronglySorted_merge_sort; apply _.
  - by rewrite !merge_sort_Permutation.
Qed.

(** Induction over a document, children included. *)
Lemma YNode_ind' (P : YNode → Prop) :
  (∀ v r c, Forall P c → P (YN v r c)) → ∀ n, P n.
Proof.
  intros H. fix IH 1. intros [v r c]. apply H.
  induction c as [|n c IHc]; constructor; [apply IH|exact IHc].
Qed.

(** [slot key root p i]: below the node at path [p], child [i] has the value
    [key] and child [i + 1] exists. *)
Definition slot (key : string) (root : YNode) (p : list nat) (i : nat) : Prop :=
  ∃ n k v, node_at p root = Some n ∧ yn_Content n !! i = Some k ∧ yn_Value k = key
           ∧ yn_Content n !! S i = Some v.

Lemma node_at_app p q n m : node_at p n = Some m → node_at (p ++ q) n = node_at q m.
Proof.
  revert n. induction p as [|i p IH]; intros n; simpl; [by intros [= ->]|].
  destruct (yn_Content n !! i); [apply IH|done].
Qed.

(** The scan of one list of children, from index [i]. *)
Definition find_in (key : string) : nat → list YNode → option (list nat) :=
  fix go (i : nat) (l : list YNode) : option (list nat) :=
    match l with
    | [] => None
    | n :: l' =>
        if String.eqb (yn_Value n) key && (match l' with [] => false | _ => true end)
        then Some [S i]
        else match findYamlNodeByKey key n with
             | Some p => Some (i :: p)
             | None => go (S i) l'
             end
    end.

Lemma findYamlNodeByKey_eq key v r c : findYamlNodeByKey key (YN v r c) = find_in key 0 c.
Proof. reflexivity. Qed.

Lemma find_in_sound key c i l q :
  Forall (λ n, ∀ q, findYamlNodeByKey key n = Some q → ∃ p j, q = p ++ [S j] ∧ slot key n p j) l →
  (∀ j, l !! j = c !! (i + j)) → find_in key i l = Some q →
  ∃ p j, q = p ++ [S j] ∧ ∀ v r, slot key (YN v r c) p j.
Proof.
  revert i. induction l as [|n l IH]; intros i Hl Hc Hf; simpl in Hf; [done|].
  apply Forall_cons in Hl as [Hn Hl].
  pose proof (Hc 0) as H0. rewrite Nat.add_0_r in H0. simpl in H0.
  assert (Hc' : ∀ j, l !! j = c !! (S i + j)).
  { intros j. specialize (Hc (S j)). simpl in Hc. rewrite Hc. f_equal. lia. }
  destruct (String.eqb (yn_Value n) key && _) eqn:E.
  - inversion Hf; subst. apply andb_true_iff in E as [E1%String.eqb_eq E2].
    destruct l as [|n' l]; [done|]. exists [], i. split; [done|]. intros v r.
    exists (YN v r c), n, n'. repeat split; [by simpl|done|].
    specialize (Hc' 0). rewrite Nat.add_0_r in Hc'. change (c !! S i = Some n'). by rewrite <-Hc'.
  - destruct (findYamlNodeByKey key n) as [p|] eqn:Ep.
    + inversion Hf; subst. destruct (Hn p eq_refl) as (p' & j & -> & m & k & v & Hm & Hr).
      exists (i :: p'), j. split; [done|]. intros v0 r0. exists m, k, v.
      split; [|done]. simpl. by rewrite <-H0.
    + eapply IH; [done|exact Hc'|exact Hf].
Qed.

Lemma findYamlNodeByKey_sound key root q :
  findYamlNodeByKey key root = Some q → ∃ p i, q = p ++ [S i] ∧ slot key root p i.
Proof.
  revert q. induction root as [v r c IH] using YNode_ind'. intros q Hf.
  rewrite findYamlNodeByKey_eq in Hf.
  destruct (find_in_sound key c 0 c q IH (λ j, eq_refl) Hf) as (p & i & -> & Hs). eauto.
Qed.

Lemma find_in_none key i l :
  Forall (λ n, findYamlNodeByKey key n = None → ∀ p j, ¬ slot key n p j) l →
  find_in key i l = None →
  ∀ j n, l !! j = Some n →
    (∀ p k, ¬ slot key n p k) ∧ (yn_Value n = key → l !! S j = None).
Proof.
  revert i. induction l as [|m l IH]; intros i Hl Hf j n Hj; [done|]. simpl in Hf.
  apply Forall_cons in Hl as [Hm Hl].
  destruct (String.eqb (yn_Value m) key && _) eqn:E; [done|].
  destruct (findYamlNodeByKey key m) eqn:Em; [done|].
  destruct j as [|j]; [|by apply (IH (S i))].
  inversion Hj; subst. split; [by apply Hm|].
  intros <-. rewrite String.eqb_refl in E. destruct l; [done|discriminate].
Qed.

Lemma findYamlNodeByKey_complete key root :
  findYamlNodeByKey key root = None → ∀ p i, ¬ slot key root p i.
Proof.
  induction root as [v r c IH] using YNode_ind'. intros Hf p i.
  rewrite findYamlNodeByKey_eq in Hf.
  pose proof (find_in_none key 0 c IH Hf) as Hno.
  intros (n & k & w & Hn & Hk & Hkey & Hw). destruct p as [|j p].
  - inversion Hn; subst. simpl in Hk, Hw.
    destruct (Hno i k Hk) as [_ H]. rewrite (H eq_refl) in Hw. done.
  - simpl in Hn. destruct (c !! j) as [m|] eqn:Ej; [|done].
    destruct (Hno j m Ej) as [H _]. apply (H p i). by exists n, k, w.
Qed.

Lemma node_at_edit p f n m :
  node_at p n = Some m → node_at p (edit_at p f n) = Some (f m).
Proof.
  revert n. induction p as [|i p IH]; intros [v r c]; simpl; [by intros [= <-]|].
  destruct (c !! i) as [x|] eqn:E; [|done]. intros H.
  rewrite list_lookup_alter_eq, E. simpl. by apply IH.
Qed.

(** Only the path to the edited node changes. *)
Lemma node_at_edit_other p q f n :
  ¬ p `prefix_of` q → ¬ q `prefix_of` p → node_at q (edit_at p f n) = node_at q n.
Proof.
  revert q n. induction p as [|i p IH]; intros q [v r c] Hp Hq.
  - destruct Hp. apply prefix_nil.
  - destruct q as [|j q]; [destruct Hq; apply prefix_nil|]. simpl.
    destruct (decide (i = j)) as [->|Hne].
    + rewrite list_lookup_alter_eq. destruct (c !! j) as [x|]; [|done]. simpl.
      apply IH; intros H; [apply Hp|apply Hq]; by apply prefix_cons.
    + by rewrite list_lookup_alter_ne.
Qed.

(** What filling a key of the document amounts to: the value after an
    occurrence of the key changes and nothing else does, or the key has no
    occurrence with a value and the document is unchanged. *)
Definition edits_slot (key : string) (root root' : YNode) (v : YNode → YNode) : Prop :=
  (∃ p i old, slot key root p i ∧ node_at (p ++ [S i]) root = Some old
     ∧ node_at (p ++ [S i]) root' = Some (v old)
     ∧ ∀ q, ¬ (p ++ [S i]) `prefix_of` q → ¬ q `prefix_of` (p ++ [S i]) →
         node_at q root' = node_at q root)
  ∨ ((∀ p i, ¬ slot key root p i) ∧ root' = root).

(** Filling in the access key, the secret key or a file of the object-store
    configuration changes exactly the value that follows an occurrence of the
    key, and finds it whenever the document has one. *)
Theorem set_key_edits `{!BaseLib} key s root :
  edits_slot key root (set_key key s root) (node_SetString s).
Proof.
  unfold set_key. destruct (findYamlNodeByKey key root) as [q|] eqn:E.
  - left. destruct (findYamlNodeByKey_sound _ _ _ E) as (p & i & -> & Hs).
    pose proof Hs as (n & k & v & Hn & Hk & Hkey & Hv).
    assert (Hold : node_at (p ++ [S i]) root = Some v).
    { rewrite (node_at_app _ _ _ _ Hn). simpl. by rewrite Hv. }
    exists p, i, v. repeat split; [done|done|by apply node_at_edit|].
    intros q Hq1 Hq2. by apply node_at_edit_other.
  - right. split; [|done]. by apply findYamlNodeByKey_complete.
Qed.

(** The hash of a service's tenants. *)

(** The hash depends on the set of live tenants only: not on the order the
    API server lists them in, nor on the tenants that are being deleted. *)
Theorem tenant_digest_order `{!BaseLib} items items' :
  live_tenants items ≡ₚ live_tenants items' → tenant_digest items = tenant_digest items'.
Proof. intros Hp. unfold tenant_digest. by rewrite (sort_strings_perm _ _ Hp). Qed.

(** Volumes for the certificates of a storage. *)

Lemma ReplaceInSlice_replaced {A} (s : list A) fn new s' :
  ReplaceInSlice s fn new = (s', true) →
  ∃ a x b, s = a ++ x :: b ∧ fn x = true ∧ Forall (λ y, fn y = false) a ∧ s' = a ++ new :: b.
Proof.
  revert s'. induction s as [|x s IH]; intros s' Hs; simpl in Hs; [done|].
  destruct (fn x) eqn:E.
  - inversion Hs; subst. by exists [], x, s.
  - destruct (ReplaceInSlice s fn new) as [r b] eqn:Er. inversion Hs; subst.
    destruct (IH r eq_refl) as (a & y & c & -> & Hy & Ha & ->).
    exists (x :: a), y, c. repeat split; [done|]. by constructor.
Qed.

Lemma ReplaceInSlice_not {A} (s : list A) fn new s' :
  ReplaceInSlice s fn new = (s', false) → s' = s ∧ Forall (λ y, fn y = false) s.
Proof.
  revert s'. induction s as [|x s IH]; intros s' Hs; simpl in Hs; [by inversion Hs|].
  destruct (fn x) eqn:E; [done|].
  destruct (ReplaceInSlice s fn new) as [r b] eqn:Er. inversion Hs; subst.
  destruct (IH r eq_refl) as [-> Ha]. split; [done|]. by constructor.
Qed.

(** Replace the element of the same name, or append: names stay distinct. *)
Lemma replace_or_append_names {A} (name : A → string) (s : list A) (new : A) :
  NoDup (name <$> s) →
  let '(s', replaced) := ReplaceInSlice s (λ v, String.eqb (name v) (name new)) new in
  let s' := if negb replaced then s' ++ [new] else s' in
  NoDup (name <$> s') ∧ new ∈ s' ∧
  ∀ n, n ∈ (name <$> s') ↔ n = name new ∨ n ∈ (name <$> s).
Proof.
  intros Hnd. destruct (ReplaceInSlice _ _ _) as [s' []] eqn:E; simpl.
  - apply ReplaceInSlice_replaced in E as (a & x & b & -> & Hx & _ & ->).
    apply String.eqb_eq in Hx.
    assert (Heq : name <$> a ++ new :: b = name <$> a ++ x :: b).
    { rewrite !fmap_app, !fmap_cons. by rewrite Hx. }
    rewrite Heq. split; [done|]. split; [set_solver|].
    intros n. rewrite fmap_app, fmap_cons, Hx. set_solver.
  - apply ReplaceInSlice_not in E as [-> Hno]. rewrite fmap_app. split.
    + apply NoDup_app. split; [done|]. split; [|apply NoDup_singleton].
      intros n (y & -> & Hy)%list_elem_of_fmap. rewrite list.Forall_forall in Hno.
      specialize (Hno y Hy). apply String.eqb_neq in Hno. set_solver.
    + split; [set_solver|]. set_solver.
Qed.

(** Mounting the CA, the certificate and the key of a storage never mounts a
    secret twice, however the three references coincide, and mounts every
    secret that is referenced. *)
Theorem storage_volumes_distinct (refs : list SecretKeySelector) :
  let '(volumes, mounts) :=
    foldl (λ acc ref, appendVolumesAndVolumeMounts acc.1 acc.2 (Some ref)) ([], []) refs in
  NoDup (vol_Name <$> volumes) ∧ NoDup (vm_Name <$> mounts) ∧
  ∀ n, n ∈ (sks_Name <$> refs) ↔ n ∈ (vol_Name <$> volumes) ∧ n ∈ (vm_Name <$> mounts).
Proof.
  induction refs as [|ref refs IH] using rev_ind.
  - simpl. repeat split; [constructor|constructor|set_solver..].
  - rewrite foldl_app. simpl.
    destruct (foldl _ _ refs) as [volumes mounts]. destruct IH as (Hv & Hm & Hn).
    unfold appendVolumesAndVolumeMounts. cbn [fst snd].
    pose proof (replace_or_append_names vol_Name volumes
      {| vol_Name := sks_Name ref; vol_Source := VSSecret {| svs_SecretName := sks_Name ref;
            svs_DefaultMode := Some 420%Z; svs_Items := [] |} |} Hv) as H1.
    pose proof (replace_or_append_names vm_Name mounts
      {| vm_Name := sks_Name ref; vm_ReadOnly := true;
         vm_MountPath := ConfigPath +:+ sks_Name ref +:+ "/"; vm_SubPath := "" |} Hm) as H2.
    cbn [vol_Name vm_Name] in *.
    destruct (ReplaceInSlice volumes _ _) as [v' rv], (ReplaceInSlice mounts _ _) as [m' rm].
    destruct H1 as (H1 & _ & H1'), H2 as (H2 & _ & H2').
    split; [done|]. split; [done|]. intros n. rewrite H1', H2', fmap_app. set_solver.
Qed.

(** Defaults. *)

Definition set_in (c : CommonSpec) : Prop :=
  Image c ≠ "" ∧ Replicas c ≠ None ∧ Resources c ≠ emptyResources.

Definition template_commons (s : ServiceSpec) : list CommonSpec :=
  [csp_Common (ct_Spec (sv_CompactorTemplateSpec s)); gsp_Common (GatewayTemplateSpec s);
   isp_Common (it_Spec (sv_IngesterTemplateSpec s)); qfs_Common (QueryFrontendTemplateSpec s);
   qsp_Common (QueryTemplateSpec s); rls_Common (rlt_Spec (sv_RulerTemplateSpec s));
   rsp_Common (RouterTemplateSpec s); ssp_Common (StoreTemplateSpec s)].

Section defaults_lemmas.
Context {HB : BaseLib}.

Lemma default_image_idem i d : default_image (default_image i d) d = default_image i d.
Proof. unfold default_image. destruct (String.eqb i "") eqn:E; [|by rewrite E]. by destruct (String.eqb d ""). Qed.

Lemma default_resources_idem r d :
  default_resources (default_resources r d) d = default_resources r d.
Proof.
  unfold default_resources. destruct (resources_Size r =? 0)%Z eqn:E; [|by rewrite E].
  by destruct (resources_Size d =? 0)%Z.
Qed.

Lemma default_common_idem i n r c :
  default_common i n r (default_common i n r c) = default_common i n r c.
Proof.
  destruct c as [rep]. unfold default_common; simpl.
  rewrite default_image_idem, default_resources_idem. by destruct rep.
Qed.

Lemma default_sidecar_idem i r s :
  default_sidecar i r (default_sidecar i r s) = default_sidecar i r s.
Proof. unfold default_sidecar; simpl. by rewrite default_image_idem, default_resources_idem. Qed.

Lemma default_common_set i n r c :
  i ≠ "" → r ≠ emptyResources → set_in (default_common i n r c).
Proof.
  intros Hi Hr. unfold set_in, default_common; simpl.
  unfold default_image, default_resources. repeat split.
  - destruct (String.eqb_spec (Image c) ""); done.
  - by destruct (Replicas c).
  - destruct (Z.eqb_spec (resources_Size (Resources c)) 0) as [|H]; [done|].
    intros E. apply H. rewrite E. apply resources_Size_empty.
Qed.

Lemma default_common_keeps i n r c : set_in c → default_common i n r c = c.
Proof.
  intros (Hi & Hn & Hr). destruct c as [rep img ? res]; unfold default_common; simpl in *.
  unfold default_image, default_resources. destruct (String.eqb_spec img ""); [done|].
  destruct (Z.eqb_spec (resources_Size res) 0) as [E|];
    [by apply resources_Size_set in E|]. by destruct rep.
Qed.
End defaults_lemmas.
#[export] Hint Rewrite @default_common_idem @default_sidecar_idem @default_image_idem
  @default_resources_idem : whizard_rw.

Section template_lemmas.
Context {HB : BaseLib}.
Ltac idem := intros; simpl; autorewrite with whizard_rw; try reflexivity.

Lemma default_compactor_idem t : default_compactor (default_compactor t) = default_compactor t.
Proof. unfold default_compactor. idem. Qed.
Lemma default_gateway_idem s : default_gateway (default_gateway s) = default_gateway s.
Proof. unfold default_gateway. idem. Qed.
Lemma default_query_frontend_idem s :
  default_query_frontend (default_query_frontend s) = default_query_frontend s.
Proof. unfold default_query_frontend. idem. Qed.
Lemma default_query_idem s : default_query (default_query s) = default_query s.
Proof. unfold default_query. idem. Qed.
Lemma default_ruler_idem t : default_ruler (default_ruler t) = default_ruler t.
Proof. unfold default_ruler. idem. Qed.
Lemma default_store_idem s : default_store (default_store s) = default_store s.
Proof. unfold default_store. idem. Qed.
Lemma default_router_idem s : default_router (default_router s) = default_router s.
Proof. unfold default_router. idem. by destruct (rsp_ReplicationFactor s). Qed.
Lemma default_ingester_idem t : default_ingester (default_ingester t) = default_ingester t.
Proof.
  unfold default_ingester. idem.
  by destruct (String.eqb (isp_LocalTsdbRetention (it_Spec t)) "") eqn:E; rewrite ?E.
Qed.
End template_lemmas.
#[export] Hint Rewrite @default_compactor_idem @default_gateway_idem @default_query_frontend_idem
  @default_query_idem @default_ruler_idem @default_store_idem @default_router_idem
  @default_ingester_idem : whizard_rw.

(** After [ApplyDefaults] every component template of a service has an
    image, a replica count and resources; what the user set is kept; applying
    the defaults again changes nothing. *)
Theorem ApplyDefaults_complete `{!BaseLib} (s : Service) :
  Forall set_in (template_commons (sv_Spec (ApplyDefaults s)))
  ∧ (∀ n c, template_commons (sv_Spec s) !! n = Some c → set_in c →
       template_commons (sv_Spec (ApplyDefaults s)) !! n = Some c)
  ∧ ApplyDefaults (ApplyDefaults s) = ApplyDefaults s.
Proof.
  split; [|split].
  - repeat constructor; by apply default_common_set.
  - intros n c Hn Hc.
    do 8 (destruct n as [|n]; [inversion Hn; subst; simpl; by rewrite default_common_keeps|]).
    done.
  - unfold ApplyDefaults; simpl. by autorewrite with whizard_rw.
Qed.
