(* ===== verification/ClientFacts.v ===== *)
(** The requests of the client utilities: what [CreateOrUpdate] and its
    variants, and the resources a reconciler applies, may ask of the API
    server, whatever it answers. *)
From stdpp Require Import base gmap strings list pretty.
From S2P Require Import Prelude GoStd K8s Api Objects Client Clients Base.
Open Scope nat_scope.

(** The requests that look up objects, and create or update the one of a key. *)
Definition upserts (k : Key) (c : Call) : Prop :=
  match c with
  | CGet _ _ => True
  | CCreate o | CUpdate o => obj_key o = k
  | _ => False
  end.

Section upserts.
Context {W : Type} `{HK : Kube W} {HL : K8sLib}.
Variable k : Key.

(** The bodies that run inside [RetryOnConflict]: as long as they fail, the
    desired object keeps its key. *)
Definition keeps_key (m : M (Logged W * Object) unit) : Prop :=
  ∀ s r s', obj_key s.2 = k → m s = (r, s') →
    (∃ l, log_of s' = log_of s ++ l ∧ Forall (upserts k) l)
    ∧ (∀ e, r = Err e → obj_key s'.2 = k).

Lemma keeps_key_retry m : keeps_key m → keeps_key (RetryOnConflict m).
Proof.
  intros Hm s r s' Hs Hrun. destruct (RetryOnConflict_spec m s) as (s1 & Hruns & E).
  rewrite E in Hrun. clear E. induction Hruns as [s|s e s2 s3 H1 _ _ IH].
  - by apply (Hm s).
  - destruct (Hm s _ _ Hs H1) as [(l1 & Hl1 & HP1) Hk].
    destruct (IH (Hk e eq_refl) Hrun) as [(l2 & Hl2 & HP2) Hk2]. split; [|done].
    exists (l1 ++ l2). rewrite Hl2, Hl1, <-app_assoc. split; [done|]. by apply Forall_app.
Qed.

Lemma keeps_key_ret : keeps_key (mret tt).
Proof. intros s r s' Hs [= <- <-]. split; [exists []; by rewrite app_nil_r|done]. Qed.
Lemma keeps_key_fail e : keeps_key (fail e).
Proof. intros s r s' Hs [= <- <-]. split; [exists []; by rewrite app_nil_r|done]. Qed.

Lemma keeps_key_set o m : obj_key o = k → keeps_key m → keeps_key (set_desired o ;; m).
Proof.
  intros Ho Hm s r s' Hs Hrun. destruct (Hm (s.1, o) r s' Ho Hrun) as [Hl Hk]. split; [|done].
  exact Hl.
Qed.

(** Writing the desired object. *)
Lemma keeps_key_write (w : Object → M (Logged W) Object) (c : Object → Call) :
  (∀ o s, ∃ r s', w o s = (r, s') ∧ lg_calls s' = lg_calls s ++ [c o]) →
  (∀ o, obj_key o = k → upserts k (c o)) →
  keeps_key (d ← desired_obj; d' ← on_world (w d); set_desired d').
Proof.
  intros Hw Hc [s o] r s' Hs Hrun. destruct (Hw o s) as (r1 & s1 & E & Hlog).
  unfold mbind, M_mbind, M_bind, desired_obj, on_world, zoom in Hrun. simpl in Hrun. rewrite E in Hrun.
  split.
  - exists [c o]. split; [|by apply Forall_singleton, Hc].
    destruct r1; inversion Hrun; subst; exact Hlog.
  - intros e ->. destruct r1; inversion Hrun; subst; done.
Qed.

Lemma record_log {A} c (m : M W A) s : ∃ r s', record c m s = (r, s') ∧ lg_calls s' = lg_calls s ++ [c].
Proof. unfold record. destruct (m (lg_world s)) as [r w]. by eexists _, _. Qed.

Lemma keeps_key_create : keeps_key create_desired.
Proof.
  apply (keeps_key_write kube_create CCreate); [|done]. intros o s. apply record_log.
Qed.
Lemma keeps_key_update : keeps_key update_desired.
Proof.
  apply (keeps_key_write kube_update CUpdate); [|done]. intros o s. apply record_log.
Qed.

(** Looking up an object of some kind, then what follows. *)
Lemma keeps_key_lookup (k' : Object → Kind) (f : Object → GoError + Object → M (Logged W * Object) unit) :
  (∀ d x, obj_key d = k → keeps_key (f d x)) →
  keeps_key (d ← desired_obj; x ← attempt (on_world (kube_get (k' d) (ObjectKeyFromObject d))); f d x).
Proof.
  intros Hf [s o] r s' Hs Hrun. unfold mbind, M_mbind, M_bind, desired_obj, attempt, on_world, zoom in Hrun.
  cbn [fst snd] in Hrun.
  destruct (record_log (CGet (k' o) (ObjectKeyFromObject o)) (kube_get (k' o) (ObjectKeyFromObject o)) s)
    as (r1 & s1 & E & Hlog).
  change (kube_get (k' o) (ObjectKeyFromObject o) s = (r1, s1)) in E. rewrite E in Hrun.
  assert (Hone : ∃ l, log_of (s1, o) = log_of (s, o) ++ l ∧ Forall (upserts k) l).
  { exists [CGet (k' o) (ObjectKeyFromObject o)]. split; [exact Hlog|by apply Forall_singleton]. }
  destruct r1 as [x|e|p].
  - destruct (Hf o (inr x) Hs (s1, o) r s' Hs Hrun) as [(l2 & Hl2 & HP2) Hk]. split; [|done].
    destruct Hone as (l1 & Hl1 & HP1). exists (l1 ++ l2). rewrite Hl2, Hl1, <-app_assoc.
    split; [done|by apply Forall_app].
  - destruct (Hf o (inl e) Hs (s1, o) r s' Hs Hrun) as [(l2 & Hl2 & HP2) Hk]. split; [|done].
    destruct Hone as (l1 & Hl1 & HP1). exists (l1 ++ l2). rewrite Hl2, Hl1, <-app_assoc.
    split; [done|by apply Forall_app].
  - inversion Hrun; subst. split; [exact Hone|done].
Qed.

Lemma effects_with_desired m o :
  keeps_key m → obj_key o = k → effects (upserts k) (with_desired m o) (λ _, True).
Proof.
  intros Hm Ho s r s' Hrun. unfold with_desired in Hrun.
  destruct (m (s, o)) as [r1 [s1 o1]] eqn:E. destruct (Hm (s, o) r1 (s1, o1) Ho E) as [Hl _].
  destruct r1; inversion Hrun; subst; split; done.
Qed.
End upserts.

Lemma obj_key_set m o :
  om_Name m = om_Name (obj_meta o) → om_Namespace m = om_Namespace (obj_meta o) → obj_key (obj_set_meta m o) = obj_key o.
Proof. intros Hn Hs. unfold obj_key, obj_Name, obj_Namespace. by rewrite obj_kind_set, obj_meta_set, Hn, Hs. Qed.

Lemma merge_into_key `{HL : K8sLib} c d : obj_key (merge_into c d) = obj_key d.
Proof. by apply obj_key_set. Qed.

Lemma keep_service_ips_key c d : obj_key (keep_service_ips c d) = obj_key d.
Proof. by destruct c, d. Qed.

Lemma keep_account_secrets_key c d : obj_key (keep_account_secrets c d) = obj_key d.
Proof. by destruct c, d. Qed.

Section effects.
Context {W : Type} `{HK : Kube W} {HL : K8sLib}.

Local Ltac upsert_branch :=
  first [ apply keeps_key_create | apply keeps_key_update | apply keeps_key_ret | apply keeps_key_fail
        | apply keeps_key_set; [by rewrite ?keep_account_secrets_key, ?merge_into_key, ?keep_service_ips_key|] ].

Lemma effects_CreateOrUpdateStatefulSet (sts : StatefulSet) :
  effects (upserts (obj_key (OStatefulSet sts))) (CreateOrUpdateStatefulSet (W:=Logged W) sts) (λ _, True).
Proof.
  apply effects_with_desired; [|done]. apply keeps_key_retry, (keeps_key_lookup _ (λ _, KStatefulSet)).
  intros d [e|c] Hd; [destruct (negb _)|]; repeat upsert_branch.
Qed.

Lemma effects_CreateOrUpdateService (svc : CoreService) :
  effects (upserts (obj_key (OCoreService svc))) (CreateOrUpdateService (W:=Logged W) svc) (λ _, True).
Proof.
  apply effects_with_desired; [|done]. apply keeps_key_retry, (keeps_key_lookup _ (λ _, KCoreService)).
  intros d [e|c] Hd; [destruct (negb _)|]; repeat upsert_branch.
Qed.

Lemma effects_CreateOrUpdateDeployment (d : Deployment) :
  effects (upserts (obj_key (ODeployment d))) (CreateOrUpdateDeployment (W:=Logged W) d) (λ _, True).
Proof.
  apply effects_with_desired; [|done]. apply keeps_key_retry, (keeps_key_lookup _ (λ _, KDeployment)).
  intros d' [e|c] Hd; [destruct (negb _)|]; repeat upsert_branch.
Qed.

Lemma effects_CreateOrUpdateServiceAccount (a : ServiceAccount) :
  effects (upserts (obj_key (OServiceAccount a))) (CreateOrUpdateServiceAccount (W:=Logged W) a) (λ _, True).
Proof.
  apply effects_with_desired; [|done]. apply keeps_key_retry, (keeps_key_lookup _ (λ _, KServiceAccount)).
  intros d [e|c] Hd; [destruct (negb _)|cbv zeta; upsert_branch; destruct (Semantic_DeepEqual _ _)]; repeat upsert_branch.
Qed.

Lemma effects_CreateOrUpdate (o : Object) :
  effects (upserts (obj_key o)) (CreateOrUpdate (W:=Logged W) o) (λ _, True).
Proof.
  apply effects_with_desired; [|done]. apply keeps_key_retry, (keeps_key_lookup _ obj_kind).
  intros d [e|c] Hd; [destruct (negb _)|cbv zeta; upsert_branch; destruct (Semantic_DeepEqual _ _)]; repeat upsert_branch.
Qed.

(** *** The typed client *)

Context (P : Call → Prop).

Lemma effects_Get {A} `{!Resource A} key :
  (∀ k, P (CGet k key)) → effects P (Get (W:=Logged W) (A:=A) key) (λ _, True).
Proof.
  intros HP. unfold Get. eapply effects_bind; [apply effects_record, HP|].
  intros o _. apply effects_option; auto.
Qed.

Lemma effects_List {A} `{!Resource A} opts :
  P (CList r_kind (lo_Namespace opts)) → effects P (List (W:=Logged W) (A:=A) opts) (λ _, True).
Proof.
  intros HP. unfold List. eapply effects_bind; [by apply effects_record|].
  intros o _. by apply effects_ret.
Qed.

Lemma effects_StatusUpdate {A} `{!Resource A} (a : A) :
  P (CStatusUpdate (r_obj a)) → effects P (StatusUpdate (W:=Logged W) a) (λ _, True).
Proof.
  intros HP. unfold StatusUpdate. eapply effects_bind; [by apply effects_record|].
  intros o _. apply effects_option; auto.
Qed.

Lemma effects_Delete {A} `{!Resource A} (a : A) :
  P (CDelete (r_obj a)) → effects P (Delete (W:=Logged W) a) (λ _, True).
Proof. intros HP. by apply effects_record. Qed.

End effects.
#[export] Hint Resolve effects_Get effects_List effects_StatusUpdate effects_Delete : effects.

(** *** The reads of the base reconciler *)

Section reads.
Context {W : Type} `{HK : Kube W} {HL : K8sLib} {HM : MapRange} {HB : BaseLib} (P : Call → Prop)
  (HPget : ∀ k key, P (CGet k key)).

Lemma effects_split_key s : effects P (split_key (W:=Logged W) s) (λ _, True).
Proof. unfold split_key. reads. Qed.

Lemma effects_getValueFromSecret ref ns : effects P (getValueFromSecret (W:=Logged W) ref ns) (λ _, True).
Proof. unfold getValueFromSecret. reads. Qed.

Lemma effects_GetStorageConfig s : effects P (GetStorageConfig (W:=Logged W) s) (λ _, True).
Proof. unfold GetStorageConfig. pose proof effects_split_key. pose proof effects_getValueFromSecret. reads. Qed.

Lemma effects_VolumesForStorage s : effects P (VolumesAndVolumeMountsForStorage (W:=Logged W) s) (λ _, True).
Proof. unfold VolumesAndVolumeMountsForStorage. pose proof effects_split_key. reads. Qed.

Lemma effects_SetService m : effects P (SetService (W:=Logged W) m) (λ _, True).
Proof. unfold SetService. reads. Qed.
End reads.
#[export] Hint Resolve effects_split_key effects_getValueFromSecret effects_GetStorageConfig
  effects_VolumesForStorage effects_SetService : effects.

(** ** Applying resources *)

(** The requests by which the object of a key is applied: its upserts, and the
    deletion of a stateful set that cannot be updated. *)
Definition applies (k : Key) (c : Call) : Prop :=
  upserts k c ∨ ∃ sts, obj_key (OStatefulSet sts) = k ∧ c = CDelete (OStatefulSet sts).

(** The keys of the objects of some kinds. *)
Definition of_kinds (kinds : Kind → Prop) (k : Key) : Prop := kinds k.1.1.

Section reconcile.
Context {W : Type} `{HK : Kube W} {HL : K8sLib} {HM : MapRange} {HB : BaseLib}.

Lemma effects_reconcile_statefulset sts :
  effects (applies (obj_key (OStatefulSet sts))) (reconcile_statefulset (W:=Logged W) sts) (λ _, True).
Proof.
  unfold reconcile_statefulset.
  apply effects_step.
  { eapply effects_true, effects_attempt. eapply effects_impl; [|apply effects_CreateOrUpdateStatefulSet].
    intros c Hc. by left. }
  intros [err|o]; [|by apply effects_ret].
  destruct err as [code reason causes|m|m e]; try by apply effects_fail.
  destruct (decide (code = 422%Z)) as [->|Hc].
  - destruct (String.eqb reason "Invalid"); [|by apply effects_fail].
    apply effects_step; [eapply effects_true, effects_attempt, effects_record; right; by eexists|].
    intros [e|u]; [by apply effects_fail|by apply effects_ret].
  - destruct code as [|p|p]; try by apply effects_fail.
    do 9 (destruct p as [p|p|]; try by apply effects_fail). done.
Qed.

(** What a resource function may yield: an object of one of some keys, whose
    deletion is allowed when it asks for it. *)
Definition yields (P : Call → Prop) (keys : Key → Prop) (x : option (Object * Operation)) : Prop :=
  ∀ o op, x = Some (o, op) → keys (obj_key o) ∧ (op = OperationDelete → P (CDelete o)).

Lemma effects_upsert (P : Call → Prop) k A (m : M (Logged W) A) :
  (∀ c, upserts k c → P c) → effects (upserts k) m (λ _, True) →
  effects P (m ≫= λ _, mret tt) (λ _, True).
Proof.
  intros HP Hm. eapply effects_bind; [eapply effects_impl; [exact HP|exact Hm]|].
  intros _ _. by apply effects_ret.
Qed.

Lemma effects_reconcile_delete (P : Call → Prop) o : P (CDelete o) →
  effects P ((d ← attempt (kube_delete (W:=Logged W) o);
    match d with
    | inl err => if negb (apierrors_IsNotFound err) then fail err else mret tt
    | inr _ => mret tt
    end) : M (Logged W) unit) (λ _, True).
Proof.
  intros HP. apply effects_step; [by eapply effects_true, effects_attempt, effects_record|].
  intros [err|_]; [|by apply effects_ret].
  destruct (negb _); [by apply effects_fail|by apply effects_ret].
Qed.

(** A resource function that only reads. *)
Lemma effects_reconcile_resource (P : Call → Prop) (keys : Key → Prop) (res : ResourceFn (Logged W)) :
  (∀ k c, keys k → applies k c → P c) →
  effects P res (yields P keys) → effects P (reconcile_resource res) (λ _, True).
Proof.
  intros HP Hres. unfold reconcile_resource. eapply effects_bind; [exact Hres|].
  intros [[o op]|] Hx; [|by apply effects_ret]. destruct (Hx o op eq_refl) as [Hk Hdel].
  destruct op; [|by apply effects_reconcile_delete, Hdel].
  assert (Hup : ∀ c, upserts (obj_key o) c → P c) by (intros c Hc; apply (HP (obj_key o)); [done|by left]).
  destruct o;
    lazymatch goal with
    | |- effects _ (reconcile_statefulset _) _ => idtac
    | |- effects _ (CreateOrUpdateDeployment _ ≫= _) _ =>
        apply (effects_upsert _ _ _ _ Hup), effects_CreateOrUpdateDeployment
    | |- effects _ (CreateOrUpdateService _ ≫= _) _ => apply (effects_upsert _ _ _ _ Hup), effects_CreateOrUpdateService
    | |- effects _ (CreateOrUpdateServiceAccount _ ≫= _) _ =>
        apply (effects_upsert _ _ _ _ Hup), effects_CreateOrUpdateServiceAccount
    | |- effects _ (CreateOrUpdate ?x ≫= _) _ => apply (effects_upsert _ _ _ _ Hup), (effects_CreateOrUpdate x)
    end.
  eapply effects_impl; [|apply effects_reconcile_statefulset]. intros c. by apply HP.
Qed.

(** An object given an owner and applied. *)
Lemma effects_owned (P : Call → Prop) (keys : Key → Prop) owner o :
  keys (obj_key o) →
  effects P ((lift_outcome (SetControllerReference owner o) : M (Logged W) Object)
     ≫= λ o', mret (Some (o', OperationCreateOrUpdate))) (yields P keys).
Proof.
  intros Hk. eapply effects_bind; [apply (effects_lift _ _ (λ o', obj_key o' = obj_key o))|].
  - intros o' Ho'. by eapply SetControllerReference_key.
  - intros o' Ho'. apply effects_ret. intros o1 op [= <- <-]. by rewrite Ho'.
Qed.
End reconcile.

(** ** Runs that depend on what is read first *)

(** The requests of a run from one state. *)
Definition requests_at {W A} (P : Call → Prop) (s : Logged W) (m : M (Logged W) A) : Prop :=
  ∀ r s', m s = (r, s') → ∃ l, lg_calls s' = lg_calls s ++ l ∧ Forall P l.

Section requests_at.
Context {W : Type} `{HK : Kube W} (P : Call → Prop).

Lemma requests_effects {A} (m : M (Logged W) A) (Q : A → Prop) s : effects P m Q → requests_at P s m.
Proof. intros Hm r s' H. by destruct (Hm s r s' H) as [Hl _]. Qed.

Lemma requests_calls {A} (m : M (Logged W) A) w :
  requests_at P {| lg_calls := []; lg_world := w |} m → Forall P (calls_from m w).
Proof.
  intros Hm. unfold calls_from. destruct (m _) as [r s'] eqn:E. destruct (Hm r s' E) as (l & Hl & HP).
  simpl in *. by rewrite Hl.
Qed.

(** What is read is what the client answers in the world of the state. *)
Lemma requests_attempt_Get {A B} `{!Resource A} key (f : GoError + A → M (Logged W) B) s :
  (∀ k, P (CGet k key)) →
  (∀ x s1, (∀ a, x = inr a → Get (W:=W) (A:=A) key (lg_world s) = (Ok a, lg_world s1)) → requests_at P s1 (f x)) →
  requests_at P s (attempt (Get (W:=Logged W) (A:=A) key) ≫= f).
Proof.
  intros HP Hf r s' H. unfold mbind, M_mbind, M_bind, attempt in H.
  unfold Get, kube_get at 1, logged_kube, record, mbind, M_mbind, M_bind in H.
  unfold Get, mbind, M_mbind, M_bind in Hf.
  destruct (kube_get r_kind key (lg_world s)) as [[o|e|p] w1] eqn:E.
  - destruct (r_of o) as [a|] eqn:Ea; cbn [of_option] in H.
    + change (M_ret a ?s1) with (Ok a, s1) in H. cbv iota beta in H.
      destruct (Hf (inr a) {| lg_calls := lg_calls s ++ [CGet r_kind key]; lg_world := w1 |}
        ltac:(by intros a' [= <-]) r s' H) as (l & Hl & HPl).
      exists (CGet r_kind key :: l). rewrite Hl. cbn [lg_calls]. rewrite <-app_assoc. split; [done|by constructor].
    + inversion H; subst. exists [CGet r_kind key]. split; [done|by constructor].
  - destruct (Hf (inl e) {| lg_calls := lg_calls s ++ [CGet r_kind key]; lg_world := w1 |}
      ltac:(done) r s' H) as (l & Hl & HPl).
    exists (CGet r_kind key :: l). rewrite Hl. cbn [lg_calls]. rewrite <-app_assoc. split; [done|by constructor].
  - inversion H; subst. exists [CGet r_kind key]. split; [done|by constructor].
Qed.

Lemma requests_Get {A B} `{!Resource A} key (f : A → M (Logged W) B) s :
  (∀ k, P (CGet k key)) →
  (∀ a s1, Get (W:=W) (A:=A) key (lg_world s) = (Ok a, lg_world s1) → requests_at P s1 (f a)) →
  requests_at P s (Get (W:=Logged W) (A:=A) key ≫= f).
Proof.
  intros HP Hf r s' H.
  apply (requests_attempt_Get key (λ x, match x with inl e => fail e | inr a => f a end) s HP) with (r:=r).
  - intros [e|a] s1 Ha; [by eapply requests_effects, (effects_fail _ _ (λ _, True))|]. by apply Hf, Ha.
  - revert H. unfold mbind at 1 2, M_mbind, M_bind, attempt. by destruct (Get key s) as [[a|e|p] s1].
Qed.

Lemma requests_option {A B} why (x : option A) (f : A → M (Logged W) B) s :
  (∀ a, x = Some a → requests_at P s (f a)) → requests_at P s (of_option why x ≫= f).
Proof.
  intros Hf. destruct x as [a|]; [by apply Hf|].
  intros r s' [= <- <-]. exists []. by rewrite app_nil_r.
Qed.
Lemma requests_SetService {B} m (f : Service → M (Logged W) B) s :
  (∀ k key, P (CGet k key)) →
  (∀ svc s1, SetService (W:=W) m (lg_world s) = (Ok svc, lg_world s1) → requests_at P s1 (f svc)) →
  requests_at P s (SetService (W:=Logged W) m ≫= f).
Proof.
  intros HP Hf. unfold SetService in *. destruct (String.eqb _ "").
  { intros r s' [= <- <-]. exists []. by rewrite app_nil_r. }
  destruct (index_str (split_on _ _) 1) as [name|e|p];
    [|intros r s' [= <- <-]; exists []; by rewrite app_nil_r..].
  destruct (index_str (split_on _ _) 0) as [ns|e|p];
    [|intros r s' [= <- <-]; exists []; by rewrite app_nil_r..].
  intros r s' H.
  apply (requests_Get {| nn_Namespace := ns; nn_Name := name |} (λ s, f {| sv_Type := sv_Type s; sv_Meta := sv_Meta s;
      sv_Spec := set_service_names
        (or_default (sv_TenantHeader (sv_Spec s)) DefaultTenantHeader)
        (or_default (sv_TenantLabelName (sv_Spec s)) DefaultTenantLabelName)
        (or_default (sv_DefaultTenantId (sv_Spec s)) DefaultTenantId) (sv_Spec s) |}) s) with (r:=r); [by intros k| |].
  - intros a s1 Ha. apply Hf. cbn [lift_outcome]. unfold mbind, M_mbind, M_bind. cbn. by rewrite Ha.
  - revert H. unfold lift_outcome, mbind, M_mbind, M_bind. by destruct (Get (A:=Service) {| nn_Namespace := ns; nn_Name := name |} s) as [[a|e|p] s1].
Qed.
End requests_at.
