(* ===== verification/Workload.v ===== *)
(** What the workloads share: the third-party functions they call, and the
    merging of the user's command-line flags into a container's arguments,
    which every component repeats. *)
From stdpp Require Import base gmap strings list pretty sorting.
From Stdlib Require Import Ascii String.
From S2P Require Import Prelude GoStd K8s Api Objects Client Clients Base.
Open Scope nat_scope.

Class WorkLib := {
  (* mergo.Merge(&dst, src): the zero fields of dst filled in from src *)
  mergo_Merge_IngesterSpec : IngesterSpec → IngesterSpec → GoError + IngesterSpec;
  mergo_keeps_tenants : ∀ dst src r, mergo_Merge_IngesterSpec dst src = inr r →
    isp_Tenants r = match isp_Tenants dst with [] => isp_Tenants src | l => l end;
  (* the YAML or JSON decoder behind util.DecodeRawToContainers *)
  decode_containers : string → GoError + list Container;
  (* k8sutil.MergePatchContainers of prometheus-operator *)
  MergePatchContainers : list Container → list Container → GoError + list Container;
  (* String() of prometheus/common/model.Duration *)
  Duration_String : Z → string;
}.

Definition DecodeRawToContainers `{!WorkLib} (raw : string) : GoError + list Container :=
  decode_containers raw.

(** An error of a library call, or its value. *)
Definition lift_sum {S A} (r : GoError + A) : M S A :=
  match r with inl e => fail e | inr a => mret a end.
Definition lift_wrap {S A} (msg : string) (r : GoError + A) : M S A :=
  match r with inl e => fail (EWrap msg e) | inr a => mret a end.

(** ** Field updates *)

Definition set_c_Args (args : list string) (c : Container) : Container :=
  {| c_Name := c_Name c; c_Image := c_Image c; c_ImagePullPolicy := c_ImagePullPolicy c;
     c_Command := c_Command c; c_Args := args; c_Resources := c_Resources c;
     c_Ports := c_Ports c; c_Env := c_Env c; c_VolumeMounts := c_VolumeMounts c;
     c_LivenessProbe := c_LivenessProbe c; c_ReadinessProbe := c_ReadinessProbe c |}.
Definition add_mounts (ms : list VolumeMount) (c : Container) : Container :=
  foldl (λ c m, add_mount m c) c ms.
Definition add_volumes (vs : list Volume) (sts : StatefulSet) : StatefulSet :=
  foldl (λ sts v, add_volume v sts) sts vs.
Definition set_sts_Containers (init containers : list Container) (sts : StatefulSet) : StatefulSet :=
  let t := sts_Template sts in
  let p := pt_Spec t in
  {| sts_Meta := sts_Meta sts; sts_Replicas := sts_Replicas sts;
     sts_Selector := sts_Selector sts; sts_ServiceName := sts_ServiceName sts;
     sts_Template := {| pt_Labels := pt_Labels t; pt_Annotations := pt_Annotations t;
       pt_Spec := {| ps_NodeSelector := ps_NodeSelector p; ps_Tolerations := ps_Tolerations p;
         ps_Affinity := ps_Affinity p; ps_SecurityContext := ps_SecurityContext p;
         ps_ImagePullSecrets := ps_ImagePullSecrets p;
         ps_ServiceAccountName := ps_ServiceAccountName p;
         ps_TerminationGracePeriodSeconds := ps_TerminationGracePeriodSeconds p;
         ps_Volumes := ps_Volumes p; ps_InitContainers := init; ps_Containers := containers |} |};
     sts_VolumeClaimTemplates := sts_VolumeClaimTemplates sts;
     sts_PVCRetentionPolicy := sts_PVCRetentionPolicy sts |}.

(** ** Stateful sets that are edited in place *)

(** The object in the cluster, or the one prepared when there is none. *)
Definition get_or {W} `{!Kube W} `{!K8sLib} {A} `{!Resource A} (fresh : A) (m : ObjectMeta) : M W A :=
  r ← attempt (Get (A:=A) {| nn_Namespace := om_Namespace m; nn_Name := om_Name m |});
  match r with
  | inr a => mret a
  | inl err => if negb (IsNotFound (Some err)) then fail err else mret fresh
  end.

(** The stateful set with its containers replaced. *)
Definition put_containers (containers : list Container) (sts : StatefulSet) : StatefulSet :=
  set_sts_Containers (ps_InitContainers (pt_Spec (sts_Template sts))) containers sts.

(** [util.ReplaceInSlice], or an append when nothing was replaced. *)
Definition replace_or_append {A} (s : list A) (fn : A → bool) (new : A) : list A :=
  let '(s', replaced) := ReplaceInSlice s fn new in if replaced then s' else s ++ [new].

(** The index of the last container of a name, if there is one. *)
Definition main_container (name : string) (containers : list Container) : option nat :=
  fst <$> last (filter (λ ic : nat * Container, c_Name ic.2 = name) (imap pair containers)).

Definition set_env (name value : string) (env : list EnvVar) : list EnvVar :=
  replace_or_append env (λ v, String.eqb (ev_Name v) name) {| ev_Name := name; ev_Value := EnvLiteral value |}.

Definition no_mounts (c : Container) : Container :=
  {| c_Name := c_Name c; c_Image := c_Image c; c_ImagePullPolicy := c_ImagePullPolicy c;
     c_Command := c_Command c; c_Args := c_Args c; c_Resources := c_Resources c;
     c_Ports := c_Ports c; c_Env := c_Env c; c_VolumeMounts := [];
     c_LivenessProbe := c_LivenessProbe c; c_ReadinessProbe := c_ReadinessProbe c |}.

Definition empty_sts (m : ObjectMeta) : StatefulSet := {|
  sts_Meta := m; sts_Replicas := None; sts_Selector := ∅; sts_ServiceName := "";
  sts_Template := {| pt_Labels := ∅; pt_Annotations := ∅;
    pt_Spec := {| ps_NodeSelector := ∅; ps_Tolerations := ""; ps_Affinity := ""; ps_SecurityContext := "";
      ps_ImagePullSecrets := []; ps_ServiceAccountName := ""; ps_TerminationGracePeriodSeconds := None;
      ps_Volumes := []; ps_InitContainers := []; ps_Containers := [] |} |};
  sts_VolumeClaimTemplates := []; sts_PVCRetentionPolicy := None |}.

(** ** Arguments and containers *)

(** The argument of an option that is left out when its value is empty. *)
Definition opt_arg (flag value : string) : list string :=
  if String.eqb value "" then [] else [flag +:+ value].

(** The containers of the pod with the user's patched in, when there are any. *)
Definition patch_containers `{!WorkLib} {S} (raw : string) (containers : list Container)
    : M S (list Container) :=
  if String.eqb raw "" then mret containers
  else
    embedded ← lift_wrap "failed to decode containers" (DecodeRawToContainers raw);
    lift_wrap "failed to merge containers spec" (MergePatchContainers containers embedded).

(** The pod of a deployment that copies the common fields of its component. *)
Definition common_pod (common : CommonSpec) (volumes : list Volume) (containers : list Container) : PodSpec := {|
  ps_NodeSelector := NodeSelector common; ps_Tolerations := Tolerations common;
  ps_Affinity := Affinity common; ps_SecurityContext := SecurityContext common;
  ps_ImagePullSecrets := ImagePullSecrets common; ps_ServiceAccountName := "";
  ps_TerminationGracePeriodSeconds := None; ps_Volumes := volumes; ps_InitContainers := [];
  ps_Containers := containers |}.

Definition config_volume (name configMap : string) : Volume := {| vol_Name := name; vol_Source := VSConfigMap configMap |}.

(** ** Services that are edited in place *)

(** A port of a service that may be exposed on the nodes. *)
Definition node_port (port nodePort : Z) : ServicePort :=
  {| sp_Protocol := "TCP"; sp_Name := HTTPPortName; sp_Port := port; sp_TargetPort := port; sp_NodePort := nodePort |}.

(** The service that is there, with the selector, the type and the port of the
    component. *)
Definition expose (selector : StrMap) (port nodePort : Z) (svc : CoreService) : CoreService := {|
  svc_Meta := svc_Meta svc; svc_Type := if (nodePort =? 0)%Z then "ClusterIP" else "NodePort";
  svc_Selector := selector;
  svc_Ports := replace_or_append (svc_Ports svc) (λ p, String.eqb (sp_Name p) HTTPPortName) (node_port port nodePort);
  svc_IPFamilies := svc_IPFamilies svc; svc_IPFamilyPolicy := svc_IPFamilyPolicy svc;
  svc_ClusterIP := svc_ClusterIP svc; svc_ClusterIPs := svc_ClusterIPs svc |}.

Definition empty_service (m : ObjectMeta) : CoreService := {|
  svc_Meta := m; svc_Type := ""; svc_Selector := ∅; svc_Ports := []; svc_IPFamilies := [];
  svc_IPFamilyPolicy := ""; svc_ClusterIP := ""; svc_ClusterIPs := [] |}.

(** ** Command-line flags *)

Section flags.
Variables unsupportedArgs repeatableArgs : list string.

(** One user flag: ignored, appended, or put in the place of the first
    argument of its name. *)
Definition add_flag (args : list string) (flag : string) : list string :=
  let arg := GetArgName flag in
  if Contains unsupportedArgs arg then args
  else if Contains repeatableArgs arg then args ++ [flag]
  else
    let '(args', replaced) := ReplaceInSlice args (λ v, String.eqb (GetArgName v) (GetArgName flag)) flag in
    if replaced then args' else args ++ [flag].

Definition add_flags (args flags : list string) : list string := foldl add_flag args flags.

(** [sort.Strings(args\[1:\])]. *)
Definition sort_tail (args : list string) : list string :=
  match args with [] => [] | a :: rest => a :: sort_strings rest end.

(** *** What the merging does, by argument name *)

Definition named (n : string) (l : list string) : list string := filter (λ a, GetArgName a = n) l.

Definition merged (n : string) (base flags : list string) : list string :=
  if decide (n ∈ unsupportedArgs) then named n base
  else if decide (n ∈ repeatableArgs) then named n base ++ named n flags
  else match last (named n flags) with
       | None => named n base
       | Some f => f :: tail (named n base)
       end.

Lemma named_app n a b : named n (a ++ b) = named n a ++ named n b.
Proof. apply filter_app. Qed.

Lemma replace_named n flag l r b :
  ReplaceInSlice l (λ v, String.eqb (GetArgName v) (GetArgName flag)) flag = (r, b) →
  named n r = (if decide (GetArgName flag = n) then
                 if b then flag :: tail (named n l) else named n l
               else named n l)
  ∧ (b = false → named (GetArgName flag) l = [] ∧ r = l).
Proof.
  revert r b. induction l as [|x l IH]; intros r b H; simpl in H.
  - inversion H; subst. split; [by destruct (decide (GetArgName flag = n))|done].
  - destruct (String.eqb_spec (GetArgName x) (GetArgName flag)) as [E|E].
    + inversion H; subst. split; [|done]. unfold named. rewrite !filter_cons, E.
      by destruct (decide (GetArgName flag = n)).
    + destruct (ReplaceInSlice l _ flag) as [r' b'] eqn:Er. inversion H; subst.
      destruct (IH _ _ eq_refl) as [IH1 IH2]. split.
      * unfold named in *. rewrite !filter_cons. destruct (decide (GetArgName x = n)) as [Hx|Hx].
        -- rewrite IH1. rewrite !(decide_False (P:=GetArgName flag = n)) by congruence. done.
        -- exact IH1.
      * intros ->. destruct (IH2 eq_refl) as [H1 ->]. split; [|done].
        unfold named. rewrite filter_cons. by rewrite decide_False.
Qed.

Lemma add_flag_named n args flag :
  named n (add_flag args flag) =
  if decide (GetArgName flag = n) then
    if decide (n ∈ unsupportedArgs) then named n args
    else if decide (n ∈ repeatableArgs) then named n args ++ [flag]
    else flag :: tail (named n args)
  else named n args.
Proof.
  unfold add_flag.
  assert (HC : ∀ l k, Contains l k = bool_decide (k ∈ l)).
  { intros l k. apply eq_true_iff_eq. rewrite bool_decide_eq_true. apply Contains_spec. }
  rewrite !HC. destruct (decide (GetArgName flag = n)) as [<-|Hne].
  - destruct (decide (GetArgName flag ∈ unsupportedArgs)); [by rewrite bool_decide_true|].
    rewrite bool_decide_false by done.
    destruct (decide (GetArgName flag ∈ repeatableArgs)).
    + rewrite bool_decide_true by done. rewrite named_app. f_equal.
      unfold named. rewrite filter_cons. by rewrite decide_True.
    + rewrite bool_decide_false by done. destruct (ReplaceInSlice _ _ _) as [r b] eqn:E.
      destruct (replace_named (GetArgName flag) _ _ _ _ E) as [H1 H2]. destruct b.
      * rewrite H1. by rewrite decide_True.
      * destruct (H2 eq_refl) as [Hn _]. rewrite named_app, Hn. unfold named.
        rewrite filter_cons. by rewrite decide_True.
  - assert (Hf : named n [flag] = []) by (unfold named; rewrite filter_cons, decide_False; done).
    case_bool_decide; [done|]. case_bool_decide; [by rewrite named_app, Hf, app_nil_r|].
    destruct (ReplaceInSlice _ _ _) as [r b] eqn:E.
    destruct (replace_named n _ _ _ _ E) as [H1 _]. destruct b.
    + rewrite H1. by rewrite decide_False.
    + by rewrite named_app, Hf, app_nil_r.
Qed.

Lemma add_flags_named n base flags : named n (add_flags base flags) = merged n base flags.
Proof.
  unfold add_flags. induction flags as [|f flags IH] using rev_ind.
  - unfold merged. simpl. rewrite app_nil_r. by repeat case_decide.
  - rewrite foldl_app. cbn [foldl]. rewrite add_flag_named, IH. unfold merged. rewrite named_app.
    assert (Hf : named n [f] = if decide (GetArgName f = n) then [f] else []).
    { unfold named. rewrite filter_cons. by case_decide. }
    rewrite Hf. destruct (decide (GetArgName f = n)).
    + case_decide; [done|]. case_decide; [by rewrite app_assoc|]. rewrite last_snoc.
      by destruct (last (named n flags)).
    + by rewrite app_nil_r.
Qed.

(** The first argument keeps its name. *)
Lemma add_flag_head a rest flag : ∃ a' rest', add_flag (a :: rest) flag = a' :: rest' ∧ GetArgName a' = GetArgName a.
Proof.
  unfold add_flag. destruct (Contains unsupportedArgs _); [by eexists _, _|].
  destruct (Contains repeatableArgs _); [by eexists _, _|]. cbn [ReplaceInSlice].
  destruct (String.eqb_spec (GetArgName a) (GetArgName flag)) as [E|_]; [by eexists _, _|].
  destruct (ReplaceInSlice rest _ flag) as [r []]; by eexists _, _.
Qed.

Lemma add_flags_head a rest flags :
  ∃ a' rest', add_flags (a :: rest) flags = a' :: rest' ∧ GetArgName a' = GetArgName a.
Proof.
  unfold add_flags. revert a rest. induction flags as [|f flags IH]; intros a rest; [by eexists _, _|].
  simpl. destruct (add_flag_head a rest f) as (a1 & rest1 & -> & H1).
  destruct (IH a1 rest1) as (a2 & rest2 & -> & H2). exists a2, rest2. split; [done|congruence].
Qed.

Lemma sort_tail_perm args : sort_tail args ≡ₚ args.
Proof. destruct args as [|a l]; [done|]. simpl. constructor. apply merge_sort_Permutation. Qed.

Lemma sort_tail_named n args : named n (sort_tail args) ≡ₚ named n args.
Proof. unfold named. by rewrite sort_tail_perm. Qed.
End flags.

(** ** The requests these functions issue: none *)

Section effects.
Context {W : Type} (P : Call → Prop).

Lemma effects_lift_sum {A} (x : GoError + A) : effects (S:=Logged W) P (lift_sum x) (λ _, True).
Proof. destruct x; [apply effects_fail|by apply effects_ret]. Qed.
Lemma effects_lift_wrap {A} msg (x : GoError + A) : effects (S:=Logged W) P (lift_wrap msg x) (λ _, True).
Proof. destruct x; [apply effects_fail|by apply effects_ret]. Qed.
Lemma effects_patch_containers `{!WorkLib} raw cs :
  effects (S:=Logged W) P (patch_containers raw cs) (λ _, True).
Proof.
  pose proof @effects_lift_wrap. unfold patch_containers. reads.
Qed.
End effects.
#[export] Hint Resolve effects_lift_sum effects_lift_wrap effects_patch_containers : effects.

(** ** Objects owned by their component *)

Section owned.
Context {W : Type} `{!K8sLib}.
(** The object with its controller reference, to be applied. *)
Definition owned_by (owner o : Object) : M W (option (Object * Operation)) :=
  o ← lift_outcome (SetControllerReference owner o);
  mret (Some (o, OperationCreateOrUpdate)).
End owned.
