(* ===== verification/Web.v ===== *)
(** [pkg/controllers/resources/web_config.go]: the web configuration of an HTTP
    server, the users it reads from secrets, and the volumes its files are
    mounted from. *)
From stdpp Require Import base gmap strings list pretty sorting.
From S2P Require Import Prelude GoStd K8s Api Objects Client Base.

Definition TLSVersionTLS12 : string := "TLS12".
Definition TLSVersionTLS13 : string := "TLS13".

(** [WebConfig], [TLSConfig] and [HTTPConfig] of the file, which is serialised
    to YAML. *)
Record WebTLSConfig := {
  wt_TLSCertPath : string; wt_TLSKeyPath : string; wt_ClientAuth : string; wt_ClientCAs : string;
  wt_CipherSuites : list string; wt_CurvePreferences : list string;
  wt_MinVersion : string; wt_MaxVersion : string; wt_PreferServerCipherSuites : bool;
}.
Record WebHTTPConfig := { wh_HTTP2 : bool; wh_Header : StrMap }.
Record WebFile := { wf_TLSConfig : WebTLSConfig; wf_HTTPConfig : WebHTTPConfig; wf_Users : StrMap }.

(** [yaml.Marshal] of the file. *)
Class WebLib := { yaml_Marshal_web : WebFile → GoError + string }.

Section web.
Context {W : Type} `{!Kube W} `{!K8sLib} `{!WebLib}.

(** The secrets whose files are mounted. *)
Definition tls_assets (tls : option HTTPServerTLSConfig) : list string :=
  match tls with
  | None => []
  | Some tls => filter (λ n, n ≠ "") [sks_Name (KeySecret tls); sks_Name (CertSecret tls); sks_Name (ClientCASecret tls)]
  end.

Definition CreateWebConfigVolumeMount (secretName : string) (webConfig : WebConfig) : list Volume * list VolumeMount :=
  let tlsAssets := tls_assets (wc_HTTPServerTLSConfig webConfig) in
  let assets := match tlsAssets with [] => false | _ => true end in
  ([{| vol_Name := "web-config";
       vol_Source := VSSecret {| svs_SecretName := secretName; svs_DefaultMode := None; svs_Items := [] |} |}]
   ++ (if assets then [{| vol_Name := "tls-assets"; vol_Source := VSProjected tlsAssets |}] else []),
   [{| vm_Name := "web-config"; vm_ReadOnly := true; vm_MountPath := WhizardWebConfigMountPath; vm_SubPath := "" |}]
   ++ (if assets then [{| vm_Name := "tls-assets"; vm_ReadOnly := true; vm_MountPath := WhizardCertsMountPath;
                          vm_SubPath := "" |}] else [])).

(** The path of a file of the TLS assets, when its secret is named. *)
Definition cert_path (s : SecretKeySelector) : string :=
  if String.eqb (sks_Name s) "" then "" else WhizardCertsMountPath +:+ sks_Key s.

Definition web_tls (tls : option HTTPServerTLSConfig) : WebTLSConfig :=
  let path f := match tls with Some tls => cert_path (f tls) | None => "" end in {|
  wt_TLSCertPath := path CertSecret; wt_TLSKeyPath := path KeySecret; wt_ClientAuth := "";
  wt_ClientCAs := path ClientCASecret; wt_CipherSuites := []; wt_CurvePreferences := [];
  wt_MinVersion := TLSVersionTLS12; wt_MaxVersion := TLSVersionTLS13; wt_PreferServerCipherSuites := true |}.

Definition add_user (namespace : string) (users : StrMap) (basicAuth : BasicAuth) : M W StrMap :=
  userSecret ← Get (A:=Secret) {| nn_Namespace := namespace; nn_Name := sks_Name (ba_Username basicAuth) |};
  passSecret ← Get (A:=Secret) {| nn_Namespace := namespace; nn_Name := sks_Name (ba_Password basicAuth) |};
  mret (<[map_get (sec_Data userSecret) (sks_Key (ba_Username basicAuth))
          := map_get (sec_Data passSecret) (sks_Key (ba_Password basicAuth))]> users).

Definition createBasicAuthUsers (namespace : string) (basicAuths : list BasicAuth) : M W StrMap :=
  fold_each (add_user namespace) ∅ basicAuths.

Definition CreateWebConfig (namespace : string) (webConfig : WebConfig) : M W string :=
  users ← createBasicAuthUsers namespace (wc_BasicAuthUsers webConfig);
  match yaml_Marshal_web {| wf_TLSConfig := web_tls (wc_HTTPServerTLSConfig webConfig);
          wf_HTTPConfig := {| wh_HTTP2 := true; wh_Header := ∅ |}; wf_Users := users |} with
  | inl err => fail err
  | inr body => mret body
  end.

(** ** What the deployments do with a web configuration *)

Context `{!BaseLib}.

(** The annotation with the hash of the web configuration. *)
Definition config_hash (secret : option (Object * Operation)) : M W StrMap :=
  match secret with
  | Some (OSecret s, _) =>
      mret (<[LabelNameConfigHash := md5_hex (map_get (sec_Data s) WhizardWebConfigFile)]> ∅)
  | _ => panic "interface conversion"
  end.

(** The annotations of the pods: the hash of the secret, when there is a
    configuration. *)
Definition web_annotations (webConfig : option WebConfig) (secret : ResourceFn W) : M W StrMap :=
  match webConfig with
  | None => mret ∅
  | Some _ => s ← secret; config_hash s
  end.

Definition server_tls (webConfig : option WebConfig) : bool :=
  match webConfig with
  | Some wc => negb (is_nil (wc_HTTPServerTLSConfig wc))
  | None => false
  end.

Definition web_volumes (secretName : string) (webConfig : option WebConfig) : list Volume * list VolumeMount :=
  match webConfig with
  | Some wc => CreateWebConfigVolumeMount secretName wc
  | None => ([], [])
  end.

Definition web_args (webConfig : option WebConfig) : list string :=
  match webConfig with
  | Some _ => ["--http.config=" +:+ WhizardWebConfigMountPath +:+ WhizardWebConfigFile]
  | None => []
  end.

Definition web_liveness (webConfig : option WebConfig) : Probe :=
  if server_tls webConfig then DefaultLivenessProbeWithTLS else DefaultLivenessProbe.
Definition web_readiness (webConfig : option WebConfig) : Probe :=
  if server_tls webConfig then DefaultReadinessProbeWithTLS else DefaultReadinessProbe.

(** The secret of a web configuration, deleted when there is none; [owned] adds
    the owner. *)
Definition web_config_secret (m : ObjectMeta) (namespace : string) (webConfig : option WebConfig)
    (owned : Object → M W (option (Object * Operation))) : M W (option (Object * Operation)) :=
  let secret data := OSecret {| sec_Meta := m; sec_Data := data; sec_StringData := ∅ |} in
  match webConfig with
  | None => mret (Some (secret ∅, OperationDelete))
  | Some wc =>
      body ← CreateWebConfig namespace wc;
      owned (secret (<[WhizardWebConfigFile := body]> ∅))
  end.
End web.
