(* ===== verification/WorkloadFacts.v ===== *)
(** What the workloads' facts share: the requests of a web configuration, runs
    that only read, when pods carry the hash of a storage, and when a pod template is well formed. *)
From stdpp Require Import base gmap strings list pretty sorting.
From Stdlib Require Import Ascii String.
From S2P Require Import Prelude GoStd K8s Api Objects Client Clients Base ClientFacts Workload Web.
Open Scope nat_scope.

(** Membership of a concrete element in a concrete list. *)
Ltac decide_in := apply (bool_decide_unpack _); reflexivity.

(** ** Requests *)

Section requests.
Context {W : Type} `{HK : Kube W} {HL : K8sLib} {HM : MapRange} {HB : BaseLib} {HE : WebLib}.
Context (P : Call → Prop) (keys : Key → Prop).

Lemma effects_CreateWebConfig ns wc : (∀ k key, P (CGet k key)) →
  effects P (CreateWebConfig (W:=Logged W) ns wc) (λ _, True).
Proof.
  intros HP. unfold CreateWebConfig. apply effects_step; [|reads].
  apply effects_fold_each; [done|]. intros users ba _ _. unfold add_user. reads.
Qed.

Lemma effects_get_or {A} `{!Resource A} (fresh : A) m : (∀ k key, P (CGet k key)) →
  effects P (get_or (W:=Logged W) fresh m) (λ _, True).
Proof. intros HP. unfold get_or. reads. Qed.

Lemma effects_owned_by owner o : keys (obj_key o) →
  effects P (owned_by (W:=Logged W) owner o) (yields P keys).
Proof. apply effects_owned. Qed.

(** The secret of a web configuration, deleted when [P] allows it. *)
Lemma effects_web_config_secret m ns wc owner :
  (∀ k key, P (CGet k key)) → keys (KSecret, om_Namespace m, om_Name m) →
  (wc = None → P (CDelete (OSecret {| sec_Meta := m; sec_Data := ∅; sec_StringData := ∅ |}))) →
  effects P (web_config_secret (W:=Logged W) m ns wc (owned_by owner)) (yields P keys).
Proof.
  intros HP Hk Hd. unfold web_config_secret. destruct wc as [wc|].
  - apply effects_step; [by apply effects_CreateWebConfig|]. intros body. by apply effects_owned_by.
  - apply effects_ret. intros o op [= <- <-]. split; [done|]. intros _. by apply Hd.
Qed.

Lemma effects_web_annotations wc res :
  effects P res (yields P keys) → effects P (web_annotations (W:=Logged W) wc res) (λ _, True).
Proof.
  intros Hres. unfold web_annotations. destruct wc; [|reads].
  apply effects_step; [by eapply effects_true|]. intros s. unfold config_hash. reads.
Qed.
End requests.

Lemma requests_lift_sum {W A B} (P : Call → Prop) (x : GoError + A) (f : A → M (Logged W) B) s :
  (∀ a, x = inr a → requests_at P s (f a)) → requests_at P s (lift_sum x ≫= f).
Proof.
  intros Hf. destruct x as [e|a]; [|by apply Hf].
  intros r s' [= <- <-]. exists []. by rewrite app_nil_r.
Qed.

(** ** Runs that only read *)

(** The run leaves the world as it was. *)
Definition keeps {W A} (m : M W A) : Prop := ∀ w r w', m w = (r, w') → w' = w.

Section keeps.
Context {W : Type} `{HK : Kube W} {HL : K8sLib} {HM : MapRange} {HB : BaseLib}.

(** Reading an object changes nothing. *)
Context (Hget : ∀ k key, keeps (kube_get (W:=W) k key)).

Lemma keeps_bind {A B} (m : M W A) (f : A → M W B) : keeps m → (∀ a, keeps (f a)) → keeps (m ≫= f).
Proof.
  intros Hm Hf w r w' H. unfold mbind, M_mbind, M_bind in H. destruct (m w) as [[a|e|p] w1] eqn:E; apply Hm in E as ->.
  - by apply Hf in H.
  - by inversion H.
  - by inversion H.
Qed.

Lemma keeps_lift {A} (o : Outcome A) : keeps (lift_outcome o : M W A).
Proof. by intros w r w' [= <- <-]. Qed.

Lemma keeps_attempt {A} (m : M W A) : keeps m → keeps (attempt m).
Proof.
  intros Hm w r w' H. unfold attempt in H. destruct (m w) as [[a|e|p] w1] eqn:E; apply Hm in E as ->; by inversion H.
Qed.

Lemma keeps_option {A} why (o : option A) : keeps (of_option why o : M W A).
Proof. destruct o; by intros w r w' [= <- <-]. Qed.

Lemma keeps_Get {A} `{!Resource A} key : keeps (Get (W:=W) (A:=A) key).
Proof. apply keeps_bind; [apply Hget|]. intros o. apply keeps_option. Qed.

Lemma keeps_get_or {A} `{!Resource A} (fresh : A) m : keeps (get_or (W:=W) fresh m).
Proof.
  unfold get_or. apply keeps_bind; [apply keeps_attempt, keeps_Get|]. intros [e|a]; [|by intros w r w' [= <- <-]].
  destruct (IsNotFound _); by intros w r w' [= <- <-].
Qed.

Lemma keeps_VolumesForStorage s : keeps (VolumesAndVolumeMountsForStorage (W:=W) s).
Proof.
  unfold VolumesAndVolumeMountsForStorage. apply keeps_bind.
  { unfold split_key. apply keeps_bind; [apply keeps_lift|]. intros n. apply keeps_bind; [apply keeps_lift|].
    intros ns. by intros w r w' [= <- <-]. }
  intros key. apply keeps_bind; [apply keeps_Get|]. intros st.
  destruct (sto_S3 (stg_Spec st)) as [s3|]; [|by intros w r w' [= <- <-]].
  cbv zeta. repeat case_match; by intros w r w' [= <- <-].
Qed.
End keeps.

(** The pods of a stateful set carry the hash of a storage. *)
Definition hash_in_pods (h : string) (o : Object) : Prop :=
  ∃ sts c, o = OStatefulSet sts ∧ c ∈ ps_Containers (pt_Spec (sts_Template sts))
    ∧ {| ev_Name := StorageHash; ev_Value := EnvLiteral h |} ∈ c_Env c.

(** ** Well-formed pods *)

(** The names a container may mount: the volumes and the claim templates. *)
Definition mountable (claims : list string) (p : PodSpec) : list string := (vol_Name <$> ps_Volumes p) ++ claims.

Record pod_wf (claims : list string) (t : PodTemplateSpec) : Prop := {
  wf_names : NoDup (c_Name <$> ps_Containers (pt_Spec t));
  wf_volumes : NoDup (mountable claims (pt_Spec t));
  wf_mounts : ∀ c, c ∈ ps_Containers (pt_Spec t) → (vm_Name <$> c_VolumeMounts c) ⊆ mountable claims (pt_Spec t);
}.

(** What the API server asks of a workload: its selector is the labels of its
    pods, and every mount names one volume. *)
Definition well_formed (o : Object) : Prop :=
  match o with
  | ODeployment d => dep_Selector d = pt_Labels (dep_Template d) ∧ pod_wf [] (dep_Template d)
  | OStatefulSet s => sts_Selector s = pt_Labels (sts_Template s)
      ∧ pod_wf ((λ c, om_Name (pvc_Meta c)) <$> sts_VolumeClaimTemplates s) (sts_Template s)
  | _ => True
  end.

Lemma well_formed_set_meta m o : well_formed (obj_set_meta m o) ↔ well_formed o.
Proof. by destruct o. Qed.

Section emitted.
Context {W : Type} {HL : K8sLib}.

(** The object that is applied is the one described, but for its owners. *)
Lemma owned_by_inv owner o (w w' : W) o' op :
  owned_by owner o w = (Ok (Some (o', op)), w') →
  op = OperationCreateOrUpdate ∧ w' = w ∧ ∃ refs, o' = obj_set_meta (set_om_OwnerReferences refs (obj_meta o)) o.
Proof.
  unfold owned_by. intros (o1 & w1 & H1 & H2)%bind_Ok_inv. inversion H2; subst. inversion H1 as [[Ho Hw]].
  split; [done|]. split; [done|]. by apply SetControllerReference_refs in Ho.
Qed.

Lemma patch_none `{HW : WorkLib} cs (w : W) : patch_containers "" cs w = (Ok cs, w).
Proof. done. Qed.
End emitted.

(** The volumes of a web configuration, and that they are mounted by name. *)
Lemma web_volumes_mounts secret wc :
  vm_Name <$> (web_volumes secret wc).2 = vol_Name <$> (web_volumes secret wc).1.
Proof.
  destruct wc as [wc|]; [|done]. simpl. unfold CreateWebConfigVolumeMount.
  by destruct (tls_assets (wc_HTTPServerTLSConfig wc)).
Qed.

Lemma web_volumes_names secret wc :
  (vol_Name <$> (web_volumes secret wc).1) `sublist_of` ["web-config"; "tls-assets"].
Proof.
  destruct wc as [wc|]; [|apply sublist_nil_l]. simpl. unfold CreateWebConfigVolumeMount.
  destruct (tls_assets (wc_HTTPServerTLSConfig wc)); simpl.
  - apply sublist_skip, sublist_nil_l.
  - done.
Qed.

(** ** Containers edited in place, and their environment *)

Lemma set_env_elem name v env : {| ev_Name := name; ev_Value := EnvLiteral v |} ∈ set_env name v env.
Proof.
  unfold set_env, replace_or_append. destruct (ReplaceInSlice _ _ _) as [s' []] eqn:E.
  - apply ReplaceInSlice_replaced in E as (a & x & b & -> & _ & _ & ->). set_solver.
  - set_solver.
Qed.

Lemma set_env_other name v env x : ev_Name x ≠ name → x ∈ env → x ∈ set_env name v env.
Proof.
  intros Hn Hx. unfold set_env, replace_or_append. destruct (ReplaceInSlice _ _ _) as [s' []] eqn:E.
  - apply ReplaceInSlice_replaced in E as (a & y & b & -> & Hy & _ & ->).
    apply elem_of_app in Hx as [Hx|[->|Hx]%elem_of_cons]; [set_solver| |set_solver].
    by apply String.eqb_eq in Hy.
  - apply ReplaceInSlice_not in E as [-> _]. set_solver.
Qed.

Lemma main_container_lt n cs i : main_container n cs = Some i → i < length cs.
Proof.
  unfold main_container. destruct (last _) as [[j c]|] eqn:E; [|done]. intros [= <-]. simpl.
  apply last_Some_elem_of, list_elem_of_filter in E as [_ E]. apply elem_of_lookup_imap in E as (k & x & [= -> ->] & Hk).
  by eapply lookup_lt_Some.
Qed.

Lemma main_container_in n cs c :
  c ∈ match main_container n cs with Some i => <[i := c]> cs | None => cs ++ [c] end.
Proof.
  destruct (main_container n cs) as [i|] eqn:Ei; [|apply elem_of_app; right; by left].
  apply list_elem_of_lookup. exists i. by apply list_lookup_insert_eq, (main_container_lt n).
Qed.
