(* ===== verification/Url.v ===== *)
(** [net/url]'s query strings and [net/http]'s headers, as the gateway uses
    them: [url.Values] with [Get], [Set], [Encode] and [ParseQuery], and
    [http.Header] with canonical keys. Encoding and parsing round-trip. *)
From stdpp Require Import base gmap strings list pretty sorting.
From Stdlib Require Import Ascii String.
From S2P Require Import Prelude GoStd Base.
Open Scope nat_scope.

(** ** Escaping *)

Definition in_range (lo hi : N) (a : ascii) : bool :=
  (lo <=? N_of_ascii a)%N && (N_of_ascii a <=? hi)%N.

Definition unreserved (a : ascii) : bool :=
  in_range 97 122 a || in_range 65 90 a || in_range 48 57 a
  || existsb (Ascii.eqb a) ["-"; "_"; "."; "~"]%char.

Definition hex_digit (n : N) : ascii :=
  ascii_of_N (if (n <? 10)%N then 48 + n else 55 + n)%N.

Definition unhex (a : ascii) : option N :=
  if in_range 48 57 a then Some (N_of_ascii a - 48)%N
  else if in_range 97 102 a then Some (N_of_ascii a - 87)%N
  else if in_range 65 70 a then Some (N_of_ascii a - 55)%N
  else None.

Fixpoint QueryEscape (s : string) : string :=
  match s with
  | EmptyString => EmptyString
  | String a s' =>
      if unreserved a then String a (QueryEscape s')
      else if Ascii.eqb a " "%char then String "+"%char (QueryEscape s')
      else String "%"%char (String (hex_digit (N_of_ascii a / 16))
             (String (hex_digit (N_of_ascii a mod 16)) (QueryEscape s')))
  end.

(** [None] is an escape error. *)
Fixpoint QueryUnescape (s : string) : option string :=
  match s with
  | EmptyString => Some EmptyString
  | String a s' =>
      if Ascii.eqb a "%"%char then
        match s' with
        | String h (String l r) =>
            match unhex h, unhex l, QueryUnescape r with
            | Some x, Some y, Some t => Some (String (ascii_of_N (x * 16 + y)%N) t)
            | _, _, _ => None
            end
        | _ => None
        end
      else String (if Ascii.eqb a "+"%char then " "%char else a) <$> QueryUnescape s'
  end.

(** ** Values *)

Abbreviation Values := (gmap string (list string)).

Definition values_Get (v : Values) (k : string) : string :=
  match v !! k with Some (x :: _) => x | _ => "" end.
Definition values_Set (v : Values) (k x : string) : Values := <[k := [x]]> v.
Definition values_Add (v : Values) (k x : string) : Values :=
  <[k := default [] (v !! k) ++ [x]]> v.

Definition field (kv : string * string) : string :=
  QueryEscape kv.1 +:+ "=" +:+ QueryEscape kv.2.

(** The fields in the order [Encode] writes them: by key, then as stored. *)
Definition values_fields (v : Values) : list (string * string) :=
  flat_map (λ k, (λ x, (k, x)) <$> default [] (v !! k)) (sort_strings (map_to_list v).*1).

Definition values_Encode (v : Values) : string := join "&" (field <$> values_fields v).

(** [strings.Cut(s, "=")], without the found flag. *)
Fixpoint cut_eq (s : string) : string * string :=
  match s with
  | EmptyString => (EmptyString, EmptyString)
  | String a s' => if Ascii.eqb a "="%char then (EmptyString, s')
                   else let '(k, v) := cut_eq s' in (String a k, v)
  end.

(** One field of [ParseQuery]: the values so far and whether a field was bad. *)
Definition parse_field (acc : Values * bool) (seg : string) : Values * bool :=
  if contains_char ";"%char seg then (acc.1, true)
  else if String.eqb seg "" then acc
  else match QueryUnescape (cut_eq seg).1, QueryUnescape (cut_eq seg).2 with
       | Some k, Some x => (values_Add acc.1 k x, acc.2)
       | _, _ => (acc.1, true)
       end.

Definition ParseQuery (query : string) : Values * bool :=
  foldl parse_field (∅, false) (split_on "&"%char query).

(** [u.Query()] drops the bad fields. *)
Definition url_Query (raw : string) : Values := (ParseQuery raw).1.

(** ** Headers *)

Definition token_char (a : ascii) : bool :=
  in_range 97 122 a || in_range 65 90 a || in_range 48 57 a
  || existsb (Ascii.eqb a) ["!"; "#"; "$"; "%"; "&"; "'"; "*"; "+"; "-"; "."; "^"; "_"; "`"; "|"; "~"]%char.

Fixpoint all_chars (p : ascii → bool) (s : string) : bool :=
  match s with EmptyString => true | String a s' => p a && all_chars p s' end.

Definition to_upper (a : ascii) : ascii :=
  if in_range 97 122 a then ascii_of_N (N_of_ascii a - 32) else a.
Definition to_lower (a : ascii) : ascii :=
  if in_range 65 90 a then ascii_of_N (N_of_ascii a + 32) else a.

Fixpoint canonical_from (upper : bool) (s : string) : string :=
  match s with
  | EmptyString => EmptyString
  | String a s' => String (if upper then to_upper a else to_lower a)
                     (canonical_from (Ascii.eqb a "-"%char) s')
  end.

(** [textproto.CanonicalMIMEHeaderKey]. *)
Definition canonical_key (s : string) : string :=
  if all_chars token_char s then canonical_from true s else s.

Abbreviation Header := (gmap string (list string)).
Definition header_Get (h : Header) (k : string) : string :=
  match h !! canonical_key k with Some (x :: _) => x | _ => "" end.
Definition header_Set (k x : string) (h : Header) : Header := <[canonical_key k := [x]]> h.
Definition header_Add (k x : string) (h : Header) : Header :=
  <[canonical_key k := default [] (h !! canonical_key k) ++ [x]]> h.

Lemma cased_char a :
  token_char (to_upper a) = token_char a ∧ token_char (to_lower a) = token_char a
  ∧ to_upper (to_upper a) = to_upper a ∧ to_lower (to_lower a) = to_lower a
  ∧ Ascii.eqb (to_upper a) "-" = Ascii.eqb a "-" ∧ Ascii.eqb (to_lower a) "-" = Ascii.eqb a "-".
Proof. destruct a as [[] [] [] [] [] [] [] []]; by vm_compute. Qed.

(** A header's canonical name is its own canonical name. *)
Lemma canonical_key_idemp s : canonical_key (canonical_key s) = canonical_key s.
Proof.
  assert (Hall : ∀ up, all_chars token_char (canonical_from up s) = all_chars token_char s).
  { induction s as [|a s IH]; intros up; [done|]. cbn [canonical_from all_chars]. rewrite IH.
    destruct (cased_char a) as (Hu & Hl & _). destruct up; by rewrite ?Hu, ?Hl. }
  assert (Hidem : ∀ up, canonical_from up (canonical_from up s) = canonical_from up s).
  { clear Hall. induction s as [|a s IH]; intros up; [done|]. cbn [canonical_from].
    destruct (cased_char a) as (_ & _ & Hu & Hl & Hdu & Hdl). destruct up; by rewrite ?Hu, ?Hl, ?Hdu, ?Hdl, IH. }
  unfold canonical_key. destruct (all_chars token_char s) eqn:E; [rewrite Hall, Hidem; by destruct (all_chars _ _)|]. by destruct (all_chars _ _).
Qed.

(** ** Encoding and parsing round-trip *)

Lemma unescape_escape s : QueryUnescape (QueryEscape s) = Some s.
Proof.
  induction s as [|a s IH]; [done|].
  destruct a as [[] [] [] [] [] [] [] []]; cbn -[N.div N.modulo]; simpl; by rewrite IH.
Qed.

Lemma escape_safe c s :
  existsb (Ascii.eqb c) ["&"; "="; ";"]%char = true → contains_char c (QueryEscape s) = false.
Proof.
  intros Hc. induction s as [|a s IH]; [done|].
  assert (c = "&" ∨ c = "=" ∨ c = ";")%char as Hcase.
  { simpl in Hc. rewrite !orb_true_iff, !Ascii.eqb_eq in Hc. naive_solver. }
  destruct Hcase as [->|[->| ->]]; destruct a as [[] [] [] [] [] [] [] []]; simpl; exact IH.
Qed.

Lemma cut_eq_app a b : contains_char "="%char a = false → cut_eq (a +:+ "=" +:+ b) = (a, b).
Proof.
  induction a as [|x a IH]; simpl; [done|]. intros [Hx Ha]%orb_false_iff.
  rewrite Hx. simpl in IH. by rewrite (IH Ha).
Qed.

Lemma field_parses acc kv : parse_field acc (field kv) = (values_Add acc.1 kv.1 kv.2, acc.2).
Proof.
  destruct kv as [k x]. unfold parse_field, field; cbn [fst snd].
  rewrite !contains_char_app, !(escape_safe ";"%char) by done. cbn [orb contains_char Ascii.eqb].
  rewrite cut_eq_app by by apply escape_safe. cbn [fst snd]. rewrite !unescape_escape.
  destruct (String.eqb_spec (QueryEscape k +:+ "=" +:+ QueryEscape x) "") as [E|]; [|done].
  by destruct (QueryEscape k).
Qed.

Lemma split_join segs :
  segs ≠ [] → Forall (λ s, contains_char "&"%char s = false) segs →
  split_on "&"%char (join "&" segs) = segs.
Proof.
  induction segs as [|s segs IH]; [done|]. intros _ [Hs Hsegs]%Forall_cons.
  destruct segs as [|s2 segs]; [by apply split_on_no_sep|].
  change (join "&" (s :: s2 :: segs)) with (s +:+ String "&" (join "&" (s2 :: segs))).
  rewrite split_on_app by done. by rewrite IH.
Qed.

Lemma parse_fields acc fields :
  foldl parse_field acc (field <$> fields)
  = (foldl (λ v kv, values_Add v kv.1 kv.2) acc.1 fields, acc.2).
Proof.
  revert acc. induction fields as [|kv fields IH]; intros [v b]; [done|].
  cbn [fmap list_fmap foldl]. by rewrite field_parses, IH.
Qed.

Lemma add_all v k l :
  foldl (λ v kv, values_Add v kv.1 kv.2) v ((λ x, (k, x)) <$> l) !! k
  = match l with [] => v !! k | _ => Some (default [] (v !! k) ++ l) end
  ∧ ∀ k', k' ≠ k → foldl (λ v kv, values_Add v kv.1 kv.2) v ((λ x, (k, x)) <$> l) !! k' = v !! k'.
Proof.
  revert v. induction l as [|x l IH]; intros v; [done|]. cbn [fmap list_fmap foldl fst snd].
  destruct (IH (values_Add v k x)) as [IH1 IH2]. unfold values_Add in *.
  split.
  - rewrite IH1, lookup_insert_eq. destruct l; simpl; [done|]. by rewrite <-app_assoc.
  - intros k' Hk'. rewrite IH2 by done. by rewrite lookup_insert_ne.
Qed.

Lemma add_keys (w : Values) keys v k :
  NoDup keys →
  (∀ k vs, w !! k = Some vs → vs ≠ []) →
  (∀ k, k ∈ keys → v !! k = None) →
  foldl (λ v kv, values_Add v kv.1 kv.2) v
    (flat_map (λ k, (λ x, (k, x)) <$> default [] (w !! k)) keys) !! k
  = if decide (k ∈ keys) then w !! k else v !! k.
Proof.
  intros Hnd Hw. revert v. induction keys as [|key keys IH]; intros v Hv; cbn [flat_map].
  { rewrite decide_False; [done|apply not_elem_of_nil]. }
  apply NoDup_cons in Hnd as [Hkey Hnd]. rewrite foldl_app.
  destruct (add_all v key (default [] (w !! key))) as [H1 H2].
  set (v1 := foldl _ v ((λ x, (key, x)) <$> default [] (w !! key))) in *.
  rewrite IH; [|done|].
  - destruct (decide (k ∈ keys)) as [Hin|Hnin].
    + rewrite decide_True; [done|by right].
    + destruct (decide (k = key)) as [->|Hne].
      * rewrite decide_True by by left. rewrite H1.
        destruct (w !! key) as [[|y l]|] eqn:E; simpl; [by destruct (Hw _ _ E)| |].
        -- rewrite Hv by by left. done.
        -- by apply Hv; left.
      * rewrite decide_False; [by apply H2|]. by intros [|]%elem_of_cons.
  - intros k' Hk'. rewrite H2; [by apply Hv; right|]. by intros ->.
Qed.

Lemma ParseQuery_Encode' (v : Values) :
  (∀ k vs, v !! k = Some vs → vs ≠ []) → ParseQuery (values_Encode v) = (v, false).
Proof.
  intros Hv. unfold ParseQuery, values_Encode.
  assert (Hfold : foldl parse_field (∅, false) (field <$> values_fields v) = (v, false)).
  { rewrite parse_fields. cbn [fst snd]. f_equal. apply map_eq. intros k.
    assert (Hp : sort_strings (map_to_list v).*1 ≡ₚ (map_to_list v).*1)
      by apply merge_sort_Permutation.
    unfold values_fields. rewrite add_keys.
    - destruct (decide (k ∈ _)) as [|Hnin]; [done|]. rewrite lookup_empty.
      destruct (v !! k) as [vs|] eqn:E; [|done]. destruct Hnin. rewrite Hp.
      apply list_elem_of_fmap. exists (k, vs). split; [done|]. by apply elem_of_map_to_list.
    - rewrite Hp. apply NoDup_fst_map_to_list.
    - done.
    - intros. apply lookup_empty. }
  destruct (values_fields v) as [|kv l] eqn:E.
  - simpl in *. by rewrite <-Hfold.
  - rewrite split_join; [exact Hfold|discriminate|].
    rewrite list.Forall_fmap. apply list.Forall_forall.
    intros x _. unfold field; cbn [fst snd compose].
    by rewrite !contains_char_app, !escape_safe by done.
Qed.

(** A set of query parameters, encoded and parsed again, is the same set
    with the same values in the same order, and no field is rejected. *)
Theorem ParseQuery_Encode (v : Values) :
  (∀ k vs, v !! k = Some vs → vs ≠ []) → ParseQuery (values_Encode v) = (v, false).
Proof. apply ParseQuery_Encode'. Qed.
