(* ===== verification/GoNet.v ===== *)
(** The parts of the Go standard library that read addresses and paths, as the
    source uses them: [path/filepath.Join], [net.SplitHostPort],
    [strconv.ParseUint], [net/url.Parse], and how [time] prints a duration. *)
From stdpp Require Import base gmap strings list pretty sorting numbers.
From Stdlib Require Import Ascii String.
From S2P Require Import Prelude GoStd K8s Base Url.
Open Scope nat_scope.

(** ** Strings around a character *)

(** [strings.Cut(s, c)]: what is before and after the first [c], if there is one. *)
Fixpoint cut_char (c : ascii) (s : string) : option (string * string) :=
  match s with
  | EmptyString => None
  | String a s' =>
      if Ascii.eqb a c then Some (EmptyString, s')
      else match cut_char c s' with Some (x, y) => Some (String a x, y) | None => None end
  end.

(** The same around the last [c], as [strings.LastIndex] finds it. *)
Fixpoint cut_last (c : ascii) (s : string) : option (string * string) :=
  match s with
  | EmptyString => None
  | String a s' =>
      match cut_last c s' with
      | Some (x, y) => Some (String a x, y)
      | None => if Ascii.eqb a c then Some (EmptyString, s') else None
      end
  end.

Fixpoint string_forallb (f : ascii → bool) (s : string) : bool :=
  match s with EmptyString => true | String a s' => f a && string_forallb f s' end.

(** ** path/filepath *)

(** [filepath.Clean]: the elements without dots, a parent taking its
    predecessor away. *)
Definition clean_elem (rooted : bool) (out : list string) (e : string) : list string :=
  if String.eqb e "" || String.eqb e "." then out
  else if String.eqb e ".." then
    match out with
    | [] => if rooted then [] else [".."]
    | x :: out' => if String.eqb x ".." then ".." :: out else out'
    end
  else e :: out.

Definition filepath_Clean (path : string) : string :=
  let rooted := has_prefix path "/" in
  let out := rev (foldl (clean_elem rooted) [] (split_on "/"%char path)) in
  if rooted then "/" +:+ join "/" out
  else match out with [] => "." | _ => join "/" out end.

Definition filepath_Join (elems : list string) : string :=
  match filter (λ e, e ≠ "") elems with
  | [] => ""
  | l => filepath_Clean (join "/" l)
  end.

(** ** net *)

Definition addr_error (addr why : string) : GoError := EMsg ("address " +:+ addr +:+ ": " +:+ why).
Definition missingPort : string := "missing port in address".
Definition tooManyColons : string := "too many colons in address".

Definition no_brackets (hostport s1 s2 : string) (r : string * string) : GoError + (string * string) :=
  if contains_char "["%char s1 then inl (addr_error hostport "unexpected '[' in address")
  else if contains_char "]"%char s2 then inl (addr_error hostport "unexpected ']' in address")
  else inr r.

Definition SplitHostPort (hostport : string) : GoError + (string * string) :=
  match cut_last ":"%char hostport with
  | None => inl (addr_error hostport missingPort)
  | Some (before, port) =>
      match hostport with
      | String "["%char rest =>
          match cut_char "]"%char rest with
          | None => inl (addr_error hostport "missing ']' in address")
          | Some (_, EmptyString) => inl (addr_error hostport missingPort)
          | Some (host, String a after as tail) =>
              (* the first ']' is expected just before the last ':' *)
              if Nat.eqb (String.length host + 2) (String.length before)
              then no_brackets hostport rest tail (host, port)
              else if Ascii.eqb a ":"%char then inl (addr_error hostport tooManyColons)
              else inl (addr_error hostport missingPort)
          end
      | _ =>
          if contains_char ":"%char before then inl (addr_error hostport tooManyColons)
          else no_brackets hostport hostport hostport (before, port)
      end
  end.

(** ** strconv *)

Definition max_uint32 : Z := 2 ^ 32 - 1.

(** [strconv.ParseUint(s, 10, 32)]. *)
Definition ParseUint32 (s : string) : GoError + Z :=
  match s with
  | EmptyString => inl (EMsg "strconv.ParseUint: invalid syntax")
  | _ =>
      match parse_digits 0 s with
      | None => inl (EMsg ("strconv.ParseUint: parsing " +:+ s +:+ ": invalid syntax"))
      | Some n => if (n <=? max_uint32)%Z then inr n
                  else inl (EMsg ("strconv.ParseUint: parsing " +:+ s +:+ ": value out of range"))
      end
  end.

(** ** net/url *)

(** The parts of a URL, unescaped; [u_RawPath] and [u_RawFragment] are set
    when the default encoding of the part is not what was written. *)
Record URL := {
  u_Scheme : string; u_Opaque : string; u_User : option (string * option string);
  u_Host : string; u_OmitHost : bool; u_Path : string; u_RawPath : string; u_ForceQuery : bool;
  u_RawQuery : string; u_Fragment : string; u_RawFragment : string;
}.
#[export] Instance URL_eq : EqDecision URL. Proof. solve_decision. Defined.

Inductive Encoding := encodePath | encodeHost | encodeZone | encodeUserPassword | encodeFragment.
#[export] Instance Encoding_eq : EqDecision Encoding. Proof. solve_decision. Defined.

Definition in_chars (l : string) (c : ascii) : bool := contains_char c l.
Definition alnum (c : ascii) : bool := in_range 97 122 c || in_range 65 90 c || in_range 48 57 c.

Definition shouldEscape (mode : Encoding) (c : ascii) : bool :=
  if alnum c then false
  else if bool_decide (mode = encodeHost ∨ mode = encodeZone)
       && (in_chars "!$&'()*+,;=:[]<>" c || Ascii.eqb c "034"%char) then false
  else if in_chars "-_.~" c then false
  else if in_chars "$&+,/:;=?@" c then
    match mode with
    | encodePath => Ascii.eqb c "?"%char
    | encodeUserPassword => in_chars "@/?:" c
    | encodeFragment => false
    | encodeHost | encodeZone => true
    end
  else if bool_decide (mode = encodeFragment) && in_chars "!()*" c then false
  else true.

(** [unescape]: an error is a bad escape or a bad character of a host. *)
Fixpoint url_unescape (mode : Encoding) (s : string) : GoError + string :=
  match s with
  | EmptyString => inr EmptyString
  | String a s' =>
      if Ascii.eqb a "%"%char then
        match s' with
        | String h (String l r) =>
            match unhex h, unhex l with
            | Some x, Some y =>
                let v := ascii_of_N (x * 16 + y)%N in
                let pct25 := Ascii.eqb h "2"%char && Ascii.eqb l "5"%char in
                if bool_decide (mode = encodeHost) && (x <? 8)%N && negb pct25 then inl (EMsg "invalid URL escape")
                else if bool_decide (mode = encodeZone) && negb pct25 && negb (Ascii.eqb v " "%char)
                        && shouldEscape encodeHost v then inl (EMsg "invalid URL escape")
                else match url_unescape mode r with inl e => inl e | inr t => inr (String v t) end
            | _, _ => inl (EMsg "invalid URL escape")
            end
        | _ => inl (EMsg "invalid URL escape")
        end
      else if bool_decide (mode = encodeHost ∨ mode = encodeZone) && (N_of_ascii a <? 128)%N && shouldEscape mode a
      then inl (EMsg "invalid character in host name")
      else match url_unescape mode s' with inl e => inl e | inr t => inr (String a t) end
  end.

Fixpoint url_escape (mode : Encoding) (s : string) : string :=
  match s with
  | EmptyString => EmptyString
  | String a s' =>
      if shouldEscape mode a
      then String "%"%char (String (hex_digit (N_of_ascii a / 16))
             (String (hex_digit (N_of_ascii a mod 16)) (url_escape mode s')))
      else String a (url_escape mode s')
  end.

(** [getScheme]: the scheme and the rest; the scheme is empty when the text
    has none. [first] is true at the first byte. *)
Fixpoint scheme_from (first : bool) (s : string) : option (GoError + (string * string)) :=
  match s with
  | EmptyString => None
  | String c s' =>
      if in_range 97 122 c || in_range 65 90 c || (negb first && (in_range 48 57 c || in_chars "+-." c)) then
        match scheme_from false s' with
        | Some (inr (x, rest)) => Some (inr (String c x, rest))
        | r => r
        end
      else if Ascii.eqb c ":"%char then
        if first then Some (inl (EMsg "missing protocol scheme")) else Some (inr (EmptyString, s'))
      else None
  end.
Definition getScheme (s : string) : GoError + (string * string) := default (inr ("", s)) (scheme_from true s).

Definition lower_ascii (a : ascii) : ascii :=
  if in_range 65 90 a then ascii_of_N (N_of_ascii a + 32) else a.
Fixpoint ToLower (s : string) : string :=
  match s with EmptyString => EmptyString | String a s' => String (lower_ascii a) (ToLower s') end.

Definition validOptionalPort (port : string) : bool :=
  match port with
  | EmptyString => true
  | String c digits => Ascii.eqb c ":"%char && string_forallb (in_range 48 57) digits
  end.

Definition bad_port : GoError := EMsg "invalid port after host".

(** The index of the first [p] in [s]: what is before it, and the rest from it. *)
Fixpoint cut_at (p s : string) : option (string * string) :=
  if has_prefix s p then Some (EmptyString, s)
  else match s with
       | EmptyString => None
       | String a s' => match cut_at p s' with Some (x, y) => Some (String a x, y) | None => None end
       end.

Definition parseHost (host : string) : GoError + string :=
  if has_prefix host "[" then
    match cut_last "]"%char host with
    | None => inl (EMsg "missing ']' in host")
    | Some (literal, colonPort) =>
        if negb (validOptionalPort colonPort) then inl bad_port
        else match cut_at "%25" literal with
             | Some (host1, zone) =>
                 match url_unescape encodeHost host1, url_unescape encodeZone zone,
                       url_unescape encodeHost ("]" +:+ colonPort) with
                 | inr h1, inr h2, inr h3 => inr (h1 +:+ h2 +:+ h3)
                 | inl e, _, _ | _, inl e, _ | _, _, inl e => inl e
                 end
             | None => url_unescape encodeHost host
             end
    end
  else match cut_last ":"%char host with
       | Some (_, port) => if validOptionalPort (":" +:+ port) then url_unescape encodeHost host else inl bad_port
       | None => url_unescape encodeHost host
       end.

Definition validUserinfo (s : string) : bool := string_forallb (λ c, alnum c || in_chars "-._:~!$&'()*+,;=%@" c) s.

Definition parse_userinfo (userinfo : string) : GoError + (string * option string) :=
  if negb (validUserinfo userinfo) then inl (EMsg "net/url: invalid userinfo")
  else match cut_char ":"%char userinfo with
       | None => match url_unescape encodeUserPassword userinfo with inl e => inl e | inr u => inr (u, None) end
       | Some (username, password) =>
           match url_unescape encodeUserPassword username, url_unescape encodeUserPassword password with
           | inr u, inr p => inr (u, Some p)
           | inl e, _ | _, inl e => inl e
           end
       end.

Definition parseAuthority (authority : string) : GoError + (option (string * option string) * string) :=
  match cut_last "@"%char authority with
  | None => match parseHost authority with inl e => inl e | inr h => inr (None, h) end
  | Some (userinfo, host) =>
      match parseHost host with
      | inl e => inl e
      | inr h => match parse_userinfo userinfo with inl e => inl e | inr u => inr (Some u, h) end
      end
  end.

(** A part and the text it was written as, when that is not its encoding. *)
Definition set_part (mode : Encoding) (p : string) : GoError + (string * string) :=
  match url_unescape mode p with
  | inl e => inl e
  | inr v => inr (v, if String.eqb p (url_escape mode v) then "" else p)
  end.

(** The query of what follows the scheme. *)
Definition split_query (rest : string) : string * bool * string :=
  match cut_char "?"%char rest with
  | None => (rest, false, "")
  | Some (before, EmptyString) => (before, true, "")
  | Some (before, query) => (before, false, query)
  end.

Definition ctl_byte (c : ascii) : bool := (N_of_ascii c <? 32)%N || (N_of_ascii c =? 127)%N.

Definition no_url : URL := {| u_Scheme := ""; u_Opaque := ""; u_User := None; u_Host := ""; u_OmitHost := false; u_Path := "";
  u_RawPath := ""; u_ForceQuery := false; u_RawQuery := ""; u_Fragment := ""; u_RawFragment := "" |}.

(** The authority, whether it is left out, and the path of a hierarchical URL. *)
Definition parse_hier (scheme rest : string) : GoError + (option (string * option string) * string * bool * string) :=
  if (negb (String.eqb scheme "") || negb (has_prefix rest "///")) && has_prefix rest "//" then
    let authority := drop_str 2 rest in
    let '(authority, path) := match cut_at "/" authority with Some ap => ap | None => (authority, "") end in
    match parseAuthority authority with inl e => inl e | inr (user, host) => inr (user, host, false, path) end
  else inr (None, "", negb (String.eqb scheme "") && has_prefix rest "/", rest).

(** [parse(rawURL, false)] *)
Definition parse_url (rawURL : string) : GoError + URL :=
  if negb (string_forallb (λ c, negb (ctl_byte c)) rawURL) then inl (EMsg "net/url: invalid control character in URL")
  else if String.eqb rawURL "*" then
    inr {| u_Scheme := ""; u_Opaque := ""; u_User := None; u_Host := ""; u_OmitHost := false; u_Path := "*"; u_RawPath := "";
           u_ForceQuery := false; u_RawQuery := ""; u_Fragment := ""; u_RawFragment := "" |}
  else
    match getScheme rawURL with
    | inl e => inl e
    | inr (scheme, rest) =>
        let scheme := ToLower scheme in
        let '(rest, force, query) := split_query rest in
        let url opaque user host omit path raw := {| u_Scheme := scheme; u_Opaque := opaque; u_User := user;
          u_Host := host; u_OmitHost := omit; u_Path := path; u_RawPath := raw; u_ForceQuery := force; u_RawQuery := query;
          u_Fragment := ""; u_RawFragment := "" |} in
        if negb (has_prefix rest "/") && negb (String.eqb scheme "") then inr (url rest None "" false "" "")
        else if negb (has_prefix rest "/")
                && contains_char ":"%char (match cut_char "/"%char rest with Some (s, _) => s | None => rest end)
        then inl (EMsg "first path segment in URL cannot contain colon")
        else match parse_hier scheme rest with
             | inl e => inl e
             | inr (user, host, omit, path) =>
                 match set_part encodePath path with
                 | inl e => inl e
                 | inr (path, raw) => inr (url "" user host omit path raw)
                 end
             end
    end.

Definition url_Parse (rawURL : string) : GoError + URL :=
  match cut_char "#"%char rawURL with
  | None | Some (_, EmptyString) => parse_url (match cut_char "#"%char rawURL with Some (u, _) => u | None => rawURL end)
  | Some (u, frag) =>
      match parse_url u, set_part encodeFragment frag with
      | inr url, inr (f, raw) => inr {| u_Scheme := u_Scheme url; u_Opaque := u_Opaque url; u_User := u_User url;
          u_Host := u_Host url; u_OmitHost := u_OmitHost url; u_Path := u_Path url; u_RawPath := u_RawPath url;
          u_ForceQuery := u_ForceQuery url; u_RawQuery := u_RawQuery url; u_Fragment := f; u_RawFragment := raw |}
      | inl e, _ | _, inl e => inl e
      end
  end.

(** [URL.String] and what it calls. *)
Definition validEncoded (mode : Encoding) (s : string) : bool :=
  string_forallb (λ c, in_chars "!$&'()*+,;=:@[]%" c || negb (shouldEscape mode c)) s.

Definition escaped_part (mode : Encoding) (raw v : string) : string :=
  if negb (String.eqb raw "") && validEncoded mode raw
     && match url_unescape mode raw with inr p => String.eqb p v | inl _ => false end
  then raw else url_escape mode v.
Definition EscapedPath (u : URL) : string :=
  if negb (String.eqb (u_RawPath u) "") then
    let p := escaped_part encodePath (u_RawPath u) (u_Path u) in
    if String.eqb p (u_RawPath u) then p else if String.eqb (u_Path u) "*" then "*" else p
  else if String.eqb (u_Path u) "*" then "*" else url_escape encodePath (u_Path u).

Definition userinfo_text (ui : string * option string) : string :=
  url_escape encodeUserPassword ui.1
  +:+ match ui.2 with Some p => ":" +:+ url_escape encodeUserPassword p | None => "" end.

Definition authority_text (u : URL) : string :=
  if u_OmitHost u && String.eqb (u_Host u) "" && is_nil (u_User u) then ""
  else if negb (String.eqb (u_Scheme u) "") || negb (String.eqb (u_Host u) "") || negb (is_nil (u_User u)) then
    (if negb (String.eqb (u_Host u) "") || negb (String.eqb (u_Path u) "") || negb (is_nil (u_User u)) then "//" else "")
    +:+ match u_User u with Some ui => userinfo_text ui +:+ "@" | None => "" end
    +:+ url_escape encodeHost (u_Host u)
  else "".

Definition url_String (u : URL) : string :=
  let scheme := if String.eqb (u_Scheme u) "" then "" else u_Scheme u +:+ ":" in
  (if negb (String.eqb (u_Opaque u) "") then scheme +:+ u_Opaque u
   else
     let path := EscapedPath u in
     let before := scheme +:+ authority_text u
       +:+ (if negb (String.eqb path "") && negb (has_prefix path "/") && negb (String.eqb (u_Host u) "") then "/" else "") in
     before +:+ (if String.eqb before ""
                    && contains_char ":"%char (match cut_char "/"%char path with Some (s, _) => s | None => path end)
                 then "./" else "") +:+ path)
  +:+ (if u_ForceQuery u || negb (String.eqb (u_RawQuery u) "") then "?" +:+ u_RawQuery u else "")
  +:+ (if String.eqb (u_Fragment u) "" then ""
       else "#" +:+ escaped_part encodeFragment (u_RawFragment u) (u_Fragment u)).

Definition HasScheme (scheme : string) (url : URL) : bool := String.eqb (u_Scheme url) scheme.

(** ** time *)

(** [fmtFrac]: the fraction of [v] in units of [10^prec], without trailing zeros. *)
Definition fmt_frac (v : Z) (prec : nat) : string :=
  let digits := itoa (v mod 10 ^ Z.of_nat prec) in
  let padded := String.concat "" (replicate (prec - String.length digits) "0") +:+ digits in
  match trim_right "0"%char padded with
  | EmptyString => ""
  | frac => "." +:+ frac
  end.

Definition micro_sign : string := String "194" (String "181" "").

(** [time.Duration.String] of a non-negative number of nanoseconds. *)
Definition duration_text (u : Z) : string :=
  if (u =? 0)%Z then "0s"
  else if (u <? 1000)%Z then itoa u +:+ "ns"
  else if (u <? 1000000)%Z then itoa (u / 1000) +:+ fmt_frac u 3 +:+ micro_sign +:+ "s"
  else if (u <? 1000000000)%Z then itoa (u / 1000000) +:+ fmt_frac u 6 +:+ "ms"
  else
    let s := (u / 1000000000)%Z in
    let seconds := itoa (s mod 60) +:+ fmt_frac u 9 +:+ "s" in
    let m := (s / 60)%Z in
    if (m =? 0)%Z then seconds
    else let minutes := itoa (m mod 60) +:+ "m" +:+ seconds in
      if (m / 60 =? 0)%Z then minutes else itoa (m / 60) +:+ "h" +:+ minutes.
Definition time_Duration_String (d : Z) : string :=
  if (d <? 0)%Z then "-" +:+ duration_text (- d) else duration_text d.

(** ** Examples *)

Example duration_example :
  time_Duration_String <$> [5400000000000; -1500000000; 90000; 0; 3600000000001]%Z
  = ["1h30m0s"; "-1.5s"; "90" +:+ micro_sign +:+ "s"; "0s"; "1h0m0.000000001s"].
Proof. reflexivity. Qed.

Example clean_example : filepath_Join ["/etc/envoy/secrets"; "ca"; "../x//./ca.crt"] = "/etc/envoy/secrets/x/ca.crt".
Proof. reflexivity. Qed.
Example url_example : url_Parse "HTTPS://u:p%20q@[fe80::1%25en0]:443/a%2Fb?x=1#f" = inr {|
  u_Scheme := "https"; u_Opaque := ""; u_User := Some ("u", Some "p q"); u_Host := "[fe80::1%en0]:443"; u_OmitHost := false;
  u_Path := "/a/b"; u_RawPath := "/a%2Fb"; u_ForceQuery := false; u_RawQuery := "x=1"; u_Fragment := "f";
  u_RawFragment := "" |}.
Proof. vm_compute. reflexivity. Qed.
Example url_text_example :
  (λ s, match url_Parse s with inr u => url_String u | inl _ => "" end) <$>
    ["http://u:p%20q@h:1/a%2Fb?x=1#f"; "http://h/a%2Fb c"; "mailto:a@b"; "file:/x"; "a/b:c"; "?"]
  = ["http://u:p%20q@h:1/a%2Fb?x=1#f"; "http://h/a/b%20c"; "mailto:a@b"; "file:/x"; "a/b:c"; "?"].
Proof. vm_compute. reflexivity. Qed.
