(* ===== verification/GoNetFacts.v ===== *)
(** Reading back what was written: addresses, ports and URLs. *)
From stdpp Require Import base gmap strings list pretty sorting numbers.
From Stdlib Require Import Ascii String.
From S2P Require Import Prelude GoStd K8s Base Url GoNet.
Open Scope nat_scope.

(** ** Characters *)

Lemma cut_last_none c s : contains_char c s = false → cut_last c s = None.
Proof.
  induction s as [|a s IH]; [done|]. simpl. intros [Ha Hs]%orb_false_iff. by rewrite (IH Hs), Ha.
Qed.

Lemma cut_last_app c a b : contains_char c b = false → cut_last c (a +:+ String c b) = Some (a, b).
Proof.
  intros Hb. induction a as [|x a IH]; simpl.
  - by rewrite (cut_last_none _ _ Hb), Ascii.eqb_refl.
  - by rewrite IH.
Qed.

Lemma cut_char_none c s : contains_char c s = false → cut_char c s = None.
Proof.
  induction s as [|a s IH]; [done|]. simpl. intros [Ha Hs]%orb_false_iff. by rewrite Ha, (IH Hs).
Qed.

Lemma cut_char_app c a b : contains_char c a = false → cut_char c (a +:+ String c b) = Some (a, b).
Proof.
  induction a as [|x a IH]; simpl; [by rewrite Ascii.eqb_refl|].
  intros [Hx Ha]%orb_false_iff. by rewrite Hx, (IH Ha).
Qed.

Lemma string_forallb_app f a b : string_forallb f (a +:+ b) = string_forallb f a && string_forallb f b.
Proof. induction a as [|x a IH]; [done|]. simpl. by rewrite IH, andb_assoc. Qed.

Lemma string_forallb_impl (f g : ascii → bool) s :
  (∀ a, f a = true → g a = true) → string_forallb f s = true → string_forallb g s = true.
Proof.
  intros Hfg. induction s as [|a s IH]; [done|]. simpl. intros [Ha Hs]%andb_true_iff.
  by rewrite (Hfg a Ha), (IH Hs).
Qed.

(** A text whose characters all satisfy [f] has none that does not. *)
Lemma forallb_no_char f c s : string_forallb f s = true → f c = false → contains_char c s = false.
Proof.
  intros Hs Hc. induction s as [|a s IH]; [done|]. simpl in *. apply andb_true_iff in Hs as [Ha Hs].
  rewrite (IH Hs), orb_false_r. destruct (Ascii.eqb_spec a c) as [->|]; [congruence|done].
Qed.

(** ** Decimal numbers *)

Definition is_digit : ascii → bool := in_range 48 57.

Lemma pretty_char_digit x : (x < 10)%N → is_digit (pretty_N_char x) = true.
Proof.
  intros H. assert (x ∈ (N.of_nat <$> seq 0 10)) as Hin.
  { apply list_elem_of_fmap. exists (N.to_nat x). rewrite elem_of_seq. lia. }
  repeat (apply elem_of_cons in Hin as [->|Hin]; [reflexivity|]). by apply elem_of_nil in Hin.
Qed.

Lemma pretty_go_digits x s : string_forallb is_digit s = true → string_forallb is_digit (pretty_N_go x s) = true.
Proof.
  revert s. induction (N.lt_wf_0 x) as [x _ IH]; intros s Hs.
  destruct (decide (x = 0)%N) as [->|Hx]; [done|].
  rewrite pretty_N_go_step by lia. apply IH; [apply N.div_lt; lia|].
  simpl. rewrite Hs, andb_true_r. apply pretty_char_digit, N.mod_lt. lia.
Qed.

Lemma itoa_all_digits n : (0 ≤ n)%Z → string_forallb is_digit (itoa n) = true.
Proof.
  intros Hn. destruct n as [|p|p]; [done| |lia].
  unfold itoa, pretty, pretty_Z, pretty, pretty_positive, pretty, pretty_N. rewrite decide_False by done.
  by apply pretty_go_digits.
Qed.

Lemma parse_digits_itoa n : (0 ≤ n)%Z → parse_digits 0 (itoa n) = Some n.
Proof.
  intros Hn. destruct n as [|p|p]; [done| |lia].
  unfold itoa, pretty, pretty_Z, pretty, pretty_positive, pretty, pretty_N. rewrite decide_False by done.
  by rewrite parse_digits_pretty_go.
Qed.

Lemma itoa_nonempty n : itoa n ≠ "".
Proof.
  destruct n as [|p|p]; [done| |done].
  unfold itoa, pretty, pretty_Z, pretty, pretty_positive, pretty, pretty_N. rewrite decide_False by done.
  destruct (pretty_go_digit (N.pos p) "") as (d & s' & _ & E); [done|]. by rewrite E.
Qed.

Lemma ParseUint32_itoa n : (0 ≤ n ≤ max_uint32)%Z → ParseUint32 (itoa n) = inr n.
Proof.
  intros [Hlo Hhi]. unfold ParseUint32. pose proof (itoa_nonempty n). rewrite parse_digits_itoa by done.
  destruct (itoa n) eqn:E; [done|]. by rewrite (proj2 (Z.leb_le _ _) Hhi).
Qed.

Lemma digit_of_range a d : digit_of a = Some d → (0 ≤ d < 10)%Z.
Proof.
  unfold digit_of. destruct (_ && _) eqn:E; [|done]. intros [= <-].
  apply andb_true_iff in E as [E1%N.leb_le E2%N.leb_le]. lia.
Qed.

Lemma parse_digits_range acc s n : (0 ≤ acc)%Z → parse_digits acc s = Some n → (0 ≤ n)%Z.
Proof.
  revert acc. induction s as [|a s IH]; intros acc Ha H; simpl in H; [by inversion H; subst|].
  destruct (digit_of a) as [d|] eqn:E; [|done]. apply digit_of_range in E. apply IH in H; [done|lia].
Qed.

Lemma ParseUint32_range s n : ParseUint32 s = inr n → (0 ≤ n ≤ max_uint32)%Z.
Proof.
  unfold ParseUint32. destruct s as [|a s]; [done|]. destruct (parse_digits 0 _) as [m|] eqn:E; [|done].
  destruct (Z.leb_spec m max_uint32); [|done]. intros [= <-]. apply parse_digits_range in E; lia.
Qed.

(** ** Hosts and ports *)

(** A host that needs no brackets. *)
Definition plain_host (host : string) : Prop :=
  contains_char ":"%char host = false ∧ contains_char "["%char host = false ∧ contains_char "]"%char host = false.

Lemma digits_plain s : string_forallb is_digit s = true → plain_host s.
Proof. intros Hs. split; [|split]; by eapply forallb_no_char. Qed.

Lemma SplitHostPort_plain host port :
  plain_host host → plain_host port → SplitHostPort (host +:+ ":" +:+ port) = inr (host, port).
Proof.
  intros (Hc & Ho & Hb) (Pc & Po & Pb). unfold SplitHostPort.
  change (":" +:+ port) with (String ":"%char port). rewrite cut_last_app by done.
  assert (Hno : ∀ c, contains_char c host = false → contains_char c port = false → Ascii.eqb ":"%char c = false →
    contains_char c (host +:+ String ":"%char port) = false).
  { intros c H1 H2 H3. rewrite contains_char_app, H1. cbn [contains_char]. by rewrite H3, H2. }
  assert (Hn : no_brackets (host +:+ String ":"%char port) (host +:+ String ":"%char port)
    (host +:+ String ":"%char port) (host, port) = inr (host, port)).
  { unfold no_brackets. by rewrite !Hno. }
  destruct host as [|a host]; [by rewrite Hc|]. cbn [String.append] in *.
  simpl in Ho. apply orb_false_iff in Ho as [Ho _]. revert Ho Hn.
  destruct a as [[] [] [] [] [] [] [] []]; intros Ho Hn; try discriminate Ho; by rewrite Hc.
Qed.

(** What [SplitHostPort] reads, joined, is what it was given, when the host needs
    no brackets. *)
Lemma SplitHostPort_host_port host port :
  plain_host host → (0 ≤ port)%Z → SplitHostPort (host +:+ ":" +:+ itoa port) = inr (host, itoa port).
Proof. intros Hh Hp. apply SplitHostPort_plain; [done|]. by apply digits_plain, itoa_all_digits. Qed.

Lemma SplitHostPort_brackets host port :
  plain_host port → contains_char "["%char host = false → contains_char "]"%char host = false →
  SplitHostPort ("[" +:+ host +:+ "]:" +:+ port) = inr (host, port).
Proof.
  intros (Pc & Po & Pb) Ho Hb. unfold SplitHostPort.
  change ("]:" +:+ port) with (String "]"%char (String ":"%char port)).
  change ("[" +:+ (host +:+ String "]" (String ":" port))) with (String "["%char (host +:+ String "]" (String ":" port))).
  assert (E : String "["%char (host +:+ String "]" (String ":" port))
              = String "["%char (host +:+ String "]" "") +:+ String ":"%char port).
  { change (String "["%char (host +:+ String "]" (String ":" port)) = String "["%char ((host +:+ "]") +:+ String ":" port)).
    by rewrite append_assoc. }
  rewrite E, cut_last_app, <-E by done. rewrite cut_char_app by done.
  cbn [String.length]. rewrite length_append. cbn [String.length].
  replace (String.length host + 2 =? S (String.length host + 1))%nat with true by (symmetry; apply Nat.eqb_eq; lia).
  unfold no_brackets. rewrite contains_char_app, Ho. cbn [contains_char].
  rewrite Po, Pb. done.
Qed.

(** ** URLs of services *)

(** The characters of a Kubernetes name, and of a plain path. *)
Definition dns_char (c : ascii) : bool := alnum c || in_chars "-." c.
Definition path_char (c : ascii) : bool := alnum c || in_chars "-._/" c.
Definition service_char (c : ascii) : bool := path_char c || Ascii.eqb c ":"%char.

(** A property of every byte, by computation. *)
Ltac by_byte := intros [[] [] [] [] [] [] [] []]; vm_compute; intros ?; repeat split; congruence.

Lemma dns_service c : dns_char c = true → service_char c = true.
Proof. revert c. by_byte. Qed.
Lemma path_service c : path_char c = true → service_char c = true.
Proof. revert c. by_byte. Qed.
Lemma digit_dns c : is_digit c = true → dns_char c = true.
Proof. revert c. by_byte. Qed.
Lemma service_no_ctl c : service_char c = true → negb (ctl_byte c) = true.
Proof. revert c. by_byte. Qed.
Lemma dns_host_ok c : dns_char c = true → Ascii.eqb c "%"%char = false ∧ shouldEscape encodeHost c = false.
Proof. revert c. by_byte. Qed.
Lemma path_ok c : path_char c = true → Ascii.eqb c "%"%char = false ∧ shouldEscape encodePath c = false.
Proof. revert c. by_byte. Qed.

(** Text with nothing to escape is its own encoding. *)
Lemma url_unescape_plain mode f s :
  (∀ c, f c = true → Ascii.eqb c "%"%char = false ∧ shouldEscape mode c = false) →
  string_forallb f s = true → url_unescape mode s = inr s ∧ url_escape mode s = s.
Proof.
  intros Hf. induction s as [|a s IH]; [done|]. intros [Ha Hs]%andb_true_iff.
  destruct (Hf a Ha) as [Hp He]. destruct (IH Hs) as [IH1 IH2].
  cbn [url_unescape url_escape]. rewrite Hp, He, andb_false_r, IH1, IH2. done.
Qed.

Lemma has_prefix_char c x s : has_prefix (String x s) (String c "") = Ascii.eqb c x.
Proof.
  unfold has_prefix. cbn [String.prefix]. destruct (ascii_dec c x) as [->|H].
  - rewrite Ascii.eqb_refl. by destruct s.
  - by destruct (Ascii.eqb_spec c x).
Qed.

Lemma cut_at_slash a b :
  contains_char "/"%char a = false → has_prefix b "/" = true → cut_at "/" (a +:+ b) = Some (a, b).
Proof.
  intros Ha Hb. induction a as [|x a IH].
  - destruct b; simpl in *; [done|]. by rewrite Hb.
  - simpl in Ha. apply orb_false_iff in Ha as [Hx Ha]. change (String x a +:+ b) with (String x (a +:+ b)).
    cbn [cut_at]. rewrite (IH Ha). unfold has_prefix. cbn [String.prefix].
    destruct (ascii_dec "/" x) as [<-|]; [by rewrite Ascii.eqb_refl in Hx|done].
Qed.

Lemma cut_at_none a : contains_char "/"%char a = false → cut_at "/" a = None.
Proof.
  induction a as [|x a IH]; [done|]. cbn [contains_char cut_at]. intros [Hx Ha]%orb_false_iff. rewrite (IH Ha).
  unfold has_prefix. cbn [String.prefix].
  destruct (ascii_dec "/" x) as [<-|]; [by rewrite Ascii.eqb_refl in Hx|done].
Qed.

Lemma parseAuthority_service host port :
  host ≠ "" → string_forallb dns_char host = true → string_forallb is_digit port = true →
  parseAuthority (host +:+ ":" +:+ port) = inr (None, host +:+ ":" +:+ port).
Proof.
  intros Hne Hh Hp. set (a := host +:+ ":" +:+ port).
  assert (Hd : string_forallb dns_char port = true) by (eapply string_forallb_impl; [exact digit_dns|done]).
  assert (Hat : contains_char "@"%char a = false).
  { unfold a. rewrite !contains_char_app, (forallb_no_char dns_char _ host), (forallb_no_char dns_char _ port) by done.
    done. }
  unfold parseAuthority. rewrite (cut_last_none _ _ Hat). unfold parseHost.
  assert (Hb : has_prefix a "[" = false).
  { unfold a. destruct host as [|x host]; [done|]. change (String x host +:+ ?b) with (String x (host +:+ b)).
    rewrite has_prefix_char. destruct (Ascii.eqb_spec "[" x) as [<-|]; [discriminate Hh|done]. }
  rewrite Hb.
  unfold a at 1. change (":" +:+ port) with (String ":"%char port).
  rewrite cut_last_app by by eapply forallb_no_char.
  change (validOptionalPort (":" +:+ port)) with (string_forallb is_digit port). rewrite Hp.
  destruct (url_unescape_plain encodeHost (λ c, dns_char c || Ascii.eqb c ":"%char) a) as [E _].
  - by_byte.
  - unfold a. rewrite !string_forallb_app. apply andb_true_iff. split.
    + eapply string_forallb_impl; [|exact Hh]. by intros c ->.
    + cbn [string_forallb]. eapply (string_forallb_impl dns_char); [|exact Hd]. by intros c ->.
  - by rewrite E.
Qed.

(** The URL of a service: a scheme, a host of name characters, a port, and a
    plain path. *)
Definition service_URL (scheme host port path : string) : URL := {|
  u_Scheme := scheme; u_Opaque := ""; u_User := None; u_Host := host +:+ ":" +:+ port; u_OmitHost := false;
  u_Path := path; u_RawPath := ""; u_ForceQuery := false; u_RawQuery := ""; u_Fragment := ""; u_RawFragment := "" |}.

Lemma parse_hier_service scheme host port path :
  host ≠ "" → string_forallb dns_char host = true → string_forallb is_digit port = true →
  path = "" ∨ has_prefix path "/" = true → scheme ≠ "" →
  parse_hier scheme ("//" +:+ (host +:+ ":" +:+ port) +:+ path) = inr (None, host +:+ ":" +:+ port, false, path).
Proof.
  intros Hne Hh Hp Hpath Hs. unfold parse_hier. apply String.eqb_neq in Hs. rewrite Hs.
  rewrite has_prefix_app. cbn [negb orb andb]. set (a := host +:+ ":" +:+ port).
  change (drop_str 2 ("//" +:+ (a +:+ path))) with (a +:+ path).
  assert (Ha : contains_char "/"%char a = false).
  { unfold a. rewrite !contains_char_app, (forallb_no_char dns_char _ host), (forallb_no_char is_digit _ port) by done.
    done. }
  destruct Hpath as [->|Hpath].
  - rewrite append_nil_r, (cut_at_none a Ha). unfold a. by rewrite parseAuthority_service.
  - rewrite (cut_at_slash a path Ha Hpath). unfold a. by rewrite parseAuthority_service.
Qed.

Lemma getScheme_http rest : getScheme ("http:" +:+ rest) = inr ("http", rest).
Proof. done. Qed.
Lemma getScheme_https rest : getScheme ("https:" +:+ rest) = inr ("https", rest).
Proof. done. Qed.

(** The URL a component builds for a service parses to its parts. *)
Lemma url_Parse_service scheme host port path :
  scheme ∈ ["http"; "https"] → host ≠ "" → string_forallb dns_char host = true →
  string_forallb is_digit port = true → string_forallb path_char path = true →
  path = "" ∨ has_prefix path "/" = true →
  url_Parse (scheme +:+ "://" +:+ host +:+ ":" +:+ port +:+ path) = inr (service_URL scheme host port path).
Proof.
  intros Hs Hne Hh Hp Hpc Hpath. set (rest := "//" +:+ (host +:+ ":" +:+ port) +:+ path).
  assert (E : scheme +:+ "://" +:+ host +:+ ":" +:+ port +:+ path = (scheme +:+ ":") +:+ rest).
  { unfold rest. rewrite !append_assoc. done. }
  rewrite E. clear E.
  assert (Hrest : string_forallb service_char rest = true).
  { unfold rest. rewrite !string_forallb_app. repeat (apply andb_true_iff; split); try done.
    - by eapply string_forallb_impl; [exact dns_service|].
    - eapply string_forallb_impl; [|exact Hp]. intros c Hc. by apply dns_service, digit_dns.
    - by eapply string_forallb_impl; [exact path_service|]. }
  assert (Hall : string_forallb service_char ((scheme +:+ ":") +:+ rest) = true).
  { rewrite string_forallb_app, Hrest, andb_true_r.
    by repeat (apply elem_of_cons in Hs as [->|Hs]; [reflexivity|]); apply elem_of_nil in Hs. }
  unfold url_Parse. rewrite (cut_char_none "#"%char) by by eapply forallb_no_char.
  unfold parse_url. rewrite (string_forallb_impl _ _ _ service_no_ctl Hall). cbn [negb].
  assert (Hst : String.eqb ((scheme +:+ ":") +:+ rest) "*" = false).
  { repeat (apply elem_of_cons in Hs as [->|Hs]; [reflexivity|]). by apply elem_of_nil in Hs. }
  rewrite Hst. assert (Hg : getScheme ((scheme +:+ ":") +:+ rest) = inr (scheme, rest) ∧ ToLower scheme = scheme ∧ scheme ≠ "").
  { repeat (apply elem_of_cons in Hs as [->|Hs]; [done|]). by apply elem_of_nil in Hs. }
  destruct Hg as (-> & -> & Hsne). unfold split_query.
  rewrite (cut_char_none "?"%char) by by eapply forallb_no_char. cbv zeta.
  change (has_prefix rest "/") with true. cbn [negb andb].
  unfold rest at 1. rewrite parse_hier_service by done.
  destruct (url_unescape_plain encodePath path_char path path_ok Hpc) as [Eu Ee].
  unfold set_part. by rewrite Eu, Ee, String.eqb_refl.
Qed.
