(* ===== verification/Duration.v ===== *)
(** [time.ParseDuration] of the Go standard library, with the float64 arithmetic
    of its fractions, and that it reads back what [time.Duration.String]
    prints. *)
From stdpp Require Import base gmap strings list pretty numbers.
From Stdlib Require Import Ascii String.
From S2P Require Import Prelude GoStd K8s Base Url GoNet GoNetFacts.
#[local] Open Scope Z_scope.

(** ** float64 *)

(** The quotient of two positive numbers, rounded to the nearest integer and
    ties to even. *)
Definition round_even (a b : Z) : Z :=
  let q := a / b in
  match (2 * (a mod b)) ?= b with
  | Lt => q
  | Gt => q + 1
  | Eq => if Z.even q then q else q + 1
  end.

(** The power of two that brings a positive quotient to 53 bits. *)
Definition float_exponent (n d : Z) : Z :=
  let e := 52 - (Z.log2 n - Z.log2 d) in
  if n * 2 ^ Z.max e 0 <? 2 ^ 52 * (d * 2 ^ Z.max (- e) 0) then e + 1 else e.

(** The float64 closest to [n / d], as a quotient. *)
Definition float_round (n d : Z) : Z * Z :=
  if n =? 0 then (0, 1)
  else let e := float_exponent n d in
    (round_even (n * 2 ^ Z.max e 0) (d * 2 ^ Z.max (- e) 0) * 2 ^ Z.max (- e) 0, 2 ^ Z.max e 0).

Definition float_of (n : Z) : Z * Z := float_round n 1.
Definition float_div (a b : Z * Z) : Z * Z := float_round (a.1 * b.2) (a.2 * b.1).
Definition float_mul (a b : Z * Z) : Z * Z := float_round (a.1 * b.1) (a.2 * b.2).
(** [uint64(f)] of a non-negative float. *)
Definition float_trunc (a : Z * Z) : Z := a.1 / a.2.

(** ** The parser *)

Definition hex_byte (n : N) : string :=
  let hex i := String (ascii_of_N (if (i <? 10)%N then 48 + i else 87 + i)) "" in
  String "\" ("x" +:+ hex (n / 16)%N +:+ hex (n mod 16)%N).

(** [quote]: bytes that are not printable ASCII as [\xNN]. *)
Fixpoint quote_bytes (s : string) : string :=
  match s with
  | EmptyString => ""
  | String c s' =>
      let n := N_of_ascii c in
      (if (127 <? n)%N || (n <? 32)%N then hex_byte n
       else if Ascii.eqb c "034" || Ascii.eqb c "\" then String "\" (String c "") else String c "")
      +:+ quote_bytes s'
  end.
Definition time_quote (s : string) : string := String "034" (quote_bytes s) +:+ String "034" "".

(** The digits at the front as an integer; [None] on overflow. *)
Fixpoint leadingInt (x : Z) (s : string) : option (Z * string) :=
  match s with
  | EmptyString => Some (x, s)
  | String c s' =>
      match digit_of c with
      | None => Some (x, s)
      | Some d =>
          if 2 ^ 63 / 10 <? x then None
          else if 2 ^ 63 <? x * 10 + d then None else leadingInt (x * 10 + d) s'
      end
  end.

(** The digits of a fraction and their scale; digits that would overflow are
    read and dropped. *)
Fixpoint leadingFraction (x scale : Z) (overflow : bool) (s : string) : Z * Z * string :=
  match s with
  | EmptyString => (x, scale, s)
  | String c s' =>
      match digit_of c with
      | None => (x, scale, s)
      | Some d =>
          if overflow then leadingFraction x scale true s'
          else if (2 ^ 63 - 1) / 10 <? x then leadingFraction x scale true s'
          else if 2 ^ 63 <? x * 10 + d then leadingFraction x scale true s'
          else leadingFraction (x * 10 + d) (scale * 10) false s'
      end
  end.

(** The characters up to a period or a digit. *)
Definition unit_end (c : ascii) : bool := Ascii.eqb c "." || match digit_of c with Some _ => true | None => false end.
Fixpoint cut_unit (s : string) : string * string :=
  match s with
  | EmptyString => ("", "")
  | String c s' => if unit_end c then ("", s) else let '(u, r) := cut_unit s' in (String c u, r)
  end.

(** The micro sign and the Greek letter. *)
Definition greek_mu : string := String "206" (String "188" "").
Definition unitMap : list (string * Z) := [
  ("ns", 1); ("us", 1000); (micro_sign +:+ "s", 1000); (greek_mu +:+ "s", 1000);
  ("ms", 1000000); ("s", 1000000000); ("m", 60000000000); ("h", 3600000000000)].
Definition unit_of (u : string) : option Z := snd <$> find (λ kv : string * Z, String.eqb kv.1 u) unitMap.

(** The nanoseconds of a fraction of a unit. *)
Definition fraction_ns (f scale unit : Z) : Z :=
  float_trunc (float_mul (float_of f) (float_div (float_of unit) (float_of scale))).

(** One number and its unit: the nanoseconds and the rest. *)
Definition duration_part (s : string) : string + (Z * string) :=
  match s with
  | EmptyString => inl "time: invalid duration "
  | String c _ =>
      if negb (unit_end c) then inl "time: invalid duration "
      else match leadingInt 0 s with
           | None => inl "time: invalid duration "
           | Some (v, s1) =>
               let pre := negb (String.length s1 =? String.length s)%nat in
               let '(f, scale, s2, post) :=
                 match s1 with
                 | String "."%char s1' =>
                     let '(f, scale, s2) := leadingFraction 0 1 false s1' in
                     (f, scale, s2, negb (String.length s2 =? String.length s1')%nat)
                 | _ => (0, 1, s1, false)
                 end in
               if negb pre && negb post then inl "time: invalid duration "
               else
                 let '(u, rest) := cut_unit s2 in
                 if String.eqb u "" then inl "time: missing unit in duration "
                 else match unit_of u with
                      | None => inl ("time: unknown unit " +:+ time_quote u +:+ " in duration ")
                      | Some unit =>
                          if 2 ^ 63 / unit <? v then inl "time: invalid duration "
                          else
                            let v := v * unit in
                            let v := if 0 <? f then v + fraction_ns f scale unit else v in
                            if 2 ^ 63 <? v then inl "time: invalid duration " else inr (v, rest)
                      end
           end
  end.

(** The parts summed; each takes at least one character, so that the length is
    enough fuel. *)
Fixpoint duration_parts (fuel : nat) (d : Z) (s : string) : string + Z :=
  match s, fuel with
  | EmptyString, _ => inr d
  | _, O => inl "time: invalid duration "
  | _, S fuel =>
      match duration_part s with
      | inl e => inl e
      | inr (v, rest) =>
          let d := (d + v) mod 2 ^ 64 in
          if 2 ^ 63 <? d then inl "time: invalid duration " else duration_parts fuel d rest
      end
  end.

(** [time.ParseDuration]; a result of [2 ^ 63] negated is the least duration. *)
Definition time_ParseDuration (orig : string) : GoError + Z :=
  let invalid e := inl (EMsg (e +:+ time_quote orig)) in
  let '(neg, s) := match orig with
                   | String "-"%char s => (true, s)
                   | String "+"%char s => (false, s)
                   | _ => (false, orig)
                   end in
  if String.eqb s "0" then inr 0
  else if String.eqb s "" then invalid "time: invalid duration "
  else match duration_parts (String.length s) 0 s with
       | inl e => invalid e
       | inr d => if (neg : bool) then inr (- d)
                  else if 2 ^ 63 - 1 <? d then invalid "time: invalid duration " else inr d
       end.

Example parse_examples :
  time_ParseDuration <$> ["1h30m0s"; "-1.5s"; "90" +:+ micro_sign +:+ "s"; "0"; "+.5h"; "0.3333333333333333333h";
    "9223372036854775807ns"; "-9223372036854775808ns"; "1.000000001h"]
  = inr <$> [5400000000000; -1500000000; 90000; 0; 1800000000000; 1200000000000; 9223372036854775807; -9223372036854775808;
     3600000003600].
Proof. vm_compute. reflexivity. Qed.
Example parse_errors :
  time_ParseDuration <$> ["3d"; "s"; ""; "1"; "9223372036854775808ns"; "-.s"]
  = inl <$> [EMsg ("time: unknown unit " +:+ time_quote "d" +:+ " in duration " +:+ time_quote "3d");
     EMsg ("time: invalid duration " +:+ time_quote "s"); EMsg ("time: invalid duration " +:+ time_quote "");
     EMsg ("time: missing unit in duration " +:+ time_quote "1");
     EMsg ("time: invalid duration " +:+ time_quote "9223372036854775808ns");
     EMsg ("time: invalid duration " +:+ time_quote "-.s")].
Proof. vm_compute. reflexivity. Qed.

(** ** Exact floats *)

Lemma round_even_exact q b : 0 < b → round_even (q * b) b = q.
Proof.
  intros Hb. unfold round_even. rewrite Z.div_mul, Z.mod_mul by lia.
  destruct (Z.compare_spec (2 * 0) b); [lia|done|lia].
Qed.

Lemma float_exponent_nonneg n d q : 0 < d → n = q * d → 0 < q < 2 ^ 53 → 0 ≤ float_exponent n d.
Proof.
  intros Hd -> Hq. unfold float_exponent.
  assert (Hn : 0 < q * d) by lia.
  assert (Hlog : Z.log2 (q * d) ≤ 53 + Z.log2 d).
  { pose proof (Z.log2_mul_above q d). assert (Z.log2 q < 53) by (apply Z.log2_lt_pow2; lia). lia. }
  set (e := 52 - (Z.log2 (q * d) - Z.log2 d)). destruct (Z.ltb_spec (q * d * 2 ^ Z.max e 0) (2 ^ 52 * (d * 2 ^ Z.max (- e) 0))) as [|Hge]; [lia|].
  destruct (decide (e = -1)) as [E|]; [|lia]. exfalso. rewrite E in Hge. change (2 ^ Z.max (-1) 0) with 1 in Hge.
  change (2 ^ Z.max (- -1) 0) with 2 in Hge. nia.
Qed.

(** A quotient that is an integer of 53 bits is its own float. *)
Lemma float_round_exact n d q :
  0 < d → n = q * d → 0 ≤ q < 2 ^ 53 → ∃ b, 0 < b ∧ float_round n d = (q * b, b).
Proof.
  intros Hd Hn Hq. unfold float_round. destruct (Z.eqb_spec n 0) as [E|E].
  { exists 1. split; [lia|]. f_equal. nia. }
  assert (He : 0 ≤ float_exponent n d) by (apply (float_exponent_nonneg n d q); nia).
  set (e := float_exponent n d) in *. exists (2 ^ e). split; [lia|].
  rewrite (Z.max_l e 0), (Z.max_r (- e) 0) by lia. rewrite Hn.
  replace (q * d * 2 ^ e) with (q * 2 ^ e * (d * 2 ^ 0)) by lia. rewrite round_even_exact by lia. f_equal; lia.
Qed.

Lemma fraction_exact f scale q : 
  0 < scale < 2 ^ 53 → 0 < q → 0 ≤ f * q < 2 ^ 53 → 0 ≤ f → q * scale < 2 ^ 53 → fraction_ns f scale (q * scale) = f * q.
Proof.
  intros Hs Hq Hfq Hf Hu. unfold fraction_ns, float_of.
  destruct (float_round_exact f 1 f) as (b1 & Hb1 & ->); [lia|lia|nia|].
  destruct (float_round_exact (q * scale) 1 (q * scale)) as (b2 & Hb2 & ->); [lia|lia|nia|].
  destruct (float_round_exact scale 1 scale) as (b3 & Hb3 & ->); [lia|lia|lia|].
  unfold float_div. cbn [fst snd].
  destruct (float_round_exact (q * scale * b2 * b3) (b2 * (scale * b3)) q) as (b4 & Hb4 & ->); [nia|nia|nia|].
  unfold float_mul. cbn [fst snd].
  destruct (float_round_exact (f * b1 * (q * b4)) (b1 * b4) (f * q)) as (b5 & Hb5 & ->); [nia|nia|lia|].
  unfold float_trunc. cbn [fst snd]. by rewrite Z.div_mul by lia.
Qed.

(** ** Digits *)

Lemma parse_digits_ge x s n : 0 ≤ x → parse_digits x s = Some n → x ≤ n.
Proof.
  revert x. induction s as [|c s IH]; intros x Hx H; [by injection H as ->|].
  cbn [parse_digits] in H. destruct (digit_of c) as [d|] eqn:Ed; [|done]. apply digit_of_range in Ed.
  apply IH in H; lia.
Qed.

(** A text that does not start with a digit. *)
Definition no_digit_first (s : string) : Prop := match s with String c _ => digit_of c = None | EmptyString => True end.

Lemma leadingInt_app x t r n :
  0 ≤ x → parse_digits x t = Some n → n ≤ 2 ^ 63 → no_digit_first r → leadingInt x (t +:+ r) = Some (n, r).
Proof.
  revert x. induction t as [|c t IH]; intros x Hx H Hn Hr.
  - injection H as ->. destruct r as [|c r]; [done|]. simpl in *. by rewrite Hr.
  - change (String c t +:+ r) with (String c (t +:+ r)). cbn [parse_digits leadingInt] in *.
    destruct (digit_of c) as [d|] eqn:Ed; [|done]. apply digit_of_range in Ed.
    assert (x * 10 + d ≤ n) by (apply (parse_digits_ge _ t); [lia|done]).
    pose proof (Z.div_le_lower_bound (2 ^ 63) 10 x ltac:(lia) ltac:(lia)).
    destruct (Z.ltb_spec (2 ^ 63 / 10) x); [lia|]. destruct (Z.ltb_spec (2 ^ 63) (x * 10 + d)); [lia|].
    apply IH; lia || done.
Qed.

Lemma leadingFraction_app x sc t r n :
  0 ≤ x → parse_digits x t = Some n → n < 2 ^ 63 → no_digit_first r →
  leadingFraction x sc false (t +:+ r) = (n, sc * 10 ^ Z.of_nat (String.length t), r).
Proof.
  revert x sc. induction t as [|c t IH]; intros x sc Hx H Hn Hr.
  - injection H as ->. rewrite Z.mul_1_r. destruct r as [|c r]; [done|]. simpl in *. by rewrite Hr.
  - change (String c t +:+ r) with (String c (t +:+ r)). cbn [parse_digits leadingFraction String.length] in *.
    destruct (digit_of c) as [d|] eqn:Ed; [|done]. apply digit_of_range in Ed.
    assert (x * 10 + d ≤ n) by (apply (parse_digits_ge _ t); [lia|done]).
    pose proof (Z.div_le_lower_bound (2 ^ 63 - 1) 10 x ltac:(lia) ltac:(lia)).
    destruct (Z.ltb_spec ((2 ^ 63 - 1) / 10) x); [lia|]. destruct (Z.ltb_spec (2 ^ 63) (x * 10 + d)); [lia|].
    rewrite IH by (lia || done). f_equal. f_equal. rewrite Nat2Z.inj_succ, Z.pow_succ_r by lia. lia.
Qed.

(** *** The digits of a fraction *)

Fixpoint zeros (n : nat) : string := match n with O => "" | S n => String "0" (zeros n) end.

Lemma concat_zeros n : String.concat "" (replicate n "0") = zeros n.
Proof. induction n as [|[|n] IH]; [done|done|]. cbn [replicate zeros String.concat] in *. by rewrite IH. Qed.

Lemma length_zeros n : String.length (zeros n) = n.
Proof. induction n; simpl; [done|]. by f_equal. Qed.

Lemma parse_zeros_front n s : parse_digits 0 (zeros n +:+ s) = parse_digits 0 s.
Proof. induction n as [|n IH]; [done|]. exact IH. Qed.

Lemma parse_zeros_back x s k n :
  parse_digits x s = Some n → parse_digits x (s +:+ zeros k) = Some (n * 10 ^ Z.of_nat k).
Proof.
  revert x. induction s as [|c s IH]; intros x H.
  - injection H as ->. revert n. induction k as [|k IHk]; intros n; [simpl; f_equal; lia|].
    change ("" +:+ zeros (S k)) with (String "0" (zeros k)). cbn [parse_digits]. change (digit_of "0") with (Some 0).
    cbv beta iota. change (zeros k) with ("" +:+ zeros k). rewrite IHk. f_equal. rewrite Nat2Z.inj_succ, Z.pow_succ_r by lia. lia.
  - change (String c s +:+ zeros k) with (String c (s +:+ zeros k)). cbn [parse_digits] in *.
    destruct (digit_of c); [by apply IH|done].
Qed.

Lemma trim_right_zeros s : ∃ k, s = trim_right "0" s +:+ zeros k.
Proof.
  induction s as [|c s [k IH]]; [by exists 0%nat|]. cbn [trim_right].
  destruct (trim_right "0" s) as [|a t] eqn:E.
  - destruct (Ascii.eqb_spec c "0") as [->|Hc]; [exists (S k)|exists k]; by rewrite IH at 1.
  - exists k. change (String c s = String c (String a t +:+ zeros k)). by rewrite <-IH.
Qed.

Lemma digit_of_zero c : digit_of c = Some 0 → c = "0"%char.
Proof.
  unfold digit_of. destruct ((48 <=? N_of_ascii c)%N) eqn:E1; [|done]. destruct ((N_of_ascii c <=? 57)%N) eqn:E2; [|done].
  intros H. injection H as H. apply N.leb_le in E1, E2. assert (Hn : N_of_ascii c = 48%N) by lia.
  by rewrite <-(ascii_N_embedding c), Hn.
Qed.

Lemma trim_right_zero x s : 0 ≤ x → parse_digits x s = Some 0 → trim_right "0" s = "".
Proof.
  revert x. induction s as [|c s IH]; intros x Hx H; [done|]. cbn [parse_digits] in H.
  destruct (digit_of c) as [d|] eqn:Ed; [|done]. pose proof (digit_of_range _ _ Ed).
  assert (x * 10 + d ≤ 0) by (apply (parse_digits_ge _ s); [lia|done]). assert (d = 0) as -> by lia. apply digit_of_zero in Ed as ->.
  cbn [trim_right]. rewrite (IH (x * 10 + 0)); [done|lia|done].
Qed.

Lemma parse_prefix x s t n : parse_digits x (s +:+ t) = Some n → ∃ m, parse_digits x s = Some m.
Proof.
  revert x. induction s as [|c s IH]; intros x H; [by eexists|].
  change (String c s +:+ t) with (String c (s +:+ t)) in H. cbn [parse_digits] in *. destruct (digit_of c); [by eapply IH|done].
Qed.

Lemma length_pretty_go k x s : (x < 10 ^ N.of_nat k)%N → (String.length (pretty_N_go x s) ≤ k + String.length s)%nat.
Proof.
  revert x s. induction k as [|k IH]; intros x s Hx.
  - assert (x = 0%N) as -> by (cbn in Hx; lia). by rewrite pretty_N_go_0.
  - destruct (decide (x = 0)%N) as [->|Hne]; [rewrite pretty_N_go_0; lia|].
    rewrite pretty_N_go_step by lia. rewrite Nat2N.inj_succ, N.pow_succ_r' in Hx.
    etransitivity; [apply IH, N.Div0.div_lt_upper_bound; lia|]. simpl. lia.
Qed.

Lemma length_itoa k m : (0 < k)%nat → 0 ≤ m < 10 ^ Z.of_nat k → (String.length (itoa m) ≤ k)%nat.
Proof.
  intros Hk Hm. destruct m as [|p|p]; [simpl; lia| |lia].
  unfold itoa, pretty, pretty_Z, pretty, pretty_positive, pretty, pretty_N. rewrite decide_False by done.
  etransitivity; [apply (length_pretty_go k)|simpl; lia].
  apply N2Z.inj_lt. rewrite N2Z.inj_pow, nat_N_Z. exact (proj2 Hm).
Qed.

(** What [fmt_frac] prints: nothing for no fraction, or the digits of one. *)
Lemma fmt_frac_spec v prec : (0 < prec)%nat →
  (fmt_frac v prec = "" ∧ v mod 10 ^ Z.of_nat prec = 0)
  ∨ ∃ t f, fmt_frac v prec = String "." t ∧ parse_digits 0 t = Some f ∧ 0 < f ∧ (String.length t ≤ prec)%nat
      ∧ v mod 10 ^ Z.of_nat prec = f * 10 ^ Z.of_nat (prec - String.length t).
Proof.
  intros Hp. unfold fmt_frac. cbv zeta. set (m := v mod 10 ^ Z.of_nat prec).
  assert (Hm : 0 ≤ m < 10 ^ Z.of_nat prec) by (apply Z.mod_pos_bound; lia).
  rewrite concat_zeros. set (P := zeros (prec - String.length (itoa m)) +:+ itoa m).
  assert (HP : parse_digits 0 P = Some m) by (unfold P; rewrite parse_zeros_front; apply parse_digits_itoa; lia).
  assert (HL : String.length P = prec).
  { unfold P. rewrite length_append, length_zeros. pose proof (length_itoa prec m Hp Hm). lia. }
  destruct (trim_right_zeros P) as [k Hk]. destruct (trim_right "0" P) as [|c t] eqn:Et.
  - left. split; [done|]. rewrite Hk, parse_zeros_back with (n := 0) in HP by done. injection HP as <-. lia.
  - right. exists (String c t). rewrite Hk in HP. destruct (parse_prefix _ _ _ _ HP) as [f Hf]. exists f.
    rewrite (parse_zeros_back _ _ _ _ Hf) in HP. injection HP as HP.
    apply (f_equal String.length) in Hk. rewrite length_append, length_zeros, HL in Hk.
    split; [done|]. split; [done|]. split; [|split; [lia|]].
    + assert (0 ≤ f) by (by apply (parse_digits_ge 0 (String c t))). destruct (decide (f = 0)) as [->|]; [|lia].
      exfalso. assert (Hz : parse_digits 0 P = Some 0).
      { unfold P. rewrite parse_zeros_front, parse_digits_itoa by lia. f_equal. lia. }
      apply trim_right_zero in Hz; [|lia]. congruence.
    + rewrite <-HP. f_equal. f_equal. lia.
Qed.

(** ** What is printed is read back *)

Definition plain_unit (u : string) : bool := string_forallb (λ c, negb (unit_end c)) u && negb (String.eqb u "").
Definition next_part (rest : string) : Prop := match rest with String c _ => unit_end c = true | EmptyString => True end.

Lemma cut_unit_app u rest : plain_unit u = true → next_part rest → cut_unit (u +:+ rest) = (u, rest).
Proof.
  intros [Hu _]%andb_true_iff Hr. induction u as [|c u IH].
  - destruct rest as [|c rest]; [done|]. simpl in *. by rewrite Hr.
  - change (String c u +:+ rest) with (String c (u +:+ rest)). cbn [cut_unit string_forallb] in *.
    apply andb_true_iff in Hu as [Hc Hu]. apply negb_true_iff in Hc. by rewrite Hc, IH.
Qed.

Lemma itoa_first v : 0 ≤ v → ∃ c s, itoa v = String c s ∧ unit_end c = true.
Proof.
  intros Hv. pose proof (parse_digits_itoa v Hv) as H. destruct (itoa v) as [|c s] eqn:E.
  - exfalso. pose proof (itoa_inj v 0). destruct v as [|p|p]; [done| |lia].
    unfold itoa, pretty, pretty_Z, pretty, pretty_positive, pretty, pretty_N in E. rewrite decide_False in E by done.
    destruct (pretty_go_digit (N.pos p) "") as (d & s' & _ & E'); [done|]. by rewrite E' in E.
  - exists c, s. split; [done|]. cbn [parse_digits] in H. unfold unit_end. destruct (digit_of c); [by rewrite orb_true_r|done].
Qed.

Lemma plain_first u rest : plain_unit u = true → no_digit_first (u +:+ rest) ∧ ∃ c s, u +:+ rest = String c s ∧ c ≠ "."%char.
Proof.
  intros [Hu Hne]%andb_true_iff. destruct u as [|c u]; [done|]. cbn [string_forallb] in Hu.
  apply andb_true_iff in Hu as [Hc _]. apply negb_true_iff in Hc. unfold unit_end in Hc. apply orb_false_iff in Hc as [Hd Hc].
  split.
  - change (digit_of c = None). by destruct (digit_of c).
  - exists c, (u +:+ rest). split; [done|]. intros ->. done.
Qed.

(** The number and the unit, before the value is computed. *)
Definition part_value (v f scale unit : Z) (rest : string) : string + (Z * string) :=
  if 2 ^ 63 / unit <? v then inl "time: invalid duration "
  else
    let v := v * unit in
    let v := if 0 <? f then v + fraction_ns f scale unit else v in
    if 2 ^ 63 <? v then inl "time: invalid duration " else inr (v, rest).

Lemma duration_part_value v x f scale u unit rest :
  0 ≤ v ≤ 2 ^ 63 → plain_unit u = true → unit_of u = Some unit → next_part rest →
  (x = "" ∧ f = 0 ∧ scale = 1
   ∨ ∃ t, x = String "." t ∧ parse_digits 0 t = Some f ∧ f < 2 ^ 63 ∧ scale = 10 ^ Z.of_nat (String.length t)) →
  duration_part (itoa v +:+ x +:+ u +:+ rest) = part_value v f scale unit rest.
Proof.
  intros Hv Hu Hunit Hr Hx. destruct (itoa_first v ltac:(lia)) as (c & s & E & Hc).
  destruct (plain_first u rest Hu) as [Hnd (c2 & s2 & E2 & Hc2)].
  assert (Hlead : leadingInt 0 (itoa v +:+ x +:+ u +:+ rest) = Some (v, x +:+ u +:+ rest)).
  { apply leadingInt_app; [lia|apply parse_digits_itoa; lia|lia|]. by destruct Hx as [(-> & _)|(t & -> & _)]. }
  assert (Hlen : (String.length (x +:+ u +:+ rest) =? String.length (itoa v +:+ x +:+ u +:+ rest))%nat = false).
  { apply Nat.eqb_neq. rewrite E, (length_append (String c s)). cbn [String.length]. lia. }
  unfold duration_part. rewrite Hlead. cbv beta iota zeta. rewrite Hlen. rewrite E at 1.
  change (String c s +:+ x +:+ u +:+ rest) with (String c (s +:+ x +:+ u +:+ rest)). cbv beta iota. rewrite Hc. cbn [negb andb].
  assert (Hfrac : ∃ post, match x +:+ u +:+ rest with
                  | String "."%char s1' =>
                      let '(f, scale, s2) := leadingFraction 0 1 false s1' in
                      (f, scale, s2, negb (String.length s2 =? String.length s1')%nat)
                  | _ => (0, 1, x +:+ u +:+ rest, false)
                  end = (f, scale, u +:+ rest, post)).
  { destruct Hx as [(-> & -> & ->)|(t & -> & Hf & Hlt & ->)].
    - exists false. change ("" +:+ u +:+ rest) with (u +:+ rest). rewrite E2.
      destruct c2 as [[] [] [] [] [] [] [] []]; done.
    - eexists. change (String "." t +:+ u +:+ rest) with (String "." (t +:+ u +:+ rest)). cbv beta iota.
      rewrite (leadingFraction_app 0 1 t (u +:+ rest) f) by (lia || done). by rewrite Z.mul_1_l. }
  destruct Hfrac as [post ->]. cbv beta iota zeta. rewrite cut_unit_app by done. rewrite Hunit.
  apply andb_true_iff in Hu as [_ Hu]. apply negb_true_iff in Hu. by rewrite Hu.
Qed.

Lemma duration_part_int v u unit rest :
  0 ≤ v → plain_unit u = true → unit_of u = Some unit → 0 < unit → v * unit ≤ 2 ^ 63 → next_part rest →
  duration_part (itoa v +:+ u +:+ rest) = inr (v * unit, rest).
Proof.
  intros Hv Hu Hunit Hpos Hle Hr. assert (v ≤ 2 ^ 63) by (transitivity (v * unit); [nia|done]).
  change (u +:+ rest) with ("" +:+ u +:+ rest) at 1.
  rewrite (duration_part_value v "" 0 1 u unit rest); [|lia|done|done|done|by left]. unfold part_value.
  pose proof (Z.div_le_lower_bound (2 ^ 63) unit v Hpos ltac:(lia)).
  destruct (Z.ltb_spec (2 ^ 63 / unit) v); [lia|]. cbv zeta. change (0 <? 0) with false. cbv iota.
  destruct (Z.ltb_spec (2 ^ 63) (v * unit)); [lia|done].
Qed.

Lemma duration_part_frac v w prec u rest :
  0 ≤ v → plain_unit u = true → unit_of u = Some (10 ^ Z.of_nat prec) → (0 < prec ≤ 15)%nat → next_part rest →
  v * 10 ^ Z.of_nat prec + w mod 10 ^ Z.of_nat prec ≤ 2 ^ 63 →
  duration_part (itoa v +:+ fmt_frac w prec +:+ u +:+ rest)
  = inr (v * 10 ^ Z.of_nat prec + w mod 10 ^ Z.of_nat prec, rest).
Proof.
  intros Hv Hu Hunit Hprec Hr Hle. set (unit := 10 ^ Z.of_nat prec) in *.
  assert (Hpos : 0 < unit) by (unfold unit; lia).
  assert (Hmod : 0 ≤ w mod unit < unit) by (by apply Z.mod_pos_bound).
  assert (Hunit15 : unit ≤ 10 ^ 15) by (unfold unit; apply Z.pow_le_mono_r; lia).
  destruct (fmt_frac_spec w prec) as [[-> Hz]|(t & f & -> & Hf & Hfpos & Hlen & Hval)]; [lia| |].
  - fold unit in Hz. rewrite Hz, Z.add_0_r.
    change ("" +:+ u +:+ rest) with (u +:+ rest). apply duration_part_int; try done. lia.
  - fold unit in Hval. set (q := 10 ^ Z.of_nat (prec - String.length t)) in *.
    set (scale := 10 ^ Z.of_nat (String.length t)).
    assert (Hq : 0 < q) by (unfold q; lia). assert (Hs : 0 < scale) by (unfold scale; lia).
    assert (Hqs : q * scale = unit).
    { unfold q, scale, unit. rewrite <-Z.pow_add_r by lia. f_equal. lia. }
    assert (v ≤ 2 ^ 63) by (transitivity (v * unit); [nia|lia]).
    rewrite (duration_part_value v (String "." t) f scale u unit rest); [|lia|done|done|done|].
    2: { right. exists t. split_and!; [done|done|nia|done]. }
    unfold part_value. pose proof (Z.div_le_lower_bound (2 ^ 63) unit v Hpos ltac:(lia)).
    destruct (Z.ltb_spec (2 ^ 63 / unit) v); [lia|]. cbv zeta.
    assert (Hns : fraction_ns f scale unit = w mod unit).
    { rewrite Hval, <-Hqs. apply fraction_exact; nia. }
    destruct (Z.ltb_spec 0 f); [|lia]. rewrite Hns.
    destruct (Z.ltb_spec (2 ^ 63) (v * unit + w mod unit)); [lia|done].
Qed.

(** [s] is read as [n] nanoseconds, in at most [k] parts. *)
Definition reads_as (k : nat) (s : string) (n : Z) : Prop :=
  next_part s ∧ (k ≤ String.length s)%nat ∧ 0 ≤ n
  ∧ ∀ d fuel, (k ≤ fuel)%nat → 0 ≤ d → d + n ≤ 2 ^ 63 → duration_parts fuel d s = inr (d + n).

Lemma reads_nothing : reads_as 0 "" 0.
Proof. split_and!; [done|simpl; lia|lia|]. intros d fuel _ _ _. destruct fuel; simpl; f_equal; lia. Qed.

Lemma reads_part k s n a b v :
  a ≠ "" → next_part (a +:+ b +:+ s) → 0 ≤ v → reads_as k s n → b ≠ "" →
  (v + n ≤ 2 ^ 63 → duration_part (a +:+ b +:+ s) = inr (v, s)) → reads_as (S k) (a +:+ b +:+ s) (v + n).
Proof.
  intros Ha Hn Hv (_ & Hlen & Hn0 & Hs) Hb Hp.
  assert (Hl : (S k ≤ String.length (a +:+ b +:+ s))%nat).
  { rewrite !length_append. destruct a; [done|]. cbn [String.length]. lia. }
  split_and!; [done|done|lia|]. intros d [|fuel] Hf Hd Hle; [lia|].
  specialize (Hp ltac:(lia)). destruct (a +:+ b +:+ s) as [|c t] eqn:E; [cbn [String.length] in Hl; lia|].
  cbn [duration_parts]. rewrite Hp. cbv zeta. rewrite Z.mod_small by lia.
  destruct (Z.ltb_spec (2 ^ 63) (d + v)); [lia|]. rewrite Hs by lia. f_equal. lia.
Qed.

Lemma itoa_next v s : 0 ≤ v → next_part (itoa v +:+ s).
Proof. intros Hv. destruct (itoa_first v Hv) as (c & t & -> & Hc). done. Qed.

Lemma reads_int k s n v u unit :
  0 ≤ v → plain_unit u = true → unit_of u = Some unit → 0 < unit → reads_as k s n →
  reads_as (S k) (itoa v +:+ u +:+ s) (v * unit + n).
Proof.
  intros Hv Hu Hunit Hpos Hs. apply (reads_part k); try done; [by apply itoa_nonempty|by apply itoa_next|nia|by intros ->|].
  intros Hle. destruct Hs as (Hnext & _ & Hn & _). apply duration_part_int; try done. lia.
Qed.

Lemma reads_frac k s n v w prec u :
  0 ≤ v → plain_unit u = true → unit_of u = Some (10 ^ Z.of_nat prec) → (0 < prec ≤ 15)%nat → reads_as k s n →
  reads_as (S k) (itoa v +:+ (fmt_frac w prec +:+ u) +:+ s) (v * 10 ^ Z.of_nat prec + w mod 10 ^ Z.of_nat prec + n).
Proof.
  intros Hv Hu Hunit Hprec Hs. assert (Hpos : 0 < 10 ^ Z.of_nat prec) by lia.
  pose proof (Z.mod_pos_bound w _ Hpos).
  apply (reads_part k); try done; [by apply itoa_nonempty|by apply itoa_next|nia| |].
  - destruct (fmt_frac w prec); [|done]. change ("" +:+ u) with u. by intros ->.
  - intros Hle. destruct Hs as (Hnext & _ & Hn & _).
    rewrite append_assoc. apply duration_part_frac; try done. lia.
Qed.

Lemma div_mod_sum a b : 0 < b → a / b * b + a mod b = a.
Proof. intros Hb. pose proof (Z.div_mod a b). lia. Qed.

Lemma reads_eq k s n s' n' : reads_as k s n → s = s' → n = n' → reads_as k s' n'.
Proof. by intros H <- <-. Qed.

(** The last part, with and without a fraction. *)
Lemma reads_last v u unit : 0 ≤ v → plain_unit u = true → unit_of u = Some unit → 0 < unit →
  reads_as 1 (itoa v +:+ u) (v * unit).
Proof.
  intros Hv Hu Hunit Hpos. eapply reads_eq; [apply (reads_int 0 "" 0 v u unit); try done; apply reads_nothing| |lia].
  by rewrite append_nil_r.
Qed.
Lemma reads_last_frac v w prec u : 0 ≤ v → plain_unit u = true → unit_of u = Some (10 ^ Z.of_nat prec) → (0 < prec ≤ 15)%nat →
  reads_as 1 (itoa v +:+ fmt_frac w prec +:+ u) (v * 10 ^ Z.of_nat prec + w mod 10 ^ Z.of_nat prec).
Proof.
  intros Hv Hu Hunit Hprec. eapply reads_eq; [apply (reads_frac 0 "" 0 v w prec u); try done; apply reads_nothing| |lia].
  by rewrite append_nil_r.
Qed.

(** The parts of a printed duration add up to it. *)
Lemma duration_text_reads u : 0 < u → ∃ k, reads_as (S k) (duration_text u) u.
Proof.
  intros Hu. assert (Hd : ∀ a b, 0 ≤ a → 0 < b → 0 ≤ a / b) by (intros; by apply Z.div_pos).
  assert (Hm : ∀ a b, 0 < b → 0 ≤ a mod b) by (intros; by apply Z.mod_pos_bound).
  unfold duration_text. destruct (Z.eqb_spec u 0); [lia|].
  destruct (Z.ltb_spec u 1000).
  { exists O. eapply reads_eq; [apply (reads_last u "ns" 1); done || lia|done|lia]. }
  destruct (Z.ltb_spec u 1000000).
  { exists O. eapply reads_eq; [apply (reads_last_frac (u / 1000) u 3 (micro_sign +:+ "s")); auto with lia|done|].
    by apply div_mod_sum. }
  destruct (Z.ltb_spec u 1000000000).
  { exists O. eapply reads_eq; [apply (reads_last_frac (u / 1000000) u 6 "ms"); auto with lia|done|]. by apply div_mod_sum. }
  set (s := u / 1000000000). set (m := s / 60). cbv zeta.
  assert (Hs0 : 0 ≤ s) by (apply Hd; lia). assert (Hm0 : 0 ≤ m) by (apply Hd; lia).
  assert (Hsum : s * 1000000000 + u mod 1000000000 = u) by (by apply div_mod_sum).
  assert (Hmin : m * 60 + s mod 60 = s) by (by apply div_mod_sum).
  assert (Hhour : m / 60 * 60 + m mod 60 = m) by (by apply div_mod_sum).
  assert (Hsec : reads_as 1 (itoa (s mod 60) +:+ fmt_frac u 9 +:+ "s") (s mod 60 * 1000000000 + u mod 1000000000)).
  { apply (reads_last_frac (s mod 60) u 9 "s"); auto with lia. }
  assert (Hminutes : reads_as 2 (itoa (m mod 60) +:+ "m" +:+ itoa (s mod 60) +:+ fmt_frac u 9 +:+ "s")
                       (m mod 60 * 60000000000 + (s mod 60 * 1000000000 + u mod 1000000000))).
  { apply (reads_int 1); auto with lia. }
  destruct (Z.eqb_spec m 0) as [Em|Em]; [exists O; eapply reads_eq; [exact Hsec|done|lia]|].
  destruct (Z.eqb_spec (m / 60) 0) as [Eh|Eh]; [exists 1%nat; eapply reads_eq; [exact Hminutes|done|lia]|].
  exists 2%nat. eapply reads_eq.
  - eapply (reads_int 2 _ _ (m / 60) "h" 3600000000000); [apply Hd; lia|done|done|lia|exact Hminutes].
  - done.
  - lia.
Qed.

(** A text of parts is read by [time.ParseDuration] with either sign. *)
Lemma parse_reads k s n : reads_as (S k) s n → n ≤ 2 ^ 63 →
  time_ParseDuration (String "-" s) = inr (- n) ∧ (n < 2 ^ 63 → time_ParseDuration s = inr n).
Proof.
  intros (Hnext & Hlen & Hn & Hs) Hle. specialize (Hs 0 (String.length s) Hlen ltac:(lia) Hle).
  destruct s as [|c t]; [cbn [String.length] in Hlen; lia|].
  assert (Hzero : String.eqb (String c t) "0" = false).
  { apply String.eqb_neq. intros E. rewrite E in Hs. vm_compute in Hs. discriminate Hs. }
  assert (Hc : c ≠ "-"%char ∧ c ≠ "+"%char) by (split; intros ->; done).
  split.
  - unfold time_ParseDuration. rewrite Hzero. cbn [String.eqb]. by rewrite Hs.
  - intros Hlt. unfold time_ParseDuration.
    assert (E : match String c t with
                | String "-"%char s => (true, s) | String "+"%char s => (false, s) | _ => (false, String c t)
                end = (false, String c t)).
    { destruct Hc as [H1 H2]. destruct c as [[] [] [] [] [] [] [] []]; done. }
    rewrite E, Hzero. cbn [String.eqb]. rewrite Hs. destruct (Z.ltb_spec (2 ^ 63 - 1) (0 + n)); [lia|done].
Qed.

(** Every 64-bit duration that [time.Duration.String] prints is read back as
    itself by [time.ParseDuration]: the units, the fractions and their floats
    included. *)
Theorem ParseDuration_String' d : min_int64 ≤ d ≤ max_int64 → time_ParseDuration (time_Duration_String d) = inr d.
Proof.
  unfold min_int64, max_int64. intros Hd. unfold time_Duration_String. destruct (Z.ltb_spec d 0).
  - destruct (duration_text_reads (- d)) as [k Hk]; [lia|]. change ("-" +:+ duration_text (- d)) with (String "-" (duration_text (- d))).
    destruct (parse_reads _ _ _ Hk) as [-> _]; [lia|]. f_equal. lia.
  - destruct (decide (d = 0)) as [->|Hne]; [done|]. destruct (duration_text_reads d) as [k Hk]; [lia|].
    destruct (parse_reads _ _ _ Hk ltac:(lia)) as [_ Hp]. apply Hp. lia.
Qed.
