(* ===== verification/OperatorConfig.v ===== *)
(** [pkg/controllers/config]: the configuration file of the operator, read once
    through viper, the hooks that decode its values, and what becomes of the
    errors. No command reads it, and [Config] has no field yet. *)
From stdpp Require Import base gmap strings list pretty sorting.
From Stdlib Require Import Ascii String.
From S2P Require Import Prelude GoStd K8s Duration.
Open Scope Z_scope.

Record Config := mkConfig {}.
Definition New : Config := mkConfig.

(** [ToMap] ranges over the fields. *)
Definition stripEmptyOptions (conf : Config) : Config := conf.
Definition ToMap (conf : Config) : gmap string bool := let _ := stripEmptyOptions conf in ∅.

(** ** The decoding hooks *)

(** The types the hooks tell apart, and values as the decoder passes them. *)
Inductive RType := RString | RQuantity | RTime | RDuration | ROther (name : string).
#[export] Instance RType_eq_dec : EqDecision RType.
Proof. solve_decision. Defined.
Inductive Datum := DString (s : string) | DQuantity (q : string) | DTime (t : option Z) | DDuration (ns : Z) | DOther (ty : RType) (v : string).
Definition Kind_of (d : Datum) : RType :=
  match d with DString _ => RString | DQuantity _ => RQuantity | DTime _ => RTime | DDuration _ => RDuration | DOther t _ => t end.

(** The parsers of the Kubernetes libraries; a time that cannot be read leaves
    [metav1.Time] as it was. *)
Class ConfigLib := {
  resource_ParseQuantity : string → GoError + string;
  UnmarshalQueryParameter : string → GoError + Z;
}.

Section hooks.
Context `{!ConfigLib}.

Definition decodes (t : RType) (f : string → GoError + Datum) (target : RType) (data : Datum) : GoError + Datum :=
  match data with
  | DString s => if decide (target = t) then f s else inr data
  | _ => inr data
  end.

Definition StringToResourceQuantityHookFunc : RType → Datum → GoError + Datum :=
  decodes RQuantity (λ s, match resource_ParseQuantity s with inl e => inl e | inr q => inr (DQuantity q) end).

(** The error is dropped: the time stays zero, [None]. *)
Definition StringToMetav1TimeHookFunc : RType → Datum → GoError + Datum :=
  decodes RTime (λ s, inr (DTime (match UnmarshalQueryParameter s with inr t => Some t | inl _ => None end))).

Definition StringToMetav1DurationHookFunc : RType → Datum → GoError + Datum :=
  decodes RDuration (λ s, match time_ParseDuration s with inl e => inl e | inr d => inr (DDuration d) end).

(** A duration written by [time.Duration.String] is decoded as itself. *)
Theorem duration_hook_reads d :
  min_int64 ≤ d ≤ max_int64 →
  StringToMetav1DurationHookFunc RDuration (DString (GoNet.time_Duration_String d)) = inr (DDuration d).
Proof. intros Hd. unfold StringToMetav1DurationHookFunc, decodes. cbn. by rewrite ParseDuration_String'. Qed.
End hooks.

(** ** Loading *)

(** viper: reading the file, telling that there is none, and decoding into the
    configuration. *)
Class Viper (V : Type) := {
  ReadInConfig : M V unit;
  ConfigFileNotFoundError : GoError → bool;
  Unmarshal : Config → M V Config;
}.

Section load.
Context {V : Type} `{!Viper V}.

(** The singleton: the configuration, and whether [loadOnce] has run. *)
Record config := { cf_cfg : Config; cf_loaded : bool; cf_viper : V }.

Definition viper_step {A} (m : M V A) : M config A :=
  zoom cf_viper (λ v c, {| cf_cfg := cf_cfg c; cf_loaded := cf_loaded c; cf_viper := v |}) m.
Definition loaded (cfg : Config) : M config unit :=
  modify_st (λ c, {| cf_cfg := cfg; cf_loaded := true; cf_viper := cf_viper c |}).

(** The function of [loadOnce] and the error it leaves in [err], which a second
    call does not find. *)
Definition loadFromDisk : M config (Config * option GoError) :=
  c ← get_st;
  if cf_loaded c then mret (cf_cfg c, None)
  else
    loaded (cf_cfg c);;
    r ← attempt (viper_step ReadInConfig);
    let err := match r with
               | inl e => Some (if ConfigFileNotFoundError e then e else EWrap "error parsing configuration file" e)
               | inr _ => None
               end in
    u ← attempt (viper_step (Unmarshal (cf_cfg c)));
    let err := match u with inl e => Some e | inr _ => None end in
    cfg ← match u with inr cfg => loaded cfg;; mret cfg | inl _ => mret (cf_cfg c) end;
    mret (cfg, err).

Definition TryLoadFromDisk : M config (Config * option GoError) := loadFromDisk.

(** What a change of the file sends on the channel of [watchConfig]: nothing when
    it cannot be decoded. *)
Definition config_change : M config (option Config) :=
  u ← attempt (viper_step (Unmarshal New));
  mret (match u with inl _ => None | inr cfg => Some cfg end).

(** The error of a file that cannot be read or parsed is lost. *)
Theorem read_error_lost c v1 v2 e cfg :
  cf_loaded c = false → ReadInConfig (cf_viper c) = (Err e, v1) → Unmarshal (cf_cfg c) v1 = (Ok cfg, v2) →
  ∃ c', TryLoadFromDisk c = (Ok (cfg, None), c').
Proof.
  intros Hl Hr Hu. unfold TryLoadFromDisk, loadFromDisk, loaded, viper_step, zoom, attempt, modify_st, get_st, mbind, M_mbind, M_bind.
  rewrite Hl. cbn. rewrite Hr. cbn. rewrite Hu. by eexists.
Qed.

(** A second load always succeeds, with the configuration of the first. *)
Theorem second_load_succeeds c r c' :
  TryLoadFromDisk c = (Ok r, c') → TryLoadFromDisk c' = (Ok (cf_cfg c', None), c') ∧ cf_loaded c' = true.
Proof.
  assert (Hagain : ∀ c, cf_loaded c = true → TryLoadFromDisk c = (Ok (cf_cfg c, None), c) ∧ cf_loaded c = true).
  { intros c0 H. unfold TryLoadFromDisk, loadFromDisk, get_st, mbind, M_mbind, M_bind. by rewrite H. }
  unfold TryLoadFromDisk, loadFromDisk, loaded, viper_step, zoom, attempt, modify_st, get_st, mbind, M_mbind, M_bind.
  destruct (cf_loaded c) eqn:Hl; [intros [= <- <-]; by apply Hagain|]. cbn.
  destruct (ReadInConfig (cf_viper c)) as [[?|e|?] v1]; cbn; [| |done].
  all: destruct (Unmarshal (cf_cfg c) v1) as [[cfg|e'|?] v2]; cbn; try done; intros [= <- <-]; by apply Hagain.
Qed.
End load.
