(* ===== verification/Flags.v ===== *)
(** Command lines: the flags a command registers, the values they are given and
    the parsers that read them, which are third-party ([kingpin], [pflag] and
    [kong]). A flag is data; a command reads its configuration from the values
    of its flags. *)
From stdpp Require Import base gmap strings list pretty.
From Stdlib Require Import Ascii String.
From S2P Require Import Prelude GoStd Duration.

(** The variable a flag is bound to. *)
Inductive FlagKind := KString | KBool | KInt | KDuration | KEnum (options : list string).
Inductive FlagValue := VString (s : string) | VBool (b : bool) | VInt (n : Z) | VDuration (d : Z).

Record Flag := { fl_Name : string; fl_Kind : FlagKind; fl_Default : string }.
#[export] Instance FlagKind_eq : EqDecision FlagKind. Proof. solve_decision. Defined.
#[export] Instance Flag_eq : EqDecision Flag. Proof. solve_decision. Defined.

Definition mkFlag (name : string) (kind : FlagKind) (default : string) : Flag :=
  {| fl_Name := name; fl_Kind := kind; fl_Default := default |}.

Abbreviation FlagValues := (gmap string FlagValue).

(** The zero value when the flag is not there. *)
Definition get_string (m : FlagValues) (name : string) : string :=
  match m !! name with Some (VString s) => s | _ => "" end.
Definition get_bool (m : FlagValues) (name : string) : bool :=
  match m !! name with Some (VBool b) => b | _ => false end.
Definition get_int (m : FlagValues) (name : string) : Z :=
  match m !! name with Some (VInt n) => n | _ => 0%Z end.
Definition get_duration (m : FlagValues) (name : string) : Z :=
  match m !! name with Some (VDuration d) => d | _ => 0%Z end.

(** [strconv.ParseBool] *)
Definition ParseBool (s : string) : option bool :=
  if bool_decide (s ∈ ["1"; "t"; "T"; "true"; "TRUE"; "True"]) then Some true
  else if bool_decide (s ∈ ["0"; "f"; "F"; "false"; "FALSE"; "False"]) then Some false
  else None.

(** ** What a command line means *)

Fixpoint assoc (n : string) (given : list (string * string)) : option string :=
  match given with
  | [] => None
  | (k, v) :: given => if String.eqb k n then Some v else assoc n given
  end.

Section values.
Variable dur : string → GoError + Z.       (* how durations are read *)

Definition flag_value (k : FlagKind) (text : string) : option FlagValue :=
  match k with
  | KString => Some (VString text)
  | KBool => VBool <$> ParseBool text
  | KInt => VInt <$> parse_int64 text
  | KDuration => match dur text with inr d => Some (VDuration d) | inl _ => None end
  | KEnum options => if bool_decide (text ∈ options) then Some (VString text) else None
  end.

(** The texts given on a command line, by the name of their flag. *)
Abbreviation Given := (list (string * string)).

Definition given_text (given : Given) (f : Flag) : string := default (fl_Default f) (assoc (fl_Name f) given).

Definition flag_named (flags : list Flag) (name : string) : option Flag :=
  snd <$> list_find (λ f, fl_Name f = name) flags.

(** A text may be given to a flag that is registered; a boolean one is only
    set. *)
Definition may_give (flags : list Flag) (nv : string * string) : bool :=
  match flag_named flags nv.1 with
  | Some f => match fl_Kind f with KBool => String.eqb nv.2 "true" | _ => true end
  | None => false
  end.

(** Every flag is registered once, under a name without an equals sign, and
    given at most once. *)
Definition well_given (flags : list Flag) (given : Given) : bool :=
  bool_decide (NoDup (fl_Name <$> flags)) && forallb (λ f, negb (contains_char "="%char (fl_Name f))) flags
  && bool_decide (NoDup given.*1) && forallb (may_give flags) given.

Definition flag_values (flags : list Flag) (given : Given) : option FlagValues :=
  if well_given flags given
  then list_to_map <$> mapM (λ f, pair (fl_Name f) <$> flag_value (fl_Kind f) (given_text given f)) flags
  else None.

(** The arguments that give them, in the long form. *)
Definition flag_arg (flags : list Flag) (nv : string * string) : string :=
  match flag_named flags nv.1 with
  | Some f => match fl_Kind f with KBool => "--" +:+ nv.1 | _ => "--" +:+ nv.1 +:+ "=" +:+ nv.2 end
  | None => "--" +:+ nv.1 +:+ "=" +:+ nv.2
  end.
End values.

(** A parser of command lines: of arguments in the long form it reads what
    they mean. What it does with others is not known. *)
Class CommandLine (dur : string → GoError + Z) := {
  cl_Parse : list Flag → list string → GoError + FlagValues;
  cl_Parse_given : ∀ flags given m,
    flag_values dur flags given = Some m → cl_Parse flags (flag_arg flags <$> given) = inr m;
}.

(** [kingpin], whose durations are Prometheus's, and [extflag.PathOrContent]:
    two flags, a file's path and its content. *)
Record PathOrContent := { poc_Path : string; poc_Content : string }.

Class Kingpin := {
  model_ParseDuration : string → GoError + Z;
  model_1m : model_ParseDuration "1m" = inr (60 * 10 ^ 9)%Z;
  model_2m : model_ParseDuration "2m" = inr (120 * 10 ^ 9)%Z;
  kingpin :: CommandLine model_ParseDuration;
  RegisterPathOrContent : string → list Flag;
  RegisterPathOrContent_flags : ∀ name,
    RegisterPathOrContent name = [mkFlag (name +:+ "-file") KString ""; mkFlag name KString ""];
  (* PathOrContent.Content: it reads the file and replaces references to
     environment variables, which start with a dollar sign *)
  Content : PathOrContent → GoError + string;
  Content_literal : ∀ text, contains_char "$"%char text = false →
    Content {| poc_Path := ""; poc_Content := text |} = inr text;
}.

Definition path_or_content (m : FlagValues) (name : string) : PathOrContent :=
  {| poc_Path := get_string m (name +:+ "-file"); poc_Content := get_string m name |}.

(** [pflag], whose durations are Go's, and [kong]. *)
Class Pflag := { pflag :: CommandLine time_ParseDuration }.
Class Kong := { kong :: CommandLine time_ParseDuration }.

(** ** Facts *)

Section facts.
Context (dur : string → GoError + Z).
Open Scope nat_scope.

Lemma flag_named_in flags f : NoDup (fl_Name <$> flags) → f ∈ flags → flag_named flags (fl_Name f) = Some f.
Proof.
  intros Hnd [i Hi]%list_elem_of_lookup. unfold flag_named.
  rewrite (proj2 (list_find_Some (λ g, fl_Name g = fl_Name f) flags i f)); [done|].
  split; [done|]. split; [done|]. intros j g Hg Hlt Heq.
  assert (j = i); [|lia]. eapply NoDup_lookup; [exact Hnd|rewrite list_lookup_fmap, Hg; simpl; by rewrite Heq|].
  by rewrite list_lookup_fmap, Hi.
Qed.

Lemma flag_named_name flags n f : flag_named flags n = Some f → f ∈ flags ∧ fl_Name f = n.
Proof.
  unfold flag_named. destruct (list_find _ flags) as [[i g]|] eqn:E; simpl; [|done]. intros [= <-].
  apply list_find_Some in E as (Hi & Hn & _). split; [by eapply list_elem_of_lookup_2|done].
Qed.

(** Every flag has the value of its text. *)
Lemma flag_values_lookup flags given m f :
  flag_values dur flags given = Some m → f ∈ flags →
  ∃ v, flag_value dur (fl_Kind f) (given_text given f) = Some v ∧ m !! fl_Name f = Some v.
Proof.
  unfold flag_values, well_given. destruct (_ && _) eqn:E; [|done]. intros H Hf.
  apply andb_true_iff in E as [[[Hnd%bool_decide_eq_true _]%andb_true_iff _]%andb_true_iff _].
  destruct (mapM _ flags) as [kvs|] eqn:Em; [|done]. injection H as <-. apply mapM_Some in Em.
  assert (Hk : kvs.*1 = fl_Name <$> flags).
  { clear -Em. induction Em as [|g kv gs kvs Hg _ IH]; [done|]. csimpl. rewrite IH. f_equal.
    destruct (flag_value _ _ _); simpl in Hg; [by injection Hg as <-|done]. }
  apply list_elem_of_lookup in Hf as [i Hi]. eapply Forall2_lookup_l in Em as ([n v] & Hkv & Hv); [|exact Hi].
  destruct (flag_value dur (fl_Kind f) (given_text given f)) as [v'|]; [|done]. injection Hv as <- <-.
  exists v'. split; [done|]. apply elem_of_list_to_map_1; [by rewrite Hk|by eapply list_elem_of_lookup_2].
Qed.

(** A command line whose texts are all legal has a meaning. *)
Lemma flag_values_is_Some flags given :
  well_given flags given = true →
  Forall (λ f, is_Some (flag_value dur (fl_Kind f) (given_text given f))) flags →
  is_Some (flag_values dur flags given).
Proof.
  intros Hw Hv. unfold flag_values. rewrite Hw. apply fmap_is_Some, mapM_is_Some.
  eapply list.Forall_impl; [exact Hv|]. intros f Hf. by apply fmap_is_Some.
Qed.

Lemma assoc_app n (a b : list (string * string)) :
  assoc n (a ++ b) = match assoc n a with Some v => Some v | None => assoc n b end.
Proof. induction a as [|[k v] a IH]; [done|]. simpl. by destruct (String.eqb k n). Qed.

(** A text that is given when it is not empty. *)
Definition opt_given (n v : string) : list (string * string) := if String.eqb v "" then [] else [(n, v)].

Lemma assoc_opt n k v :
  assoc n (opt_given k v) = if String.eqb k n then (if String.eqb v "" then None else Some v) else None.
Proof. unfold opt_given. by destruct (String.eqb v ""), (String.eqb k n) eqn:E; simpl; rewrite ?E. Qed.

Lemma default_opt d v : default d (if String.eqb v "" then None else Some v) = if String.eqb v "" then d else v.
Proof. by destruct (String.eqb v ""). Qed.

Lemma get_string_given flags given m f :
  flag_values dur flags given = Some m → f ∈ flags → fl_Kind f = KString →
  get_string m (fl_Name f) = given_text given f.
Proof.
  intros H Hf Hk. destruct (flag_values_lookup _ _ _ _ H Hf) as (v & Hv & Hm).
  rewrite Hk in Hv. injection Hv as <-. unfold get_string. by rewrite Hm.
Qed.

Lemma get_bool_given flags given m f b :
  flag_values dur flags given = Some m → f ∈ flags → fl_Kind f = KBool →
  ParseBool (given_text given f) = Some b → get_bool m (fl_Name f) = b.
Proof.
  intros H Hf Hk Hb. destruct (flag_values_lookup _ _ _ _ H Hf) as (v & Hv & Hm).
  rewrite Hk in Hv. simpl in Hv. rewrite Hb in Hv. injection Hv as <-. unfold get_bool. by rewrite Hm.
Qed.

Lemma get_duration_given flags given m f d :
  flag_values dur flags given = Some m → f ∈ flags → fl_Kind f = KDuration →
  dur (given_text given f) = inr d → get_duration m (fl_Name f) = d.
Proof.
  intros H Hf Hk Hd. destruct (flag_values_lookup _ _ _ _ H Hf) as (v & Hv & Hm).
  rewrite Hk in Hv. simpl in Hv. rewrite Hd in Hv. injection Hv as <-. unfold get_duration. by rewrite Hm.
Qed.
End facts.
