(* ===== verification/Proxy.v ===== *)
(** Reverse proxies: [httputil.NewSingleHostReverseProxy] of the standard
    library and the [NewSingleHostReverseProxy] of the gateway (handler.go) and
    of the agent proxy (server.go), as what they make of a request's URL. *)
From stdpp Require Import base gmap strings list pretty sorting.
From Stdlib Require Import Ascii String.
From S2P Require Import Prelude GoStd Url GoNet GoNetFacts.

(** What a proxy sends: the URL, the host header and the other headers. *)
Record Outgoing := { og_URL : URL; og_Host : string; og_Header : Header }.

(** ** net/http/httputil *)

Definition drop_first (s : string) : string := match s with String _ s' => s' | EmptyString => EmptyString end.

Definition singleJoiningSlash (a b : string) : string :=
  match has_suffix a "/", has_prefix b "/" with
  | true, true => a +:+ drop_first b
  | false, false => a +:+ "/" +:+ b
  | _, _ => a +:+ b
  end.

(** The path and the raw path. *)
Definition joinURLPath (a b : URL) : string * string :=
  if String.eqb (u_RawPath a) "" && String.eqb (u_RawPath b) ""
  then (singleJoiningSlash (u_Path a) (u_Path b), "")
  else
    let apath := EscapedPath a in
    let bpath := EscapedPath b in
    match has_suffix apath "/", has_prefix bpath "/" with
    | true, true => (u_Path a +:+ drop_first (u_Path b), apath +:+ drop_first bpath)
    | false, false => (u_Path a +:+ "/" +:+ u_Path b, apath +:+ "/" +:+ bpath)
    | _, _ => (u_Path a +:+ u_Path b, apath +:+ bpath)
    end.

Definition joined_query (target req : string) : string :=
  if String.eqb target "" || String.eqb req "" then target +:+ req else target +:+ "&" +:+ req.

Definition rewriteRequestURL (target url : URL) : URL :=
  let '(path, raw) := joinURLPath target url in {|
  u_Scheme := u_Scheme target; u_Opaque := u_Opaque url; u_User := u_User url; u_Host := u_Host target;
  u_OmitHost := u_OmitHost url; u_Path := path; u_RawPath := raw; u_ForceQuery := u_ForceQuery url;
  u_RawQuery := joined_query (u_RawQuery target) (u_RawQuery url); u_Fragment := u_Fragment url;
  u_RawFragment := u_RawFragment url |}.

(** The director: it keeps the host header, and empties a missing user agent. *)
Definition single_host_director (target : URL) (r : Outgoing) : Outgoing := {|
  og_URL := rewriteRequestURL target (og_URL r); og_Host := og_Host r;
  og_Header := match og_Header r !! "User-Agent" with
               | Some _ => og_Header r
               | None => <["User-Agent" := [""]]> (og_Header r)
               end |}.

(** A proxy: where it sends, and the transport it uses. *)
Record ReverseProxy (T : Type) := { px_Target : URL; px_Transport : T; px_Director : Outgoing → Outgoing }.
Arguments px_Target {T}.
Arguments px_Transport {T}.
Arguments px_Director {T}.

(** ** pkg/monitoring-gateway/handler.go: the host header is the target's *)

Definition set_scheme (s : string) (u : URL) : URL :=
  {| u_Scheme := s; u_Opaque := u_Opaque u; u_User := u_User u; u_Host := u_Host u; u_OmitHost := u_OmitHost u;
     u_Path := u_Path u; u_RawPath := u_RawPath u; u_ForceQuery := u_ForceQuery u; u_RawQuery := u_RawQuery u;
     u_Fragment := u_Fragment u; u_RawFragment := u_RawFragment u |}.

Definition NewSingleHostReverseProxy {T} (target : URL) (transport : T) : ReverseProxy T := {|
  px_Target := target; px_Transport := transport;
  px_Director := λ r, single_host_director target
    {| og_URL := set_scheme (u_Scheme target) (og_URL r); og_Host := u_Host target; og_Header := og_Header r |} |}.

(** ** pkg/monitoring-agent-proxy/server.go: the client's host header stays *)

Definition agent_NewSingleHostReverseProxy {T} (target : URL) (rt : T) : ReverseProxy T :=
  {| px_Target := target; px_Transport := rt; px_Director := single_host_director target |}.

(** The agent's handler, on a URL: the tenant is put in front of the path, and
    the raw path is left as it was. *)
Definition set_path (p : string) (u : URL) : URL :=
  {| u_Scheme := u_Scheme u; u_Opaque := u_Opaque u; u_User := u_User u; u_Host := u_Host u; u_OmitHost := u_OmitHost u;
     u_Path := p; u_RawPath := u_RawPath u; u_ForceQuery := u_ForceQuery u; u_RawQuery := u_RawQuery u;
     u_Fragment := u_Fragment u; u_RawFragment := u_RawFragment u |}.

(** ** Facts *)

Lemma singleJoiningSlash_root a b :
  a = "" ∨ a = "/" → has_prefix b "/" = true → singleJoiningSlash a b = b.
Proof.
  intros Ha [p ->]%has_prefix_inv. unfold singleJoiningSlash. rewrite has_prefix_app.
  by destruct Ha as [-> | ->].
Qed.
