(* ===== verification/Tenant.v ===== *)
(** [pkg/controllers/resources/tenant]: the reconciler that assigns a tenant to
    an ingester, a compactor, a ruler and a store.

    A run's state is the world and the tenant object [t.tenant] points to, which
    the handlers mutate and which every successful update overwrites with the
    server's answer. [t.Service] is fixed for the run. *)
From stdpp Require Import base gmap strings list pretty sorting.
From Stdlib Require Import Ascii String.
From S2P Require Import Prelude GoStd K8s Api Objects Client Base.

(** ** Field updates *)

Definition set_tn_Status (s : TenantStatus) (t : Tenant) : Tenant :=
  {| tn_Type := tn_Type t; tn_Meta := tn_Meta t; tn_Spec := tn_Spec t; tn_Status := s |}.
Definition set_status_Ingester (r : option ObjectReference) (t : Tenant) : Tenant :=
  set_tn_Status {| tst_Ruler := tst_Ruler (tn_Status t); tst_Compactor := tst_Compactor (tn_Status t);
    tst_Ingester := r |} t.
Definition set_status_Compactor (r : option ObjectReference) (t : Tenant) : Tenant :=
  set_tn_Status {| tst_Ruler := tst_Ruler (tn_Status t); tst_Compactor := r;
    tst_Ingester := tst_Ingester (tn_Status t) |} t.
Definition set_status_Ruler (r : option ObjectReference) (t : Tenant) : Tenant :=
  set_tn_Status {| tst_Ruler := r; tst_Compactor := tst_Compactor (tn_Status t);
    tst_Ingester := tst_Ingester (tn_Status t) |} t.
Definition set_tn_Finalizers (f : list string) (t : Tenant) : Tenant :=
  set_tn_Meta (set_om_Finalizers f (tn_Meta t)) t.

Definition set_ig_Tenants (l : list string) (i : Ingester) : Ingester :=
  let s := ig_Spec i in {| ig_Type := ig_Type i; ig_Meta := ig_Meta i;
    ig_Spec := {| isp_Tenants := l; isp_OtlpEnableTargetInfo := isp_OtlpEnableTargetInfo s;
      isp_OtlpResourceAttributes := isp_OtlpResourceAttributes s;
      isp_LocalTsdbRetention := isp_LocalTsdbRetention s; isp_DataVolume := isp_DataVolume s;
      isp_Common := isp_Common s; isp_IngesterTSDBCleanUp := isp_IngesterTSDBCleanUp s |};
    ig_Status := ig_Status i |}.
Definition set_ig_Annotations (a : gmap string string) (i : Ingester) : Ingester :=
  set_ig_Meta (set_om_Annotations a (ig_Meta i)) i.
Definition set_ig_StatusTenants (l : list IngesterTenantStatus) (i : Ingester) : Ingester :=
  {| ig_Type := ig_Type i; ig_Meta := ig_Meta i; ig_Spec := ig_Spec i; ig_Status := {| is_Tenants := l |} |}.
Definition set_cmp_Tenants (l : list string) (c : Compactor) : Compactor :=
  let s := cmp_Spec c in {| cmp_Type := cmp_Type c; cmp_Meta := cmp_Meta c;
    cmp_Spec := {| csp_Tenants := l; csp_DisableDownsampling := csp_DisableDownsampling s;
      csp_Retention := csp_Retention s; csp_DataVolume := csp_DataVolume s;
      csp_Common := csp_Common s |} |}.

(** ** Zero values *)

Definition zeroType : TypeMeta := {| tm_APIVersion := ""; tm_Kind := "" |}.
Definition zeroCommon : CommonSpec := {|
  Replicas := None; Image := ""; ImagePullPolicy := ""; Resources := emptyResources;
  LogLevel := ""; LogFormat := ""; Flags := []; PodMetadata := None; ConfigMaps := [];
  Secrets := []; Containers := ""; EmbeddedContainers := []; ImagePullSecrets := [];
  SecurityContext := ""; Affinity := ""; NodeSelector := ∅; Tolerations := "" |}.
Definition zeroSidecar : SidecarSpec := {| sc_Image := ""; sc_Resources := emptyResources |}.

Definition new_meta (name generate ns : string) (labels annotations : gmap string string) : ObjectMeta := {|
  om_Name := name; om_GenerateName := generate; om_Namespace := ns; om_UID := "";
  om_ResourceVersion := ""; om_Labels := labels; om_Annotations := annotations;
  om_Finalizers := []; om_DeletionTimestamp := None; om_OwnerReferences := [] |}.

Definition new_ingester (m : ObjectMeta) (tenants : list string) : Ingester := {|
  ig_Type := zeroType; ig_Meta := m;
  ig_Spec := {| isp_Tenants := tenants; isp_OtlpEnableTargetInfo := None;
    isp_OtlpResourceAttributes := []; isp_LocalTsdbRetention := ""; isp_DataVolume := None;
    isp_Common := zeroCommon; isp_IngesterTSDBCleanUp := zeroSidecar |};
  ig_Status := {| is_Tenants := [] |} |}.

Definition new_compactor (m : ObjectMeta) (tenants : list string) : Compactor := {|
  cmp_Type := zeroType; cmp_Meta := m;
  cmp_Spec := {| csp_Tenants := tenants; csp_DisableDownsampling := None; csp_Retention := None;
    csp_DataVolume := None; csp_Common := zeroCommon |} |}.

Definition new_store (m : ObjectMeta) : Store := {|
  st_Type := zeroType; st_Meta := m;
  st_Spec := {| ssp_MinTime := ""; ssp_MaxTime := ""; ssp_TimeRanges := [];
    ssp_IndexCacheConfig := None; ssp_DataVolume := None; ssp_Common := zeroCommon |} |}.

Definition new_ruler (m : ObjectMeta) (tenant : string) (selectors : list LabelSelector) : Ruler := {|
  rl_Type := zeroType; rl_Meta := m;
  rl_Spec := {| rls_RuleSelectors := selectors; rls_RuleNamespaceSelector := None;
    rls_Shards := None; rls_Tenant := tenant; rls_QueryConfig := None;
    rls_RemoteWriteConfig := None; rls_Labels := ∅; rls_AlertDropLabels := [];
    rls_AlertmanagersURL := []; rls_AlertmanagersConfig := None; rls_EvaluationInterval := "";
    rls_DataVolume := None; rls_RulerQueryProxy := zeroSidecar;
    rls_RulerWriteProxy := zeroSidecar; rls_PrometheusConfigReloader := zeroSidecar;
    rls_Common := zeroCommon |} |}.

(** ** Helpers of ingestor.go *)

Fixpoint containsString (slice : list string) (s : string) : bool :=
  match slice with
  | [] => false
  | item :: l => if String.eqb item s then true else containsString l s
  end.

Fixpoint removeString (slice : list string) (s : string) : list string :=
  match slice with
  | [] => []
  | item :: l => if String.eqb item s then removeString l s else item :: removeString l s
  end.

Definition key_of (r : ObjectReference) : NamespacedName :=
  {| nn_Namespace := ref_Namespace r; nn_Name := ref_Name r |}.
Definition ref_of (m : ObjectMeta) : ObjectReference :=
  {| ref_Namespace := om_Namespace m; ref_Name := om_Name m |}.

(** [v, ok := labels\[k\]; ok && v == "true"] *)
Definition label_is (labels : gmap string string) (k v : string) : bool :=
  match labels !! k with Some x => String.eqb x v | None => false end.

(** [GetDeletionTimestamp().IsZero()]. *)
Definition being_deleted (m : ObjectMeta) : bool := negb (time_IsZero (om_DeletionTimestamp m)).

Section tenant.
Context {W : Type} `{!Kube W} `{!K8sLib} `{!MapRange} `{!BaseLib} `{!Clock}.
Variable Service_ : option Service.      (* t.Service *)

Abbreviation T := (M (W * Tenant)).

Definition world {A} (m : M W A) : T A := zoom fst (λ w s, (w, s.2)) m.
Definition tenant : T Tenant := λ s, (Ok s.2, s).
Definition set_tenant (t : Tenant) : T unit := λ s, (Ok tt, (s.1, t)).

(** [t.Client.Update(t.Context, t.tenant)] and its status counterpart. *)
Definition update_tenant : T unit := t ← tenant; t' ← world (Update t); set_tenant t'.
Definition update_status : T unit := t ← tenant; t' ← world (StatusUpdate t); set_tenant t'.

Definition service_spec : T ServiceSpec :=
  lift_outcome (match Service_ with
                | Some s => Ok (sv_Spec s)
                | None => Panic "nil pointer dereference"
                end).

Definition tn_label (t : Tenant) (k : string) : string := map_get (om_Labels (tn_Meta t)) k.
Definition storage_of (t : Tenant) : string := GetStorage Service_ (tn_label t StorageLabelKey).

(** ** ingestor.go *)

Definition createIngesterInstanceName (t : Tenant) (suffix : list string) : Outcome string :=
  let storage := storage_of t in
  let serviceNamespacedName := split_on "."%char (tn_label t ServiceLabelKey) in
  let storageName := match split_on "."%char storage with
                     | _ :: name :: _ => name
                     | _ => LocalStorage
                     end in
  match index_str serviceNamespacedName 1 with
  | Ok svc =>
      let name := svc +:+ "-" +:+ storageName +:+ "-auto" in
      Ok (match suffix with [] => name | _ => name +:+ "-" +:+ join "-" suffix end)
  | Err e => Err e
  | Panic p => Panic p
  end.

Definition service_namespace (t : Tenant) : Outcome string :=
  index_str (split_on "."%char (tn_label t ServiceLabelKey)) 0.

Definition createIngesterInstance (name : string) (t : Tenant) (isExclusive : bool) : Outcome Ingester :=
  let label := <[StorageLabelKey := storage_of t]>
                 (<[ServiceLabelKey := tn_label t ServiceLabelKey]> ∅) in
  let label := if isExclusive then <[ExclusiveLabelKey := "true"]> label else label in
  match service_namespace t with
  | Ok ns => Ok (new_ingester (new_meta name "" ns label ∅) [tsp_Tenant (tn_Spec t)])
  | Err e => Err e
  | Panic p => Panic p
  end.

Definition addTenantToIngesterInstance (t : Tenant) (i : Ingester) : Ingester :=
  let i := set_ig_Tenants (isp_Tenants (ig_Spec i) ++ [tsp_Tenant (tn_Spec t)]) i in
  let annotation := om_Annotations (ig_Meta i) in
  if label_is annotation LabelNameIngesterState IngesterStateDeleting then
    set_ig_Annotations (<[LabelNameIngesterDeletingTime := ""]>
      (<[LabelNameIngesterState := IngesterStateRunning]> annotation)) i
  else i.

(** The reset test: does the ingester of the status still fit the tenant? *)
Definition ingester_mismatch (t : Tenant) (i : Ingester) : bool :=
  let labels := om_Labels (ig_Meta i) in
  if negb (containsString (isp_Tenants (ig_Spec i)) (tsp_Tenant (tn_Spec t))) then true
  else if negb (label_is labels ServiceLabelKey (tn_label t ServiceLabelKey)) then true
  else if negb (label_is labels StorageLabelKey (storage_of t)) then true
  else if label_is (om_Labels (tn_Meta t)) ExclusiveLabelKey "true" then
    negb (label_is labels ExclusiveLabelKey "true")
    || negb (String.eqb (om_Name (ig_Meta i)) (om_Name (tn_Meta t)))
  else
    label_is labels ExclusiveLabelKey "true"
    && String.eqb (om_Name (ig_Meta i)) (om_Name (tn_Meta t)).

Definition needResetIngester : T bool :=
  t ← tenant;
  match tst_Ingester (tn_Status t) with
  | None => mret false
  | Some ref =>
      r ← attempt (world (Get (A:=Ingester) (key_of ref)));
      match r with
      | inl err => if negb (apierrors_IsNotFound err) then fail err else mret true
      | inr ingester => mret (ingester_mismatch t ingester)
      end
  end.

(** How long an ingester without tenants keeps its data. *)
Definition retention_period (svc : ServiceSpec) (i : Ingester) : Z :=
  let dflt := DefaultIngesterRetentionPeriod (sv_IngesterTemplateSpec svc) in
  let local := isp_LocalTsdbRetention (ig_Spec i) in
  match om_Labels (ig_Meta i) !! StorageLabelKey with
  | Some v =>
      if negb (String.eqb v LocalStorage) then ParseDuration_ dflt
      else
        let period :=
          if negb (String.eqb local "") then ParseDuration_ local
          else if negb (String.eqb dflt "") then ParseDuration_ local else 0%Z in
        if (period <=? 0)%Z then ParseDuration_ dflt else period
  | None =>
      let period :=
        if negb (String.eqb local "") then ParseDuration_ local
        else if negb (String.eqb dflt "") then ParseDuration_ local else 0%Z in
      if (period <=? 0)%Z then ParseDuration_ dflt else period
  end.

Definition deleting_time (period : Z) : string := itoa ((now + period) / second)%Z.

Definition mark_deleting (svc : ServiceSpec) (i : Ingester) : Ingester :=
  set_ig_Annotations
    (<[LabelNameIngesterDeletingTime := deleting_time (retention_period svc i)]>
      (<[LabelNameIngesterState := IngesterStateDeleting]> (om_Annotations (ig_Meta i)))) i.

Definition removeTenantFromIngesterbyName (ref : ObjectReference) : T unit :=
  t ← tenant;
  set_tenant (set_status_Ingester None t) ;;
  r ← attempt (world (Get (A:=Ingester) (key_of ref)));
  match r with
  | inl err => if apierrors_IsNotFound err then mret tt else fail err
  | inr ingester =>
      if containsString (isp_Tenants (ig_Spec ingester)) (tsp_Tenant (tn_Spec t)) then
        let ingester := set_ig_Tenants
          (removeString (isp_Tenants (ig_Spec ingester)) (tsp_Tenant (tn_Spec t))) ingester in
        ingester' ← match isp_Tenants (ig_Spec ingester) with
                    | [] => svc ← service_spec; mret (mark_deleting svc ingester)
                    | _ => mret ingester
                    end;
        world (CreateOrUpdate (OIngester ingester')) ;; mret tt
      else mret tt
  end.

(** Drop the tenant from the status of every ingester of the service. *)
Definition forget_in_status (t : Tenant) (ingester : Ingester) : T unit :=
  let tenantsStatus := filter (λ s : IngesterTenantStatus, its_Name s ≠ om_Name (tn_Meta t))
                         (is_Tenants (ig_Status ingester)) in
  if bool_decide (tenantsStatus = is_Tenants (ig_Status ingester)) then mret tt
  else world (StatusUpdate (set_ig_StatusTenants tenantsStatus ingester)) ;; mret tt.

Definition ingester_finalize : T unit :=
  t ← tenant;
  match tst_Ingester (tn_Status t) with
  | Some ref =>
      removeTenantFromIngesterbyName ref ;;
      t ← tenant; set_tenant (set_status_Ingester None t)
  | None => mret tt
  end ;;
  match Service_ with
  | Some svc =>
      items ← world (List (A:=Ingester) (InNamespaceMatching (om_Namespace (sv_Meta svc))
                       (ManagedLabelByService (sv_Meta svc))));
      for_each (forget_in_status t) items
  | None => mret tt
  end ;;
  t ← tenant;
  set_tenant (set_tn_Finalizers (removeString (om_Finalizers (tn_Meta t)) FinalizerIngester) t) ;;
  update_tenant.

(** The ingesters by name; of two of the same name the later one. *)
Definition ingester_mapping (items : list Ingester) : gmap string Ingester :=
  foldl (λ m i, <[om_Name (ig_Meta i) := i]> m) ∅ items.

(** [for i := 0; i < len(ingesterMapping)+1; i++]: [None] when the loop ends
    without an ingester. *)
Fixpoint pick_ingester (t : Tenant) (limit : Outcome Z) (mapping : gmap string Ingester)
    (i : nat) (fuel : nat) : Outcome (option Ingester) :=
  match fuel with
  | O => Ok None
  | S fuel' =>
      match createIngesterInstanceName t [itoa (Z.of_nat i)] with
      | Ok name =>
          match mapping !! name with
          | Some item =>
              match limit with
              | Ok n =>
                  if (Z.of_nat (length (isp_Tenants (ig_Spec item))) <? n)%Z
                  then Ok (Some (addTenantToIngesterInstance t item))
                  else pick_ingester t limit mapping (S i) fuel'
              | Err e => Err e
              | Panic p => Panic p
              end
          | None =>
              match createIngesterInstance name t false with
              | Ok ingester => Ok (Some ingester)
              | Err e => Err e
              | Panic p => Panic p
              end
          end
      | Err e => Err e
      | Panic p => Panic p
      end
  end.

Definition ingester_limit : Outcome Z :=
  match Service_ with
  | Some s => Ok (DefaultTenantsPerIngester (sv_IngesterTemplateSpec (sv_Spec s)))
  | None => Panic "nil pointer dereference"
  end.

Definition choose_ingester (t : Tenant) (mapping : gmap string Ingester) : Outcome Ingester :=
  match pick_ingester t ingester_limit mapping 0 (S (size mapping)) with
  | Ok (Some i) => Ok i
  | Ok None => Ok (new_ingester emptyMeta [])
  | Err e => Err e
  | Panic p => Panic p
  end.

(** Record the ingester in the status, write it, write the status. *)
Definition assign_ingester (ingester : Ingester) : T unit :=
  t ← tenant;
  set_tenant (set_status_Ingester (Some (ref_of (ig_Meta ingester))) t) ;;
  world (CreateOrUpdate (OIngester ingester)) ;;
  update_status.

Definition assign_shared_ingester : T unit :=
  t ← tenant;
  let ls := <[StorageLabelKey := storage_of t]>
              (<[ServiceLabelKey := tn_label t ServiceLabelKey]> ∅) in
  ns ← lift_outcome (service_namespace t);
  items ← world (List (A:=Ingester) (InNamespaceMatching ns ls));
  let mapping := ingester_mapping items in
  match find (λ kv : string * Ingester,
                containsString (isp_Tenants (ig_Spec kv.2)) (tsp_Tenant (tn_Spec t)))
          (map_range "ingesterMapping" mapping) with
  | Some (_, item) =>
      set_tenant (set_status_Ingester (Some (ref_of (ig_Meta item))) t) ;; update_status
  | None =>
      ingester ← lift_outcome (choose_ingester t mapping);
      assign_ingester ingester
  end.

Definition ingester_body : T unit :=
  need ← needResetIngester;
  t ← tenant;
  if (need : bool) then
    match tst_Ingester (tn_Status t) with
    | Some ref => removeTenantFromIngesterbyName ref ;; update_status
    | None => panic "nil pointer dereference"
    end
  else if String.eqb (tn_label t ServiceLabelKey) "" then
    match tst_Ingester (tn_Status t) with
    | Some ref => removeTenantFromIngesterbyName ref ;; update_status
    | None => mret tt
    end
  else if label_is (om_Labels (tn_Meta t)) ExclusiveLabelKey "true" then
    ingester ← lift_outcome (createIngesterInstance (om_Name (tn_Meta t)) t true);
    assign_ingester ingester
  else assign_shared_ingester.

Definition ingester : T unit :=
  t ← tenant;
  if negb (being_deleted (tn_Meta t)) then
    if negb (containsString (om_Finalizers (tn_Meta t)) FinalizerIngester) then
      set_tenant (set_tn_Finalizers (om_Finalizers (tn_Meta t) ++ [FinalizerIngester]) t) ;;
      update_tenant
    else ingester_body
  else if containsString (om_Finalizers (tn_Meta t)) FinalizerIngester then ingester_finalize
  else ingester_body.

(** ** compactor.go *)

Definition compactor_mismatch (t : Tenant) (c : Compactor) : bool :=
  let labels := om_Labels (cmp_Meta c) in
  if negb (containsString (csp_Tenants (cmp_Spec c)) (tsp_Tenant (tn_Spec t))) then true
  else if negb (label_is labels ServiceLabelKey (tn_label t ServiceLabelKey)) then true
  else if negb (label_is labels StorageLabelKey (storage_of t)) then true
  else if label_is (om_Labels (tn_Meta t)) ExclusiveLabelKey "true" then
    negb (label_is labels ExclusiveLabelKey "true")
    || negb (String.eqb (om_Name (cmp_Meta c)) (om_Name (tn_Meta t)))
  else
    label_is labels ExclusiveLabelKey "true"
    && String.eqb (om_Name (cmp_Meta c)) (om_Name (tn_Meta t)).

Definition needResetCompactor : T bool :=
  t ← tenant;
  match tst_Compactor (tn_Status t) with
  | None => mret false
  | Some ref =>
      r ← attempt (world (Get (A:=Compactor) (key_of ref)));
      match r with
      | inl err => if apierrors_IsNotFound err then mret true else fail err
      | inr compactor => mret (compactor_mismatch t compactor)
      end
  end.

Definition createCompactorInstance (t : Tenant) : Outcome Compactor :=
  let storage := storage_of t in
  let label := <[StorageLabelKey := storage]>
                 (<[ServiceLabelKey := tn_label t ServiceLabelKey]> ∅) in
  let service := split_on "."%char (tn_label t ServiceLabelKey) in
  match index_str service 1, index_str (split_on "."%char storage) 1, index_str service 0 with
  | Ok svc, Ok sto, Ok ns =>
      Ok (new_compactor (new_meta "" (svc +:+ "-" +:+ sto +:+ "-") ns label ∅)
            [tsp_Tenant (tn_Spec t)])
  | _, _, _ => Panic "index out of range"
  end.

Definition createExclusiveCompactorInstance (t : Tenant) : Outcome Compactor :=
  let label := <[ExclusiveLabelKey := "true"]> (<[StorageLabelKey := storage_of t]>
                 (<[ServiceLabelKey := tn_label t ServiceLabelKey]> ∅)) in
  match service_namespace t with
  | Ok ns => Ok (new_compactor (new_meta (om_Name (tn_Meta t)) "" ns label ∅)
                   [tsp_Tenant (tn_Spec t)])
  | Err e => Err e
  | Panic p => Panic p
  end.

Definition removeTenantFromCompactorByName (ref : ObjectReference) : T unit :=
  t ← tenant;
  set_tenant (set_status_Compactor None t) ;;
  r ← attempt (world (Get (A:=Compactor) (key_of ref)));
  match r with
  | inl err => ret_err (IgnoreNotFound (Some err))
  | inr compactor =>
      let compactor :=
        if containsString (csp_Tenants (cmp_Spec compactor)) (tsp_Tenant (tn_Spec t))
        then set_cmp_Tenants (removeString (csp_Tenants (cmp_Spec compactor))
                               (tsp_Tenant (tn_Spec t))) compactor
        else compactor in
      match csp_Tenants (cmp_Spec compactor) with
      | [] => d ← attempt (world (Delete compactor)); ret_err (IgnoreNotFound (err_of d))
      | _ => world (CreateOrUpdate (OCompactor compactor)) ;; mret tt
      end
  end.

Definition compactor_finalize : T unit :=
  t ← tenant;
  match tst_Compactor (tn_Status t) with
  | Some ref =>
      removeTenantFromCompactorByName ref ;;
      t ← tenant; set_tenant (set_status_Compactor None t)
  | None => mret tt
  end ;;
  t ← tenant;
  set_tenant (set_tn_Finalizers (removeString (om_Finalizers (tn_Meta t)) FinalizerCompactor) t) ;;
  update_tenant.

Definition compactor_limit : Outcome Z :=
  match Service_ with
  | Some s => Ok (DefaultTenantsPerCompactor (sv_CompactorTemplateSpec (sv_Spec s)))
  | None => Panic "nil pointer dereference"
  end.

(** The first compactor with room, given the tenant's object name. *)
Fixpoint pick_compactor (t : Tenant) (limit : Outcome Z) (items : list Compactor)
    : Outcome (option Compactor) :=
  match items with
  | [] => Ok None
  | item :: items' =>
      match limit with
      | Ok n =>
          if (Z.of_nat (length (csp_Tenants (cmp_Spec item))) <? n)%Z
          then Ok (Some (set_cmp_Tenants (csp_Tenants (cmp_Spec item) ++ [om_Name (tn_Meta t)]) item))
          else pick_compactor t limit items'
      | Err e => Err e
      | Panic p => Panic p
      end
  end.

(** The status is set before the write, when a created compactor has no name
    yet. *)
Definition assign_shared_compactor : T unit :=
  t ← tenant;
  let ls := <[StorageLabelKey := storage_of t]>
              (<[ServiceLabelKey := tn_label t ServiceLabelKey]> ∅) in
  ns ← lift_outcome (service_namespace t);
  items ← world (List (A:=Compactor) (InNamespaceMatching ns ls));
  match find (λ item : Compactor,
                containsString (csp_Tenants (cmp_Spec item)) (tsp_Tenant (tn_Spec t))) items with
  | Some item =>
      set_tenant (set_status_Compactor (Some (ref_of (cmp_Meta item))) t) ;; update_status
  | None =>
      found ← lift_outcome (pick_compactor t compactor_limit items);
      compactor ← match found with
                  | Some c => mret c
                  | None => lift_outcome (createCompactorInstance t)
                  end;
      set_tenant (set_status_Compactor (Some (ref_of (cmp_Meta compactor))) t) ;;
      world (CreateOrUpdate (OCompactor compactor)) ;;
      update_status
  end.

Definition compactor_body : T unit :=
  need ← needResetCompactor;
  t ← tenant;
  if (need : bool) then
    match tst_Compactor (tn_Status t) with
    | Some ref => removeTenantFromCompactorByName ref ;; update_status
    | None => panic "nil pointer dereference"
    end
  else if String.eqb (tn_label t ServiceLabelKey) "" then
    match tst_Compactor (tn_Status t) with
    | Some ref => removeTenantFromCompactorByName ref ;; update_status
    | None => mret tt
    end
  else if String.eqb (storage_of t) LocalStorage then mret tt
  else if label_is (om_Labels (tn_Meta t)) ExclusiveLabelKey "true" then
    compactor ← lift_outcome (createExclusiveCompactorInstance t);
    o ← world (CreateOrUpdate (OCompactor compactor));
    t ← tenant;
    set_tenant (set_status_Compactor (Some (ref_of (obj_meta o))) t) ;;
    update_status
  else assign_shared_compactor.

Definition compactor : T unit :=
  t ← tenant;
  if negb (being_deleted (tn_Meta t)) then
    if negb (containsString (om_Finalizers (tn_Meta t)) FinalizerCompactor) then
      set_tenant (set_tn_Finalizers (om_Finalizers (tn_Meta t) ++ [FinalizerCompactor]) t) ;;
      update_tenant
    else compactor_body
  else if containsString (om_Finalizers (tn_Meta t)) FinalizerCompactor then compactor_finalize
  else compactor_body.

(** ** ruler.go *)

Definition PrometheusRuleResourceLabelKeyOwnerCluster : string := "alerting.kubesphere.io/owner_cluster".
Definition PrometheusRuleResourceLabelKeyRuleLevel : string := "alerting.kubesphere.io/rule_level".

Definition tenant_selector (t : Tenant) : LabelSelector := {|
  ls_MatchLabels := <[PrometheusRuleResourceLabelKeyOwnerCluster := tsp_Tenant (tn_Spec t)]> ∅;
  ls_MatchExpressions := [{| lsr_Key := PrometheusRuleResourceLabelKeyRuleLevel;
    lsr_Operator := "In"; lsr_Values := ["cluster"; "namespace"] |}] |}.

(** [out\[len(out)-8:\]], a panic when [out] is shorter. *)
Definition last8 (out : string) : Outcome string :=
  if (8 <=? String.length out)%nat then Ok (drop_str (String.length out - 8) out)
  else Panic "slice bounds out of range".

Definition ruler_name (name : string) : Outcome string :=
  if (30 <? String.length name)%nat then
    match last8 (UniqueDNS1123Label "" name) with
    | Ok hashSuffix => Ok (trim_char "-"%char (take_str 30 name) +:+ "-" +:+ hashSuffix)
    | Err e => Err e
    | Panic p => Panic p
    end
  else Ok name.

Definition ruler_selectors (svc : ServiceSpec) (t : Tenant) : list LabelSelector :=
  rls_RuleSelectors (rlt_Spec (sv_RulerTemplateSpec svc)) ++
  match DisableAlertingRulesAutoSelection (sv_RulerTemplateSpec svc) with
  | Some true => []
  | _ => [tenant_selector t]
  end.

Definition createOrUpdateRulerinstance (t : Tenant) : Outcome Ruler :=
  match Service_, service_namespace t, ruler_name (om_Name (tn_Meta t)) with
  | Some svc, Ok ns, Ok name =>
      Ok (new_ruler {|
        om_Name := name; om_GenerateName := ""; om_Namespace := ns; om_UID := "";
        om_ResourceVersion := "";
        om_Labels := <[ServiceLabelKey := tn_label t ServiceLabelKey]> ∅;
        om_Annotations := ∅; om_Finalizers := []; om_DeletionTimestamp := None;
        om_OwnerReferences := [{| or_APIVersion := tm_APIVersion (tn_Type t);
          or_Kind := tm_Kind (tn_Type t); or_Name := om_Name (tn_Meta t);
          or_UID := om_UID (tn_Meta t); or_Controller := Some true |}] |}
        (tsp_Tenant (tn_Spec t)) (ruler_selectors (sv_Spec svc) t))
  | _, _, _ => Panic "nil pointer dereference or index out of range"
  end.

(** The variable [ruler]: the one found, or the empty object. *)
Definition current_ruler (t : Tenant) : T Ruler :=
  match tst_Ruler (tn_Status t) with
  | None => mret (new_ruler emptyMeta "" [])
  | Some ref =>
      r ← attempt (world (Get (A:=Ruler) (key_of ref)));
      match r with
      | inl err => if apierrors_IsNotFound err then mret (new_ruler emptyMeta "" []) else fail err
      | inr ruler => mret ruler
      end
  end.

Definition ruler : T unit :=
  t ← tenant;
  current ← current_ruler t;
  if String.eqb (tn_label t ServiceLabelKey) "" then
    match tst_Ruler (tn_Status t) with
    | Some _ =>
        world (Delete current) ;;
        set_tenant (set_status_Ruler None t) ;;
        update_status
    | None => mret tt
    end
  else
    ruler ← lift_outcome (createOrUpdateRulerinstance t);
    set_tenant (set_status_Ruler (Some (ref_of (rl_Meta ruler))) t) ;;
    world (CreateOrUpdate (ORuler ruler)) ;;
    update_status.

(** ** store.go *)

Record elem := { e_service : string; e_storage : string; e_store : option Store }.

Definition elem_key (service storage : string) : string := service +:+ "|" +:+ storage.

(** The stores by service and storage; the duplicates are deleted. *)
Definition collect_store (currentStores : gmap string elem) (store : Store) : M W (gmap string elem) :=
  if negb (is_nil (om_DeletionTimestamp (st_Meta store))) then mret currentStores
  else
    let service := map_get (om_Labels (st_Meta store)) ServiceLabelKey in
    let storage := map_get (om_Labels (st_Meta store)) StorageLabelKey in
    let key := elem_key service storage in
    match currentStores !! key with
    | Some _ => Delete store ;; mret currentStores
    | None => mret (<[key := {| e_service := service; e_storage := storage; e_store := Some store |}]> currentStores)
    end.

Definition add_tenant_elem (storageMap : gmap string elem) (item : Tenant) : gmap string elem :=
  if negb (is_nil (om_DeletionTimestamp (tn_Meta item))) then storageMap
  else
    let service := tn_label item ServiceLabelKey in
    if String.eqb service "" then storageMap
    else
      let storage := storage_of item in
      if String.eqb storage LocalStorage then storageMap
      else <[elem_key service storage :=
               {| e_service := service; e_storage := storage; e_store := None |}]> storageMap.

Definition sortTenantsByStorageAndService : M W (gmap string elem) :=
  items ← List (A:=Tenant) everywhere;
  mret (foldl add_tenant_elem ∅ items).

Definition set_st_Annotations (a : gmap string string) (s : Store) : Store :=
  set_st_Meta (set_om_Annotations a (st_Meta s)) s.

Definition refresh_store (e : elem) (store : Store) : M W unit :=
  tenantHash ← GetTenantHash (<[StorageLabelKey := e_storage e]> (<[ServiceLabelKey := e_service e]> ∅));
  storageHash ← GetStorageHash (e_storage e);
  let a := om_Annotations (st_Meta store) in
  let changed1 := negb (String.eqb (map_get a LabelNameTenantHash) tenantHash) in
  let a := if changed1 then <[LabelNameTenantHash := tenantHash]> a else a in
  let changed2 := negb (String.eqb (map_get a LabelNameStorageHash) storageHash) in
  let a := if changed2 then <[LabelNameStorageHash := storageHash]> a else a in
  if changed1 || changed2 then Update (set_st_Annotations a store) ;; mret tt else mret tt.

(** One iteration over the expected keys: state [(current, expected)]. *)
Definition match_store (acc : gmap string elem * gmap string elem) (k : string)
    : M W (gmap string elem * gmap string elem) :=
  let '(current, expected) := acc in
  match current !! k with
  | Some e =>
      (if negb (String.eqb (e_service e) "") && negb (String.eqb (e_storage e) "") then
         match e_store e with Some store => refresh_store e store | None => panic "nil pointer dereference" end
       else mret tt) ;;
      mret (delete k current, delete k expected)
  | None => mret (current, expected)
  end.

Definition delete_elem (e : elem) : M W unit :=
  match e_store e with Some store => Delete store | None => panic "nil pointer dereference" end.

Definition create_elem (e : elem) : M W unit :=
  let svc := split_on "."%char (e_service e) in
  svcName ← lift_outcome (index_str svc 1);
  stoName ← lift_outcome (index_str (split_on "."%char (e_storage e)) 1);
  ns ← lift_outcome (index_str svc 0);
  let labels := <[StorageLabelKey := e_storage e]> (<[ServiceLabelKey := e_service e]> ∅) in
  tenantHash ← GetTenantHash labels;
  storageHash ← GetStorageHash (e_storage e);
  Create (new_store (new_meta "" (svcName +:+ "-" +:+ stoName +:+ "-") ns labels
    (<[LabelNameStorageHash := storageHash]> (<[LabelNameTenantHash := tenantHash]> ∅)))) ;;
  mret tt.

Definition store_world : M W unit :=
  stores ← List (A:=Store) everywhere;
  currentStores ← fold_each collect_store ∅ stores;
  expectStores ← sortTenantsByStorageAndService;
  rest ← fold_each match_store (currentStores, expectStores)
           (map_range "expectStores" expectStores).*1;
  for_each delete_elem (map_range "currentStores" rest.1).*2 ;;
  for_each create_elem (map_range "expectStores2" rest.2).*2.

Definition store : T unit := world store_world.

(** ** tenant.go *)

Definition Reconcile : T unit := ingester ;; ruler ;; compactor ;; store.
End tenant.

(** ** pkg/controllers/tenant_controller.go *)

Section controller.
Context {W : Type} `{!Kube W} `{!K8sLib} `{!MapRange} `{!BaseLib} `{!Clock}.

Definition tenantValidator (t : Tenant) : Tenant :=
  if String.eqb (tsp_Tenant (tn_Spec t)) "" then
    {| tn_Type := tn_Type t; tn_Meta := tn_Meta t;
       tn_Spec := {| tsp_Tenant := om_Name (tn_Meta t) |}; tn_Status := tn_Status t |}
  else t.

Definition run_tenant (service : option Service) (t : Tenant) : M W unit := λ w,
  let '(r, (w', _)) := Reconcile service (w, t) in (r, w').

(** [TenantReconciler.Reconcile], with [tenant.New] in its place. *)
Definition TenantReconciler_Reconcile (req : NamespacedName) : M W unit :=
  r ← attempt (Get (A:=Tenant) req);
  match r with
  | inl err => if apierrors_IsNotFound err then mret tt else fail err
  | inr instance =>
      let instance := tenantValidator instance in
      if String.eqb (map_get (om_Labels (tn_Meta instance)) ServiceLabelKey) "" then mret tt
      else
        service ← SetService (tn_Meta instance);
        run_tenant (Some service) instance
  end.

Definition request (t : Tenant) : NamespacedName :=
  {| nn_Namespace := ""; nn_Name := om_Name (tn_Meta t) |}.

(** The map functions answer nil when the client fails. *)
Definition or_nil {A} (m : M W (list A)) : M W (list A) :=
  r ← attempt m; match r with inl _ => mret [] | inr l => mret l end.

Definition object_tenants (o : Object) : list string :=
  match o with
  | OCompactor c => csp_Tenants (cmp_Spec c)
  | OIngester i => isp_Tenants (ig_Spec i)
  | ORuler r => [rls_Tenant (rl_Spec r)]
  | _ => []
  end.

Definition mapToTenantbyObjectSpecFunc (o : Object) : M W (list NamespacedName) :=
  match object_tenants o with
  | [] => mret []
  | tenants =>
      items ← or_nil (List (A:=Tenant) everywhere);
      mret (request <$> filter (λ item, Contains tenants (tsp_Tenant (tn_Spec item)) = true) items)
  end.

Definition mapToTenantByService (o : Object) : M W (list NamespacedName) :=
  items ← or_nil (List (A:=Tenant) (MatchingLabels (ManagedLabelByService (obj_meta o))));
  mret (request <$> filter (λ item,
    map_get (om_Labels (tn_Meta item)) StorageLabelKey = DefaultStorage) items).

Definition mapToTenantByStore : M W (list NamespacedName) :=
  items ← or_nil (List (A:=Tenant) everywhere);
  mret (match items with [] => [] | item :: _ => [request item] end).
End controller.
