(* ===== verification/TenantFacts.v ===== *)
(** What the tenant reconciler guarantees: placement in ingesters and
    compactors, the reset test, the deletion mark, the stores of the tenants in
    use, and the cases in which a reconciliation does not do what it means to. *)
From stdpp Require Import base gmap strings list pretty sorting.
From Stdlib Require Import Ascii String.
From S2P Require Import Prelude GoStd K8s Api Objects Client Clients Base ClientFacts Tenant.
Open Scope nat_scope.

(** ** Lists of tenants *)

Lemma containsString_spec l s : containsString l s = true ↔ s ∈ l.
Proof.
  induction l as [|x l IH]; simpl; [by rewrite elem_of_nil|].
  rewrite elem_of_cons, <-IH. destruct (String.eqb_spec x s) as [->|Hne].
  - split; [by left|done].
  - split; [by right|by intros [->|H]].
Qed.

Lemma containsString_false l s : containsString l s = false ↔ s ∉ l.
Proof. rewrite <-containsString_spec. by destruct (containsString l s). Qed.

Lemma removeString_filter l s : removeString l s = filter (λ x, x ≠ s) l.
Proof.
  induction l as [|x l IH]; simpl; [done|]. rewrite filter_cons, <-IH.
  destruct (String.eqb_spec x s) as [->|Hne].
  - rewrite decide_False; [done|by intros []].
  - by rewrite decide_True.
Qed.

Lemma elem_of_removeString l s x : x ∈ removeString l s ↔ x ≠ s ∧ x ∈ l.
Proof. by rewrite removeString_filter, list_elem_of_filter. Qed.

Lemma label_is_spec m k v : label_is m k v = true ↔ m !! k = Some v.
Proof.
  unfold label_is. destruct (m !! k) as [x|]; [|done].
  rewrite String.eqb_eq. naive_solver.
Qed.

(** ** The reset test *)

Section reset.
Context (svc : option Service).

(** What it takes for a shared component (an ingester or a compactor) to fit
    the tenant. *)
Definition fits (t : Tenant) (m : ObjectMeta) (tenants : list string) : Prop :=
  tsp_Tenant (tn_Spec t) ∈ tenants
  ∧ om_Labels m !! ServiceLabelKey = Some (tn_label t ServiceLabelKey)
  ∧ om_Labels m !! StorageLabelKey = Some (storage_of svc t)
  ∧ (om_Labels (tn_Meta t) !! ExclusiveLabelKey = Some "true" →
       om_Labels m !! ExclusiveLabelKey = Some "true" ∧ om_Name m = om_Name (tn_Meta t))
  ∧ (om_Labels (tn_Meta t) !! ExclusiveLabelKey ≠ Some "true" →
       ¬ (om_Labels m !! ExclusiveLabelKey = Some "true" ∧ om_Name m = om_Name (tn_Meta t))).

(** The chain of tests both components run. *)
Lemma mismatch_chain t m tenants :
  (if negb (containsString tenants (tsp_Tenant (tn_Spec t))) then true
   else if negb (label_is (om_Labels m) ServiceLabelKey (tn_label t ServiceLabelKey)) then true
   else if negb (label_is (om_Labels m) StorageLabelKey (storage_of svc t)) then true
   else if label_is (om_Labels (tn_Meta t)) ExclusiveLabelKey "true" then
     negb (label_is (om_Labels m) ExclusiveLabelKey "true")
     || negb (String.eqb (om_Name m) (om_Name (tn_Meta t)))
   else label_is (om_Labels m) ExclusiveLabelKey "true"
        && String.eqb (om_Name m) (om_Name (tn_Meta t))) = false
  ↔ fits t m tenants.
Proof.
  unfold fits. rewrite <-containsString_spec, <-!label_is_spec, <-String.eqb_eq.
  destruct (containsString _ _), (label_is _ ServiceLabelKey _),
    (label_is _ StorageLabelKey _), (label_is (om_Labels (tn_Meta t)) _ _),
    (label_is (om_Labels m) _ _), (String.eqb _ _); simpl; naive_solver.
Qed.

Lemma ingester_mismatch_fits t i :
  ingester_mismatch svc t i = false ↔ fits t (ig_Meta i) (isp_Tenants (ig_Spec i)).
Proof. apply mismatch_chain. Qed.

Lemma compactor_mismatch_fits t c :
  compactor_mismatch svc t c = false ↔ fits t (cmp_Meta c) (csp_Tenants (cmp_Spec c)).
Proof. apply mismatch_chain. Qed.
End reset.

(** ** Placement *)

Section placement.
Context (svc : option Service) (t : Tenant).

(** The [i]-th name is the name without a suffix and the number. *)
Lemma instance_name_suffix base i :
  createIngesterInstanceName svc t [] = Ok base →
  createIngesterInstanceName svc t [itoa i] = Ok (base +:+ "-" +:+ itoa i).
Proof.
  unfold createIngesterInstanceName. destruct (index_str _ 1); [|done..].
  by intros [= <-].
Qed.

Lemma instance_names_inj base : Inj (=) (=) (λ i : nat, base +:+ "-" +:+ itoa (Z.of_nat i)).
Proof.
  intros i j H. apply append_inj_l, append_inj_l, itoa_inj in H. lia.
Qed.

Lemma service_namespace_Ok base :
  createIngesterInstanceName svc t [] = Ok base → ∃ ns, service_namespace t = Ok ns.
Proof.
  intros _. unfold service_namespace, index_str.
  pose proof (split_on_nonempty "."%char (tn_label t ServiceLabelKey)).
  destruct (split_on _ _) as [|ns l]; [done|by exists ns].
Qed.

(** Where the loop stops: the first index whose ingester has room or does not
    exist. *)
Definition placed_at (base : string) (n : Z) (mapping : gmap string Ingester) (k : nat)
    (i : Ingester) : Prop :=
  let name := base +:+ "-" +:+ itoa (Z.of_nat k) in
  match mapping !! name with
  | Some item => (Z.of_nat (length (isp_Tenants (ig_Spec item))) < n)%Z
                 ∧ i = addTenantToIngesterInstance t item
  | None => createIngesterInstance svc name t false = Ok i
  end.

Definition full_at (base : string) (n : Z) (mapping : gmap string Ingester) (k : nat) : Prop :=
  ∃ item, mapping !! (base +:+ "-" +:+ itoa (Z.of_nat k)) = Some item
          ∧ (n ≤ Z.of_nat (length (isp_Tenants (ig_Spec item))))%Z.

Lemma pick_ingester_spec base n mapping fuel i :
  createIngesterInstanceName svc t [] = Ok base →
  (∃ k, i ≤ k < i + fuel ∧ mapping !! (base +:+ "-" +:+ itoa (Z.of_nat k)) = None) →
  ∃ k r, i ≤ k ∧ pick_ingester svc t (Ok n) mapping i fuel = Ok (Some r)
         ∧ placed_at base n mapping k r ∧ ∀ j, i ≤ j < k → full_at base n mapping j.
Proof.
  intros Hbase. destruct (service_namespace_Ok _ Hbase) as [ns Hns].
  revert i. induction fuel as [|fuel IH]; intros i (k & Hk & Hnone); [lia|].
  cbn [pick_ingester]. rewrite (instance_name_suffix _ _ Hbase).
  destruct (mapping !! (base +:+ "-" +:+ itoa (Z.of_nat i))) as [item|] eqn:E.
  - destruct (Z.ltb_spec (Z.of_nat (length (isp_Tenants (ig_Spec item)))) n) as [Hlt|Hge].
    + exists i. eexists. repeat split; [lia| |intros; lia].
      unfold placed_at. by rewrite E.
    + assert (Hik : i ≠ k) by (intros ->; congruence).
      destruct (IH (S i)) as (k' & r & Hk' & Hp & Hat & Hfull).
      { exists k. split; [lia|done]. }
      exists k', r. repeat split; [lia|done|done|]. intros j Hj.
      destruct (decide (j = i)) as [->|]; [by exists item|apply Hfull; lia].
  - unfold createIngesterInstance. rewrite Hns.
    exists i. eexists. repeat split; [lia| |intros; lia].
    unfold placed_at. rewrite E. unfold createIngesterInstance. by rewrite Hns.
Qed.

(** One of the first [size mapping + 1] names is free. *)
Lemma free_index base (mapping : gmap string Ingester) :
  ∃ k, k ≤ size mapping ∧ mapping !! (base +:+ "-" +:+ itoa (Z.of_nat k)) = None.
Proof.
  destruct (pigeonhole_fresh (λ i : nat, base +:+ "-" +:+ itoa (Z.of_nat i))
    (map_to_list mapping).*1 (instance_names_inj base)) as (k & Hk & Hfree).
  exists k. rewrite length_fmap, length_map_to_list in Hk. split; [done|].
  apply not_elem_of_dom. intros Hin. apply Hfree.
  apply elem_of_dom in Hin as [v Hv]. apply list_elem_of_fmap.
  exists (base +:+ "-" +:+ itoa (Z.of_nat k), v). split; [done|]. by apply elem_of_map_to_list.
Qed.

Lemma added_tenants item :
  isp_Tenants (ig_Spec (addTenantToIngesterInstance t item))
  = isp_Tenants (ig_Spec item) ++ [tsp_Tenant (tn_Spec t)].
Proof. unfold addTenantToIngesterInstance. by case_match. Qed.

Lemma added_labels item :
  om_Labels (ig_Meta (addTenantToIngesterInstance t item)) = om_Labels (ig_Meta item)
  ∧ om_Name (ig_Meta (addTenantToIngesterInstance t item)) = om_Name (ig_Meta item).
Proof. unfold addTenantToIngesterInstance. by case_match. Qed.
End placement.

Lemma choose_ingester_placed' svc t mapping base n :
  createIngesterInstanceName svc t [] = Ok base → ingester_limit svc = Ok n →
  ∃ k r, choose_ingester svc t mapping = Ok r ∧ k ≤ size mapping
    ∧ placed_at svc t base n mapping k r
    ∧ (∀ j, j < k → full_at base n mapping j)
    ∧ tsp_Tenant (tn_Spec t) ∈ isp_Tenants (ig_Spec r)
    ∧ (Z.of_nat (length (isp_Tenants (ig_Spec r))) ≤ Z.max 1 n)%Z.
Proof.
  intros Hbase Hn. destruct (free_index base mapping) as (f & Hf & Hfree).
  destruct (pick_ingester_spec svc t base n mapping (S (size mapping)) 0 Hbase)
    as (k & r & _ & Hpick & Hat & Hfull); [exists f; split; [lia|done]|].
  exists k, r. unfold choose_ingester. rewrite Hn, Hpick. split; [done|].
  split.
  { destruct (Nat.le_gt_cases k f) as [Hle|Hgt]; [lia|].
    assert (full_at base n mapping f) as (item & Hitem & _) by (apply Hfull; lia). congruence. }
  split; [done|]. split; [intros j Hj; apply Hfull; lia|].
  clear Hfree. unfold placed_at in Hat. cbv zeta in Hat. destruct (mapping !! _) as [item|].
  - destruct Hat as [Hlt ->]. rewrite added_tenants, length_app. simpl. split; [set_solver|lia].
  - unfold createIngesterInstance in Hat. destruct (service_namespace t); inversion Hat; subst.
    simpl. split; [set_solver|lia].
Qed.

(** C9: placing a tenant always succeeds: of the numbered ingesters of its
    service and storage, the first that has room gets the tenant appended, or
    the first number that is free gets a new ingester for it; every ingester
    before it is full, and the one chosen is not filled beyond the limit. *)
Theorem choose_ingester_placed svc t mapping base n :
  createIngesterInstanceName svc t [] = Ok base → ingester_limit svc = Ok n →
  ∃ k r, choose_ingester svc t mapping = Ok r ∧ k ≤ size mapping
    ∧ placed_at svc t base n mapping k r
    ∧ (∀ j, j < k → full_at base n mapping j)
    ∧ tsp_Tenant (tn_Spec t) ∈ isp_Tenants (ig_Spec r)
    ∧ (Z.of_nat (length (isp_Tenants (ig_Spec r))) ≤ Z.max 1 n)%Z.
Proof. apply choose_ingester_placed'. Qed.

Lemma ingester_mapping_elem items name i :
  ingester_mapping items !! name = Some i → i ∈ items ∧ om_Name (ig_Meta i) = name.
Proof.
  unfold ingester_mapping. induction items as [|x items IH] using rev_ind.
  - simpl. by rewrite lookup_empty.
  - rewrite foldl_app. simpl. destruct (decide (om_Name (ig_Meta x) = name)) as [<-|Hne].
    + rewrite lookup_insert_eq. intros [= <-]. split; [set_solver|done].
    + rewrite lookup_insert_ne by done. intros [H1 H2]%IH. split; [set_solver|done].
Qed.

Lemma created_ingester_labels svc name t ex r :
  createIngesterInstance svc name t ex = Ok r →
  isp_Tenants (ig_Spec r) = [tsp_Tenant (tn_Spec t)] ∧ om_Name (ig_Meta r) = name
  ∧ om_Labels (ig_Meta r) !! ServiceLabelKey = Some (tn_label t ServiceLabelKey)
  ∧ om_Labels (ig_Meta r) !! StorageLabelKey = Some (storage_of svc t)
  ∧ om_Labels (ig_Meta r) !! ExclusiveLabelKey = (if ex then Some "true" else None).
Proof.
  unfold createIngesterInstance. destruct (service_namespace t); [|done..].
  intros [= <-]. by destruct ex.
Qed.

(** C11: what the reconciler assigns passes its own reset test, so the next
    reconciliation keeps it: a shared tenant's ingester, chosen among the ones
    the service and storage labels select, and an exclusive tenant's own. *)
Theorem assigned_ingester_fits svc t items base n :
  createIngesterInstanceName svc t [] = Ok base → ingester_limit svc = Ok n →
  (∀ i, i ∈ items →
     om_Labels (ig_Meta i) !! ServiceLabelKey = Some (tn_label t ServiceLabelKey)
     ∧ om_Labels (ig_Meta i) !! StorageLabelKey = Some (storage_of svc t)
     ∧ ¬ (om_Labels (ig_Meta i) !! ExclusiveLabelKey = Some "true"
          ∧ om_Name (ig_Meta i) = om_Name (tn_Meta t))) →
  (om_Labels (tn_Meta t) !! ExclusiveLabelKey ≠ Some "true" →
     ∃ r, choose_ingester svc t (ingester_mapping items) = Ok r ∧ ingester_mismatch svc t r = false)
  ∧ (om_Labels (tn_Meta t) !! ExclusiveLabelKey = Some "true" →
     ∃ r, createIngesterInstance svc (om_Name (tn_Meta t)) t true = Ok r
          ∧ ingester_mismatch svc t r = false).
Proof.
  intros Hbase Hn Hitems. split; intros Hex.
  - destruct (choose_ingester_placed' svc t (ingester_mapping items) base n Hbase Hn)
      as (k & r & Hr & _ & Hat & _ & Hin & _).
    exists r. split; [done|]. apply ingester_mismatch_fits. unfold placed_at in Hat. cbv zeta in Hat.
    destruct (ingester_mapping items !! _) as [item|] eqn:E.
    + destruct Hat as [_ ->]. destruct (ingester_mapping_elem _ _ _ E) as [Hi _].
      destruct (Hitems item Hi) as (H1 & H2 & H3). destruct (added_labels t item) as [Hl Hnm].
      repeat split; [done|by rewrite Hl|by rewrite Hl|done..|by rewrite Hl, Hnm].
    + destruct (created_ingester_labels _ _ _ _ _ Hat) as (_ & _ & H1 & H2 & H3).
      repeat split; [done..|]. rewrite H3. by intros _ [? _].
  - destruct (service_namespace_Ok _ _ _ Hbase) as [ns Hns].
    destruct (createIngesterInstance svc (om_Name (tn_Meta t)) t true) as [r| |] eqn:E;
      [|by unfold createIngesterInstance in E; rewrite Hns in E..].
    exists r. split; [done|]. apply ingester_mismatch_fits.
    destruct (created_ingester_labels _ _ _ _ _ E) as (Ht & Hnm & H1 & H2 & H3).
    repeat split; [rewrite Ht; set_solver|done..].
Qed.

(** ** Compactors *)

Lemma pick_compactor_Some t n items r :
  pick_compactor t (Ok n) items = Ok (Some r) →
  ∃ a c b, items = a ++ c :: b
    ∧ (Z.of_nat (length (csp_Tenants (cmp_Spec c))) < n)%Z
    ∧ Forall (λ x, (n ≤ Z.of_nat (length (csp_Tenants (cmp_Spec x))))%Z) a
    ∧ r = set_cmp_Tenants (csp_Tenants (cmp_Spec c) ++ [om_Name (tn_Meta t)]) c.
Proof.
  induction items as [|c items IH]; simpl; [done|].
  destruct (Z.ltb_spec (Z.of_nat (length (csp_Tenants (cmp_Spec c)))) n) as [Hlt|Hge].
  - intros [= <-]. exists [], c, items. by repeat split.
  - intros (a & x & b & -> & Hx & Ha & ->)%IH. exists (c :: a), x, b.
    repeat split; [done|]. by constructor.
Qed.

Lemma pick_compactor_None t n items :
  pick_compactor t (Ok n) items = Ok None →
  Forall (λ x, (n ≤ Z.of_nat (length (csp_Tenants (cmp_Spec x))))%Z) items.
Proof.
  induction items as [|c items IH]; simpl; [constructor|].
  destruct (Z.ltb_spec (Z.of_nat (length (csp_Tenants (cmp_Spec c)))) n) as [Hlt|Hge]; [done|].
  intros H. constructor; [done|by apply IH].
Qed.

(** The shared compactor is the first one with room, which never gets more
    tenants than the limit; a new one is created only when all are full. *)
Theorem pick_compactor_first_fit t n items :
  ∃ o, pick_compactor t (Ok n) items = Ok o ∧
  match o with
  | Some r => ∃ a c b, items = a ++ c :: b
      ∧ Forall (λ x, (n ≤ Z.of_nat (length (csp_Tenants (cmp_Spec x))))%Z) a
      ∧ (Z.of_nat (length (csp_Tenants (cmp_Spec r))) ≤ n)%Z
      ∧ csp_Tenants (cmp_Spec r) = csp_Tenants (cmp_Spec c) ++ [om_Name (tn_Meta t)]
      ∧ cmp_Meta r = cmp_Meta c
  | None => Forall (λ x, (n ≤ Z.of_nat (length (csp_Tenants (cmp_Spec x))))%Z) items
  end.
Proof.
  destruct (pick_compactor t (Ok n) items) as [[r|]|e|p] eqn:E.
  - exists (Some r). split; [done|].
    apply pick_compactor_Some in E as (a & c & b & -> & Hlt & Ha & ->).
    exists a, c, b. simpl. rewrite length_app. simpl. repeat split; [done|lia].
  - exists None. split; [done|]. by eapply pick_compactor_None.
  - exfalso. induction items as [|c items IH]; simpl in E; [done|]. by destruct (_ <? _)%Z; auto.
  - exfalso. induction items as [|c items IH]; simpl in E; [done|]. by destruct (_ <? _)%Z; auto.
Qed.

(** A tenant whose [spec.tenant] differs from its object name never settles
    on a shared compactor: what is appended is the object name, and the reset
    test looks for [spec.tenant]. *)
Theorem compactor_reset_loop svc t n items r :
  om_Name (tn_Meta t) ≠ tsp_Tenant (tn_Spec t) →
  (∀ c, c ∈ items → tsp_Tenant (tn_Spec t) ∉ csp_Tenants (cmp_Spec c)) →
  pick_compactor t (Ok n) items = Ok (Some r) →
  compactor_mismatch svc t r = true.
Proof.
  intros Hne Hno (a & c & b & -> & _ & _ & ->)%pick_compactor_Some.
  destruct (compactor_mismatch _ _ _) eqn:E; [done|].
  apply compactor_mismatch_fits in E as (Hin & _). simpl in Hin.
  apply elem_of_app in Hin as [Hin|Hin%list_elem_of_singleton]; [|congruence].
  by destruct (Hno c); [set_solver|].
Qed.

(** ** Leaving an ingester *)

Section leaving.
Context {W : Type} `{HK : Kube W} {HL : K8sLib} {HC : Clock}.

(** The ingester as the removal writes it. *)
Definition left_ingester (svc : ServiceSpec) (t : Tenant) (i : Ingester) : Ingester :=
  let i' := set_ig_Tenants (removeString (isp_Tenants (ig_Spec i)) (tsp_Tenant (tn_Spec t))) i in
  match isp_Tenants (ig_Spec i') with [] => mark_deleting svc i' | _ => i' end.

(** C10: taking a tenant out of its ingester writes one object, the ingester
    without that tenant and with all its others; it is marked for deletion
    exactly when no tenant is left, with a deletion time that reads back as
    the end of its retention period; the tenant's status is cleared. *)
Theorem removal_keeps_others (s : Service) (t : Tenant) (ref : ObjectReference)
    (i : Ingester) (w w1 : W) :
  Get (key_of ref) w = (Ok i, w1) →
  tsp_Tenant (tn_Spec t) ∈ isp_Tenants (ig_Spec i) →
  (min_int64 ≤ (now + retention_period (sv_Spec s) i) / second ≤ max_int64)%Z →
  let i' := left_ingester (sv_Spec s) t i in
  removeTenantFromIngesterbyName (Some s) ref (w, t)
    = (world (CreateOrUpdate (OIngester i')) ;; mret tt) (w1, set_status_Ingester None t)
  ∧ isp_Tenants (ig_Spec i') = filter (λ x, x ≠ tsp_Tenant (tn_Spec t)) (isp_Tenants (ig_Spec i))
  ∧ om_Name (ig_Meta i') = om_Name (ig_Meta i) ∧ om_Labels (ig_Meta i') = om_Labels (ig_Meta i)
  ∧ (isp_Tenants (ig_Spec i') ≠ [] → ig_Meta i' = ig_Meta i)
  ∧ (isp_Tenants (ig_Spec i') = [] →
       om_Annotations (ig_Meta i') !! LabelNameIngesterState = Some IngesterStateDeleting
       ∧ (d ← om_Annotations (ig_Meta i') !! LabelNameIngesterDeletingTime; parse_int64 d)
         = Some ((now + retention_period (sv_Spec s) i) / second)%Z).
Proof.
  intros Hget Hin Hb. cbv zeta. split; [|].
  - unfold removeTenantFromIngesterbyName, left_ingester.
    rewrite (bind_step _ _ _ t (w, t)) by done.
    rewrite (bind_step _ _ _ tt (w, set_status_Ingester None t)) by done.
    rewrite (bind_step _ _ _ (inr i) (w1, set_status_Ingester None t));
      [|apply attempt_Ok; unfold world, zoom; simpl; by rewrite Hget].
    rewrite (proj2 (containsString_spec _ _) Hin).
    cbv zeta. set (i1 := set_ig_Tenants _ i). by destruct (isp_Tenants (ig_Spec i1)).
  - unfold left_ingester.
    set (i1 := set_ig_Tenants _ i).
    assert (Ht : isp_Tenants (ig_Spec i1)
      = filter (λ x, x ≠ tsp_Tenant (tn_Spec t)) (isp_Tenants (ig_Spec i))).
    { unfold i1. simpl. apply removeString_filter. }
    destruct (isp_Tenants (ig_Spec i1)) as [|x l] eqn:E.
    + split; [by simpl; rewrite <-Ht|]. repeat split; [done| |].
      * simpl. rewrite lookup_insert_ne by done. by rewrite lookup_insert_eq.
      * simpl. rewrite lookup_insert_eq. simpl. unfold deleting_time.
        by apply parse_int64_itoa.
    + rewrite E. by split.
Qed.

(** A tenant that joins an ingester marked for deletion revives it: the
    state goes back to running and the deletion time is erased. *)
Theorem joining_revives_ingester (t : Tenant) (i : Ingester) :
  om_Annotations (ig_Meta i) !! LabelNameIngesterState = Some IngesterStateDeleting →
  let a := om_Annotations (ig_Meta (addTenantToIngesterInstance t i)) in
  a !! LabelNameIngesterState = Some IngesterStateRunning
  ∧ a !! LabelNameIngesterDeletingTime = Some ""
  ∧ ∀ k, k ≠ LabelNameIngesterState → k ≠ LabelNameIngesterDeletingTime →
      a !! k = om_Annotations (ig_Meta i) !! k.
Proof.
  intros Hs. cbv zeta. unfold addTenantToIngesterInstance. simpl.
  rewrite (proj2 (label_is_spec _ _ _) Hs). simpl.
  split; [|split]; [by rewrite lookup_insert_ne, lookup_insert_eq by done|by rewrite lookup_insert_eq|].
  intros k H1 H2. by rewrite !lookup_insert_ne by congruence.
Qed.
End leaving.

(** ** Rulers *)

Lemma length_take_str n s : String.length (take_str n s) ≤ n.
Proof. revert s. induction n as [|n IH]; intros [|a s]; simpl; try lia. pose proof (IH s). lia. Qed.

Lemma length_trim_left c s : String.length (trim_left c s) ≤ String.length s.
Proof. induction s as [|a s IH]; simpl; [lia|]. destruct (Ascii.eqb a c); simpl; lia. Qed.

Lemma length_trim_right c s : String.length (trim_right c s) ≤ String.length s.
Proof.
  induction s as [|a s IH]; simpl; [lia|].
  destruct (trim_right c s); simpl in *; [destruct (Ascii.eqb a c); simpl; lia|lia].
Qed.

Lemma length_drop_str n s : String.length (drop_str n s) = String.length s - n.
Proof. revert s. induction n as [|n IH]; intros [|a s]; simpl; try lia. by rewrite IH. Qed.

(** The name of a tenant's ruler is at most 39 bytes long, so that names
    derived from it stay within the limits of the cluster; a name of up to 30
    bytes is kept. *)
Theorem ruler_name_bounded `{!BaseLib} (name : string) :
  8 ≤ String.length (UniqueDNS1123Label "" name) →
  ∃ out, ruler_name name = Ok out ∧ String.length out ≤ 39
         ∧ (String.length name ≤ 30 → out = name).
Proof.
  intros H8. unfold ruler_name. destruct (Nat.ltb_spec 30 (String.length name)) as [Hlt|Hle].
  - unfold last8. rewrite (proj2 (Nat.leb_le _ _) H8). eexists. split; [done|]. split; [|lia].
    rewrite !length_append, length_drop_str. unfold trim_char.
    pose proof (length_trim_right "-"%char (trim_left "-"%char (take_str 30 name))).
    pose proof (length_trim_left "-"%char (take_str 30 name)).
    pose proof (length_take_str 30 name). change (String.length "-") with 1. lia.
  - exists name. split; [done|]. split; [lia|done].
Qed.

(** ** Stores *)

Section stores.
Context {W : Type} `{HK : Kube W} {HL : K8sLib} {HM : MapRange} {HB : BaseLib}.

Definition store_key (st : Store) : string :=
  elem_key (map_get (om_Labels (st_Meta st)) ServiceLabelKey)
    (map_get (om_Labels (st_Meta st)) StorageLabelKey).

Definition live_store (st : Store) : Prop := om_DeletionTimestamp (st_Meta st) = None.

(** The tenant is live and asks for the store of key [k]. *)
Definition wants (svc : option Service) (t : Tenant) (k : string) : Prop :=
  om_DeletionTimestamp (tn_Meta t) = None ∧ tn_label t ServiceLabelKey ≠ ""
  ∧ storage_of svc t ≠ LocalStorage ∧ k = elem_key (tn_label t ServiceLabelKey) (storage_of svc t).

(** The live stores, split into the first of every key and the others. *)
Fixpoint firsts (seen : list string) (l : list Store) : list Store :=
  match l with
  | [] => []
  | st :: l =>
      if decide (om_DeletionTimestamp (st_Meta st) = None ∧ store_key st ∉ seen)
      then st :: firsts (store_key st :: seen) l else firsts seen l
  end.
Fixpoint duplicates (seen : list string) (l : list Store) : list Store :=
  match l with
  | [] => []
  | st :: l =>
      if decide (om_DeletionTimestamp (st_Meta st) = None) then
        if decide (store_key st ∈ seen) then st :: duplicates seen l else duplicates (store_key st :: seen) l
      else duplicates seen l
  end.

Definition elem_of_store (st : Store) : elem := {|
  e_service := map_get (om_Labels (st_Meta st)) ServiceLabelKey;
  e_storage := map_get (om_Labels (st_Meta st)) StorageLabelKey; e_store := Some st |}.
Definition add_first (m : gmap string elem) (st : Store) : gmap string elem := <[store_key st := elem_of_store st]> m.

(** The loop deletes the duplicates, in their order, and remembers the others. *)
Lemma collect_eq stores : ∀ cur seen w, (∀ k, is_Some (cur !! k) ↔ k ∈ seen) →
  fold_each collect_store cur stores w
  = (for_each Delete (duplicates seen stores) ;; mret (foldl add_first cur (firsts seen stores)) : M W _) w.
Proof.
  induction stores as [|st stores IH]; intros cur seen w Hseen; [done|].
  change (fold_each collect_store cur (st :: stores))
    with (collect_store cur st ≫= λ c, fold_each collect_store c stores : M W _). cbn [duplicates firsts].
  destruct (om_DeletionTimestamp (st_Meta st)) as [d|] eqn:Ed.
  - assert (E : collect_store cur st = (mret cur : M W _)) by by unfold collect_store; rewrite Ed.
    rewrite E, bind_ret_l, (IH cur seen) by done. rewrite !decide_False by naive_solver. done.
  - rewrite (decide_True (P := None = None)) by done. destruct (decide (store_key st ∈ seen)) as [Hin|Hin].
    + rewrite decide_False by naive_solver. destruct (proj2 (Hseen _) Hin) as [e He].
      assert (E : collect_store cur st = (Delete st ;; mret cur : M W _)).
      { unfold collect_store. rewrite Ed. cbn [is_nil negb]. fold (store_key st). by rewrite He. }
      rewrite E. cbn [for_each]. unfold mbind, M_mbind, M_bind. destruct (Delete st w) as [[u|x|x] w1]; [|done|done].
      change ((mret cur : M W _) w1) with (Ok cur, w1). cbv iota beta. by rewrite (IH cur seen).
    + rewrite decide_True by done. destruct (cur !! store_key st) as [e|] eqn:Es; [destruct Hin; apply Hseen; by eexists|].
      assert (E : collect_store cur st = (mret (add_first cur st) : M W _)).
      { unfold collect_store. rewrite Ed. cbn [is_nil negb]. fold (store_key st). by rewrite Es. }
      rewrite E, bind_ret_l, (IH _ (store_key st :: seen)); [done|].
      intros k. unfold add_first. rewrite lookup_insert_is_Some', Hseen, elem_of_cons. naive_solver.
Qed.

Lemma firsts_spec l : ∀ seen,
  (∀ st, st ∈ firsts seen l → st ∈ l ∧ live_store st ∧ store_key st ∉ seen)
  ∧ NoDup (store_key <$> firsts seen l)
  ∧ ∀ st, st ∈ l → live_store st → store_key st ∈ seen ∨ store_key st ∈ store_key <$> firsts seen l.
Proof.
  induction l as [|st l IH]; intros seen; cbn [firsts].
  { split; [|split; [constructor|]]; intros st ?%elem_of_nil; done. }
  case_decide as Hd.
  - destruct (IH (store_key st :: seen)) as (H1 & H2 & H3). split; [|split].
    + intros x [->|Hx]%elem_of_cons; [split; [by left|by destruct Hd]|].
      destruct (H1 x Hx) as (? & ? & Hs). split; [by right|]. split; [done|]. set_solver.
    + rewrite fmap_cons. constructor; [|done]. intros (x & Hk & Hx)%list_elem_of_fmap.
      destruct (H1 x Hx) as (_ & _ & Hs). rewrite <-Hk in Hs. set_solver.
    + intros x [->|Hx]%elem_of_cons Hl; [right; by left|]. destruct (H3 x Hx Hl); set_solver.
  - destruct (IH seen) as (H1 & H2 & H3). split; [|split; [done|]].
    + intros x Hx. destruct (H1 x Hx) as (? & ? & ?). split; [by right|done].
    + intros x [->|Hx]%elem_of_cons Hl; [left; apply dec_stable; naive_solver|by apply H3].
Qed.

Lemma add_firsts_spec l : ∀ m k e, NoDup (store_key <$> l) → (∀ st, st ∈ l → m !! store_key st = None) →
  foldl add_first m l !! k = Some e ↔ m !! k = Some e ∨ ∃ st, st ∈ l ∧ k = store_key st ∧ e = elem_of_store st.
Proof.
  induction l as [|st l IH]; intros m k e Hnd Hm; cbn [foldl].
  { split; [by left|]. intros [?|(st & Hst & _)]; [done|by apply elem_of_nil in Hst]. }
  rewrite fmap_cons in Hnd. apply NoDup_cons in Hnd as [Hst Hnd].
  rewrite IH; [|done|].
  - unfold add_first. rewrite lookup_insert_Some. split.
    + intros [[[<- <-]|[_ ?]]|(x & Hx & ->& ->)]; [right; exists st; split; [by left|done]|by left|].
      right. exists x. split; [by right|done].
    + intros [H|(x & [->|Hx]%elem_of_cons & -> & ->)]; [|by left; left|right; by exists x].
      left. right. split; [|done]. intros <-. by rewrite Hm in H by by left.
  - intros x Hx. unfold add_first. rewrite lookup_insert_ne; [by apply Hm; right|].
    intros E. apply Hst. rewrite E. by apply list_elem_of_fmap_2.
Qed.

(** The stores there are: for every key, the first live one. *)
Lemma current_spec stores k e :
  foldl add_first ∅ (firsts [] stores) !! k = Some e
  ↔ ∃ st, st ∈ firsts [] stores ∧ k = store_key st ∧ e = elem_of_store st.
Proof.
  rewrite add_firsts_spec; [|apply firsts_spec|intros; apply lookup_empty].
  rewrite lookup_empty. naive_solver.
Qed.

Lemma expected_stores_spec svc items k :
  is_Some (foldl (add_tenant_elem svc) ∅ items !! k) ↔ ∃ t, t ∈ items ∧ wants svc t k.
Proof.
  induction items as [|t items IH] using rev_ind.
  { simpl. rewrite lookup_empty. split; [by intros []|].
    intros (t & Ht & _). by apply elem_of_nil in Ht. }
  rewrite foldl_app. simpl.
  assert (Hstep : is_Some (add_tenant_elem svc (foldl (add_tenant_elem svc) ∅ items) t !! k)
    ↔ is_Some (foldl (add_tenant_elem svc) ∅ items !! k) ∨ wants svc t k).
  { unfold add_tenant_elem, wants. destruct (om_DeletionTimestamp (tn_Meta t)); simpl.
    { split; [by left|]. by intros [?|[? _]]. }
    destruct (String.eqb_spec (tn_label t ServiceLabelKey) "") as [Hs|Hs].
    { split; [by left|]. by intros [?|(_ & ? & _)]. }
    destruct (String.eqb_spec (storage_of svc t) LocalStorage) as [Hl|Hl].
    { split; [by left|]. by intros [?|(_ & _ & ? & _)]. }
    rewrite lookup_insert_is_Some'. naive_solver. }
  rewrite Hstep, IH. setoid_rewrite elem_of_app. setoid_rewrite list_elem_of_singleton.
  naive_solver.
Qed.

Lemma match_stores_spec keys cur ex w rest w' :
  NoDup keys → fold_each match_store (cur, ex) keys w = (Ok rest, w') →
  (∀ k, rest.1 !! k = if decide (k ∈ keys) then None else cur !! k)
  ∧ (∀ k, rest.2 !! k = if decide (k ∈ keys ∧ is_Some (cur !! k)) then None else ex !! k).
Proof.
  revert cur ex w. induction keys as [|key keys IH]; intros cur ex w Hnd Hrun; simpl in Hrun.
  { inversion Hrun; subst. cbn [fst snd].
    split; intros k; case_decide as Hk; [set_solver|done|set_solver|done]. }
  apply NoDup_cons in Hnd as [Hkey Hnd].
  apply bind_Ok_inv in Hrun as ([cur1 ex1] & w1 & H1 & Hrun).
  destruct (IH _ _ _ Hnd Hrun) as [IH1 IH2]. unfold match_store in H1.
  destruct (cur !! key) as [e|] eqn:E.
  - apply bind_Ok_inv in H1 as (? & ? & _ & H1). inversion H1; subst; clear H1.
    split; intros k; [rewrite IH1|rewrite IH2]; destruct (decide (k = key)) as [->|Hne].
    + rewrite decide_False by done. rewrite decide_True by set_solver. by rewrite lookup_delete_eq.
    + rewrite lookup_delete_ne by done. repeat case_decide; set_solver.
    + rewrite decide_False by naive_solver. rewrite decide_True by (rewrite E; set_solver).
      by rewrite lookup_delete_eq.
    + rewrite !lookup_delete_ne by done. repeat case_decide; set_solver.
  - inversion H1; subst; clear H1.
    split; intros k; [rewrite IH1|rewrite IH2]; destruct (decide (k = key)) as [->|Hne].
    + rewrite decide_False by done. rewrite E. by case_decide.
    + repeat case_decide; set_solver.
    + rewrite E. rewrite !decide_False; [done|intros [_ []]; done|intros [_ []]; done].
    + repeat case_decide; set_solver.
Qed.

Lemma expected_labels svc items k e :
  foldl (add_tenant_elem svc) ∅ items !! k = Some e → k = elem_key (e_service e) (e_storage e).
Proof.
  assert (H : ∀ m, (∀ k e, m !! k = Some e → k = elem_key (e_service e) (e_storage e)) →
    foldl (add_tenant_elem svc) m items !! k = Some e → k = elem_key (e_service e) (e_storage e)).
  { induction items as [|t items IH]; intros m Hm; [by apply Hm|]. apply IH. intros k' e'. unfold add_tenant_elem.
    repeat case_match; try by apply Hm. intros [[<- <-]|[_ ?]]%lookup_insert_Some; [done|by apply Hm]. }
  apply H. intros k' e'. by rewrite lookup_empty.
Qed.
End stores.

(** *** The requests that change something *)

Definition is_write (c : Call) : Prop := match c with CGet _ _ | CList _ _ => False | _ => True end.
#[export] Instance is_write_dec c : Decision (is_write c).
Proof. destruct c; apply _. Defined.
Definition writes (l : list Call) : list Call := filter is_write l.

Section store_writes.
Context {W : Type} `{HK : Kube W} {HL : K8sLib} {HM : MapRange} {HB : BaseLib}.
Implicit Types s : Logged W.

Notation wr s := (writes (lg_calls s)).

Lemma writes_reads {A} (m : M (Logged W) A) Q s r s' :
  effects (λ c, ¬ is_write c) m Q → m s = (r, s') → wr s' = wr s.
Proof.
  intros Hm H. destruct (Hm _ _ _ H) as [(l & Hl & HP) _]. unfold log_of, logged_log in Hl. rewrite Hl.
  unfold writes. rewrite filter_app. replace (filter is_write l) with (@nil Call); [apply app_nil_r|].
  symmetry. clear Hl. induction HP as [|c l Hc _ IH]; [done|]. by rewrite filter_cons_False.
Qed.

(** A request of which the answer is looked at for its error only. *)
Lemma writes_record {A B} c (m : M W A) (f : A → M (Logged W) B) s a s' :
  is_write c → (∀ x, effects (λ c, ¬ is_write c) (f x) (λ _, True)) →
  (record c m ≫= f) s = (Ok a, s') → wr s' = wr s ++ [c].
Proof.
  intros Hc Hf (x & s1 & H1 & H2)%bind_Ok_inv. rewrite (writes_reads _ _ _ _ _ (Hf x) H2).
  unfold record in H1. destruct (m (lg_world s)) as [r w1]. inversion H1; subst. cbn [lg_calls].
  unfold writes. rewrite filter_app. by rewrite filter_cons_True.
Qed.

Lemma writes_Delete (st : Store) s s' : Delete st s = (Ok tt, s') → wr s' = wr s ++ [CDelete (OStore st)].
Proof.
  unfold Delete. intros H. apply (writes_record (CDelete (OStore st)) (kube_delete (OStore st)) (λ u, mret u) s tt s');
    [done|intros; by apply effects_ret|]. unfold mbind, M_mbind, M_bind. unfold kube_delete, logged_kube in H.
  change (r_obj st) with (OStore st) in H. rewrite H. done.
Qed.

Lemma writes_Update (st x : Store) s s' : Update st s = (Ok x, s') → wr s' = wr s ++ [CUpdate (OStore st)].
Proof. unfold Update. apply writes_record; [done|]. intros o. by apply effects_option. Qed.

Lemma writes_Create (st x : Store) s s' : Create st s = (Ok x, s') → wr s' = wr s ++ [CCreate (OStore st)].
Proof. unfold Create. apply writes_record; [done|]. intros o. by apply effects_option. Qed.

Lemma writes_for_each {A} (f : A → M (Logged W) unit) (R : A → Call → Prop) l : ∀ s s',
  (∀ x s1 s2, x ∈ l → f x s1 = (Ok tt, s2) → ∃ c, R x c ∧ wr s2 = wr s1 ++ [c]) →
  for_each f l s = (Ok tt, s') → ∃ cs, Forall2 R l cs ∧ wr s' = wr s ++ cs.
Proof.
  induction l as [|x l IH]; intros s s' Hf H; [inversion H; subst; exists []; by rewrite app_nil_r|].
  apply bind_Ok_inv in H as ([] & s1 & H1 & H). destruct (Hf x s s1 ltac:(by left) H1) as (c & Hc & E1).
  destruct (IH s1 s' ltac:(intros; eapply Hf; [by right|done]) H) as (cs & Hcs & E2).
  exists (c :: cs). split; [by constructor|]. by rewrite E2, E1, <-app_assoc.
Qed.

Lemma hash_reads key sel :
  effects (λ c, ¬ is_write c) (GetStorageHash (W:=Logged W) key) (λ _, True)
  ∧ effects (λ c, ¬ is_write c) (GetTenantHash (W:=Logged W) sel) (λ _, True).
Proof.
  assert (Hg : ∀ k key, ¬ is_write (CGet k key)) by auto.
  split; [unfold GetStorageHash; reads|]. unfold GetTenantHash.
  apply effects_step; [apply effects_List; simpl; tauto|reads].
Qed.

(** A kept store is updated at most with new annotations. *)
Definition annotates (st : Store) (c : Call) : Prop := ∃ a, c = CUpdate (OStore (set_st_Annotations a st)).

Lemma writes_refresh e st s s' : refresh_store e st s = (Ok tt, s') →
  ∃ cs, Forall (annotates st) cs ∧ wr s' = wr s ++ cs.
Proof.
  unfold refresh_store. intros (th & s1 & H1 & H)%bind_Ok_inv. apply bind_Ok_inv in H as (sh & s2 & H2 & H).
  pose proof (writes_reads _ _ _ _ _ (proj2 (hash_reads "" _)) H1) as E1.
  pose proof (writes_reads _ _ _ _ _ (proj1 (hash_reads _ ∅)) H2) as E2. cbv zeta in H.
  destruct (_ || _); [|inversion H; subst; exists []; by rewrite app_nil_r, E2, E1].
  apply bind_Ok_inv in H as (x & s3 & H3 & H). inversion H; subst. apply writes_Update in H3.
  eexists. split; [|rewrite H3, E2, E1; reflexivity]. apply Forall_singleton. by eexists.
Qed.

(** The matching loop: its updates are of stores that are there and asked for. *)
Lemma writes_match keys : ∀ acc s acc' s',
  fold_each match_store acc keys s = (Ok acc', s') →
  ∃ cs, wr s' = wr s ++ cs
    ∧ Forall (λ c, ∃ k e st, k ∈ keys ∧ acc.1 !! k = Some e ∧ e_store e = Some st ∧ annotates st c) cs.
Proof.
  induction keys as [|k keys IH]; intros [cur ex] s acc' s' H.
  { inversion H; subst. exists []. by rewrite app_nil_r. }
  apply bind_Ok_inv in H as ([cur1 ex1] & s1 & H1 & H). apply IH in H as (cs & E & Hcs). unfold match_store in H1.
  assert (Hone : ∃ c1, wr s1 = wr s ++ c1
    ∧ Forall (λ c, ∃ e st, cur !! k = Some e ∧ e_store e = Some st ∧ annotates st c) c1
    ∧ ∀ k' e', cur1 !! k' = Some e' → cur !! k' = Some e').
  { destruct (cur !! k) as [e|] eqn:Ek.
    - apply bind_Ok_inv in H1 as ([] & s2 & H1 & H2). inversion H2; subst.
      assert (Hsub : ∀ k' e', delete k cur !! k' = Some e' → cur !! k' = Some e')
        by by intros k' e' [_ ?]%lookup_delete_Some.
      destruct (_ && _); [|inversion H1; subst; exists []; by rewrite app_nil_r].
      destruct (e_store e) as [st|] eqn:Est; [|done]. apply writes_refresh in H1 as (c1 & Hc1 & E1).
      exists c1. split; [done|]. split; [|done]. eapply list.Forall_impl; [exact Hc1|]. intros c Hc. by exists e, st.
    - inversion H1; subst. exists []. by rewrite app_nil_r. }
  destruct Hone as (c1 & E1 & Hc1 & Hsub). exists (c1 ++ cs). rewrite E, E1, <-app_assoc. split; [done|].
  apply Forall_app. split; (eapply list.Forall_impl; [eassumption|]).
  - intros c (e & st & He & Hst & Hc). exists k, e, st. split; [by left|done].
  - intros c (k' & e & st & Hk & He & Hst & Hc). exists k', e, st. split; [by right|]. split; [by apply Hsub|done].
Qed.

(** A created store has the labels of its key. *)
Lemma writes_create e s s' : create_elem e s = (Ok tt, s') →
  ∃ st, store_key st = elem_key (e_service e) (e_storage e) ∧ wr s' = wr s ++ [CCreate (OStore st)].
Proof.
  unfold create_elem. cbv zeta. intros H.
  apply bind_Ok_inv in H as (svcName & s1 & H1 & H). apply bind_Ok_inv in H as (stoName & s2 & H2 & H).
  apply bind_Ok_inv in H as (ns & s3 & H3 & H). apply bind_Ok_inv in H as (th & s4 & H4 & H).
  apply bind_Ok_inv in H as (sh & s5 & H5 & H). apply bind_Ok_inv in H as (x & s6 & H6 & H). inversion H; subst.
  pose proof (writes_reads _ _ _ _ _ (proj2 (hash_reads "" _)) H4) as E4.
  pose proof (writes_reads _ _ _ _ _ (proj1 (hash_reads _ ∅)) H5) as E5.
  unfold lift_outcome in H1, H2, H3. inversion H1; inversion H2; inversion H3; subst.
  eexists. split; [|rewrite (writes_Create _ _ _ _ H6), E5, E4; reflexivity].
  unfold store_key, new_store, new_meta, map_get. cbn [st_Meta om_Labels].
  rewrite lookup_insert_ne by done. by rewrite !lookup_insert_eq.
Qed.
(** The values of a map, in some order, as the loops go over them. *)
Lemma map_range_values {V B} site (m : gmap string V) (f : V → B) :
  f <$> (map_range site m).*2 ≡ₚ (λ kv, f kv.2) <$> map_to_list m.
Proof. rewrite <-list_fmap_compose. apply fmap_Permutation, map_range_perm. Qed.

Lemma keys_NoDup {V} (m : gmap string V) (key : V → string) :
  (∀ k v, m !! k = Some v → key v = k) → NoDup ((λ kv, key kv.2) <$> map_to_list m).
Proof.
  intros Hk. replace ((λ kv, key kv.2) <$> map_to_list m) with ((map_to_list m).*1); [apply NoDup_fst_map_to_list|].
  apply list_fmap_ext. intros i [k v] Hi. simpl. symmetry. apply Hk, elem_of_map_to_list.
  by eapply list_elem_of_lookup_2.
Qed.

(** The loops over what is left: the stores to delete, and those to create. *)
Lemma writes_stale (m : gmap string elem) s s' :
  (∀ k e, m !! k = Some e → ∃ st, e_store e = Some st ∧ store_key st = k) →
  for_each delete_elem (map_range "currentStores" m).*2 s = (Ok tt, s') →
  ∃ stale, wr s' = wr s ++ ((CDelete ∘ OStore) <$> stale) ∧ NoDup (store_key <$> stale)
    ∧ ∀ st, st ∈ stale ↔ ∃ k e, m !! k = Some e ∧ e_store e = Some st.
Proof.
  intros Hm H. apply (writes_for_each _ (λ e c, ∃ st, e_store e = Some st ∧ c = CDelete (OStore st))) in H as (cs & Hcs & E).
  2: { intros e s1 s2 _ He. unfold delete_elem in He. destruct (e_store e) as [st|]; [|done].
       exists (CDelete (OStore st)). split; [by exists st|by apply writes_Delete]. }
  set (l := (map_range "currentStores" m).*2) in *.
  assert (Hl : ∀ e, e ∈ l ↔ ∃ k, m !! k = Some e).
  { intros e. unfold l. rewrite list_elem_of_fmap. split.
    - intros ([k x] & -> & Hx%elem_of_map_range). by exists k.
    - intros [k Hk]. exists (k, e). split; [done|]. by apply elem_of_map_range. }
  exists (omap e_store l). split; [|split].
  - rewrite E. f_equal. clear -Hcs. induction Hcs as [|e c l cs (st & Hst & ->) _ IH]; [done|]. csimpl. by rewrite Hst, IH.
  - assert (Hkeys : store_key <$> omap e_store l = (λ e, match e_store e with Some st => store_key st | None => "" end) <$> l).
    { clear -Hcs. induction Hcs as [|e c l cs (st & Hst & _) _ IH]; [done|]. csimpl. by rewrite Hst, <-IH. }
    rewrite Hkeys. unfold l. rewrite (map_range_values _ _ (λ e, match e_store e with Some st => store_key st | None => "" end)).
    apply (keys_NoDup m (λ e, match e_store e with Some st => store_key st | None => "" end)). intros k e Hk. by destruct (Hm k e Hk) as (st & -> & <-).
  - intros st. rewrite list_elem_of_omap. split.
    + intros (e & [k Hk]%Hl & Hst). by exists k, e.
    + intros (k & e & Hk & Hst). exists e. split; [|done]. apply Hl. by exists k.
Qed.

Lemma writes_missing (m : gmap string elem) s s' :
  (∀ k e, m !! k = Some e → k = elem_key (e_service e) (e_storage e)) →
  for_each create_elem (map_range "expectStores2" m).*2 s = (Ok tt, s') →
  ∃ created, wr s' = wr s ++ ((CCreate ∘ OStore) <$> created) ∧ NoDup (store_key <$> created)
    ∧ ∀ k, k ∈ store_key <$> created ↔ is_Some (m !! k).
Proof.
  intros Hm H. apply (writes_for_each _ (λ e c, ∃ st, store_key st = elem_key (e_service e) (e_storage e) ∧ c = CCreate (OStore st)))
    in H as (cs & Hcs & E).
  2: { intros e s1 s2 _ He. apply writes_create in He as (st & Hk & E). eexists. split; [by exists st|done]. }
  set (l := (map_range "expectStores2" m).*2) in *.
  assert (Hcr : ∃ created, cs = (CCreate ∘ OStore) <$> created
    ∧ store_key <$> created = (λ e, elem_key (e_service e) (e_storage e)) <$> l).
  { clear -Hcs. induction Hcs as [|e c l cs (st & Hk & ->) _ (created & -> & IH)]; [by exists []|].
    exists (st :: created). split; [done|]. by rewrite !fmap_cons, Hk, IH. }
  destruct Hcr as (created & -> & Hkeys). exists created. split; [done|].
  assert (Hp : store_key <$> created ≡ₚ (map_to_list m).*1).
  { rewrite Hkeys. unfold l. rewrite (map_range_values _ _ (λ e, elem_key (e_service e) (e_storage e))).
    erewrite (list_fmap_ext _ fst); [done|]. intros i [k e] Hi. simpl. symmetry. apply Hm, elem_of_map_to_list.
    by eapply list_elem_of_lookup_2. }
  rewrite Hp. split; [apply NoDup_fst_map_to_list|]. intros k. rewrite Hp, list_elem_of_fmap. split.
  - intros ([k' e] & -> & He%elem_of_map_to_list). by exists e.
  - intros [e He]. exists (k, e). split; [done|]. by apply elem_of_map_to_list.
Qed.

Lemma writes_duplicates l : ∀ s s', for_each (Delete (A:=Store)) l s = (Ok tt, s') →
  wr s' = wr s ++ ((CDelete ∘ OStore) <$> l).
Proof.
  intros s s' H. apply (writes_for_each _ (λ st c, c = CDelete (OStore st))) in H as (cs & Hcs & ->).
  - f_equal. induction Hcs as [|st c l cs -> _ IH]; [done|]. by rewrite fmap_cons, IH.
  - intros st s1 s2 _ H1. eexists. split; [done|]. by apply writes_Delete.
Qed.

(** Does a live tenant of the list ask for the store of the key? *)
Definition wanted (svc : option Service) (items : list Tenant) (k : string) : Prop := ∃ t, t ∈ items ∧ wants svc t k.

(** C12: reconciling the stores changes nothing but the difference, both ways,
    between the live stores that the API server lists and what the live tenants
    of its list ask for: it deletes the duplicates of a service and storage (all
    but the first listed), annotates stores that are asked for, deletes exactly
    the remaining stores that no tenant asks for, and creates exactly one for
    every service and storage that is asked for and has none; these are all the
    writes it issues, in this order. *)
Theorem store_reconciles_difference svc (w : W) s' :
  store_world svc {| lg_calls := []; lg_world := w |} = (Ok tt, s') →
  ∃ stores items s1 s2 s3 updates stale created,
    List (A:=Store) everywhere {| lg_calls := []; lg_world := w |} = (Ok stores, s1)
    ∧ for_each Delete (duplicates [] stores) s1 = (Ok tt, s2)
    ∧ List (A:=Tenant) everywhere s2 = (Ok items, s3)
    ∧ writes (lg_calls s') = ((CDelete ∘ OStore) <$> duplicates [] stores) ++ updates
                             ++ ((CDelete ∘ OStore) <$> stale) ++ ((CCreate ∘ OStore) <$> created)
    ∧ Forall (λ c, ∃ st, st ∈ firsts [] stores ∧ wanted svc items (store_key st) ∧ annotates st c) updates
    ∧ NoDup (store_key <$> stale)
    ∧ (∀ st, st ∈ stale ↔ st ∈ firsts [] stores ∧ ¬ wanted svc items (store_key st))
    ∧ NoDup (store_key <$> created)
    ∧ ∀ k, k ∈ store_key <$> created
           ↔ wanted svc items k ∧ ¬ ∃ st, st ∈ stores ∧ live_store st ∧ store_key st = k.
Proof.
  unfold store_world. intros Hrun.
  apply bind_Ok_inv in Hrun as (stores & s1 & H1 & Hrun). apply bind_Ok_inv in Hrun as (cur & s2 & H2 & Hrun).
  rewrite (collect_eq stores ∅ []) in H2 by (intros k; rewrite lookup_empty; split; [by intros []|by intros ?%elem_of_nil]).
  apply bind_Ok_inv in H2 as ([] & s2' & H2 & Hc). inversion Hc; subst cur s2'. clear Hc.
  apply bind_Ok_inv in Hrun as (ex & s3 & H3 & Hrun). unfold sortTenantsByStorageAndService in H3.
  apply bind_Ok_inv in H3 as (items & s3' & H3 & Hex). inversion Hex; subst ex s3'. clear Hex.
  apply bind_Ok_inv in Hrun as ([rest1 rest2] & s4 & H4 & Hrun). cbn [fst snd] in Hrun.
  apply bind_Ok_inv in Hrun as ([] & s5 & H5 & H6).
  set (cur := foldl add_first ∅ (firsts [] stores)) in *. set (ex := foldl (add_tenant_elem svc) ∅ items) in *.
  assert (Hkeys : ∀ k, k ∈ (map_range "expectStores" ex).*1 ↔ wanted svc items k).
  { intros k. unfold wanted. rewrite <-(expected_stores_spec svc items k). fold ex. rewrite list_elem_of_fmap. split.
    - intros ([k' v] & -> & Hv%elem_of_map_range). by exists v.
    - intros [v Hv]. exists (k, v). split; [done|]. by apply elem_of_map_range. }
  destruct (match_stores_spec _ _ _ _ _ _ (map_range_NoDup _ _) H4) as [Hr1 Hr2]. cbn [fst snd] in Hr1, Hr2.
  apply writes_match in H4 as (updates & E4 & Hup). cbn [fst] in Hup.
  assert (Hrest : ∀ k e, rest1 !! k = Some e ↔
    ¬ wanted svc items k ∧ ∃ st, st ∈ firsts [] stores ∧ k = store_key st ∧ e = elem_of_store st).
  { intros k e. rewrite Hr1. unfold cur. rewrite <-current_spec. fold cur.
    case_decide as Hk; rewrite Hkeys in Hk; naive_solver. }
  apply writes_stale in H5 as (stale & E5 & Hnd5 & Hst).
  2: { intros k e (_ & st & _ & -> & ->)%Hrest. by exists st. }
  assert (Hex : ∀ k, is_Some (ex !! k) ↔ wanted svc items k) by (intros k; apply expected_stores_spec).
  apply writes_missing in H6 as (created & E6 & Hnd6 & Hcr).
  2: { intros k e. rewrite Hr2. case_decide; [done|]. apply expected_labels. }
  apply (writes_reads _ _ _ _ _ (effects_List (λ c, ¬ is_write c) everywhere (λ H, H))) in H3 as E3.
  apply (writes_reads _ _ _ _ _ (effects_List (λ c, ¬ is_write c) everywhere (λ H, H))) in H1 as E1.
  apply writes_duplicates in H2 as E2.
  exists stores, items, s1, s2, s3, updates, stale, created. do 3 (split; [done|]).
  split; [by rewrite E6, E5, E4, E3, E2, E1, <-!app_assoc|]. split; [|split; [done|split; [|split; [done|]]]].
  - eapply list.Forall_impl; [exact Hup|]. intros c (k & e & st & Hk & He & Hst' & Hc). exists st.
    apply current_spec in He as (st' & Hin & -> & ->). inversion Hst'; subst st'. split; [done|]. split; [by apply Hkeys|done].
  - intros st. rewrite Hst. split.
    + intros (k & e & (Hn & st' & Hin & -> & ->)%Hrest & Hs). inversion Hs; subst st'. done.
    + intros [Hin Hn]. exists (store_key st), (elem_of_store st). split; [|done]. apply Hrest. split; [done|]. by exists st.
  - intros k. rewrite Hcr, Hr2.
    assert (Hcur : is_Some (cur !! k) ↔ ∃ st, st ∈ stores ∧ live_store st ∧ store_key st = k).
    { destruct (firsts_spec stores []) as (F1 & _ & F3). split.
      - intros (e & (st & Hin & -> & _)%current_spec). exists st. by destruct (F1 st Hin) as (? & ? & _).
      - intros (st & Hin & Hl & <-). destruct (F3 st Hin Hl) as [H|(x & Hk & Hx)%list_elem_of_fmap]; [by apply elem_of_nil in H|].
        exists (elem_of_store x). apply current_spec. exists x. by rewrite <-Hk. }
    rewrite <-Hcur. case_decide as Hd; rewrite Hkeys in Hd.
    + split; [by intros []|]. intros [_ H]. naive_solver.
    + rewrite Hex. naive_solver.
Qed.
End store_writes.

(** ** Concrete clusters *)

#[export] Instance fixed_clock : Clock | 100 := {
  ParseDuration s := if String.eqb s "3h" then inr 10800000000000%Z else inl (EMsg "bad duration");
  now := 1700000000000000000%Z;
}.

Module Cluster.
Definition gateway_spec : GatewaySpec := {| gsp_WebConfig := None; gsp_DebugMode := false;
  gsp_EnabledTenantsAdmission := false; gsp_NodePort := 0; gsp_Common := zeroCommon |}.
Definition query_spec : QuerySpec := {| qsp_PromqlEngine := ""; qsp_SelectorLabels := ∅;
  qsp_ReplicaLabelNames := []; qsp_WebConfig := None; qsp_Stores := []; qsp_Envoy := zeroSidecar;
  qsp_Common := zeroCommon |}.
Definition service_spec_of (storage : option ObjectReference) : ServiceSpec := {|
  sv_TenantHeader := ""; sv_DefaultTenantId := ""; sv_TenantLabelName := "";
  sv_Storage := storage; sv_RemoteWrites := []; sv_RemoteQuery := None;
  GatewayTemplateSpec := gateway_spec;
  QueryFrontendTemplateSpec := {| qfs_CacheConfig := None; qfs_WebConfig := None; qfs_Common := zeroCommon |};
  QueryTemplateSpec := query_spec;
  sv_RulerTemplateSpec := {| rlt_Spec := rl_Spec (new_ruler emptyMeta "" []);
    DisableAlertingRulesAutoSelection := None |};
  RouterTemplateSpec := {| rsp_ReplicationFactor := None; rsp_ReplicationProtocol := "";
    rsp_WebConfig := None; rsp_Common := zeroCommon |};
  sv_IngesterTemplateSpec := {| it_Spec := ig_Spec (new_ingester emptyMeta []);
    DefaultTenantsPerIngester := 2; DefaultIngesterRetentionPeriod := "3h"; DisableTSDBCleanup := None |};
  StoreTemplateSpec := st_Spec (new_store emptyMeta);
  sv_CompactorTemplateSpec := {| ct_Spec := cmp_Spec (new_compactor emptyMeta []);
    DefaultTenantsPerCompactor := 2 |} |}.
Definition service (ns name : string) (storage : option ObjectReference) : Service := {|
  sv_Type := zeroType; sv_Meta := new_meta name "" ns ∅ ∅; sv_Spec := service_spec_of storage |}.
Definition storage (ns name : string) : Storage := {|
  stg_Type := zeroType; stg_Meta := new_meta name "" ns ∅ ∅;
  stg_Spec := {| sto_BlockManager := None; sto_S3 := None |} |}.
Definition tenant (name id svc : string) (finalizers : list string) (deleted : option Z) : Tenant := {|
  tn_Type := zeroType;
  tn_Meta := {| om_Name := name; om_GenerateName := ""; om_Namespace := ""; om_UID := name;
    om_ResourceVersion := ""; om_Labels := <[ServiceLabelKey := svc]> ∅; om_Annotations := ∅;
    om_Finalizers := finalizers; om_DeletionTimestamp := deleted; om_OwnerReferences := [] |};
  tn_Spec := {| tsp_Tenant := id |};
  tn_Status := {| tst_Ruler := None; tst_Compactor := None; tst_Ingester := None |} |}.

Definition s3ref : ObjectReference := {| ref_Namespace := "kube"; ref_Name := "s3" |}.
Definition whizard : Service := service "kube" "whizard" (Some s3ref).
Definition fresh : Mem :=
  mem_of [OService whizard; OStorage (storage "kube" "s3"); OTenant (tenant "t1" "t1" "kube.whizard" [] None)].

(** [n] reconciliations of tenant [name]. *)
Fixpoint reconcile (n : nat) (name : string) (s : Mem) : Outcome unit * Mem :=
  match n with
  | O => (Ok tt, s)
  | S n' => match TenantReconciler_Reconcile {| nn_Namespace := ""; nn_Name := name |} s with
            | (Ok _, s') => reconcile n' name s'
            | r => r
            end
  end.

(** The tenants of the ingesters and compactors, and the number of stores
    and rulers. *)
Definition summary (s : Mem) : list (list string) * list (list string) * nat * nat :=
  let os := (map_to_list (mem_objs s)).*2 in
  (omap (λ o, match o with OIngester i => Some (isp_Tenants (ig_Spec i)) | _ => None end) os,
   omap (λ o, match o with OCompactor c => Some (csp_Tenants (cmp_Spec c)) | _ => None end) os,
   length (omap (λ o, match o with OStore c => Some c | _ => None end) os),
   length (omap (λ o, match o with ORuler c => Some c | _ => None end) os)).
End Cluster.

(** A tenant whose ingester finalizer is already gone when its deletion is
    reconciled again (the compactor finalizer having failed the first time) is
    placed in an ingester once more, and the ingester keeps it after the tenant
    object has disappeared. *)
Theorem deleted_tenant_placed_again :
  let s := mem_of [OService Cluster.whizard; OStorage (Cluster.storage "kube" "s3");
                   OTenant (Cluster.tenant "t1" "t1" "kube.whizard" [FinalizerCompactor] (Some 5%Z))] in
  let '(r, s') := Cluster.reconcile 1 "t1" s in
  r = Ok tt ∧ (Cluster.summary s').1.1.1 = [["t1"]]
  ∧ mem_objs s' !! (KTenant, "", "t1") = None.
Proof. vm_compute. done. Qed.

(** The stores a reconciliation wants for the tenants of another service are
    computed with the default storage of the service being reconciled: the
    expected stores of the same tenants differ from one service to the other. *)
Theorem expected_stores_follow_the_reconciled_service :
  let a := Cluster.service "kube" "a" (Some {| ref_Namespace := "kube"; ref_Name := "s1" |}) in
  let b := Cluster.service "kube" "b" (Some {| ref_Namespace := "kube"; ref_Name := "s2" |}) in
  let tenants := [Cluster.tenant "ta" "ta" "kube.a" [] None; Cluster.tenant "tb" "tb" "kube.b" [] None] in
  foldl (add_tenant_elem (Some a)) ∅ tenants !! "kube.b|kube.s1" ≠ None
  ∧ foldl (add_tenant_elem (Some a)) ∅ tenants !! "kube.b|kube.s2" = None
  ∧ foldl (add_tenant_elem (Some b)) ∅ tenants !! "kube.b|kube.s1" = None
  ∧ foldl (add_tenant_elem (Some b)) ∅ tenants !! "kube.b|kube.s2" ≠ None.
Proof. vm_compute. repeat split; congruence. Qed.

(** On an empty cluster, the tenant of [Cluster.fresh] settles: after six
    reconciliations it has an ingester, a compactor, a ruler and a store, and
    further ones change no assignment. *)
Theorem new_tenant_settles :
  let settled s := Cluster.summary s = ([["t1"]], [["t1"]], 1, 1)
    ∧ ∃ t, mem_objs s !! (KTenant, "", "t1") = Some (OTenant t)
        ∧ om_Finalizers (tn_Meta t) = [FinalizerIngester; FinalizerCompactor]
        ∧ tst_Ingester (tn_Status t) = Some {| ref_Namespace := "kube"; ref_Name := "whizard-s3-auto-0" |}
        ∧ tst_Ruler (tn_Status t) = Some {| ref_Namespace := "kube"; ref_Name := "t1" |}
        ∧ tst_Compactor (tn_Status t) ≠ None in
  (Cluster.reconcile 6 "t1" Cluster.fresh).1 = Ok tt
  ∧ settled (Cluster.reconcile 6 "t1" Cluster.fresh).2
  ∧ settled (Cluster.reconcile 9 "t1" Cluster.fresh).2.
Proof.
  cbv zeta. split; [by vm_compute|].
  split; (split; [by vm_compute|]); eexists; (split; [vm_compute; reflexivity|]);
    vm_compute; repeat split; congruence.
Qed.

(** The finalizers of a tenant without a service label are never removed:
    whatever the client, a reconciliation of such a tenant reads it and does
    nothing else, its deletion included. *)
Theorem unlabelled_tenant_untouched {W} `{HK : Kube W} `{HL : K8sLib} `{HM : MapRange}
    `{HB : BaseLib} `{HC : Clock} (req : NamespacedName) (t : Tenant) (w w1 : W) :
  Get req w = (Ok t, w1) → map_get (om_Labels (tn_Meta t)) ServiceLabelKey = "" →
  TenantReconciler_Reconcile req w = (Ok tt, w1).
Proof.
  intros Hget Hlabel. unfold TenantReconciler_Reconcile.
  rewrite (bind_step _ _ _ (inr t) w1) by by apply attempt_Ok.
  unfold tenantValidator. destruct (String.eqb (tsp_Tenant (tn_Spec t)) ""); simpl; by rewrite Hlabel.
Qed.
