(* ===== verification/Ingester.v ===== *)
(** [pkg/controllers/resources/ingester] and
    [pkg/controllers/ingestor_controller.go]: the workload of an ingester, its
    addresses, and the controller that keeps its tenants' status and recycles
    it when its last tenant has left. *)
From stdpp Require Import base gmap strings list pretty sorting.
From Stdlib Require Import Ascii String.
From S2P Require Import Prelude GoStd K8s Api Objects Client Base Workload Tenant.

Section ingester.
Context {W : Type} `{!Kube W} `{!K8sLib} `{!MapRange} `{!BaseLib} `{!Clock} `{!WorkLib}.
Variable service : Service.       (* r.Service *)
Variable r : Ingester.            (* r.ingester *)

(** ** ingester.go *)

Definition ingester_labels : StrMap :=
  <[LabelNameAppManagedBy := om_Name (ig_Meta r)]> (<[LabelNameAppName := AppNameIngester]> BaseLabels).
Definition ingester_name (suffix : list string) : string :=
  QualifiedName AppNameIngester (om_Name (ig_Meta r)) suffix.
Definition ingester_meta (name : string) : ObjectMeta :=
  new_meta name "" (om_Namespace (ig_Meta r)) ingester_labels ∅.

(** The number of addresses; [make] panics on a negative one. *)
Definition address_count : Outcome nat :=
  let n := match Replicas (isp_Common (ig_Spec r)) with
           | Some n => n
           | None => match Replicas (isp_Common (it_Spec (sv_IngesterTemplateSpec (sv_Spec service)))) with
                     | Some n => n
                     | None => 2%Z
                     end
           end in
  if (n <? 0)%Z then Panic "makeslice: len out of range" else Ok (Z.to_nat n).

Definition pod_host (i : nat) : string :=
  ingester_name [] +:+ "-" +:+ itoa (Z.of_nat i) +:+ "." +:+ ingester_name [ServiceNameSuffix]
  +:+ "." +:+ om_Namespace (ig_Meta r) +:+ ".svc".

Definition addresses (f : nat → string) : Outcome (list string) :=
  match address_count with
  | Ok n => Ok (f <$> seq 0 n)
  | Err e => Err e
  | Panic p => Panic p
  end.

Definition ingester_GrpcAddrs : Outcome (list string) := addresses (λ i, pod_host i +:+ ":" +:+ itoa GRPCPort).
Definition Address : Outcome (list string) := addresses pod_host.
Definition ingester_Endpoints : list string :=
  ["dnssrv+_grpc._tcp." +:+ ingester_name [ServiceNameSuffix] +:+ "." +:+ om_Namespace (ig_Meta r) +:+ ".svc"].

(** ** service.go *)

Definition service_port (name : string) (port : Z) : ServicePort :=
  {| sp_Protocol := "TCP"; sp_Name := name; sp_Port := port; sp_TargetPort := 0; sp_NodePort := 0 |}.

Definition ingester_service : ResourceFn W :=
  let s := {|
    svc_Meta := ingester_meta (ingester_name [ServiceNameSuffix]); svc_Type := "";
    svc_Selector := ingester_labels;
    svc_Ports := [service_port GRPCPortName GRPCPort; service_port HTTPPortName HTTPPort;
                  service_port RemoteWritePortName RemoteWritePort; service_port CapNProtoPortName CapNProtoPort];
    svc_IPFamilies := []; svc_IPFamilyPolicy := ""; svc_ClusterIP := "None"; svc_ClusterIPs := [] |} in
  o ← lift_outcome (SetControllerReference (OIngester r) (OCoreService s));
  mret (Some (o, OperationCreateOrUpdate)).

(** ** statefulset.go *)

Definition ingester_repeatableArgs : list string := ["--label"].
Definition ingester_unsupportedArgs : list string :=
  ["--receive.hashrings"; "--receive.hashrings-file"; "--http-address"; "--grpc-address"].

(** [--tsdb.max-block-duration] with local storage only: a tenth of the
    retention, when that is less than 31 days. *)
Definition max_block_duration : GoError + Z :=
  match ParseDuration "31d" with
  | inl err => inl err
  | inr maxBlockDuration =>
      match ParseDuration (or_default (isp_LocalTsdbRetention (ig_Spec r)) "15d") with
      | inl err => inl err
      | inr retentionDuration =>
          inr (if negb (Z.eqb retentionDuration 0) && (Z.quot retentionDuration 10 <? maxBlockDuration)%Z
               then Z.quot retentionDuration 10 else maxBlockDuration)
      end
  end.

(** The storage arguments, and what is mounted for them. *)
Definition storage_args (storageConfig : string) : M W (list string * list Volume * list VolumeMount) :=
  if negb (String.eqb storageConfig "") then
    vols ← VolumesAndVolumeMountsForStorage (map_get (om_Labels (ig_Meta r)) StorageLabelKey);
    mret (["--objstore.config=" +:+ storageConfig], vols.1, vols.2)
  else
    d ← lift_sum max_block_duration;
    mret (["--tsdb.max-block-duration=" +:+ Duration_String d], [], []).

(** The arguments before the storage's, the storage's, and the ones after. *)
Definition ingester_base_args (storage : list string) : list string :=
  let spec := ig_Spec r in
  let common := isp_Common spec in
  ["receive"]
  ++ opt_arg "--log.level=" (LogLevel common) ++ opt_arg "--log.format=" (LogFormat common)
  ++ (match isp_OtlpEnableTargetInfo spec with
      | Some false => ["--no-receive.otlp-enable-target-info"] | _ => [] end)
  ++ ((λ attr, "--receive.otlp-promote-resource-attributes=" +:+ attr) <$> isp_OtlpResourceAttributes spec)
  ++ ["--label=" +:+ ReceiveReplicaLabelName +:+ "=" +:+ String "034" "$(POD_NAME)" +:+ String "034" "";
      "--tsdb.path=" +:+ StorageDir;
      "--receive.local-endpoint=$(POD_NAME)." +:+ ingester_name [ServiceNameSuffix] +:+ ":" +:+ itoa GRPCPort]
  ++ opt_arg "--tsdb.retention=" (isp_LocalTsdbRetention spec)
  ++ storage
  ++ opt_arg "--receive.tenant-header=" (sv_TenantHeader (sv_Spec service))
  ++ opt_arg "--receive.tenant-label-name=" (sv_TenantLabelName (sv_Spec service))
  ++ opt_arg "--receive.default-tenant-id=" (sv_DefaultTenantId (sv_Spec service)).

Definition ingester_args (storage : list string) : list string :=
  sort_tail (add_flags ingester_unsupportedArgs ingester_repeatableArgs
    (ingester_base_args storage) (Flags (isp_Common (ig_Spec r)))).

Definition initContainerName : string := "cleanup".

Definition cleanupScript : string :=
  let q := String "034" "" in
  let nl := String "010" "" in
  join nl ["";
    "#!/bin/bash"; "";
    "echo [$(date " +:+ q +:+ "+%Y-%m-%d %H:%M:%S" +:+ q +:+ ")] begin to cleanup block";
    "echo TSDB path: ${0}";
    "echo tenants: ${1}"; "";
    "files=$(ls -d $0/*)";
    "tenants=(${1//,/ })"; "";
    "for f in ${files[@]}";
    "do";
    "  if test -d $f; then";
    "    name=$(basename $f)";
    "    if [[ ! " +:+ q +:+ "${tenants[@]}" +:+ q +:+ " =~ " +:+ q +:+ "$name" +:+ q +:+ " ]]; then";
    "      echo [$(date " +:+ q +:+ "+%Y-%m-%d %H:%M:%S" +:+ q +:+ ")] tenant $name does not exist, delete data directory $f";
    "      rm -rf $f";
    "    fi";
    "  fi";
    "done"; "";
    "echo [$(date " +:+ q +:+ "+%Y-%m-%d %H:%M:%S" +:+ q +:+ ")] cleanup block end";
    ""].

Definition getTSDBVolumeMount (mounts : list VolumeMount) : option VolumeMount :=
  find (λ m, String.eqb (vm_Name m) TSDBVolumeName) mounts.

Definition generateInitContainer (tsdbVolumeMount : option VolumeMount) : list Container :=
  match tsdbVolumeMount with
  | None => []
  | Some mount =>
      if match DisableTSDBCleanup (sv_IngesterTemplateSpec (sv_Spec service)) with
         | Some b => b | None => false end then []
      else if label_is (om_Labels (ig_Meta r)) SoftTenantLabelKey "true" then []
      else
        let tenants := sort_strings (its_Name <$> is_Tenants (ig_Status r)) in
        [{| c_Name := initContainerName; c_Image := sc_Image (isp_IngesterTSDBCleanUp (ig_Spec r));
            c_ImagePullPolicy := ""; c_Command := ["bash"; "-c"; cleanupScript];
            c_Args := [StorageDir; join "," (tenants ++ [sv_DefaultTenantId (sv_Spec service)])];
            c_Resources := Resources (isp_Common (ig_Spec r)); c_Ports := []; c_Env := [];
            c_VolumeMounts := [mount]; c_LivenessProbe := None; c_ReadinessProbe := None |}]
  end.

Definition container_port (name : string) (port : Z) : ContainerPort :=
  {| cp_Protocol := "TCP"; cp_Name := name; cp_ContainerPort := port |}.

Definition receive_container : Container := {|
  c_Name := "receive"; c_Image := Image (isp_Common (ig_Spec r)); c_ImagePullPolicy := "";
  c_Command := []; c_Args := ["receive"]; c_Resources := Resources (isp_Common (ig_Spec r));
  c_Ports := [container_port GRPCPortName GRPCPort; container_port HTTPPortName HTTPPort;
              container_port RemoteWritePortName RemoteWritePort; container_port CapNProtoPortName CapNProtoPort];
  c_Env := [{| ev_Name := "POD_NAME"; ev_Value := EnvFieldRef "metadata.name" |}];
  c_VolumeMounts := []; c_LivenessProbe := Some DefaultLivenessProbe;
  c_ReadinessProbe := Some DefaultReadinessProbe |}.

(** [int64(time.Hour)], in nanoseconds where seconds are meant. *)
Definition terminationGracePeriodSeconds : Z := 3600 * second.

Definition ingester_sts : StatefulSet :=
  let common := isp_Common (ig_Spec r) in {|
  sts_Meta := ingester_meta (ingester_name []); sts_Replicas := Replicas common;
  sts_Selector := ingester_labels; sts_ServiceName := ingester_name [ServiceNameSuffix];
  sts_Template := {| pt_Labels := ingester_labels; pt_Annotations := ∅;
    pt_Spec := {| ps_NodeSelector := NodeSelector common; ps_Tolerations := Tolerations common;
      ps_Affinity := Affinity common; ps_SecurityContext := SecurityContext common;
      ps_ImagePullSecrets := ImagePullSecrets common; ps_ServiceAccountName := "";
      ps_TerminationGracePeriodSeconds := Some terminationGracePeriodSeconds;
      ps_Volumes := []; ps_InitContainers := []; ps_Containers := [] |} |};
  sts_VolumeClaimTemplates := []; sts_PVCRetentionPolicy := None |}.

(** The configuration of the storage the label names, if there is a label. *)
Definition ingester_storage_config : M W string :=
  let namespacedName := map_get (om_Labels (ig_Meta r)) StorageLabelKey in
  if String.eqb namespacedName "" then mret "" else GetStorageConfig namespacedName.

Definition ingester_statefulSet : ResourceFn W :=
  let '(sts, container, _) := AddTSDBVolume ingester_sts receive_container (isp_DataVolume (ig_Spec r)) in
  storageConfig ← ingester_storage_config;
  storage ← storage_args storageConfig;
  let '(args, volumes, mounts) := storage in
  let container := set_c_Args (ingester_args args) (add_mounts mounts container) in
  containers ← patch_containers (Containers (isp_Common (ig_Spec r))) [container];
  let sts := set_sts_Containers (generateInitContainer (getTSDBVolumeMount (c_VolumeMounts container)))
               containers (add_volumes volumes sts) in
  o ← lift_outcome (SetControllerReference (OIngester r) (OStatefulSet sts));
  mret (Some (o, OperationCreateOrUpdate)).

Definition ingester_Reconcile : M W unit := ReconcileResources [ingester_statefulSet; ingester_service].
End ingester.

(** ** pkg/controllers/ingestor_controller.go *)

(** [ctrl.Result]; the delay in nanoseconds. *)
Record Result := { Requeue : bool; RequeueAfter : Z }.
Definition no_result : Result := {| Requeue := false; RequeueAfter := 0 |}.

(** The nanoseconds of [time.Unix(sec, 0)], whose seconds are kept in an int64
    since year 1, and [t.Sub(u)], which saturates. *)
Definition wrap64 (z : Z) : Z := ((z + 2 ^ 63) mod 2 ^ 64 - 2 ^ 63)%Z.
Definition unix_to_internal : Z := 62135596800.
Definition time_Unix (sec : Z) : Z := ((wrap64 (sec + unix_to_internal) - unix_to_internal) * second)%Z.
Definition time_Sub (t u : Z) : Z := Z.max min_int64 (Z.min max_int64 (t - u)).

Section controller.
Context {W : Type} `{!Kube W} `{!K8sLib} `{!MapRange} `{!BaseLib} `{!Clock} `{!WorkLib}.

Definition applyConfigurationFromIngesterTemplateSpec (i : Ingester) (t : IngesterTemplateSpec) : GoError + Ingester :=
  match mergo_Merge_IngesterSpec (ig_Spec i) (it_Spec t) with
  | inl err => inl err
  | inr spec => inr {| ig_Type := ig_Type i; ig_Meta := ig_Meta i; ig_Spec := spec; ig_Status := ig_Status i |}
  end.

(** Every tenant the status knows, obsolete when the specification has lost it,
    then the tenants of the specification it does not know yet. *)
Definition desiredStatus (tenants : list string) (status : list IngesterTenantStatus) : list IngesterTenantStatus :=
  ((λ s, {| its_Name := its_Name s; its_Obsolete := bool_decide (its_Name s ∉ tenants) |}) <$> status)
  ++ ((λ t, {| its_Name := t; its_Obsolete := false |}) <$> filter (λ t, t ∉ (its_Name <$> status)) tenants).

(** What the recycling decides for an ingester: to wait, to delete it, or
    nothing. *)
Inductive Recycle := RWait (d : Z) | RDelete | RNothing.

Definition recycle (i : Ingester) : Recycle :=
  let annotations := om_Annotations (ig_Meta i) in
  if label_is annotations LabelNameIngesterState IngesterStateDeleting
     && match isp_Tenants (ig_Spec i) with [] => true | _ => false end then
    match annotations !! LabelNameIngesterDeletingTime with
    | None => RNothing
    | Some deletingTime =>
        match parse_int64 deletingTime with
        | None => RNothing
        | Some sec => let d := time_Sub now (time_Unix sec) in
                      if (d <? 0)%Z then RWait (wrap64 (- d)) else RDelete
        end
    end
  else RNothing.

Definition run_ingester (i : Ingester) : M W unit :=
  service ← SetService (ig_Meta i);
  ingester_Reconcile service i.

Definition IngesterReconciler_Reconcile (req : NamespacedName) : M W Result :=
  r ← attempt (Get (A:=Ingester) req);
  match r with
  | inl err => if apierrors_IsNotFound err then mret no_result else fail err
  | inr instance =>
      if String.eqb (map_get (om_Labels (ig_Meta instance)) ServiceLabelKey) "" then mret no_result
      else
        key ← of_option "nil pointer dereference" (ServiceNamespacedName (ig_Meta instance));
        service ← Get (A:=Service) key;
        instance ← lift_sum (applyConfigurationFromIngesterTemplateSpec instance
                     (sv_IngesterTemplateSpec (sv_Spec (ApplyDefaults service))));
        let desired := desiredStatus (isp_Tenants (ig_Spec instance)) (is_Tenants (ig_Status instance)) in
        if bool_decide (desired ≠ is_Tenants (ig_Status instance)) then
          StatusUpdate (set_ig_StatusTenants desired instance) ;; mret no_result
        else
          match recycle instance with
          | RWait d => mret {| Requeue := true; RequeueAfter := d |}
          | RDelete => Delete instance ;; mret no_result
          | RNothing => run_ingester instance ;; mret no_result
          end
  end.

Definition mapFuncBySelectorFunc (fn : ObjectMeta → StrMap) (o : Object) : M W (list NamespacedName) :=
  items ← or_nil (List (A:=Ingester) (MatchingLabels (fn (obj_meta o))));
  mret ((λ item, {| nn_Namespace := om_Namespace (ig_Meta item); nn_Name := om_Name (ig_Meta item) |}) <$> items).
End controller.
