(* ===== verification/IngesterFacts.v ===== *)
(** What an ingester's workload and controller guarantee: the arguments of its
    container, the tenants its status remembers, when it is recycled, and every
    request a reconciliation may issue. *)
From stdpp Require Import base gmap strings list pretty sorting.
From Stdlib Require Import Ascii String.
From S2P Require Import Prelude GoStd K8s Api Objects Client Clients Base ClientFacts Workload Tenant TenantFacts Ingester.
Open Scope nat_scope.

(** ** Status *)

Lemma desiredStatus_names tenants status :
  its_Name <$> desiredStatus tenants status
  = (its_Name <$> status) ++ filter (λ t, t ∉ (its_Name <$> status)) tenants.
Proof.
  unfold desiredStatus. rewrite fmap_app, <-!list_fmap_compose.
  by rewrite (list_fmap_id (filter _ tenants)).
Qed.

Lemma desiredStatus_obsolete tenants status e :
  e ∈ desiredStatus tenants status → its_Obsolete e = bool_decide (its_Name e ∉ tenants).
Proof.
  unfold desiredStatus. rewrite elem_of_app, !list_elem_of_fmap.
  intros [(s & -> & _)|(t & -> & [_ Ht]%list_elem_of_filter)]; [done|].
  simpl. by rewrite bool_decide_false by tauto.
Qed.

(** The status of an ingester forgets no tenant: the ones it knew stay, in
    their order, the new ones of the specification follow, and a tenant is
    obsolete exactly when the specification has lost it; computing the status
    again changes nothing, so the controller stops updating it. *)
Theorem status_forgets_nobody tenants status :
  let d := desiredStatus tenants status in
  (its_Name <$> status) `prefix_of` (its_Name <$> d)
  ∧ (∀ t, t ∈ (its_Name <$> d) ↔ t ∈ (its_Name <$> status) ∨ t ∈ tenants)
  ∧ (∀ e, e ∈ d → (its_Obsolete e = true ↔ its_Name e ∉ tenants))
  ∧ desiredStatus tenants d = d.
Proof.
  cbv zeta. split; [|split; [|split]].
  - rewrite desiredStatus_names. by eexists.
  - intros t. rewrite desiredStatus_names, elem_of_app, list_elem_of_filter.
    destruct (decide (t ∈ its_Name <$> status)); naive_solver.
  - intros e He. rewrite (desiredStatus_obsolete _ _ _ He). apply bool_decide_eq_true.
  - unfold desiredStatus at 1.
    assert (Hnone : filter (λ t, t ∉ (its_Name <$> desiredStatus tenants status)) tenants = []).
    { apply elem_of_nil_inv. intros t [Hn Ht]%list_elem_of_filter. apply Hn.
      rewrite desiredStatus_names, elem_of_app, list_elem_of_filter.
      destruct (decide (t ∈ its_Name <$> status)); [by left|by right]. }
    rewrite Hnone, app_nil_r. rewrite <-(list_fmap_id (desiredStatus tenants status)) at 2.
    apply list_fmap_ext. intros i e He. apply list_elem_of_lookup_2, desiredStatus_obsolete in He.
    destruct e as [n o]. simpl in *. by rewrite He.
Qed.

(** ** Recycling *)

Lemma recycle_marked {HC : Clock} (i : Ingester) sec :
  isp_Tenants (ig_Spec i) = [] →
  om_Annotations (ig_Meta i) !! LabelNameIngesterState = Some IngesterStateDeleting →
  (d ← om_Annotations (ig_Meta i) !! LabelNameIngesterDeletingTime; parse_int64 d) = Some sec →
  recycle i = (let d := time_Sub now (time_Unix sec) in if (d <? 0)%Z then RWait (wrap64 (- d)) else RDelete).
Proof.
  intros Ht Hs Hd. unfold recycle. rewrite Ht. unfold label_is. rewrite Hs, String.eqb_refl. cbn [andb].
  destruct (om_Annotations (ig_Meta i) !! LabelNameIngesterDeletingTime) as [d|]; simpl in Hd; [|done].
  by rewrite Hd.
Qed.

Lemma wrap64_small z : (min_int64 ≤ z ≤ max_int64)%Z → wrap64 z = z.
Proof.
  unfold wrap64, min_int64, max_int64. intros Hz. rewrite Z.mod_small; lia.
Qed.

(** C13: an ingester that lost its last tenant is recycled at the end of its
    retention period: until then the controller asks to be called again after
    exactly the time that is left, from then on it deletes it; a tenant that
    joins in between stops the recycling. *)
Theorem recycled_after_retention (HC1 HC2 : Clock) (s : Service) (t : Tenant) (i : Ingester) :
  let i' := @left_ingester HC1 (sv_Spec s) t i in
  let due := (@now HC1 + @retention_period HC1 (sv_Spec s) i)%Z in
  let deadline := (due / second * second)%Z in
  isp_Tenants (ig_Spec i') = [] → (0 ≤ due ≤ max_int64)%Z → (0 ≤ @now HC2 ≤ max_int64)%Z →
  @recycle HC2 i' = (if (@now HC2 <? deadline)%Z then RWait (deadline - @now HC2)%Z else RDelete)
  ∧ ∀ t', @recycle HC2 (addTenantToIngesterInstance t' i') = RNothing.
Proof.
  cbv zeta. intros Hnil Hdue Hnow. split.
  - assert (Hsec : (0 ≤ (@now HC1 + @retention_period HC1 (sv_Spec s) i) / second ≤ 9223372036)%Z).
    { unfold max_int64, second in *. split; [apply Z.div_pos; lia|].
      apply Z.lt_succ_r, Z.div_lt_upper_bound; lia. }
    unfold left_ingester in Hnil |- *. set (i1 := set_ig_Tenants _ i) in *.
    destruct (isp_Tenants (ig_Spec i1)) eqn:E; [|congruence].
    rewrite (recycle_marked _ ((@now HC1 + @retention_period HC1 (sv_Spec s) i) / second)%Z).
    + revert Hsec. generalize ((@now HC1 + @retention_period HC1 (sv_Spec s) i) / second)%Z. intros sec Hsec.
      cbv zeta. unfold time_Unix.
      rewrite wrap64_small by (unfold unix_to_internal, min_int64, max_int64; lia).
      replace (sec + unix_to_internal - unix_to_internal)%Z with sec by lia.
      assert (Hsub : time_Sub (@now HC2) (sec * second) = (@now HC2 - sec * second)%Z).
      { unfold time_Sub, min_int64, max_int64, second in *. lia. }
      rewrite Hsub. destruct (Z.ltb_spec (@now HC2) (sec * second)) as [Hlt|Hge].
      * rewrite (proj2 (Z.ltb_lt _ _)) by lia. f_equal.
        rewrite wrap64_small; [lia|]. unfold min_int64, max_int64, second in *. lia.
      * by rewrite (proj2 (Z.ltb_ge _ _)) by lia.
    + exact E.
    + simpl. rewrite lookup_insert_ne by done. by rewrite lookup_insert_eq.
    + simpl. rewrite lookup_insert_eq. simpl. unfold deleting_time.
      apply parse_int64_itoa. unfold min_int64, max_int64. lia.
  - intros t'. unfold recycle.
    assert (Hne : isp_Tenants (ig_Spec (addTenantToIngesterInstance t' (@left_ingester HC1 (sv_Spec s) t i))) ≠ []).
    { rewrite added_tenants. by destruct (isp_Tenants (ig_Spec (left_ingester _ _ _))). }
    destruct (isp_Tenants (ig_Spec (addTenantToIngesterInstance _ _))); [done|].
    by rewrite andb_false_r.
Qed.

(** ** The requests of a reconciliation *)

Section requests.
Context {W : Type} `{HK : Kube W} {HL : K8sLib} {HM : MapRange} {HB : BaseLib} {HC : Clock} {HW : WorkLib}.

(** The deletion of an ingester that is marked, empty, and due. *)
Definition due_for_deletion (i : Ingester) : Prop :=
  isp_Tenants (ig_Spec i) = []
  ∧ om_Annotations (ig_Meta i) !! LabelNameIngesterState = Some IngesterStateDeleting
  ∧ ∃ d sec, om_Annotations (ig_Meta i) !! LabelNameIngesterDeletingTime = Some d
             ∧ parse_int64 d = Some sec ∧ (time_Unix sec ≤ now)%Z.

(** The status lists the tenants of the specification, and no other tenant is
    in use. *)
Definition settled_status (i : Ingester) : Prop :=
  ∃ status, is_Tenants (ig_Status i) = desiredStatus (isp_Tenants (ig_Spec i)) status.

(** The stateful set and the service of an ingester, by kind, namespace and
    name. *)
Definition statefulset_key (i : Ingester) : Key :=
  (KStatefulSet, om_Namespace (ig_Meta i), "ingester-" +:+ om_Name (ig_Meta i)).
Definition service_key (i : Ingester) : Key :=
  (KCoreService, om_Namespace (ig_Meta i), "ingester-" +:+ om_Name (ig_Meta i) +:+ "-operated").

(** What is requested for the ingester that was read: its own two objects are
    created and updated, its stateful set is deleted (to be created again, when
    it cannot be updated); of ingesters, only itself is touched. *)
Definition ingester_request (i : Ingester) (c : Call) : Prop :=
  match c with
  | CGet _ _ => True
  | CCreate o | CUpdate o => obj_key o = statefulset_key i ∨ obj_key o = service_key i
  | CStatusUpdate (OIngester x) => ig_Meta x = ig_Meta i ∧ settled_status x
  | CDelete (OIngester x) => ig_Meta x = ig_Meta i ∧ due_for_deletion x
  | CDelete o => obj_key o = statefulset_key i
  | _ => False
  end.

Definition workload_key (i : Ingester) (k : Key) : Prop := k = statefulset_key i ∨ k = service_key i.

Lemma applies_request i k c : workload_key i k → applies k c → ingester_request i c.
Proof.
  intros Hk [Hc|(sts & <- & ->)]; [|by destruct Hk].
  destruct c; simpl in *; try done; by rewrite Hc.
Qed.

Lemma AddTSDBVolume_meta sts c dv sts' c' b :
  AddTSDBVolume sts c dv = (sts', c', b) → sts_Meta sts' = sts_Meta sts.
Proof. unfold AddTSDBVolume. repeat case_match; by intros [= <- <- <-]. Qed.

Lemma added_volumes_meta vs sts : sts_Meta (add_volumes vs sts) = sts_Meta sts.
Proof. unfold add_volumes. revert sts. induction vs as [|v vs IH]; intros sts; [done|]. simpl. by rewrite IH. Qed.

Lemma effects_statefulSet svc i : effects (ingester_request i) (ingester_statefulSet (W:=Logged W) svc i)
  (yields (ingester_request i) (workload_key i)).
Proof.
  unfold ingester_statefulSet. destruct (AddTSDBVolume _ _ _) as [[sts container] dv] eqn:Ests.
  apply effects_step; [unfold ingester_storage_config; reads|]. intros storageConfig.
  apply effects_step; [unfold storage_args; reads|]. intros [[args volumes] mounts]. cbv zeta.
  apply effects_step; [reads|]. intros containers. apply effects_owned. left.
  apply AddTSDBVolume_meta in Ests. unfold obj_key, obj_Namespace, obj_Name. simpl. by rewrite added_volumes_meta, Ests.
Qed.

Lemma effects_ingester_Reconcile svc i :
  effects (ingester_request i) (ingester_Reconcile (W:=Logged W) svc i) (λ _, True).
Proof.
  apply effects_for_each. intros res Hres.
  apply (effects_reconcile_resource _ (workload_key i)); [apply applies_request|].
  apply elem_of_cons in Hres as [->|Hres]; [apply effects_statefulSet|].
  apply list_elem_of_singleton in Hres as ->. apply effects_owned. by right.
Qed.

Lemma recycle_delete i : recycle i = RDelete → due_for_deletion i.
Proof.
  unfold recycle. destruct (label_is _ _ _) eqn:El; [|done].
  destruct (isp_Tenants (ig_Spec i)) eqn:Et; [|done]. cbn [andb].
  destruct (om_Annotations (ig_Meta i) !! LabelNameIngesterDeletingTime) as [d|] eqn:Ed; [|done].
  destruct (parse_int64 d) as [sec|] eqn:Es; [|done]. cbv zeta.
  destruct (Z.ltb_spec (time_Sub now (time_Unix sec)) 0) as [|Hge]; [done|]. intros _.
  split; [done|]. split; [by apply label_is_spec|]. exists d, sec. split; [done|]. split; [done|].
  unfold time_Sub, min_int64, max_int64 in Hge. lia.
Qed.

Lemma applied_meta i t i' : applyConfigurationFromIngesterTemplateSpec i t = inr i' → ig_Meta i' = ig_Meta i.
Proof. unfold applyConfigurationFromIngesterTemplateSpec. destruct (mergo_Merge_IngesterSpec _ _); [done|]. by intros [= <-]. Qed.

(** The requests depend on the metadata of the ingester only. *)
Lemma ingester_request_meta i i' c : ig_Meta i' = ig_Meta i → ingester_request i' c → ingester_request i c.
Proof.
  intros Hm. destruct c as [| |o|o|o|o]; simpl; unfold statefulset_key, service_key; rewrite ?Hm; try done;
    by destruct o.
Qed.

(** What follows the reading of the ingester and its service. *)
Lemma effects_settle i :
  effects (ingester_request i)
    (let desired := desiredStatus (isp_Tenants (ig_Spec i)) (is_Tenants (ig_Status i)) in
     if bool_decide (desired ≠ is_Tenants (ig_Status i)) then
       StatusUpdate (set_ig_StatusTenants desired i) ;; mret no_result
     else
       match recycle i with
       | RWait d => mret {| Requeue := true; RequeueAfter := d |}
       | RDelete => Delete i ;; mret no_result
       | RNothing => run_ingester i ;; mret no_result
       end : M (Logged W) Result) (λ _, True).
Proof.
  cbv zeta. pose proof (effects_ingester_Reconcile). unfold run_ingester. case_bool_decide.
  - apply effects_step; [|reads]. apply effects_StatusUpdate. split; [done|]. by eexists.
  - destruct (recycle i) eqn:E; [reads| |].
    + apply effects_step; [|reads]. apply effects_Delete. split; [done|]. by apply recycle_delete.
    + apply effects_step; [|reads]. apply effects_step; [reads|done].
Qed.

(** C16: whatever the API server answers, reconciling an ingester reads, updates
    the status of the ingester it read to one that lists its tenants, creates and
    updates the stateful set and the service of that ingester (and deletes that
    stateful set, when it cannot be updated), and deletes the ingester only if it
    is marked for deletion, has no tenant and its deletion time has passed:
    nothing else is ever requested, of this or of any other ingester. *)
Theorem ingester_deleted_only_when_due (req : NamespacedName) (w : W) :
  Forall (λ c, (∃ k key, c = CGet k key)
               ∨ ∃ i w1, Get (A:=Ingester) req w = (Ok i, w1) ∧ ingester_request i c)
    (calls_from (IngesterReconciler_Reconcile req) w).
Proof.
  apply requests_calls. apply requests_attempt_Get; [by left; eauto|]. intros [err|i] s1 Hi; cbn [lg_world] in Hi.
  { apply (requests_effects _ _ (λ _, True)). destruct (apierrors_IsNotFound err); [by apply effects_ret|by apply effects_fail]. }
  specialize (Hi i eq_refl).
  apply (requests_effects _ _ (λ _, True)), (effects_impl (ingester_request i));
    [intros c Hc; right; by exists i, (lg_world s1)|].
  destruct (String.eqb _ ""); [by apply effects_ret|].
  apply effects_step; [by apply effects_option|]. intros key.
  apply effects_step; [reads|]. intros service.
  destruct (applyConfigurationFromIngesterTemplateSpec _ _) as [err|i'] eqn:Ea; [by apply (effects_bind _ _ _ (λ _, False)); [apply effects_fail|]|].
  apply applied_meta in Ea. eapply effects_impl; [intros c; apply (ingester_request_meta i i' c Ea)|].
  apply effects_settle.
Qed.
End requests.

(** ** The arguments of the container *)

Lemma GetArgName_eq n x : contains_char "="%char n = false → GetArgName (n +:+ String "=" x) = n.
Proof. intros Hn. unfold GetArgName. by rewrite split_on_app. Qed.

Lemma opt_arg_name n v : contains_char "="%char n = false →
  (GetArgName <$> opt_arg (n +:+ "=") v) `sublist_of` [n].
Proof.
  intros Hn. unfold opt_arg. destruct (String.eqb v ""); simpl; [apply sublist_nil_l|].
  rewrite append_assoc. change ("=" +:+ v) with (String "=" v). rewrite GetArgName_eq by done. done.
Qed.

Lemma sublist_filter {A} (P : A → Prop) `{∀ x, Decision (P x)} (l1 l2 : list A) :
  l1 `sublist_of` l2 → filter P l1 `sublist_of` filter P l2.
Proof.
  induction 1 as [|x l1 l2 _ IH|x l1 l2 _ IH]; [done|..]; rewrite !filter_cons.
  - case_decide; [by apply sublist_skip|done].
  - case_decide; [by apply sublist_cons|done].
Qed.

Lemma named_length n l : length (named n l) = length (filter (λ m, m = n) (GetArgName <$> l)).
Proof.
  induction l as [|a l IH]; [done|]. unfold named in *. rewrite fmap_cons, !filter_cons.
  case_decide; simpl; by rewrite IH.
Qed.

Lemma filter_eq_NoDup n (l : list string) : NoDup l → length (filter (λ m, m = n) l) ≤ 1.
Proof.
  intros Hnd. assert (H : NoDup (filter (λ m, m = n) l)) by by apply NoDup_filter.
  assert (Hin : ∀ x, x ∈ filter (λ m, m = n) l → x = n) by by intros x [-> _]%list_elem_of_filter.
  destruct (filter _ l) as [|a [|b l']]; simpl; [lia..|].
  apply NoDup_cons in H as [H _]. destruct H. rewrite (Hin a), (Hin b); set_solver.
Qed.

(** The names of the arguments, in the order they are written. *)
Definition arg_names (attrs : nat) : list string :=
  ["receive"; "--log.level"; "--log.format"; "--no-receive.otlp-enable-target-info"]
  ++ replicate attrs "--receive.otlp-promote-resource-attributes"
  ++ ["--label"; "--tsdb.path"; "--receive.local-endpoint"; "--tsdb.retention"; "--objstore.config";
      "--tsdb.max-block-duration"; "--receive.tenant-header"; "--receive.tenant-label-name";
      "--receive.default-tenant-id"].

(** What [storage_args] yields. *)
Definition storage_arg (l : list string) : Prop :=
  ∃ x, l = ["--objstore.config=" +:+ x] ∨ l = ["--tsdb.max-block-duration=" +:+ x].

Lemma base_arg_names svc r storage : storage_arg storage →
  (GetArgName <$> ingester_base_args svc r storage) `sublist_of`
  arg_names (length (isp_OtlpResourceAttributes (ig_Spec r))).
Proof.
  intros [x Hx]. unfold ingester_base_args, arg_names. cbv zeta. rewrite !fmap_app.
  change (["receive"; "--log.level"; "--log.format"; "--no-receive.otlp-enable-target-info"])
    with (["receive"] ++ ["--log.level"] ++ ["--log.format"] ++ ["--no-receive.otlp-enable-target-info"]).
  change (["--label"; "--tsdb.path"; "--receive.local-endpoint"; "--tsdb.retention"; "--objstore.config";
      "--tsdb.max-block-duration"; "--receive.tenant-header"; "--receive.tenant-label-name";
      "--receive.default-tenant-id"])
    with (["--label"; "--tsdb.path"; "--receive.local-endpoint"] ++ ["--tsdb.retention"]
      ++ ["--objstore.config"; "--tsdb.max-block-duration"] ++ ["--receive.tenant-header"]
      ++ ["--receive.tenant-label-name"] ++ ["--receive.default-tenant-id"]).
  rewrite <-!(assoc_L (++)).
  repeat apply sublist_app;
    try first [ by apply (opt_arg_name "--log.level") | by apply (opt_arg_name "--log.format")
              | by apply (opt_arg_name "--tsdb.retention") | by apply (opt_arg_name "--receive.tenant-header")
              | by apply (opt_arg_name "--receive.tenant-label-name")
              | by apply (opt_arg_name "--receive.default-tenant-id") ].
  - done.
  - destruct (isp_OtlpEnableTargetInfo (ig_Spec r)) as [[]|]; simpl; [apply sublist_nil_l|done|apply sublist_nil_l].
  - generalize (isp_OtlpResourceAttributes (ig_Spec r)). intros l.
    induction l as [|a l IH]; [done|]. cbn [fmap list_fmap length replicate].
    change ("--receive.otlp-promote-resource-attributes=" +:+ a)
      with ("--receive.otlp-promote-resource-attributes" +:+ String "=" a).
    rewrite GetArgName_eq by done. by apply sublist_skip.
  - done.
  - destruct Hx as [-> | ->]; cbn [fmap list_fmap].
    + change ("--objstore.config=" +:+ x) with ("--objstore.config" +:+ String "=" x).
      rewrite GetArgName_eq by done. apply sublist_skip, sublist_nil_l.
    + change ("--tsdb.max-block-duration=" +:+ x) with ("--tsdb.max-block-duration" +:+ String "=" x).
      rewrite GetArgName_eq by done. by apply sublist_cons.
Qed.

Lemma base_named_le svc r storage n : storage_arg storage →
  n ≠ "--receive.otlp-promote-resource-attributes" →
  length (named n (ingester_base_args svc r storage)) ≤ length (filter (λ m, m = n) (arg_names 0)).
Proof.
  intros Hs Hn. rewrite named_length.
  etransitivity; [apply sublist_length, sublist_filter, (base_arg_names svc r storage Hs)|].
  unfold arg_names. rewrite !filter_app. rewrite !length_app.
  assert (Hr : ∀ k, filter (λ m, m = n) (replicate k "--receive.otlp-promote-resource-attributes") = []).
  { intros k. apply elem_of_nil_inv. intros y [-> Hy]%list_elem_of_filter.
    by apply elem_of_replicate in Hy as [-> _]. }
  by rewrite !Hr.
Qed.

(** Whatever flags the user gives, the command stays in front and the other
    arguments are sorted; the hashrings and the addresses cannot be set; an
    option that may not be repeated is passed at most once, with the user's
    last value when there is one. *)
Theorem ingester_flags_merged svc r storage : storage_arg storage →
  let args := ingester_args svc r storage in
  (∃ a rest, args = a :: rest ∧ GetArgName a = "receive" ∧ Sorted String.le rest)
  ∧ (∀ n, n ∈ ingester_unsupportedArgs → named n args = [])
  ∧ (∀ n, n ∉ ingester_repeatableArgs → n ≠ "--receive.otlp-promote-resource-attributes" →
       length (named n args) ≤ 1)
  ∧ ∀ n f, n ∉ ingester_unsupportedArgs → n ∉ ingester_repeatableArgs →
      last (named n (Flags (isp_Common (ig_Spec r)))) = Some f → f ∈ args.
Proof.
  intros Hs. cbv zeta. unfold ingester_args.
  set (base := ingester_base_args svc r storage). set (flags := Flags _).
  set (merged_args := add_flags ingester_unsupportedArgs ingester_repeatableArgs base flags).
  assert (Hnamed : ∀ n, named n (sort_tail merged_args)
    ≡ₚ merged ingester_unsupportedArgs ingester_repeatableArgs n base flags).
  { intros n. rewrite sort_tail_named. unfold merged_args. by rewrite add_flags_named. }
  split; [|split; [|split]].
  - destruct (add_flags_head ingester_unsupportedArgs ingester_repeatableArgs "receive" (tail base) flags)
      as (a & rest & Ha & Hrest). exists a, (sort_strings rest). unfold merged_args.
    change base with ("receive" :: tail base). rewrite Ha. split; [done|]. split; [exact Hrest|].
    apply StronglySorted_Sorted, StronglySorted_merge_sort; apply _.
  - intros n Hn. apply Permutation_nil. rewrite Hnamed. unfold merged. rewrite decide_True by done.
    assert (Hle := base_named_le svc r storage n Hs). fold base in Hle.
    assert (Hz : length (named n base) ≤ 0).
    { unfold ingester_unsupportedArgs in Hn.
      repeat (apply elem_of_cons in Hn as [->|Hn]; [by apply Hle|]). by apply elem_of_nil in Hn. }
    by destruct (named n base); [|simpl in Hz; lia].
  - intros n Hr Hp. rewrite (Permutation_length (Hnamed n)). unfold merged.
    assert (Hb : length (named n base) ≤ 1).
    { etransitivity; [by apply (base_named_le svc r storage n Hs Hp)|]. apply filter_eq_NoDup.
      by apply (bool_decide_unpack _). }
    case_decide; [done|]. rewrite decide_False by done. destruct (last _); [|done].
    simpl. destruct (named n base) as [|x [|y l]]; simpl in *; lia.
  - intros n f Hu Hr Hf.
    assert (Hin : f ∈ named n (sort_tail merged_args)).
    { rewrite Hnamed. unfold merged. rewrite !decide_False by done. rewrite Hf. by left. }
    by apply list_elem_of_filter in Hin as [_ Hin].
Qed.
