(* ===== verification/Router.v ===== *)
(** [pkg/controllers/resources/router] and
    [pkg/controllers/router_controller.go]: the router, which sends the samples
    of each tenant to the ingesters of its hash ring. The routers are never
    nil: their name is read before the nil tests of the source. *)
From stdpp Require Import base gmap strings list pretty sorting.
From Stdlib Require Import Ascii String.
From S2P Require Import Prelude GoStd K8s Api Objects Client Base Workload Tenant Ingester Web.

(** ** thanos/pkg/receive *)

Record Endpoint := { ep_Address : string; ep_CapNProtoAddress : string }.
Record HashringConfig := { hr_Hashring : string; hr_Tenants : list string; hr_Endpoints : list Endpoint }.

Class RouterLib := {
  (* json.MarshalIndent of the hashrings *)
  json_Hashrings : list HashringConfig → GoError + string;
  (* mergo.Merge(&router.Spec, template) *)
  mergo_Merge_RouterSpec : RouterSpec → RouterSpec → GoError + RouterSpec;
}.

Section router.
Context {W : Type} `{!Kube W} `{!K8sLib} `{!MapRange} `{!BaseLib} `{!WorkLib} `{!WebLib} `{!RouterLib}.
Variable service : Service.       (* r.Service *)
Variable r : Router.              (* r.router *)

(** ** router.go *)

Definition configDir : string := "/etc/whizard".
Definition hashringsFile : string := "hashrings.json".

Definition router_labels : StrMap :=
  <[LabelNameAppManagedBy := om_Name (sv_Meta service)]> (<[LabelNameAppName := AppNameRouter]> BaseLabels).
Definition router_name (suffix : list string) : string := QualifiedName AppNameRouter (om_Name (rt_Meta r)) suffix.
Definition router_meta (name : string) : ObjectMeta :=
  new_meta name "" (om_Namespace (sv_Meta service)) router_labels ∅.

Definition router_addr (scheme : string) (port : Z) : string :=
  scheme +:+ "://" +:+ router_name [ServiceNameSuffix] +:+ "." +:+ om_Namespace (sv_Meta service)
  +:+ ".svc:" +:+ itoa port.
Definition router_HttpAddr : string := router_addr "http" HTTPPort.
Definition router_RemoteWriteAddr : string := router_addr "http" RemoteWritePort.
Definition router_RemoteWriteHTTPSAddr : string := router_addr "https" RemoteWritePort.

(** The object, owned by the router. *)
Definition router_owned (o : Object) : M W (option (Object * Operation)) :=
  o ← lift_outcome (SetControllerReference (ORouter r) o);
  mret (Some (o, OperationCreateOrUpdate)).

(** ** configmap.go *)

Definition endpoint_of (addr : string) : Endpoint :=
  {| ep_Address := addr +:+ ":" +:+ itoa GRPCPort; ep_CapNProtoAddress := addr +:+ ":" +:+ itoa CapNProtoPort |}.

Definition ring_of (item : Ingester) (addrs : list string) : HashringConfig :=
  {| hr_Hashring := om_Namespace (ig_Meta item) +:+ "/" +:+ om_Name (ig_Meta item);
     hr_Tenants := isp_Tenants (ig_Spec item); hr_Endpoints := endpoint_of <$> addrs |}.
Definition soft_ring (endpoints : list Endpoint) : HashringConfig :=
  {| hr_Hashring := "softs"; hr_Tenants := []; hr_Endpoints := endpoints |}.

(** One ingester of the loop: the rings of the tenants so far, and the
    endpoints of the ring of the other tenants. *)
Definition hashring_step (acc : list HashringConfig * list Endpoint) (item : Ingester)
    : M W (list HashringConfig * list Endpoint) :=
  svc ← SetService (ig_Meta item);
  match isp_Tenants (ig_Spec item) with
  | [] =>
      if label_is (om_Labels (ig_Meta item)) SoftTenantLabelKey "true" then
        addrs ← lift_outcome (Address svc item);
        mret (acc.1, acc.2 ++ (endpoint_of <$> addrs))
      else mret acc
  | _ :: _ =>
      addrs ← lift_outcome (Address svc item);
      mret (acc.1 ++ [ring_of item addrs], acc.2)
  end.

Definition hashrings (items : list Ingester) : M W (list HashringConfig) :=
  rings ← fold_each hashring_step ([], []) items;
  mret (rings.1 ++ [soft_ring rings.2]).

Definition hashringsConfigMap : ResourceFn W :=
  items ← List (A:=Ingester) (MatchingLabels (ManagedLabelByService (sv_Meta service)));
  rings ← hashrings items;
  data ← lift_sum (json_Hashrings rings);
  router_owned (OConfigMap {| cm_Meta := router_meta (router_name ["hashrings-config"]);
                              cm_Data := <[hashringsFile := data]> ∅ |}).

(** ** service.go *)

Definition router_service : ResourceFn W :=
  router_owned (OCoreService {|
    svc_Meta := router_meta (router_name [ServiceNameSuffix]); svc_Type := "ClusterIP";
    svc_Selector := router_labels;
    svc_Ports := [service_port GRPCPortName GRPCPort; service_port HTTPPortName HTTPPort;
                  service_port RemoteWritePortName RemoteWritePort];
    svc_IPFamilies := []; svc_IPFamilyPolicy := ""; svc_ClusterIP := ""; svc_ClusterIPs := [] |}).

(** ** secret.go *)

Definition webConfigSecret : ResourceFn W :=
  let secret data := OSecret {| sec_Meta := router_meta (router_name ["web-config"]);
                                sec_Data := data; sec_StringData := ∅ |} in
  match rsp_WebConfig (rt_Spec r) with
  | None => mret (Some (secret ∅, OperationDelete))
  | Some webConfig =>
      body ← CreateWebConfig (om_Namespace (rt_Meta r)) webConfig;
      router_owned (secret (<[WhizardWebConfigFile := body]> ∅))
  end.

(** ** deployment.go *)

Definition router_repeatableArgs : list string := ["--label"].
Definition router_unsupportedArgs : list string :=
  ["--receive.local-endpoint"; "--http-address"; "--grpc-address"].

Definition router_base_args : list string :=
  let common := rsp_Common (rt_Spec r) in
  ["receive"]
  ++ (match rsp_WebConfig (rt_Spec r) with
      | Some _ => ["--http.config=" +:+ WhizardWebConfigMountPath +:+ WhizardWebConfigFile]
      | None => [] end)
  ++ opt_arg "--log.level=" (LogLevel common) ++ opt_arg "--log.format=" (LogFormat common)
  ++ ["--label=" +:+ ReceiveReplicaLabelName +:+ "=" +:+ String "034" "$(POD_NAME)" +:+ String "034" "";
      "--receive.hashrings-file=" +:+ configDir +:+ "/" +:+ hashringsFile]
  ++ (match rsp_ReplicationFactor (rt_Spec r) with
      | Some n => ["--receive.replication-factor=" +:+ itoa n] | None => [] end)
  ++ opt_arg "--receive.replication-protocol=" (rsp_ReplicationProtocol (rt_Spec r))
  ++ opt_arg "--receive.tenant-header=" (sv_TenantHeader (sv_Spec service))
  ++ opt_arg "--receive.tenant-label-name=" (sv_TenantLabelName (sv_Spec service))
  ++ opt_arg "--receive.default-tenant-id=" (sv_DefaultTenantId (sv_Spec service)).

Definition router_args : list string :=
  sort_tail (add_flags router_unsupportedArgs router_repeatableArgs router_base_args
               (Flags (rsp_Common (rt_Spec r)))).

Definition router_annotations : M W StrMap :=
  match rsp_WebConfig (rt_Spec r) with
  | None => mret ∅
  | Some _ => secret ← webConfigSecret; config_hash secret
  end.

Definition router_has_tls : bool :=
  match rsp_WebConfig (rt_Spec r) with
  | Some wc => negb (is_nil (wc_HTTPServerTLSConfig wc))
  | None => false
  end.

Definition router_web_volumes : list Volume * list VolumeMount :=
  match rsp_WebConfig (rt_Spec r) with
  | Some wc => CreateWebConfigVolumeMount (router_name ["web-config"]) wc
  | None => ([], [])
  end.

Definition router_container : Container := {|
  c_Name := "receive"; c_Image := Image (rsp_Common (rt_Spec r)); c_ImagePullPolicy := "";
  c_Command := []; c_Args := router_args; c_Resources := Resources (rsp_Common (rt_Spec r));
  c_Ports := [container_port GRPCPortName GRPCPort; container_port HTTPPortName HTTPPort;
              container_port RemoteWritePortName RemoteWritePort];
  c_Env := [{| ev_Name := "POD_NAME"; ev_Value := EnvFieldRef "metadata.name" |}];
  c_VolumeMounts := [{| vm_Name := "hashrings-config"; vm_ReadOnly := true; vm_MountPath := configDir;
                        vm_SubPath := "" |}] ++ router_web_volumes.2;
  c_LivenessProbe := Some (if router_has_tls then DefaultLivenessProbeWithTLS else DefaultLivenessProbe);
  c_ReadinessProbe := Some (if router_has_tls then DefaultReadinessProbeWithTLS else DefaultReadinessProbe) |}.

Definition router_deployment : ResourceFn W :=
  let common := rsp_Common (rt_Spec r) in
  annotations ← router_annotations;
  containers ← patch_containers (Containers common) [router_container];
  router_owned (ODeployment {|
    dep_Meta := router_meta (router_name []); dep_Replicas := Replicas common; dep_Selector := router_labels;
    dep_Template := {| pt_Labels := router_labels; pt_Annotations := annotations;
      pt_Spec := {| ps_NodeSelector := NodeSelector common; ps_Tolerations := Tolerations common;
        ps_Affinity := Affinity common; ps_SecurityContext := SecurityContext common;
        ps_ImagePullSecrets := ImagePullSecrets common; ps_ServiceAccountName := "";
        ps_TerminationGracePeriodSeconds := None;
        ps_Volumes := [{| vol_Name := "hashrings-config";
                          vol_Source := VSConfigMap (router_name ["hashrings-config"]) |}] ++ router_web_volumes.1;
        ps_InitContainers := []; ps_Containers := containers |} |} |}).

Definition router_Reconcile : M W unit :=
  ReconcileResources [hashringsConfigMap; webConfigSecret; router_deployment; router_service].
End router.

(** ** pkg/controllers/router_controller.go *)

Section controller.
Context {W : Type} `{!Kube W} `{!K8sLib} `{!MapRange} `{!BaseLib} `{!WorkLib} `{!WebLib} `{!RouterLib}.

Definition applyConfigurationFromRouterTemplateSpec (router : Router) (template : RouterSpec) : GoError + Router :=
  match mergo_Merge_RouterSpec (rt_Spec router) template with
  | inl err => inl err
  | inr spec => inr {| rt_Type := rt_Type router; rt_Meta := rt_Meta router; rt_Spec := spec |}
  end.

Definition RouterReconciler_Reconcile (req : NamespacedName) : M W unit :=
  r ← attempt (Get (A:=Router) req);
  match r with
  | inl err => if apierrors_IsNotFound err then mret tt else fail err
  | inr instance =>
      if String.eqb (map_get (om_Labels (rt_Meta instance)) ServiceLabelKey) "" then mret tt
      else
        key ← of_option "nil pointer dereference" (ServiceNamespacedName (rt_Meta instance));
        service ← Get (A:=Service) key;
        instance ← lift_sum (applyConfigurationFromRouterTemplateSpec instance
                     (RouterTemplateSpec (sv_Spec (ApplyDefaults service))));
        svc ← SetService (rt_Meta instance);
        router_Reconcile svc instance
  end.
Definition router_mapFuncBySelectorFunc (fn : ObjectMeta → StrMap) (o : Object) : M W (list NamespacedName) :=
  items ← or_nil (List (A:=Router) (MatchingLabels (fn (obj_meta o))));
  mret ((λ item, {| nn_Namespace := om_Namespace (rt_Meta item); nn_Name := om_Name (rt_Meta item) |}) <$> items).
End controller.
