(* ===== verification/RouterFacts.v ===== *)
(** Where the router's hash rings send the samples of a tenant, and every
    request reconciling a router may issue. *)
From stdpp Require Import base gmap strings list pretty sorting.
From Stdlib Require Import Ascii String.
From S2P Require Import Prelude GoStd K8s Api Objects Client Clients Base ClientFacts Workload Web WorkloadFacts Tenant TenantFacts Ingester Router.
Open Scope nat_scope.

(** How the receiver picks the ring of a tenant: the first that lists it or
    lists no tenant at all. *)
Definition hashring_for (tenant : string) (rings : list HashringConfig) : option HashringConfig :=
  find (λ h, bool_decide (hr_Tenants h = [] ∨ tenant ∈ hr_Tenants h)) rings.

Definition serves (tenant : string) (item : Ingester) : bool := bool_decide (tenant ∈ isp_Tenants (ig_Spec item)).
Definition dedicated (item : Ingester) : Prop := isp_Tenants (ig_Spec item) ≠ [].
Definition soft (item : Ingester) : Prop :=
  isp_Tenants (ig_Spec item) = [] ∧ label_is (om_Labels (ig_Meta item)) SoftTenantLabelKey "true" = true.

#[export] Instance dedicated_dec item : Decision (dedicated item).
Proof. unfold dedicated. apply _. Defined.
#[export] Instance soft_dec item : Decision (soft item).
Proof. unfold soft. apply _. Defined.

Section router_facts.
Context {W : Type} `{HK : Kube W} {HL : K8sLib} {HM : MapRange} {HB : BaseLib} {HW : WorkLib} {HE : WebLib} {HR : RouterLib}.

(** The hosts of an ingester's replicas, as counted with its service. *)
Definition hosts_of (item : Ingester) (hosts : list string) : Prop :=
  ∃ svc (w1 w2 : W) n, SetService (ig_Meta item) w1 = (Ok svc, w2)
    ∧ address_count svc item = Ok n ∧ hosts = pod_host item <$> seq 0 n.

Lemma Address_hosts item svc (w1 w2 : W) hosts :
  SetService (ig_Meta item) w1 = (Ok svc, w2) → Address svc item = Ok hosts → hosts_of item hosts.
Proof.
  unfold Address, addresses. intros Hs Ha. destruct (address_count svc item) as [n| |] eqn:E; [|done..].
  inversion Ha; subst. by exists svc, w1, w2, n.
Qed.

(** What one ingester adds to the rings and to the soft endpoints. *)
Lemma hashring_step_inv acc item (w w' : W) acc' :
  hashring_step acc item w = (Ok acc', w') →
  (∃ hosts, dedicated item ∧ hosts_of item hosts ∧ acc' = (acc.1 ++ [ring_of item hosts], acc.2))
  ∨ (∃ hosts, soft item ∧ hosts_of item hosts ∧ acc' = (acc.1, acc.2 ++ (endpoint_of <$> hosts)))
  ∨ (¬ dedicated item ∧ ¬ soft item ∧ acc' = acc).
Proof.
  unfold hashring_step, dedicated, soft. intros H.
  apply bind_Ok_inv in H as (svc & w1 & Hs & H).
  destruct (isp_Tenants (ig_Spec item)) eqn:Et.
  - destruct (label_is _ _ _) eqn:El.
    + apply bind_Ok_inv in H as (hosts & w2 & Ha & H). inversion Ha; subst. inversion H; subst.
      right. left. exists hosts. split; [done|]. split; [by eapply Address_hosts|done].
    + inversion H; subst. right. right. split; [by intros []|]. split; [by intros []|done].
  - apply bind_Ok_inv in H as (hosts & w2 & Ha & H). inversion Ha; subst. inversion H; subst.
    left. exists hosts. split; [done|]. split; [by eapply Address_hosts|done].
Qed.

(** What the loop collects from ingesters. *)
Definition collected (items : list Ingester) (acc : list HashringConfig * list Endpoint) : Prop :=
  Forall2 (λ i h, ∃ hosts, hosts_of i hosts ∧ h = ring_of i hosts)
    (filter dedicated items) acc.1
  ∧ ∃ hostss, Forall2 hosts_of (filter soft items) hostss ∧ acc.2 = endpoint_of <$> mjoin hostss.
Lemma collected_step items acc item (w w' : W) acc' :
  collected items acc → hashring_step acc item w = (Ok acc', w') → collected (items ++ [item]) acc'.
Proof.
  intros [Hd (hostss & Hs & He)] Hstep. unfold collected. rewrite !filter_app, !filter_cons, !filter_nil.
  destruct (hashring_step_inv _ _ _ _ _ Hstep)
    as [(hosts & Hi & Hh & ->)|[(hosts & Hi & Hh & ->)|(Hnd & Hns & ->)]]; cbn [fst snd].
  - rewrite decide_True by done. assert (¬ soft item) by (unfold soft, dedicated in *; tauto).
    rewrite (decide_False (P:=soft item)), app_nil_r by done. split; [|by exists hostss].
    apply Forall2_app; [done|]. constructor; [by exists hosts|done].
  - rewrite (decide_True (P:=soft item)) by done. assert (¬ dedicated item) by (unfold soft, dedicated in *; tauto).
    rewrite decide_False, app_nil_r by done. split; [done|]. exists (hostss ++ [hosts]). split.
    + apply Forall2_app; [done|]. by repeat constructor.
    + rewrite join_app, fmap_app, He. simpl. by rewrite app_nil_r.
  - rewrite !decide_False, !app_nil_r by done. split; [done|]. by exists hostss.
Qed.

Lemma collected_fold items rest acc (w w' : W) acc' :
  collected items acc → fold_each hashring_step acc rest w = (Ok acc', w') → collected (items ++ rest) acc'.
Proof.
  revert items acc w. induction rest as [|item rest IH]; intros items acc w Hc H; simpl in H.
  - inversion H; subst. by rewrite app_nil_r.
  - apply bind_Ok_inv in H as (acc1 & w1 & H1 & H2).
    replace (items ++ item :: rest) with ((items ++ [item]) ++ rest) by by rewrite <-(assoc_L (++)).
    eapply IH; [|exact H2]. by eapply collected_step.
Qed.

Lemma hashrings_collected items (w w' : W) rings :
  hashrings items w = (Ok rings, w') → ∃ acc, collected items acc ∧ rings = acc.1 ++ [soft_ring acc.2].
Proof.
  unfold hashrings. intros (acc & w1 & H & Hr)%bind_Ok_inv. inversion Hr; subst. exists acc.
  split; [|done]. apply (collected_fold [] items ([], []) w w' acc); [|done].
  split; [constructor|]. exists []. split; [constructor|done].
Qed.

(** The first ring of a tenant, among the rings of dedicated ingesters. *)
Lemma hashring_for_dedicated t items rings last :
  Forall2 (λ i h, ∃ hosts, hosts_of i hosts ∧ h = ring_of i hosts) (filter dedicated items) rings →
  hr_Tenants last = [] →
  match find (serves t) items with
  | Some i => ∃ hosts, hosts_of i hosts ∧ hashring_for t (rings ++ [last]) = Some (ring_of i hosts)
  | None => hashring_for t (rings ++ [last]) = Some last
  end.
Proof.
  intros Hf Hl. revert rings Hf. induction items as [|i items IH]; intros rings Hf.
  - inversion Hf; subst. unfold hashring_for. simpl. rewrite bool_decide_true by (by left). done.
  - rewrite filter_cons in Hf. cbn [find]. destruct (decide (dedicated i)) as [Hd|Hd].
    + apply Forall2_cons_inv_l in Hf as (h & rings' & Hi & Hf' & ->).
      destruct Hi as (hosts & Hh & ->).
      specialize (IH _ Hf'). unfold hashring_for in *. cbn [app find].
      assert (Heq : bool_decide (hr_Tenants (ring_of i hosts) = [] ∨ t ∈ hr_Tenants (ring_of i hosts))
                    = serves t i).
      { apply bool_decide_ext. unfold dedicated in Hd. simpl. tauto. }
      rewrite Heq. destruct (serves t i); [by exists hosts|]. exact IH.
    + unfold serves at 1. rewrite bool_decide_false; [by apply IH|]. unfold dedicated in Hd.
      intros Hin. apply Hd. intros E. by rewrite E in Hin; apply elem_of_nil in Hin.
Qed.

(** C14: the config map of the router sends every tenant to the ingester it was
    placed in: the first ring that lists a tenant, or lists none, is the ring of
    the first ingester of the service with that tenant, with one endpoint per
    replica of the ingester; the other tenants go to the soft ring, whose
    endpoints are those of the ingesters without tenants that are labelled for
    it. *)
Theorem tenant_routed_to_its_ingester svc r (w w' : W) o op :
  hashringsConfigMap svc r w = (Ok (Some (o, op)), w') →
  ∃ items w1 rings data hostss,
    List (A:=Ingester) (MatchingLabels (ManagedLabelByService (sv_Meta svc))) w = (Ok items, w1)
    ∧ hashrings items w1 = (Ok rings, w') ∧ json_Hashrings rings = inr data
    ∧ SetControllerReference (ORouter r) (OConfigMap {| cm_Meta := router_meta svc (router_name r ["hashrings-config"]);
        cm_Data := <[hashringsFile := data]> ∅ |}) = Ok o ∧ op = OperationCreateOrUpdate
    ∧ Forall2 hosts_of (filter soft items) hostss
    ∧ ∀ t, match find (serves t) items with
           | Some i => ∃ hosts, hosts_of i hosts ∧ hashring_for t rings = Some (ring_of i hosts)
           | None => hashring_for t rings = Some (soft_ring (endpoint_of <$> mjoin hostss))
           end.
Proof.
  unfold hashringsConfigMap. intros (items & w1 & Hl & H)%bind_Ok_inv.
  apply bind_Ok_inv in H as (rings & w2 & Hr & H).
  apply bind_Ok_inv in H as (data & w3 & Hj & H).
  unfold router_owned in H. apply bind_Ok_inv in H as (o' & w4 & Ho & H).
  inversion H; subst. inversion Ho as [[Ho' Hw]].
  destruct (json_Hashrings rings) as [e|d] eqn:Ej; [done|]. inversion Hj; subst.
  destruct (hashrings_collected _ _ _ _ Hr) as (acc & (Hd & hostss & Hs & He) & ->).
  exists items, w1, (acc.1 ++ [soft_ring acc.2]), data, hostss.
  do 6 (split; [done|]). intros t. rewrite <-He. by apply hashring_for_dedicated.
Qed.
End router_facts.

(** ** The requests of a reconciliation *)

Section requests.
Context {W : Type} `{HK : Kube W} {HL : K8sLib} {HM : MapRange} {HB : BaseLib} {HW : WorkLib} {HE : WebLib} {HR : RouterLib}.

Definition router_kind (k : Kind) : Prop := k ∈ [KConfigMap; KSecret; KDeployment; KCoreService].

(** What a router may request: reads, writes of its own resources, and the
    deletion of the secret [name]. *)
Definition router_request (c : Call) : Prop :=
  match c with
  | CGet _ _ => True
  | CList k _ => k = KIngester
  | CCreate o | CUpdate o => router_kind (obj_kind o)
  | CStatusUpdate _ => False
  | CDelete o => ∃ svc r, rsp_WebConfig (rt_Spec r) = None
      ∧ o = OSecret {| sec_Meta := router_meta svc (router_name r ["web-config"]); sec_Data := ∅; sec_StringData := ∅ |}
  end.

Lemma applies_router k c : of_kinds router_kind k → applies k c → router_request c.
Proof.
  unfold of_kinds. intros Hk [Hc|(sts & <- & ->)].
  - destruct c; simpl in *; try done; by subst.
  - unfold router_kind in Hk. exfalso. simpl in Hk. set_solver.
Qed.

Lemma effects_router_owned r o : router_kind (obj_kind o) →
  effects router_request (router_owned (W:=Logged W) r o) (yields router_request (of_kinds router_kind)).
Proof. intros Hk. by apply effects_owned. Qed.

Lemma effects_hashringsConfigMap svc r :
  effects router_request (hashringsConfigMap (W:=Logged W) svc r) (yields router_request (of_kinds router_kind)).
Proof.
  unfold hashringsConfigMap, hashrings. apply effects_step; [reads|]. intros items.
  apply effects_step; [apply effects_step; [|reads]|].
  { apply effects_fold_each; [done|]. intros acc item _ _. unfold hashring_step. reads. }
  intros rings. apply effects_step; [reads|]. intros data. apply effects_router_owned. decide_in.
Qed.

Lemma effects_webConfigSecret svc r :
  effects router_request (webConfigSecret (W:=Logged W) svc r) (yields router_request (of_kinds router_kind)).
Proof.
  unfold webConfigSecret. destruct (rsp_WebConfig (rt_Spec r)) as [wc|] eqn:E.
  - apply effects_step; [by apply effects_CreateWebConfig|]. intros body.
    apply effects_router_owned. decide_in.
  - apply effects_ret. intros o op [= <- <-]. split; [change (router_kind KSecret); decide_in|]. intros _. by exists svc, r.
Qed.

Lemma effects_router_deployment svc r :
  effects router_request (router_deployment (W:=Logged W) svc r) (yields router_request (of_kinds router_kind)).
Proof.
  unfold router_deployment. cbv zeta. apply effects_step.
  { pose proof effects_webConfigSecret. unfold router_annotations.
    destruct (rsp_WebConfig (rt_Spec r)); [|reads].
    apply effects_step; [by eapply effects_true|]. intros s. unfold config_hash. reads. }
  intros ann. apply effects_step; [reads|]. intros cs. apply effects_router_owned. decide_in.
Qed.

Lemma effects_router_Reconcile svc r : effects router_request (router_Reconcile (W:=Logged W) svc r) (λ _, True).
Proof.
  apply effects_for_each. intros res Hres.
  apply (effects_reconcile_resource _ (of_kinds router_kind)); [apply applies_router|].
  apply elem_of_cons in Hres as [->|Hres]; [apply effects_hashringsConfigMap|].
  apply elem_of_cons in Hres as [->|Hres]; [apply effects_webConfigSecret|].
  apply elem_of_cons in Hres as [->|Hres]; [apply effects_router_deployment|].
  apply list_elem_of_singleton in Hres as ->. apply effects_router_owned. decide_in.
Qed.

(** Whatever the API server answers, reconciling a router reads, lists the
    ingesters, creates and updates config maps, secrets, deployments and
    services, and deletes only the web configuration of a router that has
    none. *)
Theorem router_requests_confined (req : NamespacedName) (w : W) :
  Forall router_request (calls_from (RouterReconciler_Reconcile req) w).
Proof.
  apply (effects_calls _ _ (λ _, True)). unfold RouterReconciler_Reconcile.
  pose proof effects_router_Reconcile. reads.
Qed.
End requests.
