(* ===== verification/Store.v ===== *)
(** [pkg/controllers/resources/store] and
    [pkg/controllers/store_controller.go]: the partitions of a store, one
    stateful set and one service per time range, and the blocks a partition
    selects. *)
From stdpp Require Import base gmap strings list pretty sorting.
From Stdlib Require Import Ascii String.
From S2P Require Import Prelude GoStd K8s Api Objects Client Base Workload Tenant Ingester.

Class StoreLib := {
  (* mergo.Merge(&store.Spec, template) *)
  mergo_Merge_StoreSpec : StoreSpec → StoreSpec → GoError + StoreSpec;
}.

Section store.
Context {W : Type} `{!Kube W} `{!K8sLib} `{!MapRange} `{!BaseLib} `{!WorkLib}.
Variable r : Store.       (* r.store *)

(** ** store.go *)

Definition store_labels (partitionSn : nat) : StrMap :=
  <[LabelNameStorePartition := itoa (Z.of_nat partitionSn)]>
    (<[LabelNameAppManagedBy := om_Name (st_Meta r)]> (<[LabelNameAppName := AppNameStore]> BaseLabels)).
Definition store_name (suffix : list string) : string := QualifiedName AppNameStore (om_Name (st_Meta r)) suffix.
Definition partitionName (partitionSn : nat) (suffix : list string) : string :=
  match partitionSn with
  | O => store_name suffix
  | _ => store_name (["partition-" +:+ itoa (Z.of_nat partitionSn)] ++ suffix)
  end.
Definition store_OwnerReferences : list OwnerReference := [{|
  or_APIVersion := tm_APIVersion (st_Type r); or_Kind := tm_Kind (st_Type r);
  or_Name := om_Name (st_Meta r); or_UID := om_UID (st_Meta r); or_Controller := Some true |}].
Definition store_meta (name : string) (partitionSn : nat) : ObjectMeta := {|
  om_Name := name; om_GenerateName := ""; om_Namespace := om_Namespace (st_Meta r); om_UID := "";
  om_ResourceVersion := ""; om_Labels := store_labels partitionSn; om_Annotations := ∅; om_Finalizers := [];
  om_DeletionTimestamp := None; om_OwnerReferences := store_OwnerReferences |}.

Definition store_timeRanges : list TimeRange :=
  match ssp_TimeRanges (st_Spec r) with
  | [] => [{| tr_MinTime := ssp_MinTime (st_Spec r); tr_MaxTime := ssp_MaxTime (st_Spec r) |}]
  | l => l
  end.

Definition store_Endpoints : list string :=
  imap (λ i _,
    let partitionName :=
      match i with
      | O => join "-" [AppNameStore; om_Name (st_Meta r); ServiceNameSuffix]
      | _ => join "-" [AppNameStore; om_Name (st_Meta r); "partition"; itoa (Z.of_nat i); ServiceNameSuffix]
      end in
    "dnssrv+_grpc._tcp." +:+ partitionName +:+ "." +:+ om_Namespace (st_Meta r) +:+ ".svc") store_timeRanges.

Definition store_owned (o : Object) : M W (option (Object * Operation)) :=
  o ← lift_outcome (SetControllerReference (OStore r) o);
  mret (Some (o, OperationCreateOrUpdate)).

(** The objects of the store's namespace with its labels. *)
Definition managed_by_store : ListOptions :=
  InNamespaceMatching (om_Namespace (st_Meta r))
    (<[LabelNameAppManagedBy := om_Name (st_Meta r)]> (<[LabelNameAppName := AppNameStore]> BaseLabels)).

(** ** service.go *)

Definition store_port (name : string) (port : Z) : ServicePort :=
  {| sp_Protocol := "TCP"; sp_Name := name; sp_Port := port; sp_TargetPort := port; sp_NodePort := 0 |}.

Definition store_ports (ports : list ServicePort) : list ServicePort :=
  foldl (λ ps p, replace_or_append ps (λ q, String.eqb (sp_Name q) (sp_Name p)) p) ports
    [store_port GRPCPortName GRPCPort; store_port HTTPPortName HTTPPort].

Definition store_service (name : string) (partitionSn : nat) : ResourceFn W :=
  let fresh := {| svc_Meta := store_meta name partitionSn; svc_Type := ""; svc_Selector := ∅; svc_Ports := [];
                  svc_IPFamilies := []; svc_IPFamilyPolicy := ""; svc_ClusterIP := ""; svc_ClusterIPs := [] |} in
  s ← get_or fresh (svc_Meta fresh);
  store_owned (OCoreService {|
    svc_Meta := svc_Meta s; svc_Type := "ClusterIP"; svc_Selector := store_labels partitionSn;
    svc_Ports := store_ports (svc_Ports s); svc_IPFamilies := svc_IPFamilies s;
    svc_IPFamilyPolicy := svc_IPFamilyPolicy s; svc_ClusterIP := svc_ClusterIP s; svc_ClusterIPs := svc_ClusterIPs s |}).

(** A list with one resource, the error. *)
Definition store_errResourcesFunc (err : GoError) : list (ResourceFn W) := [fail err].

Definition store_services : M W (list (ResourceFn W)) :=
  let expected := imap (λ i _, partitionName i [ServiceNameSuffix]) store_timeRanges in
  items ← attempt (List (A:=CoreService) managed_by_store);
  match items with
  | inl err => mret (store_errResourcesFunc err)
  | inr items =>
      mret (imap (λ i name, store_service name i) expected
        ++ ((λ svc, mret (Some (OCoreService svc, OperationDelete))) <$>
             filter (λ svc, om_Name (svc_Meta svc) ∉ expected) items))
  end.

(** ** statefulset.go *)

Definition mainContainerName : string := "store".
Definition store_unsupportedArgs : list string := ["--http-address"; "--grpc-address"].

(** The tenants of a list that are not being deleted. *)
Definition selected_tenants (items : list Tenant) : list string :=
  (λ item, tsp_Tenant (tn_Spec item)) <$> filter (λ item : Tenant, om_DeletionTimestamp (tn_Meta item) = None) items.

Definition store_label (k : string) : string := map_get (om_Labels (st_Meta r)) k.

Definition tenants_labelled (storage : string) : M W (list Tenant) :=
  List (A:=Tenant) (MatchingLabels (<[StorageLabelKey := storage]> (<[ServiceLabelKey := store_label ServiceLabelKey]> ∅))).

(** The tenants of the default storage, when it is this store's. *)
Definition default_storage_tenants (svc : Service) : M W (list Tenant) :=
  match sv_Storage (sv_Spec svc) with
  | Some ref =>
      if label_is (om_Labels (st_Meta r)) StorageLabelKey (dotted (ref_Namespace ref) (ref_Name ref))
      then tenants_labelled DefaultStorage else mret []
  | None => mret []
  end.

Definition createRelabelConfig : M W string :=
  key ← split_key (store_label ServiceLabelKey);
  svc ← Get (A:=Service) key;
  let label := or_default (sv_TenantLabelName (sv_Spec svc)) DefaultTenantLabelName in
  defaults ← default_storage_tenants svc;
  own ← tenants_labelled (store_label StorageLabelKey);
  lift_sum (CreateKeepTenantsRelabelConfig label (sort_strings (selected_tenants defaults ++ selected_tenants own))).

Definition store_base_args (storageConfig relabelConfig : string) (timeRange : TimeRange) : list string :=
  let common := ssp_Common (st_Spec r) in
  ["store"; "--data-dir=" +:+ StorageDir; "--objstore.config=" +:+ storageConfig;
   "--selector.relabel-config=" +:+ relabelConfig]
  ++ (match ssp_IndexCacheConfig (st_Spec r) with
      | Some {| ic_InMemoryMaxSize := Some size |} => opt_arg "--index-cache-size=" size
      | _ => [] end)
  ++ opt_arg "--log.level=" (LogLevel common) ++ opt_arg "--log.format=" (LogFormat common)
  ++ opt_arg "--min-time=" (tr_MinTime timeRange) ++ opt_arg "--max-time=" (tr_MaxTime timeRange).

Definition store_megerArgs (timeRange : TimeRange) : M W (list string) :=
  storageConfig ← GetStorageConfig (store_label StorageLabelKey);
  relabelConfig ← createRelabelConfig;
  mret (sort_tail (add_flags store_unsupportedArgs []
    (store_base_args storageConfig relabelConfig timeRange) (Flags (ssp_Common (st_Spec r))))).

Definition fresh_store_container : Container := {|
  c_Name := mainContainerName; c_Image := ""; c_ImagePullPolicy := ""; c_Command := []; c_Args := [];
  c_Resources := emptyResources;
  c_Ports := [container_port GRPCPortName GRPCPort; container_port HTTPPortName HTTPPort];
  c_Env := []; c_VolumeMounts := []; c_LivenessProbe := None; c_ReadinessProbe := None |}.

(** The container as it is configured but for its mounts. *)
Definition store_container (c : Container) (mounts : list VolumeMount) (storageHash tenantHash : string)
    (args : list string) : Container :=
  let common := ssp_Common (st_Spec r) in {|
  c_Name := c_Name c; c_Image := Image common; c_ImagePullPolicy := ImagePullPolicy common;
  c_Command := c_Command c; c_Args := args; c_Resources := Resources common; c_Ports := c_Ports c;
  c_Env := set_env TenantHash tenantHash (set_env StorageHash storageHash (c_Env c));
  c_VolumeMounts := mounts;
  c_LivenessProbe := match c_LivenessProbe c with None => Some DefaultLivenessProbe | p => p end;
  c_ReadinessProbe := match c_ReadinessProbe c with None => Some DefaultReadinessProbe | p => p end |}.

(** The stateful set before its containers: what is copied over the existing one. *)
Definition store_sts (partitionSn : nat) (sts : StatefulSet) : StatefulSet :=
  let common := ssp_Common (st_Spec r) in
  let t := sts_Template sts in
  let p := pt_Spec t in {|
  sts_Meta := sts_Meta sts;
  sts_Replicas := match sts_Replicas sts with
                  | None | Some 0%Z => Replicas common
                  | n => n end;
  sts_Selector := store_labels partitionSn; sts_ServiceName := sts_ServiceName sts;
  sts_Template := {| pt_Labels := store_labels partitionSn; pt_Annotations := pt_Annotations t;
    pt_Spec := {| ps_NodeSelector := NodeSelector common; ps_Tolerations := Tolerations common;
      ps_Affinity := Affinity common; ps_SecurityContext := SecurityContext common;
      ps_ImagePullSecrets := match ImagePullSecrets common with [] => ps_ImagePullSecrets p | l => l end;
      ps_ServiceAccountName := ps_ServiceAccountName p;
      ps_TerminationGracePeriodSeconds := ps_TerminationGracePeriodSeconds p;
      ps_Volumes := []; ps_InitContainers := ps_InitContainers p; ps_Containers := ps_Containers p |} |};
  sts_VolumeClaimTemplates := []; sts_PVCRetentionPolicy := sts_PVCRetentionPolicy sts |}.

(** The main container is edited where it is, or appended. *)
Definition store_statefulSet (name : string) (partitionSn : nat) (timeRange : TimeRange) : ResourceFn W :=
  let m := store_meta name partitionSn in
  sts ← get_or (empty_sts m) m;
  let sts := store_sts partitionSn sts in
  let containers := ps_Containers (pt_Spec (sts_Template sts)) in
  let i := main_container mainContainerName containers in
  let container := default fresh_store_container (i ← i; containers !! i) in
  let '(sts, mounted, _) := AddTSDBVolume sts (no_mounts container) (ssp_DataVolume (st_Spec r)) in
  vols ← VolumesAndVolumeMountsForStorage (store_label StorageLabelKey);
  storageHash ← GetStorageHash (store_label StorageLabelKey);
  tenantHash ← GetTenantHash (<[StorageLabelKey := store_label StorageLabelKey]>
                                (<[ServiceLabelKey := store_label ServiceLabelKey]> ∅));
  args ← store_megerArgs timeRange;
  let container := store_container container (c_VolumeMounts mounted ++ vols.2) storageHash tenantHash args in
  containers ← patch_containers (Containers (ssp_Common (st_Spec r)))
    (match i with Some i => <[i := container]> containers | None => containers ++ [container] end);
  store_owned (OStatefulSet (put_containers containers (add_volumes vols.1 sts))).

Definition store_statefulSets : M W (list (ResourceFn W)) :=
  let expected := imap (λ i tr, (partitionName i [], tr)) store_timeRanges in
  items ← attempt (List (A:=StatefulSet) managed_by_store);
  match items with
  | inl err => mret (store_errResourcesFunc err)
  | inr items =>
      mret (imap (λ i nt, store_statefulSet nt.1 i nt.2) expected
        ++ ((λ sts, mret (Some (OStatefulSet sts, OperationDelete))) <$>
             filter (λ sts, om_Name (sts_Meta sts) ∉ expected.*1) items))
  end.

Definition store_Reconcile : M W unit :=
  statefulSets ← store_statefulSets;
  services ← store_services;
  ReconcileResources (statefulSets ++ services).
End store.

(** ** pkg/controllers/store_controller.go *)

Section controller.
Context {W : Type} `{!Kube W} `{!K8sLib} `{!MapRange} `{!BaseLib} `{!WorkLib} `{!StoreLib}.

Definition applyConfigurationFromStoreTemplateSpec (store : Store) (template : StoreSpec) : GoError + Store :=
  match mergo_Merge_StoreSpec (st_Spec store) template with
  | inl err => inl err
  | inr spec => inr {| st_Type := st_Type store; st_Meta := st_Meta store; st_Spec := spec |}
  end.

Definition StoreReconciler_Reconcile (req : NamespacedName) : M W unit :=
  r ← attempt (Get (A:=Store) req);
  match r with
  | inl err => if apierrors_IsNotFound err then mret tt else fail err
  | inr instance =>
      if String.eqb (map_get (om_Labels (st_Meta instance)) ServiceLabelKey) ""
         || String.eqb (map_get (om_Labels (st_Meta instance)) StorageLabelKey) "" then mret tt
      else
        key ← of_option "nil pointer dereference" (ServiceNamespacedName (st_Meta instance));
        service ← Get (A:=Service) key;
        instance ← lift_sum (applyConfigurationFromStoreTemplateSpec instance
                     (StoreTemplateSpec (sv_Spec (ApplyDefaults service))));
        store_Reconcile instance
  end.

Definition store_mapFuncBySelectorFunc (fn : ObjectMeta → StrMap) (o : Object) : M W (list NamespacedName) :=
  items ← or_nil (List (A:=Store) (MatchingLabels (fn (obj_meta o))));
  mret ((λ item, {| nn_Namespace := om_Namespace (st_Meta item); nn_Name := om_Name (st_Meta item) |}) <$> items).
End controller.
