(* ===== verification/StoreFacts.v ===== *)
(** What a store guarantees: its endpoints are the services of its partitions,
    its partitions select the blocks of the tenants in use, and every request
    reconciling a store may issue. *)
From stdpp Require Import base gmap strings list pretty sorting.
From Stdlib Require Import Ascii String.
From S2P Require Import Prelude GoStd K8s Api Objects Client Clients Base ClientFacts Workload Web WorkloadFacts Tenant TenantFacts Ingester Store.
Open Scope nat_scope.

(** ** Partitions *)

Section names.
Variable r : Store.

Definition partition_names (suffix : list string) : list string :=
  imap (λ i _, partitionName r i suffix) (store_timeRanges r).

(** What follows the name of the store. *)
Definition partition_tail (i : nat) (suffix : list string) : string :=
  (match i with O => "" | _ => "-partition-" +:+ itoa (Z.of_nat i) end)
  +:+ (match suffix with [] => "" | _ => "-" +:+ join "-" suffix end).

Lemma partitionName_tail i suffix :
  partitionName r i suffix = AppNameStore +:+ "-" +:+ om_Name (st_Meta r) +:+ partition_tail i suffix.
Proof.
  unfold partition_tail. destruct i as [|i], suffix as [|x suffix];
    unfold partitionName, store_name, QualifiedName; cbn [app]; rewrite ?append_assoc; try done.
  - change ("" +:+ "") with "". by rewrite append_nil_r.
  - by rewrite append_nil_r.
Qed.

Lemma partition_tail_inj suffix : Inj (=) (=) (λ i, partition_tail i suffix).
Proof.
  intros i j. unfold partition_tail. intros H%append_inj_r.
  destruct i as [|i], j as [|j]; [done|..]; [discriminate H|discriminate H|].
  apply append_inj_l, itoa_inj in H. lia.
Qed.

Lemma partition_names_NoDup suffix : NoDup (partition_names suffix).
Proof.
  apply NoDup_alt. intros i j n Hi Hj. unfold partition_names in *.
  rewrite list_lookup_imap in Hi, Hj.
  destruct (store_timeRanges r !! i); [|done]. destruct (store_timeRanges r !! j); [|done].
  simpl in *. assert (H : partitionName r i suffix = partitionName r j suffix) by congruence.
  rewrite !partitionName_tail in H.
  by apply append_inj_l, append_inj_l, append_inj_l, partition_tail_inj in H.
Qed.

(** The endpoints a store announces are, in order, the host names of the
    services its reconciliation creates, one per time range and at least one,
    no two alike; the stateful sets of the partitions have distinct names
    too. *)
Theorem store_endpoints_are_services :
  store_Endpoints r = (λ n, "dnssrv+_grpc._tcp." +:+ n +:+ "." +:+ om_Namespace (st_Meta r) +:+ ".svc")
                        <$> partition_names [ServiceNameSuffix]
  ∧ NoDup (store_Endpoints r) ∧ NoDup (partition_names [])
  ∧ length (store_Endpoints r) = Nat.max 1 (length (ssp_TimeRanges (st_Spec r))).
Proof.
  assert (Heq : store_Endpoints r = (λ n, "dnssrv+_grpc._tcp." +:+ n +:+ "." +:+ om_Namespace (st_Meta r) +:+ ".svc")
                        <$> partition_names [ServiceNameSuffix]).
  { unfold store_Endpoints, partition_names. rewrite fmap_imap. apply imap_ext. intros i tr _. simpl.
    rewrite partitionName_tail. by destruct i. }
  split; [done|]. split; [|split; [apply partition_names_NoDup|]].
  - rewrite Heq. apply NoDup_fmap_2; [|apply partition_names_NoDup].
    intros a b H. apply append_inj_l in H. by apply append_inj_r in H.
  - unfold store_Endpoints. rewrite length_imap. unfold store_timeRanges.
    destruct (ssp_TimeRanges (st_Spec r)); simpl; lia.
Qed.
End names.

(** ** The blocks a partition selects *)

Lemma join_app_head sep a b l : join sep ((a +:+ b) :: l) = a +:+ join sep (b :: l).
Proof. destruct l as [|c l]; [done|]. unfold join. cbn [String.concat]. by rewrite !append_assoc. Qed.

(** The regular expression is the alternation of the anchored names. *)
Lemma keep_regex_join L : keep_regex L = join "|" ((λ t, "^" +:+ t +:+ "$") <$> L).
Proof.
  assert (H : ∀ acc l, foldl (λ regex tenant, regex +:+ "|^" +:+ tenant +:+ "$") acc l
                = join "|" (acc :: ((λ t, "^" +:+ t +:+ "$") <$> l))).
  { intros acc l. revert acc. induction l as [|x l IH]; intros acc; [done|].
    cbn [foldl]. rewrite IH. rewrite fmap_cons.
    change ("|^" +:+ x +:+ "$") with ("|" +:+ ("^" +:+ x +:+ "$")).
    generalize ("^" +:+ x +:+ "$"). intros g. rewrite join_app_head.
    unfold join. cbn [String.concat]. f_equal. apply join_app_head. }
  unfold keep_regex. rewrite H. destruct L as [|x L]; [done|].
  rewrite fmap_cons. change (join "|" ("" :: ?a :: ?l)) with ("|" +:+ join "|" (a :: l)).
  apply trim_prefix_app.
Qed.

Section selection.
Context {W : Type} `{HK : Kube W} {HL : K8sLib} {HM : MapRange} {HB : BaseLib} {HW : WorkLib}.
Variable r : Store.

Lemma selected_spec items id :
  id ∈ selected_tenants items ↔ ∃ t, t ∈ items ∧ om_DeletionTimestamp (tn_Meta t) = None ∧ tsp_Tenant (tn_Spec t) = id.
Proof.
  unfold selected_tenants. rewrite list_elem_of_fmap. setoid_rewrite list_elem_of_filter. naive_solver.
Qed.

Lemma split_key_inv s (w w' : W) key : split_key s w = (Ok key, w') →
  w' = w ∧ ∃ ns name rest, split_on "."%char s = ns :: name :: rest ∧ key = {| nn_Namespace := ns; nn_Name := name |}.
Proof.
  unfold split_key. cbv zeta. destruct (split_on _ s) as [|ns [|name rest]]; [done|done|].
  intros H. inversion H; subst. split; [done|]. by exists ns, name, rest.
Qed.

Section cached.
(** The client answers from a cache: a list is the objects it holds that match,
    and reading changes nothing. *)
Context (objs : W → list Object).
Context (Hlist : ∀ k opts w, kube_list k opts w = (Ok (filter (λ o, mem_matches k opts o = true) (objs w)), w)).
Context (Hget : ∀ k key, keeps (kube_get (W:=W) k key)).

Lemma tenants_labelled_spec storage w w' items :
  tenants_labelled r storage w = (Ok items, w') →
  w' = w ∧ ∀ t, t ∈ items ↔ OTenant t ∈ objs w ∧ om_Labels (tn_Meta t) !! StorageLabelKey = Some storage
    ∧ om_Labels (tn_Meta t) !! ServiceLabelKey = Some (store_label r ServiceLabelKey).
Proof.
  unfold tenants_labelled, List. intros H. rewrite (bind_step _ _ _ _ _ (Hlist _ _ w)) in H. inversion H; subst.
  split; [done|]. intros t. rewrite list_elem_of_omap.
  assert (Hm : mem_matches KTenant (MatchingLabels (<[StorageLabelKey := storage]>
      (<[ServiceLabelKey := store_label r ServiceLabelKey]> ∅))) (OTenant t) = true
    ↔ om_Labels (tn_Meta t) !! StorageLabelKey = Some storage
      ∧ om_Labels (tn_Meta t) !! ServiceLabelKey = Some (store_label r ServiceLabelKey)).
  { unfold mem_matches. rewrite bool_decide_true by done. cbn [lo_Namespace MatchingLabels lo_Selector andb].
    rewrite SelectorFromSet_spec. unfold obj_Labels. cbn [obj_meta]. split.
    - intros Hs. split; apply Hs; [by rewrite lookup_insert_eq|]. rewrite lookup_insert_ne by done. by rewrite lookup_insert_eq.
    - intros [H1 H2] k v [[<- <-]|[_ [[<- <-]|[_ Hk]]%lookup_insert_Some]]%lookup_insert_Some; [done|done|].
      by apply lookup_empty_Some in Hk. }
  split.
  - intros (o & [Ho Hin]%list_elem_of_filter & Hr). destruct o; try done. simpl in Hr. inversion Hr; subst. by rewrite <-Hm.
  - intros (Hin & Hl). exists (OTenant t). split; [|done]. apply list_elem_of_filter. by rewrite Hm.
Qed.

Lemma default_tenants_spec svc w w' items :
  default_storage_tenants r svc w = (Ok items, w') →
  w' = w ∧ ∀ t, t ∈ items ↔ OTenant t ∈ objs w ∧ om_Labels (tn_Meta t) !! StorageLabelKey = Some DefaultStorage
    ∧ om_Labels (tn_Meta t) !! ServiceLabelKey = Some (store_label r ServiceLabelKey)
    ∧ ∃ ref, sv_Storage (sv_Spec svc) = Some ref
        ∧ om_Labels (st_Meta r) !! StorageLabelKey = Some (ref_Namespace ref +:+ "." +:+ ref_Name ref).
Proof.
  unfold default_storage_tenants. destruct (sv_Storage (sv_Spec svc)) as [ref|].
  - destruct (label_is _ _ _) eqn:El; intros H.
    + apply label_is_spec in El. apply tenants_labelled_spec in H as [-> H]. split; [done|]. intros t. rewrite H.
      split; [intros (? & ? & ?); split_and!; [done..|by exists ref]|intros (? & ? & ? & _); by split_and!].
    + inversion H; subst. split; [done|]. intros t. split; [by intros ?%elem_of_nil|].
      intros (_ & _ & _ & ref' & [= <-] & E). apply label_is_spec in E. unfold dotted in El. congruence.
  - intros H. inversion H; subst. split; [done|]. intros t. split; [by intros ?%elem_of_nil|]. by intros (_ & _ & _ & ? & ? & _).
Qed.

End cached.
End selection.

(** ** The requests of a reconciliation *)

Section requests.
Context {W : Type} `{HK : Kube W} {HL : K8sLib} {HM : MapRange} {HB : BaseLib} {HW : WorkLib}.
Variable r : Store.

Definition store_kind (k : Kind) : Prop := k = KStatefulSet ∨ k = KCoreService.

(** Reads, writes of stateful sets and services, and no deletion of the service
    of a partition. *)
Definition store_request (c : Call) : Prop :=
  match c with
  | CGet _ _ => True
  | CList k _ => store_kind k ∨ k = KTenant
  | CCreate o | CUpdate o => store_kind (obj_kind o)
  | CDelete (OCoreService s) => om_Name (svc_Meta s) ∉ partition_names r [ServiceNameSuffix]
  | CDelete o => obj_kind o = KStatefulSet
  | CStatusUpdate _ => False
  end.

Lemma applies_store k c : of_kinds store_kind k → applies k c → store_request c.
Proof.
  unfold of_kinds. intros Hk [Hc|(sts & _ & ->)]; [|done]. destruct c; simpl in *; try done; by subst.
Qed.

Lemma effects_store_owned o : store_kind (obj_kind o) →
  effects store_request (store_owned (W:=Logged W) r o) (yields store_request (of_kinds store_kind)).
Proof. intros Hk. by apply effects_owned. Qed.

Lemma effects_tenants_labelled s : effects store_request (tenants_labelled (W:=Logged W) r s) (λ _, True).
Proof. apply effects_List. by right. Qed.

Lemma effects_store_megerArgs tr : effects store_request (store_megerArgs (W:=Logged W) r tr) (λ _, True).
Proof.
  pose proof effects_tenants_labelled.
  unfold store_megerArgs, createRelabelConfig, default_storage_tenants. reads.
Qed.

Lemma effects_hashes s sel :
  effects store_request (GetStorageHash (W:=Logged W) s) (λ _, True)
  ∧ effects store_request (GetTenantHash (W:=Logged W) sel) (λ _, True).
Proof.
  split; [unfold GetStorageHash; reads|]. unfold GetTenantHash.
  apply effects_step; [apply effects_List; by right|reads].
Qed.

Lemma effects_store_statefulSet name sn tr :
  effects store_request (store_statefulSet (W:=Logged W) r name sn tr) (yields store_request (of_kinds store_kind)).
Proof.
  unfold store_statefulSet. cbv zeta. apply effects_step; [by apply effects_get_or|]. intros sts.
  destruct (AddTSDBVolume _ _ _) as [[sts' mounted] dv].
  apply effects_step; [reads|]. intros vols. apply effects_step; [apply (effects_hashes _ ∅)|]. intros sh.
  apply effects_step; [apply (effects_hashes "")|]. intros th.
  apply effects_step; [apply effects_store_megerArgs|]. intros args.
  apply effects_step; [reads|]. intros cs. apply effects_store_owned. by left.
Qed.

Lemma effects_store_service name sn :
  effects store_request (store_service (W:=Logged W) r name sn) (yields store_request (of_kinds store_kind)).
Proof.
  unfold store_service. cbv zeta. apply effects_step; [by apply effects_get_or|]. intros s.
  apply effects_store_owned. by right.
Qed.

(** The resources of a list, built without a write. *)
Definition all_yield (l : list (ResourceFn (Logged W))) : Prop :=
  Forall (λ res, effects store_request res (yields store_request (of_kinds store_kind))) l.

Lemma all_yield_imap {A} (f : nat → A → ResourceFn (Logged W)) l :
  (∀ i x, effects store_request (f i x) (yields store_request (of_kinds store_kind))) → all_yield (imap f l).
Proof. intros Hf. apply Forall_lookup. intros i res. rewrite list_lookup_imap_Some. naive_solver. Qed.

Lemma effects_store_statefulSets : effects store_request (store_statefulSets (W:=Logged W) r) all_yield.
Proof.
  unfold store_statefulSets. cbv zeta.
  apply effects_step; [eapply effects_true, effects_attempt, effects_List; left; by left|].
  intros [err|items]; apply effects_ret.
  - constructor; [apply effects_fail|done].
  - apply Forall_app. split; [apply all_yield_imap; intros i [n tr]; apply effects_store_statefulSet|].
    apply list.Forall_fmap, list.Forall_forall. intros sts _. apply effects_ret.
    intros o op [= <- <-]. split; [by left|done].
Qed.

Lemma effects_store_services : effects store_request (store_services (W:=Logged W) r) all_yield.
Proof.
  unfold store_services. cbv zeta.
  apply effects_step; [eapply effects_true, effects_attempt, effects_List; left; by right|].
  intros [err|items]; apply effects_ret.
  - constructor; [apply effects_fail|done].
  - apply Forall_app. split; [apply all_yield_imap; intros i n; apply effects_store_service|].
    apply list.Forall_fmap, list.Forall_forall. intros svc [Hn _]%list_elem_of_filter. apply effects_ret.
    intros o op [= <- <-]. split; [by right|]. intros _. exact Hn.
Qed.

Lemma effects_store_Reconcile : effects store_request (store_Reconcile (W:=Logged W) r) (λ _, True).
Proof.
  unfold store_Reconcile.
  eapply effects_bind; [apply effects_store_statefulSets|]. intros l1 H1.
  eapply effects_bind; [apply effects_store_services|]. intros l2 H2.
  apply effects_for_each. intros res Hres.
  apply (effects_reconcile_resource _ (of_kinds store_kind)); [apply applies_store|].
  assert (H : all_yield (l1 ++ l2)) by by apply Forall_app.
  unfold all_yield in H. rewrite list.Forall_forall in H. by apply H.
Qed.

(** Whatever the API server answers, reconciling a store reads, lists its
    tenants and its own workload, and creates, updates and deletes only stateful
    sets and services; the service of a partition is never deleted. *)
Theorem store_requests_confined (w : W) : Forall store_request (calls_from (store_Reconcile r) w).
Proof. apply (effects_calls _ _ (λ _, True)), effects_store_Reconcile. Qed.
End requests.

(** ** The hash of the storage *)

Section hashes.
Context {W : Type} `{HK : Kube W} {HL : K8sLib} {HM : MapRange} {HB : BaseLib} {HW : WorkLib}.
Context (Hget : ∀ k key, keeps (kube_get (W:=W) k key)).

(** The hash in the pods is the one the storage has in the world they are built
    in. *)
Lemma store_carries_hash r name sn tr (w w' : W) o op :
  Containers (ssp_Common (st_Spec r)) = "" → store_statefulSet r name sn tr w = (Ok (Some (o, op)), w') →
  ∃ h w1, GetStorageHash (store_label r StorageLabelKey) w = (Ok h, w1) ∧ hash_in_pods h o.
Proof.
  intros Hraw H. unfold store_statefulSet in H. cbv zeta in H.
  apply bind_Ok_inv in H as (sts0 & w1 & Hg & H). apply (keeps_get_or Hget) in Hg as ->.
  destruct (AddTSDBVolume _ _ _) as [[sts mounted] dv].
  apply bind_Ok_inv in H as (vols & w2 & Hv & H). apply (keeps_VolumesForStorage Hget) in Hv as ->. apply bind_Ok_inv in H as (h & w3 & Hh & H).
  apply bind_Ok_inv in H as (th & w4 & _ & H). apply bind_Ok_inv in H as (args & w5 & _ & H).
  apply bind_Ok_inv in H as (cs & w6 & Hcs & H).
  unfold patch_containers in Hcs. rewrite Hraw in Hcs. inversion Hcs; subst. clear Hcs.
  unfold store_owned in H. apply bind_Ok_inv in H as (o' & w7 & Ho & H). inversion H; subst.
  unfold lift_outcome in Ho. inversion Ho as [[Ho' Hw]]. apply SetControllerReference_refs in Ho' as [refs ->].
  exists h, w3. split; [exact Hh|]. eexists _, _. split; [reflexivity|]. split.
  - apply (main_container_in mainContainerName).
  - cbn [c_Env store_container]. apply set_env_other; [done|]. apply set_env_elem.
Qed.
End hashes.

(** ** A tenant that is missed *)

(** A tenant without a storage label uses the default storage, and its
    ingester writes there; the store of that storage selects only the tenants
    that carry the label, and leaves its blocks out. *)
Theorem unlabelled_storage_not_selected :
  let labels := <[StorageLabelKey := "kube.s3"]> (<[ServiceLabelKey := "kube.whizard"]> ∅) in
  let store := new_store (new_meta "whizard-s3" "" "kube" labels ∅) in
  let bare := Cluster.tenant "t1" "t1" "kube.whizard" [] None in
  let plain := Cluster.tenant "t2" "t2" "kube.whizard" [] None in
  let labelled := set_tn_Meta (set_om_Labels (<[StorageLabelKey := DefaultStorage]> (om_Labels (tn_Meta plain)))
                                 (tn_Meta plain)) plain in
  storage_of (Some Cluster.whizard) bare = "kube.s3" ∧ storage_of (Some Cluster.whizard) labelled = "kube.s3"
  ∧ (createRelabelConfig store (mem_of [OService Cluster.whizard; OTenant bare; OTenant labelled])).1 = Ok "^t2$".
Proof. vm_compute. done. Qed.
