(* ===== verification/Compactor.v ===== *)
(** [pkg/controllers/resources/compactor] and
    [pkg/controllers/compactor_controller.go]: the stateful set that compacts
    the blocks of a group of tenants, and what the controller does when the
    compactor is deleted. *)
From stdpp Require Import base gmap strings list pretty sorting.
From Stdlib Require Import Ascii String.
From S2P Require Import Prelude GoStd K8s Api Objects Client Base Workload Tenant Ingester.

Class CompactorLib := {
  (* mergo.Merge(&compactor.Spec, template) *)
  mergo_Merge_CompactorSpec : CompactorSpec → CompactorSpec → GoError + CompactorSpec;
}.

Section compactor.
Context {W : Type} `{!Kube W} `{!K8sLib} `{!MapRange} `{!BaseLib} `{!WorkLib}.
Variable r : Compactor.       (* r.compactor *)

(** ** compactor.go *)

Definition compactor_labels : StrMap :=
  <[LabelNameAppManagedBy := om_Name (cmp_Meta r)]> (<[LabelNameAppName := AppNameCompactor]> BaseLabels).
Definition compactor_name (suffix : list string) : string :=
  QualifiedName AppNameCompactor (om_Name (cmp_Meta r)) suffix.
Definition compactor_OwnerReferences : list OwnerReference := [{|
  or_APIVersion := tm_APIVersion (cmp_Type r); or_Kind := tm_Kind (cmp_Type r);
  or_Name := om_Name (cmp_Meta r); or_UID := om_UID (cmp_Meta r); or_Controller := Some true |}].
Definition compactor_meta (name : string) : ObjectMeta := {|
  om_Name := name; om_GenerateName := ""; om_Namespace := om_Namespace (cmp_Meta r); om_UID := "";
  om_ResourceVersion := ""; om_Labels := compactor_labels; om_Annotations := ∅; om_Finalizers := [];
  om_DeletionTimestamp := None; om_OwnerReferences := compactor_OwnerReferences |}.

(** ** statefulset.go *)

Definition compactorContainerName : string := "compactor".
Definition compactInterval : string := "1h".
Definition compactor_repeatableArgs : list string := ["--deduplication.replica-label"].
Definition compactor_unsupportedArgs : list string :=
  ["--http-address"; "--retention.resolution-raw"; "--retention.resolution-5m"; "--retention.resolution-1h"].

Definition compactor_label (k : string) : string := map_get (om_Labels (cmp_Meta r)) k.

(** The same relabelling as [util.CreateKeepTenantsRelabelConfig], of the
    compactor's tenants. *)
Definition compactor_createRelabelConfig : M W string :=
  key ← split_key (compactor_label ServiceLabelKey);
  svc ← Get (A:=Service) key;
  let label := or_default (sv_TenantLabelName (sv_Spec svc)) DefaultTenantLabelName in
  lift_sum (yaml_Marshal_relabel [("keep", [label], keep_regex (csp_Tenants (cmp_Spec r)))]).

Definition retention_args : list string :=
  match csp_Retention (cmp_Spec r) with
  | None => []
  | Some retention =>
      opt_arg "--retention.resolution-raw=" (RetentionRaw retention)
      ++ opt_arg "--retention.resolution-5m=" (Retention5m retention)
      ++ opt_arg "--retention.resolution-1h=" (Retention1h retention)
  end.

Definition compactor_base_args (storageConfig rc : string) : list string :=
  let common := csp_Common (cmp_Spec r) in
  ["compact"; "--wait"; "--data-dir=" +:+ StorageDir; "--objstore.config=" +:+ storageConfig;
   "--selector.relabel-config=" +:+ rc;
   "--deduplication.replica-label=" +:+ ReceiveReplicaLabelName;
   "--deduplication.replica-label=" +:+ RulerReplicaLabelName;
   "--block-viewer.global.sync-block-interval=" +:+ compactInterval;
   "--wait-interval=" +:+ compactInterval;
   "--compact.cleanup-interval=0s"; "--compact.progress-interval=0s"]
  ++ opt_arg "--log.level=" (LogLevel common) ++ opt_arg "--log.format=" (LogFormat common)
  ++ (match csp_DisableDownsampling (cmp_Spec r) with Some true => ["--downsampling.disable"] | _ => [] end)
  ++ retention_args.

Definition compactor_args (storageConfig rc : string) : list string :=
  sort_tail (add_flags compactor_unsupportedArgs compactor_repeatableArgs
    (compactor_base_args storageConfig rc) (Flags (csp_Common (cmp_Spec r)))).

Definition compactor_megerArgs : M W (list string) :=
  storageConfig ← GetStorageConfig (compactor_label StorageLabelKey);
  rc ← compactor_createRelabelConfig;
  mret (compactor_args storageConfig rc).

Definition fresh_compactor_container : Container := {|
  c_Name := compactorContainerName; c_Image := ""; c_ImagePullPolicy := ""; c_Command := []; c_Args := [];
  c_Resources := Resources (csp_Common (cmp_Spec r)); c_Ports := [container_port HTTPPortName HTTPPort];
  c_Env := []; c_VolumeMounts := []; c_LivenessProbe := None; c_ReadinessProbe := None |}.

(** The container as it is configured but for its mounts. *)
Definition compactor_container (c : Container) (mounts : list VolumeMount) (hashCode : string)
    (args : list string) : Container :=
  let common := csp_Common (cmp_Spec r) in {|
  c_Name := c_Name c; c_Image := Image common; c_ImagePullPolicy := ImagePullPolicy common;
  c_Command := c_Command c; c_Args := args; c_Resources := Resources common; c_Ports := c_Ports c;
  c_Env := set_env StorageHash hashCode (c_Env c); c_VolumeMounts := mounts;
  c_LivenessProbe := match c_LivenessProbe c with None => Some DefaultLivenessProbe | p => p end;
  c_ReadinessProbe := match c_ReadinessProbe c with None => Some DefaultReadinessProbe | p => p end |}.

(** The stateful set before its containers: what is copied over the existing
    one. The tolerations are not. *)
Definition compactor_sts (sts : StatefulSet) : StatefulSet :=
  let common := csp_Common (cmp_Spec r) in
  let t := sts_Template sts in
  let p := pt_Spec t in {|
  sts_Meta := sts_Meta sts; sts_Replicas := Replicas common;
  sts_Selector := compactor_labels; sts_ServiceName := sts_ServiceName sts;
  sts_Template := {| pt_Labels := compactor_labels; pt_Annotations := pt_Annotations t;
    pt_Spec := {| ps_NodeSelector := NodeSelector common; ps_Tolerations := ps_Tolerations p;
      ps_Affinity := Affinity common; ps_SecurityContext := SecurityContext common;
      ps_ImagePullSecrets := match ImagePullSecrets common with [] => ps_ImagePullSecrets p | l => l end;
      ps_ServiceAccountName := ps_ServiceAccountName p;
      ps_TerminationGracePeriodSeconds := ps_TerminationGracePeriodSeconds p;
      ps_Volumes := []; ps_InitContainers := ps_InitContainers p; ps_Containers := ps_Containers p |} |};
  sts_VolumeClaimTemplates := []; sts_PVCRetentionPolicy := sts_PVCRetentionPolicy sts |}.

Definition compactor_statefulSet : ResourceFn W :=
  let m := compactor_meta (compactor_name []) in
  sts ← get_or (empty_sts m) m;
  let sts := compactor_sts sts in
  let containers := ps_Containers (pt_Spec (sts_Template sts)) in
  let i := main_container compactorContainerName containers in
  let container := default fresh_compactor_container (i ← i; containers !! i) in
  let '(sts, mounted, _) := AddTSDBVolume sts (no_mounts container) (csp_DataVolume (cmp_Spec r)) in
  vols ← VolumesAndVolumeMountsForStorage (compactor_label StorageLabelKey);
  hashCode ← GetStorageHash (compactor_label StorageLabelKey);
  args ← compactor_megerArgs;
  let container := compactor_container container (c_VolumeMounts mounted ++ vols.2) hashCode args in
  containers ← patch_containers (Containers (csp_Common (cmp_Spec r)))
    (match i with Some i => <[i := container]> containers | None => containers ++ [container] end);
  o ← lift_outcome (SetControllerReference (OCompactor r)
        (OStatefulSet (put_containers containers (add_volumes vols.1 sts))));
  mret (Some (o, OperationCreateOrUpdate)).

Definition compactor_Reconcile : M W unit := ReconcileResources [compactor_statefulSet].
End compactor.

(** ** pkg/controllers/compactor_controller.go *)

Section controller.
Context {W : Type} `{!Kube W} `{!K8sLib} `{!MapRange} `{!BaseLib} `{!WorkLib} `{!CompactorLib}.

Definition applyConfigurationFromCompactorTemplateSpec (c : Compactor) (t : CompactorTemplateSpec) : GoError + Compactor :=
  match mergo_Merge_CompactorSpec (cmp_Spec c) (ct_Spec t) with
  | inl err => inl err
  | inr spec => inr {| cmp_Type := cmp_Type c; cmp_Meta := cmp_Meta c; cmp_Spec := spec |}
  end.

Definition set_cmp_Finalizers (f : list string) (c : Compactor) : Compactor :=
  {| cmp_Type := cmp_Type c; cmp_Meta := set_om_Finalizers f (cmp_Meta c); cmp_Spec := cmp_Spec c |}.

(** [compactor.New] and the reconciliation of its resources. *)
Definition run_compactor (c : Compactor) : M W unit :=
  SetService (cmp_Meta c) ;; compactor_Reconcile c.

Definition CompactorReconciler_Reconcile (req : NamespacedName) : M W unit :=
  r ← attempt (Get (A:=Compactor) req);
  match r with
  | inl err => if apierrors_IsNotFound err then mret tt else fail err
  | inr instance =>
      if String.eqb (map_get (om_Labels (cmp_Meta instance)) ServiceLabelKey) ""
         || String.eqb (map_get (om_Labels (cmp_Meta instance)) StorageLabelKey) "" then mret tt
      else
        key ← of_option "nil pointer dereference" (ServiceNamespacedName (cmp_Meta instance));
        service ← Get (A:=Service) key;
        instance ← lift_sum (applyConfigurationFromCompactorTemplateSpec instance
                     (sv_CompactorTemplateSpec (sv_Spec (ApplyDefaults service))));
        if time_IsZero (om_DeletionTimestamp (cmp_Meta instance)) then
          let instance := match om_Finalizers (cmp_Meta instance) with
                          | [] => set_cmp_Finalizers [FinalizerDeletePVC] instance
                          | _ => instance
                          end in
          match csp_Tenants (cmp_Spec instance) with
          | [] => mret tt
          | _ => run_compactor instance
          end
        else
          DeletePVC (OCompactor instance) ;;
          Update (set_cmp_Finalizers [] instance) ;; mret tt
  end.

Definition compactor_mapFuncBySelectorFunc (fn : ObjectMeta → StrMap) (o : Object) : M W (list NamespacedName) :=
  items ← or_nil (List (A:=Compactor) (MatchingLabels (fn (obj_meta o))));
  mret ((λ item, {| nn_Namespace := om_Namespace (cmp_Meta item); nn_Name := om_Name (cmp_Meta item) |}) <$> items).
End controller.
