(* ===== verification/CompactorFacts.v ===== *)
(** What a compactor guarantees: its retention is the specification's, the
    requests of its reconciliation, and the deletion that never ends. *)
From stdpp Require Import base gmap strings list pretty sorting.
From Stdlib Require Import Ascii String.
From S2P Require Import Prelude GoStd K8s Api Objects Client Clients Base ClientFacts Workload Web WorkloadFacts Tenant TenantFacts Ingester IngesterFacts Compactor.
Open Scope nat_scope.

(** ** The arguments *)

Lemma named_opt_arg n f v : contains_char "="%char f = false →
  named n (opt_arg (f +:+ "=") v) = if decide (f = n) then opt_arg (f +:+ "=") v else [].
Proof.
  intros Hf. unfold opt_arg. destruct (String.eqb v ""); [by case_decide|].
  unfold named. rewrite filter_cons, filter_nil, append_assoc. change ("=" +:+ v) with (String "=" v).
  by rewrite GetArgName_eq.
Qed.

Lemma named_cons_ne n a l : GetArgName a ≠ n → named n (a :: l) = named n l.
Proof. intros Hn. unfold named. by rewrite filter_cons, decide_False. Qed.

(** A concrete string is not in a concrete list. *)
Ltac absent H := exfalso; revert H; apply (bool_decide_eq_false _); reflexivity.

Lemma perm_short {A} (l k : list A) : l ≡ₚ k → length k ≤ 1 → l = k.
Proof.
  intros Hp Hk. destruct k as [|x [|y k]]; [by apply Permutation_nil_r in Hp| |simpl in Hk; lia].
  by apply Permutation_singleton_r in Hp.
Qed.

Section args.
Variable r : Compactor.

(** The arguments that are not the retention's. *)
Lemma base_args_retention n storageConfig rc :
  n ∈ ["--retention.resolution-raw"; "--retention.resolution-5m"; "--retention.resolution-1h"] →
  named n (compactor_base_args r storageConfig rc) = named n (retention_args r).
Proof.
  intros Hn. unfold compactor_base_args. cbv zeta. rewrite !named_app.
  assert (H0 : ∀ a, bool_decide (GetArgName a ∈ ["--retention.resolution-raw"; "--retention.resolution-5m";
            "--retention.resolution-1h"]) = false → GetArgName a ≠ n).
  { intros a Ha <-. by apply bool_decide_eq_false in Ha. }
  rewrite (named_opt_arg n "--log.level"), (named_opt_arg n "--log.format") by done.
  rewrite !(decide_False (P:=_ = n)) by (intros <-; absent Hn).
  rewrite !named_cons_ne; try (apply H0; reflexivity).
  destruct (csp_DisableDownsampling (cmp_Spec r)) as [[]|]; [|done..].
  by rewrite named_cons_ne by (apply H0; reflexivity).
Qed.
(** What the retention writes under each of its names. *)
Lemma retention_named :
  named "--retention.resolution-raw" (retention_args r)
    = match csp_Retention (cmp_Spec r) with Some t => opt_arg "--retention.resolution-raw=" (RetentionRaw t) | None => [] end
  ∧ named "--retention.resolution-5m" (retention_args r)
    = match csp_Retention (cmp_Spec r) with Some t => opt_arg "--retention.resolution-5m=" (Retention5m t) | None => [] end
  ∧ named "--retention.resolution-1h" (retention_args r)
    = match csp_Retention (cmp_Spec r) with Some t => opt_arg "--retention.resolution-1h=" (Retention1h t) | None => [] end.
Proof.
  unfold retention_args. destruct (csp_Retention (cmp_Spec r)) as [t|]; [|done].
  rewrite !named_app.
  rewrite !(named_opt_arg _ "--retention.resolution-raw"), !(named_opt_arg _ "--retention.resolution-5m"),
    !(named_opt_arg _ "--retention.resolution-1h") by done.
  repeat (rewrite decide_True by done || rewrite decide_False by done).
  by rewrite ?app_nil_r.
Qed.

(** C39: the flags of a user cannot change how long blocks are kept: the
    retention arguments are those of the specification's retention, each at
    most once, whatever the flags; and both replica labels stay among the
    labels deduplicated, to which flags only add. *)
Theorem retention_is_the_specification storageConfig rc :
  let args := compactor_args r storageConfig rc in
  let kept f flag := match csp_Retention (cmp_Spec r) with Some t => opt_arg flag (f t) | None => [] end in
  named "--retention.resolution-raw" args = kept RetentionRaw "--retention.resolution-raw="
  ∧ named "--retention.resolution-5m" args = kept Retention5m "--retention.resolution-5m="
  ∧ named "--retention.resolution-1h" args = kept Retention1h "--retention.resolution-1h="
  ∧ ["--deduplication.replica-label=receive_replica"; "--deduplication.replica-label=ruler_replica"]
      ⊆+ named "--deduplication.replica-label" args.
Proof.
  cbv zeta. unfold compactor_args.
  set (base := compactor_base_args r storageConfig rc). set (flags := Flags _).
  assert (Hnamed : ∀ n, named n (sort_tail (add_flags compactor_unsupportedArgs compactor_repeatableArgs base flags))
    ≡ₚ merged compactor_unsupportedArgs compactor_repeatableArgs n base flags).
  { intros n. by rewrite sort_tail_named, add_flags_named. }
  assert (Hret : ∀ n, n ∈ ["--retention.resolution-raw"; "--retention.resolution-5m"; "--retention.resolution-1h"] →
    named n (sort_tail (add_flags compactor_unsupportedArgs compactor_repeatableArgs base flags))
    ≡ₚ named n (retention_args r)).
  { intros n Hn. rewrite Hnamed. unfold merged. rewrite decide_True by (unfold compactor_unsupportedArgs; set_solver).
    unfold base. by rewrite base_args_retention. }
  destruct retention_named as (H1 & H2 & H3).
  assert (Hlen : ∀ f v, length (opt_arg f v) ≤ 1) by (intros f v; unfold opt_arg; destruct (String.eqb v ""); simpl; lia).
  repeat apply conj; [rewrite <-H1 | rewrite <-H2 | rewrite <-H3 |].
  1-3: apply perm_short; [apply Hret; set_solver|].
  1: rewrite H1. 2: rewrite H2. 3: rewrite H3.
  1-3: destruct (csp_Retention (cmp_Spec r)); [apply Hlen|simpl; lia].
  apply NoDup_submseteq; [by apply (bool_decide_unpack _)|].
  intros x Hx. rewrite Hnamed. unfold merged. rewrite decide_False by (unfold compactor_unsupportedArgs; set_solver).
  rewrite decide_True by by left. apply elem_of_app. left. apply list_elem_of_filter.
  apply elem_of_cons in Hx as [->|Hx]; [|apply list_elem_of_singleton in Hx as ->];
    (split; [reflexivity|]; unfold base, compactor_base_args; apply elem_of_app; left);
    repeat first [by left | right].
Qed.
End args.

(** ** Deletion *)

Section deletion.
Context {W : Type} `{HK : Kube W} {HL : K8sLib} {HM : MapRange} {HB : BaseLib} {HW : WorkLib} {HC : CompactorLib}.

(** A compactor that is being deleted keeps its finalizer as long as no
    stateful set has the compactor's own name: its claims are looked for under
    that name, while its stateful set's name starts with the component's. The
    reconciliation ends in the error of that look-up, with nothing written. *)
Theorem compactor_deletion_stuck req instance c svc key (w w1 w2 w3 : W) e :
  Get (A:=Compactor) req w = (Ok instance, w1) →
  map_get (om_Labels (cmp_Meta instance)) ServiceLabelKey ≠ "" →
  map_get (om_Labels (cmp_Meta instance)) StorageLabelKey ≠ "" →
  ServiceNamespacedName (cmp_Meta instance) = Some key → Get (A:=Service) key w1 = (Ok svc, w2) →
  applyConfigurationFromCompactorTemplateSpec instance
    (sv_CompactorTemplateSpec (sv_Spec (ApplyDefaults svc))) = inr c →
  time_IsZero (om_DeletionTimestamp (cmp_Meta instance)) = false →
  Get (A:=StatefulSet) {| nn_Namespace := om_Namespace (cmp_Meta instance); nn_Name := om_Name (cmp_Meta instance) |} w2
    = (Err e, w3) →
  CompactorReconciler_Reconcile req w = (Err e, w3)
  ∧ compactor_name instance [] ≠ om_Name (cmp_Meta instance).
Proof.
  intros Hg Hs Hst Hk Hsvc Ha Hd Hsts. split.
  - unfold CompactorReconciler_Reconcile.
    rewrite (bind_step _ _ _ _ _ (attempt_Ok _ _ _ _ Hg)).
    rewrite (proj2 (String.eqb_neq _ _) Hs), (proj2 (String.eqb_neq _ _) Hst). cbn [orb]. rewrite Hk.
    cbn [of_option]. change (M_ret key) with (mret (M:=M W) key). rewrite bind_ret_l.
    rewrite (bind_step _ _ _ _ _ Hsvc), Ha. cbn [lift_sum]. rewrite bind_ret_l.
    unfold applyConfigurationFromCompactorTemplateSpec in Ha.
    destruct (mergo_Merge_CompactorSpec _ _) as [|spec]; [done|]. inversion Ha; subst. cbn [cmp_Meta].
    rewrite Hd. unfold DeletePVC. apply bind_err, bind_err. exact Hsts.
  - unfold compactor_name, QualifiedName. intros H. apply (f_equal String.length) in H.
    rewrite !length_append in H. simpl in H. lia.
Qed.

(** *** The requests of a reconciliation *)

(** Reads, writes of stateful sets, the deletion of claims and of stateful sets
    that cannot be updated, and the update that lets a deleted compactor go. *)
Definition compactor_request (c : Call) : Prop :=
  match c with
  | CGet _ _ => True
  | CCreate o => obj_kind o = KStatefulSet
  | CUpdate (OCompactor x) => om_Finalizers (cmp_Meta x) = [] ∧ time_IsZero (om_DeletionTimestamp (cmp_Meta x)) = false
  | CUpdate o => obj_kind o = KStatefulSet
  | CDelete o => obj_kind o = KPVC ∨ obj_kind o = KStatefulSet
  | _ => False
  end.

Lemma applies_compactor k c : of_kinds (λ k, k = KStatefulSet) k → applies k c → compactor_request c.
Proof.
  unfold of_kinds. intros Hk [Hc|(sts & _ & ->)]; [|by right]. destruct c as [| |o|o| |]; simpl in *; subst; try done.
  by destruct o.
Qed.

Lemma effects_DeletePVC o : effects compactor_request (DeletePVC (W:=Logged W) o) (λ _, True).
Proof.
  unfold DeletePVC. apply effects_step; [reads|]. intros sts. cbv zeta.
  apply effects_for_each. intros item _. apply effects_for_each. intros index _.
  unfold delete_claim. apply effects_step; [|intros [err|_]; reads].
  eapply effects_true, effects_attempt, effects_Delete. by left.
Qed.

Lemma effects_release c : time_IsZero (om_DeletionTimestamp (cmp_Meta c)) = false →
  effects compactor_request (Update (W:=Logged W) (set_cmp_Finalizers [] c)) (λ _, True).
Proof.
  intros Hd. unfold Update. apply effects_step; [by apply effects_record|]. intros o. by apply effects_option.
Qed.

Lemma effects_compactor_statefulSet c :
  effects compactor_request (compactor_statefulSet (W:=Logged W) c) (yields compactor_request (of_kinds (λ k, k = KStatefulSet))).
Proof.
  unfold compactor_statefulSet. cbv zeta. apply effects_step; [unfold get_or; reads|]. intros sts.
  destruct (AddTSDBVolume _ _ _) as [[sts' mounted] dv]. apply effects_step; [reads|]. intros vols.
  apply effects_step; [unfold GetStorageHash; reads|]. intros h.
  apply effects_step; [unfold compactor_megerArgs, compactor_createRelabelConfig; reads|]. intros args.
  apply effects_step; [reads|]. intros cs. by apply effects_owned.
Qed.

Lemma effects_run_compactor c : effects compactor_request (run_compactor (W:=Logged W) c) (λ _, True).
Proof.
  unfold run_compactor. apply effects_step; [reads|]. intros _.
  apply effects_for_each. intros res ->%list_elem_of_singleton.
  apply (effects_reconcile_resource _ (of_kinds (λ k, k = KStatefulSet))); [apply applies_compactor|].
  apply effects_compactor_statefulSet.
Qed.

(** Whatever the API server answers, reconciling a compactor creates and
    updates only stateful sets, deletes only those and claims, and updates the
    compactor itself only to release its finalizers when it is being
    deleted; the finalizer it adds in memory is never written. *)
Theorem compactor_requests_confined (req : NamespacedName) (w : W) :
  Forall compactor_request (calls_from (CompactorReconciler_Reconcile req) w).
Proof.
  apply (effects_calls _ _ (λ _, True)). unfold CompactorReconciler_Reconcile.
  pose proof effects_DeletePVC. pose proof effects_run_compactor. pose proof effects_release. reads.
Qed.
End deletion.

(** ** The hash of the storage *)

Section hashes.
Context {W : Type} `{HK : Kube W} {HL : K8sLib} {HM : MapRange} {HB : BaseLib} {HW : WorkLib}.
Context (Hget : ∀ k key, keeps (kube_get (W:=W) k key)).

(** The hash in the pods is the one the storage has in the world they are built
    in. *)
Lemma compactor_carries_hash r (w w' : W) o op :
  Containers (csp_Common (cmp_Spec r)) = "" → compactor_statefulSet r w = (Ok (Some (o, op)), w') →
  ∃ h w1, GetStorageHash (compactor_label r StorageLabelKey) w = (Ok h, w1) ∧ hash_in_pods h o.
Proof.
  intros Hraw H. unfold compactor_statefulSet in H. cbv zeta in H.
  apply bind_Ok_inv in H as (sts0 & w1 & Hg & H). apply (keeps_get_or Hget) in Hg as ->.
  destruct (AddTSDBVolume _ _ _) as [[sts mounted] dv].
  apply bind_Ok_inv in H as (vols & w2 & Hv & H). apply (keeps_VolumesForStorage Hget) in Hv as ->. apply bind_Ok_inv in H as (h & w3 & Hh & H).
  apply bind_Ok_inv in H as (args & w5 & _ & H).
  apply bind_Ok_inv in H as (cs & w6 & Hcs & H).
  unfold patch_containers in Hcs. rewrite Hraw in Hcs. inversion Hcs; subst. clear Hcs.
  apply bind_Ok_inv in H as (o' & w7 & Ho & H). inversion H; subst.
  unfold lift_outcome in Ho. inversion Ho as [[Ho' Hw]]. apply SetControllerReference_refs in Ho' as [refs ->].
  exists h, w3. split; [exact Hh|]. eexists _, _. split; [reflexivity|]. split.
  - apply (main_container_in compactorContainerName).
  - cbn [c_Env compactor_container]. apply set_env_elem.
Qed.
End hashes.
