(* ===== verification/Block.v ===== *)
(** [pkg/block/block-manager.go]: the garbage collection of the blocks of
    tenants that no longer exist. *)
From stdpp Require Import base gmap strings list pretty sorting.
From Stdlib Require Import Ascii String.
From S2P Require Import Prelude GoStd K8s Api Objects Client Base Url.

(** [Meta]: a block's ULID, as it is printed, and its external labels. *)
Record Meta := { m_ULID : string; m_Labels : gmap string string }.

(** The block API of the compactor, its JSON, and the cleanup command. *)
Class BlockApi (W : Type) := {
  (* http.Get: the body *)
  http_Get : string → M W string;
  (* http.Client.Do of a POST: the status code, and the body or the error of
     reading it *)
  http_Post : string → M W (Z * (GoError + string));
  (* exec.Command(binPath, args...).Run, until it ends or times out *)
  exec_cleanup : list string → M W unit;
  json_ListResponse : string → GoError + list Meta;
  json_response : string → GoError + string;
}.

Definition block_host : string := "http://0.0.0.0:10902".
Definition listURL : string := "/api/v1/blocks".
Definition markURL : string := "/api/v1/blocks/mark".

Record BlockManager := {
  bm_tenantLabelName : string; bm_defaultTenantId : string;
  bm_storageConfig : string; bm_storageConfigFile : string;
}.

Section block_manager.
Context {W : Type} `{HK : Kube W} {HA : BlockApi W}.
Variable b : BlockManager.

Definition listBlocks : M W (list Meta) :=
  bs ← http_Get (block_host +:+ listURL);
  match json_ListResponse bs with inl err => fail err | inr blocks => mret blocks end.

Definition listTenants : M W (list string) :=
  items ← List (A:=Tenant) everywhere;
  mret (((λ t, om_Name (tn_Meta t)) <$> filter (λ t, time_IsZero (om_DeletionTimestamp (tn_Meta t)) = true) items)
        ++ [bm_defaultTenantId b]).

(** The URL of the request that marks a block. *)
Definition mark_url (m : Meta) : string :=
  let values := values_Set (values_Set ∅ "id" (m_ULID m)) "action" "DELETION" in
  block_host +:+ markURL +:+ "?" +:+ values_Encode values.

(** An answer other than 200 and 204 is only logged. *)
Definition markBlockForDeletion (m : Meta) : M W unit :=
  resp ← http_Post (mark_url m);
  if negb (resp.1 =? 200)%Z && negb (resp.1 =? 204)%Z then
    match resp.2 with
    | inl err => fail err
    | inr bs => match json_response bs with inl err => fail err | inr _ => mret tt end
    end
  else mret tt.

Definition cleanup_args : list string :=
  ["tools"; "bucket"; "cleanup"; "--delete-delay=0"]
  ++ (if negb (String.eqb (bm_storageConfig b) "")
      then ["--objstore.config=" +:+ bm_storageConfig b]
      else ["--objstore.config-file=" +:+ bm_storageConfigFile b]).
(** The error of the command is only logged. *)
Definition cleanupBlocks : M W unit := attempt (exec_cleanup cleanup_args) ;; mret tt.

(** One block of the loop; the error of marking it is only logged. *)
Definition gc_block (tenants : list string) (block : Meta) : M W unit :=
  let tenant := map_get (m_Labels block) (bm_tenantLabelName b) in
  if String.eqb tenant "" then mret tt
  else if Contains tenants tenant then mret tt
  else attempt (markBlockForDeletion block) ;; mret tt.

(** One round: an error of listing ends it. *)
Definition gc_round : M W unit :=
  blocks ← attempt listBlocks;
  match blocks with
  | inl _ => mret tt
  | inr blocks =>
      tenants ← attempt listTenants;
      match tenants with
      | inl _ => mret tt
      | inr tenants => for_each (gc_block tenants) blocks ;; cleanupBlocks
      end
  end.

(** What the [select] of the loop receives. *)
Inductive GcEvent := GcTick | GcDone.

Fixpoint gc (events : list GcEvent) : M W unit :=
  match events with
  | GcTick :: events' => gc_round ;; gc events'
  | GcDone :: _ | [] => mret tt
  end.
End block_manager.
