(* ===== verification/BlockFacts.v ===== *)
(** What the block garbage collection marks: the blocks of tenants nobody knows,
    and none else. *)
From stdpp Require Import base gmap strings list pretty sorting.
From Stdlib Require Import Ascii String.
From S2P Require Import Prelude GoStd K8s Api Objects Client Clients Base Tenant TenantFacts Url Block.
Open Scope nat_scope.

(** The bucket behind the block API: the blocks marked for deletion so far. A
    POST of a mark URL marks at most the block it names, and marks it when it
    is answered 200; nothing else marks a block. *)
Class BlockServer (W : Type) {HK : Kube W} {HA : BlockApi W} := {
  marked : W → gset string;
  post_marks : ∀ q w r w', http_Post (block_host +:+ markURL +:+ "?" +:+ q) w = (r, w') →
    marked w ⊆ marked w' ∧
    (∀ id, id ∈ marked w' → id ∈ marked w ∨
       (id = values_Get (url_Query q) "id" ∧ values_Get (url_Query q) "action" = "DELETION")) ∧
    (∀ body, r = Ok (200%Z, body) → values_Get (url_Query q) "action" = "DELETION" →
       values_Get (url_Query q) "id" ∈ marked w');
  get_keeps : ∀ url w r w', http_Get url w = (r, w') → marked w' = marked w;
  list_keeps : ∀ k opts w r w', kube_list k opts w = (r, w') → marked w' = marked w;
  cleanup_keeps : ∀ args w r w', exec_cleanup args w = (r, w') → marked w' = marked w;
}.

Section block_facts.
Context {W : Type} `{HK : Kube W} {HA : BlockApi W} {HS : BlockServer W}.
Variable b : BlockManager.

(** The block belongs to a tenant that is not the default one and whose name no
    live tenant object has. *)
Definition orphan (items : list Tenant) (block : Meta) : Prop :=
  let tenant := map_get (m_Labels block) (bm_tenantLabelName b) in
  tenant ≠ "" ∧ tenant ≠ bm_defaultTenantId b
  ∧ ∀ t, t ∈ items → time_IsZero (om_DeletionTimestamp (tn_Meta t)) = true → om_Name (tn_Meta t) ≠ tenant.

Definition known (items : list Tenant) : list string :=
  ((λ t, om_Name (tn_Meta t)) <$> filter (λ t, time_IsZero (om_DeletionTimestamp (tn_Meta t)) = true) items)
  ++ [bm_defaultTenantId b].

Lemma known_spec items tenant :
  Contains (known items) tenant = false ↔
  tenant ≠ bm_defaultTenantId b
  ∧ ∀ t, t ∈ items → time_IsZero (om_DeletionTimestamp (tn_Meta t)) = true → om_Name (tn_Meta t) ≠ tenant.
Proof.
  rewrite <-not_true_iff_false, Contains_spec. unfold known.
  rewrite elem_of_app, list_elem_of_fmap, list_elem_of_singleton. split.
  - intros Hn. split; [naive_solver|]. intros t Ht Hl <-. apply Hn. left. exists t. split; [done|].
    by apply list_elem_of_filter.
  - intros [Hd Ht] [(t & -> & [Hl Hin]%list_elem_of_filter)| ->]; [|done]. by apply (Ht t).
Qed.

(** The mark URL names the block, whatever characters its ULID has. *)
Lemma mark_url_query m : ∃ q, mark_url m = block_host +:+ markURL +:+ "?" +:+ q
  ∧ values_Get (url_Query q) "id" = m_ULID m ∧ values_Get (url_Query q) "action" = "DELETION".
Proof.
  eexists. split; [reflexivity|]. unfold url_Query. rewrite ParseQuery_Encode'; [by split|].
  intros k vs. unfold values_Set. rewrite !lookup_insert_Some, lookup_empty. naive_solver.
Qed.

Lemma mark_marks m w r w' : markBlockForDeletion m w = (r, w') →
  marked w ⊆ marked w' ∧ (∀ id, id ∈ marked w' → id ∈ marked w ∨ id = m_ULID m)
  ∧ ((∃ body w1, http_Post (mark_url m) w = (Ok (200%Z, body), w1)) → m_ULID m ∈ marked w').
Proof.
  unfold markBlockForDeletion. intros Hrun.
  destruct (mark_url_query m) as (q & Hq & Hid & Hact).
  destruct (http_Post (mark_url m) w) as [r1 w1] eqn:E.
  assert (w' = w1) as ->.
  { unfold mbind, M_mbind, M_bind in Hrun. rewrite E in Hrun.
    destruct r1 as [[code body]| |]; [|by inversion Hrun..].
    simpl in Hrun. destruct (negb _ && negb _); [|by inversion Hrun].
    destruct body as [e|bs]; [by inversion Hrun|]. by destruct (json_response bs); inversion Hrun. }
  rewrite Hq in E. destruct (post_marks _ _ _ _ E) as (H1 & H2 & H3). rewrite Hid in *.
  split; [done|]. split; [intros id Hx; apply H2 in Hx as [?|[-> _]]; [by left|by right]|].
  intros (body & w2 & [= -> ->]). by apply (H3 body).
Qed.

(** The server accepts every mark. *)
Definition accepts_marks : Prop :=
  ∀ m w, ∃ body w', http_Post (mark_url m) w = (Ok (200%Z, body), w').

Lemma gc_block_marks items m w r w' : gc_block b (known items) m w = (r, w') →
  marked w ⊆ marked w' ∧ (∀ id, id ∈ marked w' → id ∈ marked w ∨ (id = m_ULID m ∧ orphan items m))
  ∧ (accepts_marks → r = Ok tt ∧ (orphan items m → m_ULID m ∈ marked w')).
Proof.
  unfold gc_block. intros Hrun. cbv zeta in Hrun. unfold orphan.
  set (tenant := map_get (m_Labels m) (bm_tenantLabelName b)) in *.
  destruct (String.eqb_spec tenant "") as [He|Hne].
  { inversion Hrun; subst. split; [done|]. split; [by left|]. intros _. split; [done|]. by intros [? _]. }
  destruct (Contains (known items) tenant) eqn:Hk.
  { inversion Hrun; subst. split; [done|]. split; [by left|]. intros _. split; [done|].
    intros (_ & Ho). apply known_spec in Ho. congruence. }
  apply known_spec in Hk.
  destruct (markBlockForDeletion m w) as [r1 w1] eqn:E.
  destruct (mark_marks _ _ _ _ E) as (H1 & H2 & H3).
  unfold mbind, M_mbind, M_bind, attempt in Hrun. rewrite E in Hrun.
  assert (w' = w1) as -> by (by destruct r1; inversion Hrun).
  split; [done|]. split.
  { intros id Hid. apply H2 in Hid as [?| ->]; [by left|by right]. }
  intros Hacc. destruct (Hacc m w) as (body & w2 & E2).
  split; [|intros _; apply H3; eauto].
  unfold markBlockForDeletion, mbind, M_mbind, M_bind in E. rewrite E2 in E. simpl in E.
  inversion E; subst. by inversion Hrun.
Qed.

Lemma gc_blocks_mark items blocks w r w' : for_each (gc_block b (known items)) blocks w = (r, w') →
  marked w ⊆ marked w'
  ∧ (∀ id, id ∈ marked w' → id ∈ marked w ∨ ∃ m, m ∈ blocks ∧ id = m_ULID m ∧ orphan items m)
  ∧ (accepts_marks → r = Ok tt ∧ ∀ m, m ∈ blocks → orphan items m → m_ULID m ∈ marked w').
Proof.
  revert w. induction blocks as [|m blocks IH]; intros w Hrun; simpl in Hrun.
  { inversion Hrun; subst. split; [done|]. split; [by left|]. intros _. split; [done|].
    by intros m Hm%elem_of_nil. }
  destruct (gc_block b (known items) m w) as [r1 w1] eqn:E.
  destruct (gc_block_marks _ _ _ _ _ E) as (H1 & H2 & H3).
  unfold mbind, M_mbind, M_bind in Hrun. rewrite E in Hrun. destruct r1 as [[]|e|p].
  - destruct (IH _ Hrun) as (I1 & I2 & I3). split; [by etransitivity|]. split.
    + intros id [Hid|(x & Hx & Hr)]%I2; [|right; exists x; split; [by right|done]].
      apply H2 in Hid as [?|[-> Ho]]; [by left|]. right. exists m. split; [by left|done].
    + intros Hacc. destruct (I3 Hacc) as [-> I4]. split; [done|]. intros x [->|Hx]%elem_of_cons Ho; [|eauto].
      apply I1. by apply H3.
  - inversion Hrun; subst. split; [done|]. split; [|by intros [? _]%H3].
    intros id [?|[-> Ho]]%H2; [by left|]. right. exists m. split; [by left|done].
  - inversion Hrun; subst. split; [done|]. split; [|by intros [? _]%H3].
    intros id [?|[-> Ho]]%H2; [by left|]. right. exists m. split; [by left|done].
Qed.

(** What a round is listed: the blocks by the block API, then the tenants by the
    API server. *)
Definition round_lists (w : W) (blocks : list Meta) (items : list Tenant) : Prop :=
  ∃ body w1 w2, http_Get (block_host +:+ listURL) w = (Ok body, w1) ∧ json_ListResponse body = inr blocks
    ∧ List (A:=Tenant) everywhere w1 = (Ok items, w2).

(** C17: a round of the garbage collection that is listed the blocks and the
    tenants marks for deletion only those of the listed blocks whose tenant label
    is set, is not the default tenant, and is the name of no live tenant; when
    the server accepts the marks, all of these blocks are marked; and a round
    that could not list blocks or tenants marks nothing. *)
Theorem gc_marks_orphans w r w' : gc_round b w = (r, w') →
  (∀ blocks items, round_lists w blocks items →
     marked w ⊆ marked w'
     ∧ (∀ id, id ∈ marked w' → id ∈ marked w ∨ ∃ m, m ∈ blocks ∧ id = m_ULID m ∧ orphan items m)
     ∧ (accepts_marks → ∀ m, m ∈ blocks → orphan items m → m_ULID m ∈ marked w'))
  ∧ ((¬ ∃ blocks items, round_lists w blocks items) → marked w' = marked w).
Proof.
  unfold gc_round, listBlocks, listTenants, round_lists. intros Hrun.
  unfold mbind, M_mbind, M_bind, attempt in Hrun.
  destruct (http_Get _ w) as [rb w1] eqn:Eb. pose proof (get_keeps _ _ _ _ Eb) as Hw1.
  destruct rb as [body|e|p]; [|by inversion Hrun; subst; split; [intros ? ? (? & ? & ? & ? & _)|]..].
  destruct (json_ListResponse body) as [e|blocks] eqn:Ej.
  { inversion Hrun; subst. split; [|done]. intros ? ? (? & ? & ? & [= -> ->] & ? & _). congruence. }
  cbn in Hrun. destruct (List everywhere w1) as [rl w2] eqn:El.
  assert (Hw2 : marked w2 = marked w1).
  { unfold List, mbind, M_mbind, M_bind in El. destruct (kube_list _ _ w1) as [r1 w3] eqn:Ek.
    pose proof (list_keeps _ _ _ _ _ Ek) as Hk. by destruct r1; inversion El; subst. }
  destruct rl as [items|e|p];
    [|by inversion Hrun; subst; (split; [|congruence]); intros ? ? (? & ? & ? & [= -> ->] & ? & ?); congruence..].
  change (?x ++ [bm_defaultTenantId b]) with (known items) in Hrun. cbn in Hrun.
  split; [|intros Hno; destruct Hno; exists blocks, items; by eexists body, w1, w2].
  intros blocks' items' (? & ? & ? & [= <- <-] & Ej' & El'). rewrite Ej in Ej'. inversion Ej'; subst blocks'.
  rewrite El in El'. inversion El'; subst items'.
  destruct (for_each (gc_block b (known items)) blocks w2) as [rf w3] eqn:Ef.
  destruct (gc_blocks_mark _ _ _ _ _ Ef) as (K1 & K2 & K3).
  assert (Hw' : marked w' = marked w3).
  { destruct rf; [|by inversion Hrun..].
    unfold cleanupBlocks, attempt, mbind, M_mbind, M_bind in Hrun.
    destruct (exec_cleanup (cleanup_args b) w3) as [rc w4] eqn:Ec. pose proof (cleanup_keeps _ _ _ _ Ec).
    by destruct rc; inversion Hrun; subst. }
  rewrite Hw', Hw2, Hw1 in *. split; [exact K1|]. split; [exact K2|]. intros Hacc. by apply K3.
Qed.
End block_facts.

(** ** A concrete bucket *)

(** An API server and the set of the blocks marked. The list of blocks is
    "ULID:tenant" items separated by commas, answered to any GET. *)
Record Bucket := { bk_cluster : Mem; bk_marked : gset string; bk_list : string }.

Definition on_cluster {A} (m : M Mem A) : M Bucket A :=
  zoom bk_cluster (λ c s, {| bk_cluster := c; bk_marked := bk_marked s; bk_list := bk_list s |}) m.

#[export] Instance bucket_kube : Kube Bucket := {
  kube_get k key := on_cluster (kube_get k key);
  kube_list k opts := on_cluster (kube_list k opts);
  kube_create o := on_cluster (kube_create o);
  kube_update o := on_cluster (kube_update o);
  kube_status_update o := on_cluster (kube_status_update o);
  kube_delete o := on_cluster (kube_delete o);
}.

Definition bucket_post (url : string) : M Bucket (Z * (GoError + string)) := λ s,
  let q := url_Query (trim_prefix url (block_host +:+ markURL +:+ "?")) in
  (Ok (200%Z, inr ""),
   if String.eqb (values_Get q "action") "DELETION"
   then {| bk_cluster := bk_cluster s; bk_marked := {[values_Get q "id"]} ∪ bk_marked s; bk_list := bk_list s |}
   else s).

Definition parse_block (s : string) : Meta :=
  match split_on ":"%char s with
  | ulid :: tenant :: _ => {| m_ULID := ulid; m_Labels := <["tenant_id" := tenant]> ∅ |}
  | _ => {| m_ULID := s; m_Labels := ∅ |}
  end.

#[export] Instance bucket_api : BlockApi Bucket := {
  http_Get _ := λ s, (Ok (bk_list s), s);
  http_Post := bucket_post;
  exec_cleanup _ := mret tt;
  json_ListResponse body := inr (parse_block <$> split_on ","%char body);
  json_response _ := inr "";
}.

#[export] Program Instance bucket_server : BlockServer Bucket := { marked := bk_marked }.
Next Obligation.
  intros q w r w' H. unfold http_Post, bucket_api, bucket_post in H.
  change (block_host +:+ markURL +:+ "?" +:+ q) with ((block_host +:+ markURL +:+ "?") +:+ q) in H.
  rewrite trim_prefix_app in H.
  destruct (String.eqb_spec (values_Get (url_Query q) "action") "DELETION") as [Ha|Ha]; inversion H; subst; simpl.
  - split; [set_solver|]. split; [|set_solver]. intros id [->%elem_of_singleton|?]%elem_of_union; auto.
  - split; [done|]. split; [by left|]. done.
Qed.
Next Obligation. by intros url w r w' [= <- <-]. Qed.
Next Obligation.
  intros k opts w r w' H. unfold kube_list, bucket_kube, on_cluster, zoom in H.
  destruct (kube_list k opts (bk_cluster w)). by inversion H.
Qed.
Next Obligation. by intros args w r w' [= <- <-]. Qed.

Definition bucket_manager : BlockManager := {| bm_tenantLabelName := "tenant_id";
  bm_defaultTenantId := "default-tenant"; bm_storageConfig := ""; bm_storageConfigFile := "objstore.yaml" |}.

(** The blocks of a live tenant are marked for deletion when its
    [spec.tenant], under which its data is written, is not the name of its
    object: the known tenants are listed by object name. *)
Theorem live_tenant_blocks_marked :
  let s := {| bk_cluster := mem_of [OTenant (Cluster.tenant "t1" "customer-one" "kube.whizard" [] None);
                                    OTenant (Cluster.tenant "t2" "t2" "kube.whizard" [] None)];
              bk_marked := ∅; bk_list := "01A:customer-one,01B:t2,01C:default-tenant,01D:gone,01E:" |} in
  let '(r, s') := gc_round bucket_manager s in
  r = Ok tt ∧ bk_marked s' = {["01A"; "01D"]}.
Proof. vm_compute. done. Qed.
