(* ===== verification/Gateway.v ===== *)
(** [pkg/monitoring-gateway]: the HTTP gateway in front of queries and remote
    writes ([handler.go], [requestinfo.go], [auth.go], [inject.go],
    [remote.go]) and [pkg/monitoring-agent-proxy/server.go].

    A handler runs over the response and the requests it sent on; the handlers
    that mutate the request they were given thread it explicitly. The reverse
    proxies are endpoints: a [Sent] records the request handed to one. *)
From stdpp Require Import base gmap strings list pretty sorting.
From Stdlib Require Import Ascii String.
From S2P Require Import Prelude GoStd K8s Base Url.
Open Scope nat_scope.

(** ** HTTP *)

(** [rq_TLS]: the common names of the peer certificates, [None] for plain HTTP.
    [rq_Vars]: the variables of the matched route. [rq_Info]: the tenant of the
    [RequestInfo] in the request's context. [rq_BodyErr]: the error that reading
    the body ends with. *)
Record Request := {
  rq_Method : string; rq_Path : string; rq_RawQuery : string; rq_Header : Header;
  rq_Body : string; rq_BodyErr : option GoError; rq_ContentLength : Z;
  rq_Vars : gmap string string; rq_TLS : option (list string); rq_Info : option string;
}.

Definition set_rq_Path (p : string) (r : Request) : Request :=
  {| rq_Method := rq_Method r; rq_Path := p; rq_RawQuery := rq_RawQuery r;
     rq_Header := rq_Header r; rq_Body := rq_Body r; rq_BodyErr := rq_BodyErr r;
     rq_ContentLength := rq_ContentLength r; rq_Vars := rq_Vars r; rq_TLS := rq_TLS r; rq_Info := rq_Info r |}.
Definition set_rq_RawQuery (q : string) (r : Request) : Request :=
  {| rq_Method := rq_Method r; rq_Path := rq_Path r; rq_RawQuery := q;
     rq_Header := rq_Header r; rq_Body := rq_Body r; rq_BodyErr := rq_BodyErr r;
     rq_ContentLength := rq_ContentLength r; rq_Vars := rq_Vars r; rq_TLS := rq_TLS r; rq_Info := rq_Info r |}.
Definition set_rq_Header (h : Header) (r : Request) : Request :=
  {| rq_Method := rq_Method r; rq_Path := rq_Path r; rq_RawQuery := rq_RawQuery r;
     rq_Header := h; rq_Body := rq_Body r; rq_BodyErr := rq_BodyErr r;
     rq_ContentLength := rq_ContentLength r; rq_Vars := rq_Vars r; rq_TLS := rq_TLS r; rq_Info := rq_Info r |}.
(** The body without its length: reading it, or putting another in its place. *)
Definition set_rq_Body (b : string) (r : Request) : Request :=
  {| rq_Method := rq_Method r; rq_Path := rq_Path r; rq_RawQuery := rq_RawQuery r;
     rq_Header := rq_Header r; rq_Body := b; rq_BodyErr := None;
     rq_ContentLength := rq_ContentLength r; rq_Vars := rq_Vars r; rq_TLS := rq_TLS r; rq_Info := rq_Info r |}.
Definition set_rq_ContentLength (n : Z) (r : Request) : Request :=
  {| rq_Method := rq_Method r; rq_Path := rq_Path r; rq_RawQuery := rq_RawQuery r;
     rq_Header := rq_Header r; rq_Body := rq_Body r; rq_BodyErr := rq_BodyErr r;
     rq_ContentLength := n; rq_Vars := rq_Vars r; rq_TLS := rq_TLS r; rq_Info := rq_Info r |}.
Definition set_rq_Info (i : option string) (r : Request) : Request :=
  {| rq_Method := rq_Method r; rq_Path := rq_Path r; rq_RawQuery := rq_RawQuery r;
     rq_Header := rq_Header r; rq_Body := rq_Body r; rq_BodyErr := rq_BodyErr r;
     rq_ContentLength := rq_ContentLength r; rq_Vars := rq_Vars r; rq_TLS := rq_TLS r; rq_Info := i |}.
Definition set_rq_Vars (v : gmap string string) (r : Request) : Request :=
  {| rq_Method := rq_Method r; rq_Path := rq_Path r; rq_RawQuery := rq_RawQuery r;
     rq_Header := rq_Header r; rq_Body := rq_Body r; rq_BodyErr := rq_BodyErr r;
     rq_ContentLength := rq_ContentLength r; rq_Vars := v; rq_TLS := rq_TLS r; rq_Info := rq_Info r |}.

Inductive Target := TQuery | TRules | TWrite | TExternal (endpoint : string).

Record Sent := { s_Target : Target; s_Req : Request }.

(** What the handlers of one request did: the errors written to the response,
    the requests sent on, the increments of the remote-write counter. *)
Record Gw := {
  gw_Errors : list (Z * string);
  gw_Sent : list Sent;
  gw_Counts : list (string * string);
}.
Definition gw_empty : Gw := {| gw_Errors := []; gw_Sent := []; gw_Counts := [] |}.

Abbreviation Http := (M Gw).
Definition HandlerFunc : Type := Request → Http unit.

Definition http_Error (msg : string) (code : Z) : Http unit := modify_st (λ s,
  {| gw_Errors := gw_Errors s ++ [(code, msg)]; gw_Sent := gw_Sent s; gw_Counts := gw_Counts s |}).
Definition send_to (t : Target) (r : Request) : Http unit := modify_st (λ s,
  {| gw_Errors := gw_Errors s; gw_Sent := gw_Sent s ++ [{| s_Target := t; s_Req := r |}];
     gw_Counts := gw_Counts s |}).
Definition count (ep code : string) : Http unit := modify_st (λ s,
  {| gw_Errors := gw_Errors s; gw_Sent := gw_Sent s; gw_Counts := gw_Counts s ++ [(ep, code)] |}).

(** [mime.ParseMediaType] as [ParseForm] uses it: the type, in lower case. *)
Fixpoint map_chars (f : ascii → ascii) (s : string) : string :=
  match s with EmptyString => EmptyString | String a s' => String (f a) (map_chars f s') end.
Definition media_type (ct : string) : string :=
  map_chars to_lower (trim_char " "%char (default "" (head (split_on ";"%char ct)))).

(** [req.ParseForm()]: [req.PostForm], or the error; a form body is consumed. *)
Definition ParseForm (r : Request) : Request * (GoError + Values) :=
  let bad_url := (ParseQuery (rq_RawQuery r)).2 in
  if String.eqb (media_type (header_Get (rq_Header r) "Content-Type")) "application/x-www-form-urlencoded" then
    let r' := set_rq_Body "" r in
    match rq_BodyErr r with
    | Some e => (r', inl e)
    | None =>
        let '(form, bad) := ParseQuery (rq_Body r) in
        (r', if bad || bad_url then inl (EMsg "invalid semicolon separator or URL escape in query") else inr form)
    end
  else (r, if bad_url then inl (EMsg "invalid semicolon separator or URL escape in query") else inr ∅).

(** ** Third-party functions *)

(** [labels.Matcher] of Prometheus, as the parser makes it. *)
Record Matcher := { m_Type : string; m_Name : string; m_Value : string }.
Definition MatchEqual (name value : string) : Matcher := {| m_Type := "="; m_Name := name; m_Value := value |}.

Class PromQL := {
  Expr : Type;
  ParseExpr : string → GoError + Expr;
  Expr_String : Expr → string;
  (* injectproxy.NewPromQLEnforcer(false, matcher).EnforceNode *)
  EnforceNode : Matcher → Expr → GoError + Expr;
  IsIllegalLabelMatcher : GoError → bool;
  (* every vector selector of the expression carries the matcher *)
  restricted : Matcher → Expr → Prop;
  EnforceNode_restricts : ∀ m e e', EnforceNode m e = inr e' → restricted m e';
  ParseMetricSelector : string → GoError + list Matcher;
  Matcher_String : Matcher → string;
}.

(** The HTTP client of an external remote write: the status code, the status
    line and the body of the answer; [http.NewRequest] on a bad URL. *)
Class HttpClient := {
  NewRequest_err : string → option GoError;
  Client_Do : Request → GoError + (Z * string * string);
}.

(** ** inject.go *)

Definition queryParam : string := "query".
Definition matchersParam : string := "match[]".

Inductive EnforceError := QueryParseError (e : GoError) | EnforceLabelError (e : GoError) | IllegalMatcher (e : GoError).

Section inject.
Context `{!PromQL}.

(** The encoded values and whether there was a query, or the error. *)
Definition enforceQueryValues (m : Matcher) (v : Values) : EnforceError + (string * bool) :=
  if String.eqb (values_Get v queryParam) "" then inr (values_Encode v, false)
  else match ParseExpr (values_Get v queryParam) with
       | inl err => inl (QueryParseError err)
       | inr expr =>
           match EnforceNode m expr with
           | inl err => inl (if IsIllegalLabelMatcher err then IllegalMatcher err else EnforceLabelError err)
           | inr expr => inr (values_Encode (values_Set v queryParam (Expr_String expr)), true)
           end
       end.

Definition matchersToString (ms : list Matcher) : string :=
  "{" +:+ join "," (Matcher_String <$> ms) +:+ "}".

(** Add the matcher to every selector of the list. *)
Fixpoint inject_all (m : Matcher) (matchers : list string) : GoError + list string :=
  match matchers with
  | [] => inr []
  | s :: rest =>
      match ParseMetricSelector s with
      | inl err => inl err
      | inr ms =>
          match inject_all m rest with
          | inl err => inl err
          | inr rest' => inr (matchersToString (ms ++ [m]) :: rest')
          end
      end
  end.

(** The values after the call. The partial writes of a call that fails are
    dropped: both callers return at once. *)
Definition injectMatcher (q : Values) (m : Matcher) (param : string) : GoError + Values :=
  match default [] (q !! param) with
  | [] => inr (values_Set q param (matchersToString [m]))
  | matchers =>
      match inject_all m matchers with
      | inl err => inl err
      | inr matchers' => inr (<[param := matchers']> q)
      end
  end.
End inject.

(** ** remote.go *)

Record remoteWriteClient := { rc_url : string; rc_timeout : Z; rc_headers : gmap string string }.

Record result := { res_code : Z; res_err : option GoError }.

Section remote.
Context `{!HttpClient} `{!MapRange}.

(** [injectHeadersRoundTripper.RoundTrip] before the transport. *)
Definition inject_headers (h : gmap string string) (r : Request) : Request :=
  set_rq_Header (foldl (λ acc kv, header_Set kv.1 kv.2 acc) (rq_Header r) (map_range "RoundTrip" h)) r.

Definition write_request (c : remoteWriteClient) (body : string) (header : Header) : Request :=
  let h := foldl (λ acc kv, foldl (λ acc v, header_Add kv.1 v acc) acc kv.2) ∅ (map_range "Send" header) in
  let h := header_Add "Content-Encoding" "snappy" h in
  let h := header_Set "Content-Type" "application/x-protobuf" h in
  let h := header_Set "X-Prometheus-Remote-Write-Version" "0.1.0" h in
  {| rq_Method := "POST"; rq_Path := rc_url c; rq_RawQuery := ""; rq_Header := h; rq_Body := body;
     rq_BodyErr := None; rq_ContentLength := Z.of_nat (String.length body); rq_Vars := ∅;
     rq_TLS := None; rq_Info := None |}.

(** The first line of the first 1024 bytes. *)
Definition first_line (body : string) : string :=
  default "" (head (split_on "010"%char (take_str 1024 body))).

Definition Send (c : remoteWriteClient) (body : string) (header : Header) : Http result :=
  match NewRequest_err (rc_url c) with
  | Some err => mret {| res_code := 400; res_err := Some err |}
  | None =>
      let req := inject_headers (rc_headers c) (write_request c body header) in
      send_to (TExternal (rc_url c)) req ;;
      match Client_Do req with
      | inl err => mret {| res_code := 502; res_err := Some err |}
      | inr (code, status, text) =>
          mret {| res_code := code;
            res_err := if negb (code / 100 =? 2)%Z
                       then Some (EMsg ("server returned HTTP status " +:+ status +:+ ": " +:+ first_line text))
                       else None |}
      end
  end.
End remote.

(** ** handler.go and auth.go *)

Record Options := {
  o_TenantHeader : string; o_TenantLabelName : string;
  o_QueryProxy : bool; o_RulesQueryProxy : bool; o_RemoteWriteProxy : bool;
  o_ExternalRWClients : list remoteWriteClient;
  o_CertAuthenticator : bool; o_EnabledTenantsAdmission : bool; o_EnabledQueryUI : bool;
}.

(** The admission map: under ["/-/"] the last configuration, under a tenant's
    name [true]. *)
Inductive AdmissionVal := AV_tenants (l : list string) | AV_true.
Abbreviation AdmissionMap := (gmap string AdmissionVal).

(** The index of the nth [b] in [s], or -1. *)
Fixpoint index_from (s : string) (b : ascii) (nth num i : Z) : Z :=
  match s with
  | EmptyString => -1
  | String c s' =>
      if Ascii.eqb c b then
        if (num + 1 =? nth)%Z then i else index_from s' b nth (num + 1) (i + 1)
      else index_from s' b nth num (i + 1)
  end.
Definition indexByteNth (s : string) (b : ascii) (nth : Z) : Z := index_from s b nth 0 0.

Definition difference (a b : list string) : list string :=
  let hash : gmap string unit := foldl (λ m v, <[v := tt]> m) ∅ b in
  filter (λ v, hash !! v = None) a.

Section handlers.
Context `{!PromQL} `{!HttpClient} `{!MapRange}.
Variable options : Options.

(** *** requestinfo.go *)

Definition strip_tenant (path : string) : string :=
  let index := indexByteNth path "/"%char 2 in
  if (0 <? index)%Z then drop_str (Z.to_nat index) path else path.

Definition withRequestInfo (f : HandlerFunc) : HandlerFunc := λ req,
  let req := set_rq_Path (strip_tenant (rq_Path req)) req in
  f (set_rq_Info (Some (map_get (rq_Vars req) "tenant_id")) req).

(** *** auth.go *)

Definition AuthenticateRequest (req : Request) : Outcome (string * bool) :=
  match rq_TLS req with
  | None => Panic "nil pointer dereference"
  | Some [] => Ok ("", false)
  | Some (cn :: _) => Ok (cn, true)
  end.

(** None of the three error branches returns. *)
Definition withAuthorization (f : HandlerFunc) : HandlerFunc := λ req,
  cert ← lift_outcome (AuthenticateRequest req);
  (if negb cert.2 then http_Error "invalid cert" 401 else mret tt) ;;
  (match rq_Info req with None => http_Error "invalid cert" 401 | Some _ => mret tt end) ;;
  tenant ← of_option "nil pointer dereference" (rq_Info req);
  (if negb (String.eqb cert.1 tenant) then http_Error "invalid cert" 401 else mret tt) ;;
  f req.

Definition withTenantsAdmission (f : HandlerFunc) (admission : AdmissionMap) (enable : bool) : HandlerFunc := λ req,
  match rq_Info req with
  | None => http_Error "404 page not found" 404
  | Some tenant =>
      if String.eqb tenant "" then http_Error "404 page not found" 404
      else if enable then
        match admission !! tenant with
        | None => http_Error ("tenant " +:+ tenant +:+ " is not allowed to access") 403
        | Some _ => f req
        end
      else f req
  end.

Definition wrap (admission : AdmissionMap) (f : HandlerFunc) : HandlerFunc :=
  let f := if o_CertAuthenticator options then withAuthorization f else f in
  withRequestInfo (withTenantsAdmission f admission (o_EnabledTenantsAdmission options)).

(** *** Queries *)

Definition tenant_matcher (tenant : string) : Matcher := MatchEqual (o_TenantLabelName options) tenant.

Definition enforce_error (e : EnforceError) : Http unit :=
  match e with
  | IllegalMatcher _ => http_Error "illegal label matcher" 400
  | QueryParseError _ => http_Error "error parsing query string" 400
  | EnforceLabelError _ => http_Error "error enforcing label" 500
  end.

(** The POST form, [None] for other methods. *)
Definition post_form (req : Request) : Request * (GoError + option Values) :=
  if String.eqb (rq_Method req) "POST" then
    match ParseForm req with
    | (req', inl err) => (req', inl err)
    | (req', inr form) => (req', inr (Some form))
    end
  else (req, inr None).

Definition query : HandlerFunc := λ req,
  if negb (o_QueryProxy options) then
    http_Error "The query target is not configured for the server" 406
  else
    let query := url_Query (rq_RawQuery req) in
    match post_form req with
    | (_, inl err) => http_Error "bad form" 400
    | (req, inr postForm) =>
        if String.eqb (values_Get query queryParam) ""
           && String.eqb (values_Get (default ∅ postForm) queryParam) "" then mret tt
        else
          tenant ← of_option "nil pointer dereference" (rq_Info req);
          match enforceQueryValues (tenant_matcher tenant) query with
          | inl e => enforce_error e
          | inr (q, found) =>
              let req := if (found : bool) then set_rq_RawQuery q req else req in
              match postForm with
              | None => send_to TQuery req
              | Some form =>
                  match enforceQueryValues (tenant_matcher tenant) form with
                  | inl e => enforce_error e
                  | inr (q, found) =>
                      let req := if (found : bool) then
                        set_rq_ContentLength (Z.of_nat (String.length q)) (set_rq_Body q req) else req in
                      send_to TQuery req
                  end
              end
          end
    end.

(** *** Series, labels and rules *)

Definition to_rules (path : string) : bool := has_suffix path "/rules" || has_suffix path "/alerts".

Definition matcher (param : string) : HandlerFunc := λ req,
  if negb (o_QueryProxy options) then
    http_Error "The query target is not configured for the server" 406
  else
    tenant ← of_option "nil pointer dereference" (rq_Info req);
    match injectMatcher (url_Query (rq_RawQuery req)) (tenant_matcher tenant) param with
    | inl _ => mret tt
    | inr q =>
        let req := set_rq_RawQuery (values_Encode q) req in
        let forward req :=
          if to_rules (rq_Path req) && o_RulesQueryProxy options
          then send_to TRules req else send_to TQuery req in
        if String.eqb (rq_Method req) "POST" then
          match ParseForm req with
          | (_, inl _) => mret tt
          | (req, inr form) =>
              match injectMatcher form (tenant_matcher tenant) param with
              | inl _ => mret tt
              | inr q =>
                  forward (set_rq_ContentLength (Z.of_nat (size q)) (set_rq_Body (values_Encode q) req))
              end
          end
        else forward req
    end.

(** *** Remote writes *)

Definition with_tenant_header (req : Request) : Request :=
  match rq_Info req with
  | Some tenant => if String.eqb tenant "" then req
                   else set_rq_Header (header_Set (o_TenantHeader options) tenant (rq_Header req)) req
  | None => req
  end.

(** One of the goroutines; they only add to the counter. *)
Definition forward_external (body : string) (tenantHeader : Header) (c : remoteWriteClient) : Http unit :=
  r ← Send c body tenantHeader; count (rc_url c) (itoa (res_code r)).

Definition remoteWrite : HandlerFunc := λ req,
  if negb (o_RemoteWriteProxy options) then
    http_Error "There is no remote write targets configured for the server" 406
  else
    let req := with_tenant_header req in
    match rq_BodyErr req with
    | Some err => http_Error "read error" 500
    | None =>
        let body := rq_Body req in
        send_to TWrite (set_rq_Body body req) ;;
        let tenantId := header_Get (rq_Header req) (o_TenantHeader options) in
        let tenantHeader : Header :=
          if String.eqb tenantId "" then ∅ else header_Set (o_TenantHeader options) tenantId ∅ in
        for_each (forward_external body tenantHeader) (o_ExternalRWClients options)
    end.

Definition otlpReceive : HandlerFunc := λ req,
  if negb (o_RemoteWriteProxy options) then
    http_Error "There is no remote write targets configured for the server" 406
  else send_to TWrite (with_tenant_header req).

(** *** Routes *)

Definition apiTenantPrefix : string := "/{tenant_id}/api/v1".
Definition apiGlobalPrefix : string := "/api/v1".

(** The template, whether it is a prefix, the methods (any, when none), and
    the handler, which reads the admission map. *)
Record Route := {
  r_Template : string; r_Prefix : bool; r_Methods : list string; r_Handler : AdmissionMap → HandlerFunc;
}.
Definition tenant_route (ep : string) (methods : list string) (f : HandlerFunc) : Route :=
  {| r_Template := apiTenantPrefix +:+ ep; r_Prefix := false; r_Methods := methods;
     r_Handler := λ a, wrap a f |}.
Definition plain_route (ep : string) (prefix : bool) (f : HandlerFunc) : Route :=
  {| r_Template := apiGlobalPrefix +:+ ep; r_Prefix := prefix; r_Methods := []; r_Handler := λ _, f |}.

Definition addGlobalProxyHandler : list Route :=
  (if o_RemoteWriteProxy options
   then [plain_route "/receive" false remoteWrite; plain_route "/otlp" false (send_to TWrite)] else [])
  ++ (if o_QueryProxy options then [plain_route "" true (send_to TQuery)] else []).
Definition addTenantQueryHandler : list Route :=
  [tenant_route "/query" ["GET"; "POST"] query; tenant_route "/query_range" ["GET"; "POST"] query;
   tenant_route "/series" ["GET"] (matcher matchersParam);
   tenant_route "/labels" ["GET"] (matcher matchersParam);
   tenant_route "/label/*path" ["GET"] (matcher matchersParam);
   tenant_route "/rules" ["GET"] (matcher matchersParam)].
Definition addTenantRemoteWriteHandler : list Route := [tenant_route "/receive" ["POST"] remoteWrite].
Definition addTenantOTLPHandler : list Route := [tenant_route "/otlp" ["POST"] otlpReceive].

Definition epQueryUI : string := "/-/ui".
Definition queryUIHander (prefix : string) (queryHandler uiHandler : HandlerFunc) : HandlerFunc := λ req,
  let req := set_rq_Path (trim_prefix (rq_Path req) prefix) req in
  if contains_sub (rq_Path req) "/api/v1" then queryHandler req else uiHandler req.
(** The pages of the user interface are Thanos's; nothing is sent on. *)
Definition addQueryUIHandler (ui : HandlerFunc) : list Route :=
  [{| r_Template := epQueryUI; r_Prefix := true; r_Methods := [];
      r_Handler := λ _, queryUIHander epQueryUI (send_to TQuery) ui |}].

(** The routes of [NewHandler], in the order they are registered. *)
Definition NewHandler (ui : HandlerFunc) : list Route :=
  addGlobalProxyHandler ++ addTenantQueryHandler ++ addTenantRemoteWriteHandler ++ addTenantOTLPHandler
  ++ (if o_EnabledQueryUI options then addQueryUIHandler ui else []).

(** *** Admission control *)

(** One operation on the [sync.Map]. *)
Inductive AdmissionOp := AStore (k : string) (v : AdmissionVal) | ADelete (k : string).
Definition admission_step (m : AdmissionMap) (op : AdmissionOp) : AdmissionMap :=
  match op with AStore k v => <[k := v]> m | ADelete k => delete k m end.

(** The operations [SetAdmissionControlHandler] performs, in order, from the
    value under ["/-/"]; the type assertion panics on a tenant's [true]. *)
Definition SetAdmission_ops (m : AdmissionMap) (tenants : list string) : Outcome (list AdmissionOp) :=
  if o_EnabledTenantsAdmission options then
    match m !! "/-/" with
    | None => Ok (AStore "/-/" (AV_tenants tenants) :: ((λ t, AStore t AV_true) <$> tenants))
    | Some (AV_tenants old) =>
        Ok (((λ t, AStore t AV_true) <$> difference tenants old)
            ++ (ADelete <$> difference old tenants) ++ [AStore "/-/" (AV_tenants tenants)])
    | Some AV_true => Panic "interface conversion"
    end
  else Ok [].

Definition SetAdmissionControlHandler (m : AdmissionMap) (tenants : list string) : Outcome AdmissionMap :=
  match SetAdmission_ops m tenants with
  | Ok ops => Ok (foldl admission_step m ops)
  | Err e => Err e
  | Panic p => Panic p
  end.
End handlers.

(** ** pkg/monitoring-agent-proxy/server.go *)

Module AgentProxy.
Definition write : string := "/api/v1/write".
Definition receive : string := "/api/v1/receive".

(** The routes of [NewServer]: method and pattern. *)
Definition routes : list (string * string) :=
  [("GET", "/api/v1/query"); ("POST", "/api/v1/query"); ("GET", "/api/v1/query_range");
   ("POST", "/api/v1/query_range"); ("GET", "/api/v1/series"); ("GET", "/api/v1/labels");
   ("GET", "/api/v1/label/*path"); ("GET", "/api/v1/rules"); ("POST", "/api/v1/receive");
   ("POST", "/api/v1/otlp"); ("POST", "/api/v1/write")].

(** The request handed to the gateway proxy. *)
Definition wrap (tenant : string) (req : Request) : Request :=
  let path := if String.eqb (rq_Path req) write then receive else rq_Path req in
  let path := if negb (String.eqb tenant "") then "/" +:+ tenant +:+ path else path in
  set_rq_Path path req.
End AgentProxy.

(** ** The router *)

(** gorilla/mux, as its documentation describes the templates the source uses:
    text matches itself, [{name}] a non-empty run of characters other than the
    slash; of the routes that match, the first registered serves. *)
Section mux.
Context (template_match : string → string → option (gmap string string))
        (prefix_match : string → string → bool).

Definition path_matches (r : Route) (path : string) : option (gmap string string) :=
  if r_Prefix r then (if prefix_match (r_Template r) path then Some ∅ else None)
  else template_match (r_Template r) path.

Definition route_matches (r : Route) (req : Request) (vars : gmap string string) : Prop :=
  path_matches r (rq_Path req) = Some vars ∧ (r_Methods r = [] ∨ rq_Method req ∈ r_Methods r).
End mux.

Class Mux := {
  template_match : string → string → option (gmap string string);
  prefix_match : string → string → bool;
  mux_handler : list Route → Request → option (Route * gmap string string);
  template_literal : ∀ tpl path, contains_char "{"%char tpl = false →
    template_match tpl path = if String.eqb path tpl then Some ∅ else None;
  template_tenant : ∀ ep path vars, contains_char "{"%char ep = false → has_prefix ep "/" = true →
    template_match ("/{tenant_id}" +:+ ep) path = Some vars ↔
    ∃ t, t ≠ "" ∧ contains_char "/"%char t = false ∧ path = "/" +:+ t +:+ ep
         ∧ vars = <["tenant_id" := t]> ∅;
  prefix_literal : ∀ tpl path, contains_char "{"%char tpl = false →
    prefix_match tpl path = has_prefix path tpl;
  mux_handler_first : ∀ rs req r vars,
    mux_handler rs req = Some (r, vars) ↔
    ∃ before after, rs = before ++ r :: after ∧ route_matches template_match prefix_match r req vars
      ∧ Forall (λ r', ∀ vars', ¬ route_matches template_match prefix_match r' req vars') before;
}.

Section serve.
Context `{!PromQL} `{!HttpClient} `{!MapRange} `{!Mux}.

(** [Router().ServeHTTP]: the handler of the first route, or 405 when only
    the method differs, or 404. *)
Definition serve (rs : list Route) (admission : AdmissionMap) : HandlerFunc := λ req,
  match mux_handler rs req with
  | Some (r, vars) => r_Handler r admission (set_rq_Vars vars req)
  | None =>
      if existsb (λ r, bool_decide (is_Some (path_matches template_match prefix_match r (rq_Path req)))) rs
      then http_Error "" 405 else http_Error "404 page not found" 404
  end.
End serve.
