(* ===== verification/GatewayFacts.v ===== *)
(** What the gateway guarantees: who is admitted, that a tenant reads and writes
    under its own name only, which requests are routed at all, and that the
    agent proxy and the gateway agree on the paths. *)
From stdpp Require Import base gmap strings list pretty sorting.
From Stdlib Require Import Ascii String.
From S2P Require Import Prelude GoStd K8s Base Url Gateway.
Open Scope nat_scope.

(** ** Running handlers *)

Lemma run_modify f (s : Gw) : modify_st f s = (Ok tt, f s).
Proof. reflexivity. Qed.

(** ** Admission control *)

Lemma difference_spec a b x : x ∈ difference a b ↔ x ∈ a ∧ x ∉ b.
Proof.
  unfold difference. rewrite list_elem_of_filter.
  assert (H : ∀ m : gmap string unit, foldl (λ m v, <[v := tt]> m) m b !! x = None ↔ x ∉ b ∧ m !! x = None).
  { induction b as [|y b IH]; intros m; simpl.
    - split; [intros H; split; [apply not_elem_of_nil|done]|by intros [_ ?]].
    - rewrite IH, lookup_insert_None, not_elem_of_cons. naive_solver. }
  rewrite H, lookup_empty. naive_solver.
Qed.

Section admission.
Context (options : Options) (Hon : o_EnabledTenantsAdmission options = true).

(** What the admission map stands for: no configuration yet, or the set of
    tenants of the last one. *)
Definition admits (m : AdmissionMap) (config : option (list string)) : Prop :=
  match config with
  | None => m = ∅
  | Some tenants =>
      m !! "/-/" = Some (AV_tenants tenants)
      ∧ ∀ t, t ≠ "/-/" → (is_Some (m !! t) ↔ t ∈ tenants)
  end.

Lemma steps_lookup ops m t :
  (∀ op, op ∈ ops → match op with AStore k _ | ADelete k => k ≠ t end) →
  foldl admission_step m ops !! t = m !! t.
Proof.
  revert m. induction ops as [|op ops IH]; intros m H; [done|]. simpl.
  rewrite IH by (intros; apply H; by right).
  pose proof (H op ltac:(by left)). destruct op; simpl;
    [by rewrite lookup_insert_ne|by rewrite lookup_delete_ne].
Qed.

Lemma stores_lookup l m t :
  is_Some (foldl admission_step m ((λ t, AStore t AV_true) <$> l) !! t) ↔ t ∈ l ∨ is_Some (m !! t).
Proof.
  revert m. induction l as [|x l IH]; intros m; simpl; [set_solver|].
  rewrite IH, lookup_insert_is_Some', elem_of_cons. naive_solver.
Qed.

Lemma deletes_lookup l m t :
  is_Some (foldl admission_step m (ADelete <$> l) !! t) ↔ t ∉ l ∧ is_Some (m !! t).
Proof.
  revert m. induction l as [|x l IH]; intros m; simpl; [set_solver|].
  rewrite IH, lookup_delete_is_Some, not_elem_of_cons. naive_solver.
Qed.

(** One call refines "the admitted set becomes the new configuration". *)
Lemma SetAdmission_refines m config tenants :
  admits m config → "/-/" ∉ tenants →
  ∃ m', SetAdmissionControlHandler options m tenants = Ok m' ∧ admits m' (Some tenants).
Proof.
  intros Hm Hbad. unfold SetAdmissionControlHandler, SetAdmission_ops. rewrite Hon.
  destruct config as [old|]; simpl in Hm.
  - destruct Hm as [Hkey Hm]. rewrite Hkey. eexists. split; [done|].
    rewrite !foldl_app. simpl. split; [by rewrite lookup_insert_eq|]. intros t Ht.
    rewrite lookup_insert_ne by done. rewrite deletes_lookup, stores_lookup, (Hm t Ht).
    rewrite !difference_spec. destruct (decide (t ∈ tenants)), (decide (t ∈ old)); naive_solver.
  - subst m. rewrite lookup_empty. eexists. split; [done|]. simpl. split.
    + rewrite steps_lookup; [by rewrite lookup_insert_eq|].
      intros op (t & -> & Ht)%list_elem_of_fmap. by intros ->.
    + intros t Ht. rewrite stores_lookup, lookup_insert_ne, lookup_empty by done.
      split; [by intros [?|[]]|by left].
Qed.

(** The configurations of a run, one after the other. *)
Fixpoint set_all (m : AdmissionMap) (configs : list (list string)) : Outcome AdmissionMap :=
  match configs with
  | [] => Ok m
  | c :: cs => match SetAdmissionControlHandler options m c with
               | Ok m' => set_all m' cs
               | Err e => Err e
               | Panic p => Panic p
               end
  end.

Lemma set_all_refines m config configs :
  admits m config → Forall (λ c, "/-/" ∉ c) configs →
  ∃ m', set_all m configs = Ok m'
        ∧ admits m' (match last configs with None => config | Some c => Some c end).
Proof.
  revert m config. induction configs as [|c cs IH]; intros m config Hm Hbad; [by exists m|].
  apply Forall_cons in Hbad as [Hc Hcs].
  destruct (SetAdmission_refines m config c Hm Hc) as (m1 & H1 & Hm1). simpl. rewrite H1.
  destruct (IH m1 (Some c) Hm1 Hcs) as (m2 & H2 & Hm2). exists m2. split; [done|].
  rewrite last_cons. by destruct (last cs).
Qed.
End admission.

(** After any sequence of admission configurations the tenants admitted are
    exactly those of the last one: nothing of an earlier configuration lingers
    and nothing of the last is lost. *)
Theorem admission_is_last_config options configs tenants :
  o_EnabledTenantsAdmission options = true →
  Forall (λ c, "/-/" ∉ c) (configs ++ [tenants]) →
  ∃ m, set_all options ∅ (configs ++ [tenants]) = Ok m
       ∧ ∀ t, t ≠ "/-/" → (is_Some (m !! t) ↔ t ∈ tenants).
Proof.
  intros Hon Hbad. destruct (set_all_refines options Hon ∅ None _ eq_refl Hbad) as (m & Hm & Ha).
  exists m. split; [done|]. rewrite last_snoc in Ha. by destruct Ha.
Qed.

(** C33: while a configuration is being replaced, operation by operation and with
    requests in between, a tenant of both configurations is never turned away
    and a tenant of neither is never let in. *)
Theorem admission_update_is_gradual options m old tenants ops n t :
  o_EnabledTenantsAdmission options = true → admits m (Some old) →
  SetAdmission_ops options m tenants = Ok ops → t ≠ "/-/" →
  let m' := foldl admission_step m (take n ops) in
  (t ∈ old → t ∈ tenants → is_Some (m' !! t)) ∧ (t ∉ old → t ∉ tenants → m' !! t = None).
Proof.
  intros Hon [Hkey Hm] Hops Ht. unfold SetAdmission_ops in Hops. rewrite Hon, Hkey in Hops.
  inversion Hops; subst; clear Hops. cbv zeta.
  assert (Hsame : (t ∈ old ↔ t ∈ tenants) → ∀ op, op ∈ take n
    (((λ t, AStore t AV_true) <$> difference tenants old) ++ (ADelete <$> difference old tenants)
       ++ [AStore "/-/" (AV_tenants tenants)]) → match op with AStore k _ | ADelete k => k ≠ t end).
  { intros Hiff op Hop. apply (subseteq_take n) in Hop.
    rewrite !elem_of_app, list_elem_of_singleton, !list_elem_of_fmap in Hop.
    destruct Hop as [(x & -> & Hx)|[(x & -> & Hx)| ->]]; [..|congruence];
      apply difference_spec in Hx as [H1 H2]; intros ->; naive_solver. }
  split; intros H1 H2.
  - rewrite steps_lookup by (apply Hsame; naive_solver). by apply Hm.
  - rewrite steps_lookup by (apply Hsame; naive_solver).
    destruct (m !! t) eqn:E; [|done]. destruct H1. apply Hm; [done|]. by eexists.
Qed.

Section requests.
Context {HP : PromQL} {HH : HttpClient} {HM : MapRange} (options : Options).

(** C3: a request of no tenant is answered 404, with admission control or
    without, and with it a request of a tenant that is not in the admission map
    is answered 403; nothing is sent anywhere, whichever handler the request was
    for. *)
Theorem not_admitted_not_forwarded admission (f : HandlerFunc) req s :
  let tenant := map_get (rq_Vars req) "tenant_id" in
  tenant = "" ∨ (o_EnabledTenantsAdmission options = true ∧ admission !! tenant = None) →
  ∃ msg s', wrap options admission f req s = (Ok tt, s')
    ∧ gw_Errors s' = gw_Errors s ++ [(if decide (tenant = "") then 404%Z else 403%Z, msg)]
    ∧ gw_Sent s' = gw_Sent s ∧ gw_Counts s' = gw_Counts s.
Proof.
  cbv zeta. intros H. unfold wrap, withRequestInfo, withTenantsAdmission. simpl.
  destruct (String.eqb_spec (map_get (rq_Vars req) "tenant_id") "") as [E|E].
  - rewrite decide_True by done. by eexists _, _.
  - rewrite decide_False by done. destruct H as [|[-> ->]]; [done|]. by eexists _, _.
Qed.

(** The request as the endpoint's handler sees it, and when it does. *)
Lemma wrap_eq admission (f : HandlerFunc) req tenant :
  map_get (rq_Vars req) "tenant_id" = tenant → tenant ≠ "" →
  wrap options admission f req
  = if o_EnabledTenantsAdmission options && bool_decide (admission !! tenant = None)
    then http_Error ("tenant " +:+ tenant +:+ " is not allowed to access") 403
    else (if o_CertAuthenticator options then withAuthorization f else f)
           (set_rq_Info (Some tenant) (set_rq_Path (strip_tenant (rq_Path req)) req)).
Proof.
  intros <- Hne%String.eqb_neq. unfold wrap, withRequestInfo, withTenantsAdmission. cbn [rq_Info rq_Vars set_rq_Info set_rq_Path].
  rewrite Hne. destruct (o_EnabledTenantsAdmission options); [|done].
  destruct (admission !! _) as [v|]; [by rewrite bool_decide_false|by rewrite bool_decide_true].
Qed.

(** Certificate authentication does not protect anything: when the common
    name of the certificate is not the tenant's, or there is no certificate,
    the handler answers 401 and then runs the protected handler all the same,
    on the same request. *)
Theorem cert_mismatch_is_forwarded (f : HandlerFunc) req certs tenant s :
  rq_TLS req = Some certs → rq_Info req = Some tenant → head certs ≠ Some tenant → tenant ≠ "" →
  ∃ s', withAuthorization f req s = f req s'
    ∧ gw_Sent s' = gw_Sent s ∧ gw_Errors s' ≠ gw_Errors s
    ∧ Forall (λ e, e = (401%Z, "invalid cert")) (drop (length (gw_Errors s)) (gw_Errors s')).
Proof.
  intros Htls Hinfo Hcert Hne. unfold withAuthorization, AuthenticateRequest. rewrite Htls, Hinfo.
  assert (Hgrow : ∀ (l : list (Z * string)) x l', l ++ x :: l' ≠ l).
  { intros l x l' E. apply (f_equal length) in E. rewrite length_app in E. simpl in E. lia. }
  destruct certs as [|cn certs]; simpl in *.
  - unfold mbind, M_mbind, M_bind; cbn -[String.eqb].
    rewrite (proj2 (String.eqb_neq "" tenant)) by congruence.
    eexists. split; [reflexivity|]. simpl. split; [done|]. rewrite <-app_assoc.
    split; [apply Hgrow|]. rewrite drop_app_length. by repeat constructor.
  - unfold mbind, M_mbind, M_bind; cbn -[String.eqb].
    rewrite (proj2 (String.eqb_neq cn tenant)) by congruence.
    eexists. split; [reflexivity|]. simpl. split; [done|]. split; [apply Hgrow|].
    rewrite drop_app_length. by repeat constructor.
Qed.

(** *** Queries *)

(** What an upstream that calls [FormValue("query")] evaluates: the first
    value of the body of a form POST, else of the URL. *)
Definition upstream_query (r : Request) : string :=
  let form := if String.eqb (rq_Method r) "POST"
              then match (ParseForm r).2 with inr v => v | inl _ => ∅ end else ∅ in
  match form !! queryParam with
  | Some (x :: _) => x
  | _ => values_Get (url_Query (rq_RawQuery r)) queryParam
  end.

(** The text of an expression confined to the tenant. *)
Definition confined (tenant q : string) : Prop :=
  ∃ e, restricted (tenant_matcher options tenant) e ∧ q = Expr_String e.

Lemma enforced_query m v q found :
  enforceQueryValues m v = inr (q, found) →
  if found then ∃ e, restricted m e ∧ q = values_Encode (values_Set v queryParam (Expr_String e))
  else values_Get v queryParam = "".
Proof.
  unfold enforceQueryValues. destruct (String.eqb_spec (values_Get v queryParam) "") as [E|_].
  - by intros [= <- <-].
  - destruct (ParseExpr _) as [|e]; [done|]. destruct (EnforceNode m e) as [|e'] eqn:He; [done|].
    intros [= <- <-]. exists e'. split; [by eapply EnforceNode_restricts|done].
Qed.

Definition no_empty (v : Values) : Prop := ∀ k vs, v !! k = Some vs → vs ≠ [].

Lemma no_empty_nil : no_empty ∅.
Proof. intros k vs. by rewrite lookup_empty. Qed.

Lemma values_Set_no_empty v k x : no_empty v → no_empty (values_Set v k x).
Proof.
  intros Hv k' vs. unfold values_Set. rewrite lookup_insert_Some.
  intros [[_ <-]|[_ ?]]; [done|by eapply Hv].
Qed.

Lemma ParseQuery_no_empty s : no_empty (ParseQuery s).1.
Proof.
  unfold ParseQuery.
  assert (H : ∀ l acc, no_empty acc.1 → no_empty (foldl parse_field acc l).1).
  { induction l as [|seg l IH]; intros acc Hacc; [done|]. apply IH. unfold parse_field.
    destruct (contains_char ";" seg); [done|]. destruct (String.eqb seg ""); [done|].
    destruct (QueryUnescape (cut_eq seg).1), (QueryUnescape (cut_eq seg).2); try done. simpl. intros k vs.
    unfold values_Add. rewrite lookup_insert_Some. intros [[_ <-]|[_ ?]]; [|by eapply Hacc].
    by destruct (default [] _). }
  apply H, no_empty_nil.
Qed.

Lemma get_after_set v k x : no_empty v → values_Get (url_Query (values_Encode (values_Set v k x))) k = x.
Proof.
  intros Hv. unfold url_Query. rewrite ParseQuery_Encode' by by apply values_Set_no_empty.
  unfold values_Get, values_Set. simpl. by rewrite lookup_insert_eq.
Qed.

(** The query a request evaluates upstream is empty or confined. *)
Definition query_ok (tenant : string) (r : Request) : Prop :=
  upstream_query r = "" ∨ confined tenant (upstream_query r).

Definition url_ok (tenant : string) (r : Request) : Prop :=
  values_Get (url_Query (rq_RawQuery r)) queryParam = ""
  ∨ confined tenant (values_Get (url_Query (rq_RawQuery r)) queryParam).

Lemma url_enforced tenant req q found :
  enforceQueryValues (tenant_matcher options tenant) (url_Query (rq_RawQuery req)) = inr (q, found) →
  ∀ r, rq_RawQuery r = rq_RawQuery req → url_ok tenant (if (found : bool) then set_rq_RawQuery q r else r).
Proof.
  intros He r Hr. apply enforced_query in He. destruct found.
  - destruct He as (e & Hre & ->). right. exists e. split; [done|]. simpl.
    apply get_after_set, ParseQuery_no_empty.
  - left. by rewrite Hr.
Qed.

Lemma query_ok_url tenant r :
  url_ok tenant r →
  (rq_Method r = "POST" → ∀ v x l, (ParseForm r).2 = inr v → v !! queryParam = Some (x :: l) →
     confined tenant x) →
  query_ok tenant r.
Proof.
  intros Hurl Hform. unfold query_ok, upstream_query.
  destruct (String.eqb_spec (rq_Method r) "POST") as [Hm|]; [|done].
  destruct (ParseForm r).2 as [e|v] eqn:E; [by rewrite lookup_empty|].
  destruct (v !! queryParam) as [[|x l]|] eqn:Ev; [done| |done]. right. by eapply Hform.
Qed.

Lemma ParseForm_inr r r' v :
  ParseForm r = (r', inr v) →
  rq_Method r' = rq_Method r ∧ rq_RawQuery r' = rq_RawQuery r ∧ rq_Header r' = rq_Header r
  ∧ no_empty v ∧ rq_BodyErr r' = rq_BodyErr r
  ∧ (rq_Body r' = "" ∨ (v = ∅ ∧ ∀ r2, rq_Header r2 = rq_Header r → ∀ v2, (ParseForm r2).2 = inr v2 → v2 = ∅)).
Proof.
  unfold ParseForm.
  destruct (String.eqb (media_type (header_Get (rq_Header r) "Content-Type")) _) eqn:Ect.
  - destruct (rq_BodyErr r); [done|]. destruct (ParseQuery (rq_Body r)) as [form bad] eqn:Ef.
    destruct (bad || _); [done|]. intros [= <- <-]. repeat split; [|by left].
    pose proof (ParseQuery_no_empty (rq_Body r)) as H. by rewrite Ef in H.
  - destruct (ParseQuery (rq_RawQuery r)).2; [done|]. intros [= <- <-].
    repeat split; [apply no_empty_nil|]. right. split; [done|].
    intros r2 -> v2. rewrite Ect. destruct (ParseQuery _).2; by intros [= <-].
Qed.

(** A form body with the given content, or none, parses to that content. *)
Lemma ParseForm_body r v2 form :
  no_empty form → rq_Body r = values_Encode form → (ParseForm r).2 = inr v2 → v2 = form ∨ v2 = ∅.
Proof.
  intros Hform Hbody. unfold ParseForm.
  destruct (String.eqb _ _).
  - destruct (rq_BodyErr r); [done|]. rewrite Hbody, ParseQuery_Encode' by done. simpl.
    destruct (ParseQuery (rq_RawQuery r)).2; [done|]. intros [= <-]. by left.
  - destruct (ParseQuery _).2; [done|]. intros [= <-]. by right.
Qed.

Lemma post_form_meta req req1 f :
  post_form req = (req1, f) →
  rq_Info req1 = rq_Info req ∧ rq_Path req1 = rq_Path req ∧ rq_Header req1 = rq_Header req
  ∧ rq_RawQuery req1 = rq_RawQuery req ∧ rq_Method req1 = rq_Method req.
Proof.
  unfold post_form. destruct (String.eqb (rq_Method req) "POST"); [|by intros [= <- <-]].
  unfold ParseForm. destruct (String.eqb _ _).
  - destruct (rq_BodyErr req); [by intros [= <- <-]|].
    destruct (ParseQuery (rq_Body req)) as [? bad]. by destruct (bad || _); intros [= <- <-].
  - by destruct (ParseQuery (rq_RawQuery req)).2; intros [= <- <-].
Qed.

(** C1: whatever a tenant asks, the query its request evaluates upstream is
    empty or confined to the tenant: over all parameters in the URL and in
    a form body, repeated and conflicting ones included. A request that
    cannot be confined is not forwarded. *)
Theorem query_is_confined req tenant s r s' :
  rq_Info req = Some tenant → query options req s = (r, s') →
  gw_Sent s' = gw_Sent s
  ∨ ∃ out, gw_Sent s' = gw_Sent s ++ [{| s_Target := TQuery; s_Req := out |}]
           ∧ query_ok tenant out ∧ rq_Path out = rq_Path req ∧ rq_Header out = rq_Header req.
Proof.
  intros Hinfo Hrun. unfold query in Hrun.
  destruct (o_QueryProxy options); [|by inversion Hrun; left]. simpl in Hrun.
  destruct (post_form req) as [req1 [err|postForm]] eqn:Epf; [by inversion Hrun; left|].
  destruct (post_form_meta _ _ _ Epf) as (Hi1 & Hp1 & Hh1 & Hq1 & Hm1).
  destruct (_ && _); [by inversion Hrun; left|].
  rewrite Hi1, Hinfo in Hrun. cbn [of_option] in Hrun.
  change (M_ret tenant ≫= ?k) with (k tenant) in Hrun. cbv beta in Hrun.
  destruct (enforceQueryValues (tenant_matcher options tenant) (url_Query (rq_RawQuery req))) as [e|[q found]] eqn:Eurl.
  { destruct e; inversion Hrun; by left. }
  assert (Hurl := url_enforced tenant req q found Eurl).
  destruct postForm as [form|].
  - destruct (enforceQueryValues (tenant_matcher options tenant) form) as [e|[q2 found2]] eqn:Eform.
    { destruct e; inversion Hrun; by left. }
    unfold post_form in Epf. destruct (String.eqb (rq_Method req) "POST") eqn:Em; [|by inversion Epf].
    destruct (ParseForm req) as [req1' [|form']] eqn:EPF; inversion Epf; subst req1' form'.
    apply ParseForm_inr in EPF as (_ & _ & _ & Hne & _ & Hbody).
    inversion Hrun; subst; clear Hrun. right. eexists. split; [reflexivity|].
    apply enforced_query in Eform.
    split; [|by destruct found, found2].
    apply query_ok_url.
    + specialize (Hurl req1 Hq1). by destruct found, found2.
    + intros _ v x l Hv Hx. destruct found2.
      * destruct Eform as (e & Hre & ->). exists e. split; [done|].
        eapply ParseForm_body in Hv; [|by apply (values_Set_no_empty form queryParam (Expr_String e))|reflexivity].
        destruct Hv as [->| ->]; [|by rewrite lookup_empty in Hx].
        unfold values_Set in Hx. rewrite lookup_insert_eq in Hx. by inversion Hx.
      * exfalso. destruct Hbody as [Hb|[_ Hb]].
        -- eapply (ParseForm_body _ v ∅) in Hv; [|apply no_empty_nil|by destruct found].
           destruct Hv as [->| ->]; by rewrite lookup_empty in Hx.
        -- apply Hb in Hv as ->; [by rewrite lookup_empty in Hx|]. by destruct found.
  - inversion Hrun; subst; clear Hrun. right. eexists. split; [reflexivity|].
    split; [|by destruct found].
    apply query_ok_url; [by apply Hurl|].
    unfold post_form in Epf. destruct (String.eqb_spec (rq_Method req) "POST") as [Em|Em].
    + destruct (ParseForm req) as [? []]; inversion Epf.
    + intros Hm. destruct Em. rewrite <-Hm1, <-Hm. by destruct found.
Qed.

(** *** Series, labels and rules *)

(** One of the client's selectors as it goes out: the same matchers, and the
    tenant's after them. *)
Definition confines (tenant sel out : string) : Prop :=
  ∃ ms, ParseMetricSelector sel = inr ms ∧ out = matchersToString (ms ++ [tenant_matcher options tenant]).

(** The selectors that go out for those that came in. *)
Definition confined_selectors (tenant : string) (given out : list string) : Prop :=
  match given with
  | [] => out = [matchersToString [tenant_matcher options tenant]]
  | _ => Forall2 (confines tenant) given out
  end.

Lemma inject_all_spec m l l' :
  inject_all m l = inr l' →
  Forall2 (λ s s', ∃ ms, ParseMetricSelector s = inr ms ∧ s' = matchersToString (ms ++ [m])) l l'.
Proof.
  revert l'. induction l as [|s l IH]; intros l' H; simpl in H; [inversion H; constructor|].
  destruct (ParseMetricSelector s) as [|ms] eqn:E; [done|].
  destruct (inject_all m l) as [|rest] eqn:Er; [done|]. inversion H; subst.
  constructor; [by exists ms|by apply IH].
Qed.

Lemma injectMatcher_spec q tenant param q' :
  injectMatcher q (tenant_matcher options tenant) param = inr q' →
  (∃ l, q' !! param = Some l ∧ confined_selectors tenant (default [] (q !! param)) l)
  ∧ ∀ k, k ≠ param → q' !! k = q !! k.
Proof.
  unfold injectMatcher, confined_selectors. destruct (default [] (q !! param)) as [|s l].
  - intros [= <-]. unfold values_Set. split; [|intros k Hk; by rewrite lookup_insert_ne].
    eexists. by rewrite lookup_insert_eq.
  - destruct (inject_all _ (s :: l)) as [|l'] eqn:Ei; [done|]. intros [= <-].
    apply inject_all_spec in Ei. split; [|intros k Hk; by rewrite lookup_insert_ne].
    exists l'. by rewrite lookup_insert_eq.
Qed.

Lemma confined_selectors_some tenant given out : confined_selectors tenant given out → out ≠ [].
Proof. destruct given; simpl; [by intros ->|]. intros H. by inversion H. Qed.

Lemma injected_no_empty q tenant param q' :
  no_empty q → injectMatcher q (tenant_matcher options tenant) param = inr q' → no_empty q'.
Proof.
  intros Hq Hi. apply injectMatcher_spec in Hi as [(l & Hl & Hc) Ho]. apply confined_selectors_some in Hc. intros k vs Hk.
  destruct (decide (k = param)) as [->|Hkp]; [by rewrite Hl in Hk; inversion Hk; subst|].
  rewrite Ho in Hk by done. by eapply Hq.
Qed.

(** C2: a tenant's series, label and rule requests reach a backend only with
    selectors that carry the tenant's matcher: those the client sent, in their
    order, each with its own matchers and the tenant's after them, or the
    tenant's matcher alone when it sent none; its other parameters are
    untouched. *)
Theorem matcher_is_confined req tenant s r s' :
  rq_Info req = Some tenant → rq_Method req ≠ "POST" →
  matcher options matchersParam req s = (r, s') →
  gw_Sent s' = gw_Sent s
  ∨ ∃ out q, gw_Sent s' = gw_Sent s ++ [out]
      ∧ s_Target out = (if to_rules (rq_Path req) && o_RulesQueryProxy options then TRules else TQuery)
      ∧ ParseQuery (rq_RawQuery (s_Req out)) = (q, false)
      ∧ (∃ sels, q !! matchersParam = Some sels
           ∧ confined_selectors tenant (default [] (url_Query (rq_RawQuery req) !! matchersParam)) sels)
      ∧ ∀ k, k ≠ matchersParam → q !! k = url_Query (rq_RawQuery req) !! k.
Proof.
  intros Hinfo Hm Hrun. unfold matcher in Hrun.
  destruct (o_QueryProxy options); [|by inversion Hrun; left]. cbn [negb] in Hrun.
  rewrite Hinfo in Hrun. cbn [of_option] in Hrun.
  change (M_ret tenant ≫= ?k) with (k tenant) in Hrun. cbv beta in Hrun.
  destruct (injectMatcher _ (tenant_matcher options tenant) _) as [|q] eqn:Eq; [by inversion Hrun; left|].
  cbn [rq_Method set_rq_RawQuery] in Hrun.
  rewrite (proj2 (String.eqb_neq (rq_Method req) "POST")) in Hrun by done.
  right. exists {| s_Target := if to_rules (rq_Path req) && o_RulesQueryProxy options then TRules else TQuery;
                   s_Req := set_rq_RawQuery (values_Encode q) req |}, q.
  split. { cbn [rq_Path set_rq_RawQuery] in Hrun. by destruct (_ && _); inversion Hrun. }
  split; [done|]. split.
  { apply ParseQuery_Encode'. eapply injected_no_empty; [apply ParseQuery_no_empty|exact Eq]. }
  apply injectMatcher_spec in Eq as [Hsel Ho]. by split.
Qed.

(** *** Remote writes *)

(** What became of the write for one of the external targets: the request its
    server got, [None] when none was made, and the code it was counted with. *)
Record Delivery := { d_client : remoteWriteClient; d_request : option Request; d_code : Z }.

(** The header the target gets under one canonical name: the target's own
    setting when it configures one; else the fixed headers of a remote write; the
    tenant's header; and none of the client's others. *)
Definition external_header (tenant : string) (c : remoteWriteClient) (k : string) (vs : option (list string)) : Prop :=
  let configured := λ v, ∃ key, rc_headers c !! key = Some v ∧ canonical_key key = k in
  (∃ v, configured v ∧ vs = Some [v])
  ∨ (∀ v, ¬ configured v)
    ∧ vs = if decide (k = "X-Prometheus-Remote-Write-Version") then Some ["0.1.0"]
           else if decide (k = "Content-Type") then Some ["application/x-protobuf"]
           else if decide (k = "Content-Encoding")
                then Some ((if decide (canonical_key (o_TenantHeader options) = k) then [tenant] else []) ++ ["snappy"])
           else if decide (k = canonical_key (o_TenantHeader options)) then Some [tenant]
           else None.

(** The body is posted to the target's URL, and the answer counted; a URL no
    request can be made of is counted as 400, no answer as 502. *)
Definition delivered (tenant body : string) (d : Delivery) : Prop :=
  match NewRequest_err (rc_url (d_client d)), d_request d with
  | Some _, None => d_code d = 400%Z
  | None, Some r =>
      rq_Method r = "POST" ∧ rq_Path r = rc_url (d_client d) ∧ rq_RawQuery r = "" ∧ rq_Body r = body
      ∧ (∀ k, external_header tenant (d_client d) k (rq_Header r !! k))
      ∧ d_code d = match Client_Do r with inl _ => 502%Z | inr (code, _, _) => code end
  | _, _ => False
  end.

Definition delivery_sent (d : Delivery) : option Sent :=
  (λ r, {| s_Target := TExternal (rc_url (d_client d)); s_Req := r |}) <$> d_request d.

Lemma set_headers_lookup l (h : Header) k :
  let h' := foldl (λ acc kv, header_Set kv.1 kv.2 acc) h l in
  (∃ kv, kv ∈ l ∧ canonical_key kv.1 = k ∧ h' !! k = Some [kv.2])
  ∨ (∀ kv, kv ∈ l → canonical_key kv.1 ≠ k) ∧ h' !! k = h !! k.
Proof.
  cbv zeta. revert h. induction l as [|kv l IH]; intros h; simpl.
  { right. split; [|done]. by intros kv ?%elem_of_nil. }
  destruct (IH (header_Set kv.1 kv.2 h)) as [(kv' & Hin & Hk & Hv)|[Hno Hv]].
  { left. exists kv'. split; [by right|done]. }
  rewrite Hv. unfold header_Set. destruct (decide (canonical_key kv.1 = k)) as [<-|Hne].
  - left. exists kv. rewrite lookup_insert_eq. split; [by left|done].
  - right. rewrite lookup_insert_ne by done. split; [|done]. intros kv' [->|Hin]%elem_of_cons; [done|by apply Hno].
Qed.

Lemma tenant_header_copied tenant :
  foldl (λ acc kv, foldl (λ acc v, header_Add kv.1 v acc) acc kv.2) (∅ : Header)
    (map_range "Send" (header_Set (o_TenantHeader options) tenant ∅))
  = <[canonical_key (o_TenantHeader options) := [tenant]]> ∅.
Proof.
  pose proof (map_range_perm "Send" (header_Set (o_TenantHeader options) tenant ∅)) as Hp.
  unfold header_Set in Hp at 2. rewrite insert_empty, map_to_list_singleton in Hp.
  apply Permutation_singleton_r in Hp. rewrite Hp. simpl. unfold header_Add.
  by rewrite canonical_key_idemp, lookup_empty.
Qed.

Lemma write_request_headers tenant c body k :
  external_header tenant c k (rq_Header (inject_headers (rc_headers c)
    (write_request c body (header_Set (o_TenantHeader options) tenant ∅))) !! k).
Proof.
  unfold inject_headers, external_header. cbn [rq_Header set_rq_Header].
  assert (Hin : ∀ kv, kv ∈ map_range "RoundTrip" (rc_headers c) ↔ rc_headers c !! kv.1 = Some kv.2).
  { intros [key v]. rewrite (map_range_perm "RoundTrip" (rc_headers c)). apply elem_of_map_to_list. }
  match goal with |- context [foldl _ ?h ?l] => destruct (set_headers_lookup l h k) as [(kv & Hkv & Hk & Hv)|[Hno Hv]] end;
    rewrite Hv.
  - left. exists kv.2. split; [exists kv.1; by rewrite <-Hin|done].
  - right. split. { intros v (key & Hkey & Hk). by apply (Hno (key, v)); [apply Hin|]. }
    unfold write_request. cbn [rq_Header]. rewrite tenant_header_copied. unfold header_Set, header_Add.
    change (canonical_key "Content-Encoding") with "Content-Encoding".
    change (canonical_key "Content-Type") with "Content-Type".
    change (canonical_key "X-Prometheus-Remote-Write-Version") with "X-Prometheus-Remote-Write-Version".
    rewrite !lookup_insert, lookup_empty. repeat case_decide; by subst.
Qed.

Lemma forward_external_delivers tenant body c s :
  let h := header_Set (o_TenantHeader options) tenant ∅ in
  ∃ d, d_client d = c ∧ delivered tenant body d
    ∧ forward_external body h c s
      = (Ok tt, {| gw_Errors := gw_Errors s; gw_Sent := gw_Sent s ++ omap delivery_sent [d];
                   gw_Counts := gw_Counts s ++ [(rc_url c, itoa (d_code d))] |}).
Proof.
  cbv zeta. unfold forward_external, Send, delivered. destruct (NewRequest_err (rc_url c)) as [err|] eqn:E.
  - exists {| d_client := c; d_request := None; d_code := 400 |}. cbn. rewrite E. split; [done|]. split; [done|].
    by rewrite app_nil_r.
  - set (r := inject_headers _ _).
    exists {| d_client := c; d_request := Some r;
              d_code := match Client_Do r with inl _ => 502%Z | inr (code, _, _) => code end |}.
    cbn -[r]. rewrite E. split; [done|]. split.
    + repeat split. intros k. apply write_request_headers.
    + unfold send_to, modify_st, mbind, M_mbind, M_bind. by destruct (Client_Do r) as [|[[code status] text]].
Qed.

Lemma forward_all tenant body cs s :
  let h := header_Set (o_TenantHeader options) tenant ∅ in
  ∃ ds, d_client <$> ds = cs ∧ Forall (delivered tenant body) ds
    ∧ for_each (forward_external body h) cs s
      = (Ok tt, {| gw_Errors := gw_Errors s; gw_Sent := gw_Sent s ++ omap delivery_sent ds;
                   gw_Counts := gw_Counts s ++ ((λ d, (rc_url (d_client d), itoa (d_code d))) <$> ds) |}).
Proof.
  cbv zeta. revert s. induction cs as [|c cs IH]; intros s.
  { exists []. split; [done|]. split; [constructor|]. simpl. rewrite !app_nil_r. by destruct s. }
  destruct (forward_external_delivers tenant body c s) as (d & <- & Hd & Hone).
  cbn [for_each]. rewrite (bind_step _ _ _ _ _ Hone).
  match goal with |- context [for_each _ cs ?s1] => destruct (IH s1) as (ds & Hcs & Hds & Hall) end.
  exists (d :: ds). split; [by rewrite fmap_cons, Hcs|]. split; [by constructor|].
  rewrite Hall. cbn [gw_Errors gw_Sent gw_Counts]. rewrite <-!app_assoc.
  change (d :: ds) with ([d] ++ ds). by rewrite omap_app.
Qed.

Lemma header_Get_Set k x h : header_Get (header_Set k x h) k = x.
Proof. unfold header_Get, header_Set. by rewrite lookup_insert_eq. Qed.

(** C34: a remote write goes to the configured target first, with its body and
    under the tenant of its path, whatever tenant header the client sent; then to
    every external target (in whichever order their goroutines run), each getting
    one POST of the same body at its own URL with, of the client's headers, the
    tenant's only; and each target is counted once, with the code it answered. *)
Theorem remoteWrite_fans_out req tenant s :
  o_RemoteWriteProxy options = true → rq_BodyErr req = None →
  rq_Info req = Some tenant → tenant ≠ "" →
  ∃ out ds s', remoteWrite options req s = (Ok tt, s')
    ∧ gw_Sent s' = gw_Sent s ++ {| s_Target := TWrite; s_Req := out |} :: omap delivery_sent ds
    ∧ gw_Errors s' = gw_Errors s
    ∧ header_Get (rq_Header out) (o_TenantHeader options) = tenant
    ∧ rq_Body out = rq_Body req ∧ rq_Path out = rq_Path req
    ∧ d_client <$> ds ≡ₚ o_ExternalRWClients options ∧ Forall (delivered tenant (rq_Body req)) ds
    ∧ gw_Counts s' = gw_Counts s ++ ((λ d, (rc_url (d_client d), itoa (d_code d))) <$> ds).
Proof.
  intros Hproxy Hbody Hinfo Hne. unfold remoteWrite. rewrite Hproxy. cbn [negb].
  unfold with_tenant_header. rewrite Hinfo, (proj2 (String.eqb_neq tenant "")) by done.
  cbn [rq_BodyErr set_rq_Header]. rewrite Hbody. cbn [rq_Header set_rq_Header rq_Body].
  rewrite header_Get_Set, (proj2 (String.eqb_neq tenant "")) by done.
  unfold send_to at 1, modify_st. unfold mbind, M_mbind, M_bind.
  match goal with |- context [for_each _ _ ?s1] =>
    destruct (forward_all tenant (rq_Body req) (o_ExternalRWClients options) s1) as (ds & Hcs & Hds & ->) end.
  eexists _, ds, _. split; [done|]. split; [cbn [gw_Sent]; rewrite <-app_assoc; reflexivity|].
  split; [done|]. split; [apply header_Get_Set|]. rewrite Hcs. by repeat split.
Qed.
End requests.

(** ** Paths *)

Lemma index_from_skip t p b nth num i :
  contains_char b t = false →
  index_from (t +:+ p) b nth num i = index_from p b nth num (i + Z.of_nat (String.length t))%Z.
Proof.
  revert i. induction t as [|a t IH]; intros i Ht; cbn [append].
  - f_equal. simpl. lia.
  - simpl in Ht. apply orb_false_iff in Ht as [Ha Ht].
    change (String a t +:+ p) with (String a (t +:+ p)). cbn [index_from]. rewrite Ha, IH by done.
    f_equal. simpl. lia.
Qed.

Lemma strip_tenant_prefix' t p :
  contains_char "/"%char t = false → strip_tenant ("/" +:+ t +:+ String "/" p) = String "/" p.
Proof.
  intros Ht. unfold strip_tenant, indexByteNth.
  change ("/" +:+ t +:+ String "/" p) with (String "/" (t +:+ String "/" p)).
  cbn [index_from Ascii.eqb Bool.eqb]. change (0 + 1 =? 2)%Z with false. cbv iota.
  rewrite index_from_skip by done. cbn [index_from].
  change (Ascii.eqb "/" "/") with true. cbv iota. change (0 + 1 + 1 =? 2)%Z with true. cbv iota.
  destruct (Z.ltb_spec 0 (0 + 1 + Z.of_nat (String.length t))) as [_|]; [|lia].
  replace (Z.to_nat (0 + 1 + Z.of_nat (String.length t))) with (S (String.length t)) by lia.
  cbn [drop_str]. apply drop_str_append.
Qed.

(** Removing the tenant from a tenant's path gives the path the tenant was
    put in front of: "/t" followed by any path that starts with a slash. *)
Theorem strip_tenant_prefix t p :
  contains_char "/"%char t = false → strip_tenant ("/" +:+ t +:+ String "/" p) = String "/" p.
Proof. apply strip_tenant_prefix'. Qed.

(** ** Routing *)

Section routing.
Context {HP : PromQL} {HH : HttpClient} {HM : MapRange} {HX : Mux} (options : Options).

Definition no_ui : HandlerFunc := λ _, mret tt.

Lemma append_length_cancel a b c d :
  contains_char "/"%char a = false → contains_char "/"%char b = false →
  a +:+ String "/" c = b +:+ String "/" d → a = b ∧ c = d.
Proof.
  revert b. induction a as [|x a IH]; intros [|y b] Ha Hb H; simpl in *.
  - by inversion H.
  - inversion H; subst. by rewrite Ascii.eqb_refl in Hb.
  - inversion H; subst. by rewrite Ascii.eqb_refl in Ha.
  - apply orb_false_iff in Ha as [_ Ha], Hb as [_ Hb]. inversion H as [[Hxy Heq]].
    destruct (IH b Ha Hb Heq) as [-> ->]. done.
Qed.

(** A route of the tenant API serves the paths of its endpoint. *)
Lemma tenant_path_matches ep methods f path t p vars :
  contains_char "{"%char ep = false → contains_char "/"%char t = false → t ≠ "" →
  path = "/" +:+ t +:+ "/api/v1" +:+ p →
  path_matches template_match prefix_match (tenant_route options ep methods f) path = Some vars ↔
  p = ep ∧ vars = <["tenant_id" := t]> ∅.
Proof.
  intros Hep Ht Hne Hpath. unfold path_matches, tenant_route, apiTenantPrefix; simpl.
  change ("/{tenant_id}/api/v1" +:+ ep) with ("/{tenant_id}" +:+ ("/api/v1" +:+ ep)).
  rewrite template_tenant; [|by rewrite contains_char_app, Hep|done].
  rewrite Hpath. split.
  - intros (t' & _ & Ht' & Heq & ->).
    assert (Heq' : t +:+ String "/" ("api/v1" +:+ p) = t' +:+ String "/" ("api/v1" +:+ ep)).
    { simpl in Heq. by inversion Heq. }
    apply append_length_cancel in Heq' as [-> Hp]; [|done|done]. simpl in Hp.
    inversion Hp; subst. by repeat split.
  - intros (-> & ->). by exists t.
Qed.

Lemma tenant_route_matches ep methods f req t p vars :
  contains_char "{"%char ep = false → contains_char "/"%char t = false → t ≠ "" →
  rq_Path req = "/" +:+ t +:+ "/api/v1" +:+ p →
  route_matches template_match prefix_match (tenant_route options ep methods f) req vars ↔
  p = ep ∧ vars = <["tenant_id" := t]> ∅ ∧ (methods = [] ∨ rq_Method req ∈ methods).
Proof.
  intros Hep Ht Hne Hpath. unfold route_matches. rewrite (tenant_path_matches _ _ _ _ t p) by done. simpl. tauto.
Qed.

(** The global routes do not serve the paths of a tenant. *)
Lemma global_path_no_match ep prefix f path t p :
  contains_char "{"%char ep = false → contains_char "/"%char t = false →
  path = "/" +:+ t +:+ "/api/v1" +:+ p →
  path_matches template_match prefix_match (plain_route ep prefix f) path = None.
Proof.
  intros Hep Ht Hpath. unfold path_matches, plain_route, apiGlobalPrefix; simpl. rewrite Hpath.
  assert (Hpre : ∀ x, "/api/v1" +:+ x ≠ "/" +:+ t +:+ "/api/v1" +:+ p).
  { intros x Hx. assert (Hx' : "api" +:+ String "/" ("v1" +:+ x) = t +:+ String "/" ("api/v1" +:+ p)).
    { simpl in Hx. by inversion Hx. }
    apply append_length_cancel in Hx' as [_ Hx']; [|done|done]. done. }
  destruct prefix; simpl.
  - rewrite prefix_literal by by rewrite contains_char_app, Hep.
    destruct (has_prefix _ _) eqn:H; [|done]. apply has_prefix_inv in H as [x Hx]. exfalso.
    apply (Hpre (ep +:+ x)). by rewrite Hx.
  - rewrite template_literal by by rewrite contains_char_app, Hep.
    destruct (String.eqb_spec ("/" +:+ t +:+ "/api/v1" +:+ p) ("/api/v1" +:+ ep)) as [E|]; [|done].
    exfalso. by apply (Hpre ep).
Qed.

Lemma global_no_path req t p :
  contains_char "/"%char t = false → rq_Path req = "/" +:+ t +:+ "/api/v1" +:+ p →
  Forall (λ r, path_matches template_match prefix_match r (rq_Path req) = None)
    (addGlobalProxyHandler options).
Proof.
  intros Ht Hpath. unfold addGlobalProxyHandler.
  destruct (o_RemoteWriteProxy options), (o_QueryProxy options); repeat constructor;
    by eapply global_path_no_match.
Qed.

Lemma global_no_match req t p :
  contains_char "/"%char t = false → rq_Path req = "/" +:+ t +:+ "/api/v1" +:+ p →
  Forall (λ r', ∀ vars', ¬ route_matches template_match prefix_match r' req vars')
    (addGlobalProxyHandler options).
Proof.
  intros Ht Hpath. eapply list.Forall_impl; [by eapply global_no_path|].
  intros r Hr vars' [Hm _]. by rewrite Hr in Hm.
Qed.

Lemma serve_first rs before r after admission req vars :
  rs = before ++ r :: after →
  route_matches template_match prefix_match r req vars →
  Forall (λ r', ∀ vars', ¬ route_matches template_match prefix_match r' req vars') before →
  serve rs admission req = r_Handler r admission (set_rq_Vars vars req).
Proof.
  intros Hrs Hr Hbefore. unfold serve.
  assert (E : mux_handler rs req = Some (r, vars)).
  { apply mux_handler_first. by exists before, after. }
  by rewrite E.
Qed.

(** The tenant endpoints, their methods and their handlers. *)
Definition tenant_endpoints : list (string * list string * HandlerFunc) :=
  [("/query", ["GET"; "POST"], query options); ("/query_range", ["GET"; "POST"], query options);
   ("/series", ["GET"], matcher options matchersParam);
   ("/labels", ["GET"], matcher options matchersParam);
   ("/label/*path", ["GET"], matcher options matchersParam);
   ("/rules", ["GET"], matcher options matchersParam);
   ("/receive", ["POST"], remoteWrite options); ("/otlp", ["POST"], otlpReceive options)].

Lemma NewHandler_eq ui :
  NewHandler options ui = addGlobalProxyHandler options
    ++ ((λ e, tenant_route options e.1.1 e.1.2 e.2) <$> tenant_endpoints)
    ++ (if o_EnabledQueryUI options then addQueryUIHandler ui else []).
Proof. reflexivity. Qed.

Lemma tenant_endpoints_plain : Forall (λ e, contains_char "{"%char e.1.1 = false) tenant_endpoints.
Proof. by repeat constructor. Qed.

Lemma endpoint_before l1 ep methods f l2 t req :
  tenant_endpoints = l1 ++ (ep, methods, f) :: l2 →
  contains_char "/"%char t = false → t ≠ "" → rq_Path req = "/" +:+ t +:+ "/api/v1" +:+ ep →
  Forall (λ r', ∀ vars', ¬ route_matches template_match prefix_match r' req vars')
    ((λ e, tenant_route options e.1.1 e.1.2 e.2) <$> l1).
Proof.
  intros Hl Ht Hne Hpath.
  assert (Hnd : NoDup ((λ e, e.1.1) <$> tenant_endpoints)).
  { change (NoDup ["/query"; "/query_range"; "/series"; "/labels"; "/label/*path"; "/rules"; "/receive"; "/otlp"]).
    by apply (bool_decide_unpack _). }
  pose proof tenant_endpoints_plain as Hpl. rewrite list.Forall_forall in Hpl.
  rewrite list.Forall_fmap. apply list.Forall_forall. intros e He vars' Hmatch.
  apply (tenant_route_matches e.1.1 e.1.2 e.2 req t ep) in Hmatch as [Hep _];
    [|apply Hpl; rewrite Hl; set_solver|done..].
  rewrite Hl, fmap_app in Hnd. apply NoDup_app in Hnd as (_ & Hnd & _).
  apply (Hnd e.1.1); [apply list_elem_of_fmap; by exists e|]. rewrite <-Hep. by left.
Qed.

(** The endpoint's handler, behind the admission and the authentication of the
    tenant, on the request as it is to see it. *)
Definition served_as (admission : AdmissionMap) (f : HandlerFunc) (t path : string) (req : Request) : Http unit :=
  if o_EnabledTenantsAdmission options && bool_decide (admission !! t = None)
  then http_Error ("tenant " +:+ t +:+ " is not allowed to access") 403
  else (if o_CertAuthenticator options then withAuthorization f else f)
         (set_rq_Info (Some t) (set_rq_Path path (set_rq_Vars (<["tenant_id" := t]> ∅) req))).

Lemma endpoint_served ui ep methods f admission req t :
  (ep, methods, f) ∈ tenant_endpoints →
  contains_char "/"%char t = false → t ≠ "" → rq_Method req ∈ methods →
  rq_Path req = "/" +:+ t +:+ "/api/v1" +:+ ep →
  serve (NewHandler options ui) admission req = served_as admission f t ("/api/v1" +:+ ep) req.
Proof.
  intros Hin Ht Hne Hm Hpath. apply list_elem_of_split in Hin as (l1 & l2 & Hl).
  erewrite (serve_first _ (addGlobalProxyHandler options ++ ((λ e, tenant_route options e.1.1 e.1.2 e.2) <$> l1))
    (tenant_route options ep methods f)).
  - cbn [r_Handler tenant_route]. rewrite (wrap_eq _ _ _ _ t); [|by unfold map_get; cbn [rq_Vars set_rq_Vars]; rewrite lookup_insert_eq|done].
    cbn [rq_Path set_rq_Vars]. rewrite Hpath. 
    assert (Hs : strip_tenant ("/" +:+ t +:+ "/api/v1" +:+ ep) = "/api/v1" +:+ ep)
      by (by apply (strip_tenant_prefix' t ("api/v1" +:+ ep))).
    by rewrite Hs.
  - rewrite NewHandler_eq. rewrite Hl, fmap_app, fmap_cons, <-!app_assoc. reflexivity.
  - apply (tenant_route_matches ep methods f req t ep); [|done|done|done|].
    + pose proof tenant_endpoints_plain as Hpl. rewrite Hl in Hpl.
      by apply Forall_app in Hpl as [_ [Hpl _]%Forall_cons].
    + split; [done|]. split; [done|by right].
  - apply Forall_app. split; [by eapply global_no_match|by eapply endpoint_before].
Qed.

(** C35: a request for a tenant's endpoint is served by that endpoint's handler
    behind the admission of that tenant (and the authentication, when it is on),
    and the request the handler gets is the client's with the tenant of the path
    as its tenant and the path without it. *)
Theorem tenant_endpoint_served ui ep methods f admission req t :
  (ep, methods, f) ∈ tenant_endpoints →
  contains_char "/"%char t = false → t ≠ "" → rq_Method req ∈ methods →
  rq_Path req = "/" +:+ t +:+ "/api/v1" +:+ ep →
  serve (NewHandler options ui) admission req
  = if o_EnabledTenantsAdmission options && bool_decide (admission !! t = None)
    then http_Error ("tenant " +:+ t +:+ " is not allowed to access") 403
    else (if o_CertAuthenticator options then withAuthorization f else f)
           (set_rq_Info (Some t) (set_rq_Path ("/api/v1" +:+ ep) (set_rq_Vars (<["tenant_id" := t]> ∅) req))).
Proof. apply endpoint_served. Qed.

Lemma label_path_no_endpoint name ep methods f :
  (ep, methods, f) ∈ tenant_endpoints → "/label/" +:+ name +:+ "/values" ≠ ep.
Proof.
  intros He Hep.
  assert (Hs : has_suffix ("/label/" +:+ name +:+ "/values") "/values" = true).
  { rewrite <-append_assoc. apply has_suffix_app. }
  rewrite Hep in Hs. clear Hep. unfold tenant_endpoints in He.
  repeat (apply elem_of_cons in He as [He|He]; [by inversion He; subst; vm_compute in Hs|]).
  by apply elem_of_nil in He.
Qed.

(** The values of a label cannot be read through the tenant API: the
    route is registered under the text "/label/*path", which the router takes
    literally, so a request for the values of any label is answered 404. *)
Theorem label_values_not_found admission req t name s :
  o_EnabledQueryUI options = false → contains_char "/"%char t = false → t ≠ "" →
  rq_Path req = "/" +:+ t +:+ "/api/v1" +:+ "/label/" +:+ name +:+ "/values" →
  serve (NewHandler options no_ui) admission req s = http_Error "404 page not found" 404 s.
Proof.
  intros Hui Ht Hne Hpath.
  assert (Hno : Forall (λ r, path_matches template_match prefix_match r (rq_Path req) = None)
                  (NewHandler options no_ui)).
  { rewrite NewHandler_eq, Hui, app_nil_r. apply Forall_app. split; [by eapply global_no_path|].
    rewrite list.Forall_fmap. apply list.Forall_forall. intros [[ep methods] f] He. cbn [compose fst snd].
    destruct (path_matches _ _ _ _) as [vars|] eqn:Hr; [exfalso|done].
    pose proof tenant_endpoints_plain as Hpl. rewrite list.Forall_forall in Hpl.
    apply (tenant_path_matches ep methods f _ t _ vars (Hpl _ He) Ht Hne Hpath) in Hr as [Hep _].
    by eapply label_path_no_endpoint. }
  unfold serve. destruct (mux_handler (NewHandler options no_ui) req) as [[r vars]|] eqn:E.
  - apply mux_handler_first in E as (before & after & Hrs & [Hr _] & _).
    rewrite list.Forall_forall in Hno. rewrite Hno in Hr; [done|]. rewrite Hrs. set_solver.
  - destruct (existsb _ _) eqn:Ex; [|done]. apply existsb_exists in Ex as (r & Hin & Hr).
    apply bool_decide_eq_true in Hr as [vars Hr]. rewrite list.Forall_forall in Hno.
    rewrite Hno in Hr; [done|]. by apply list_elem_of_In.
Qed.

Lemma agent_endpoint m path :
  (m, path) ∈ AgentProxy.routes → path ≠ "/api/v1/label/*path" →
  ∃ ep methods f, (ep, methods, f) ∈ tenant_endpoints ∧ m ∈ methods
    ∧ (if String.eqb path AgentProxy.write then AgentProxy.receive else path) = "/api/v1" +:+ ep.
Proof.
  intros Hin Hnl. unfold AgentProxy.routes in Hin.
  repeat (apply elem_of_cons in Hin as [Hin|Hin];
    [inversion Hin; subst; try done;
     first [ exists "/query"; do 2 eexists; split; [by left|]; split; [set_solver|reflexivity]
           | exists "/query_range"; do 2 eexists; split; [by right; left|]; split; [set_solver|reflexivity]
           | exists "/series"; do 2 eexists; split; [by do 2 right; left|]; split; [set_solver|reflexivity]
           | exists "/labels"; do 2 eexists; split; [by do 3 right; left|]; split; [set_solver|reflexivity]
           | exists "/rules"; do 2 eexists; split; [by do 5 right; left|]; split; [set_solver|reflexivity]
           | exists "/receive"; do 2 eexists; split; [by do 6 right; left|]; split; [set_solver|reflexivity]
           | exists "/otlp"; do 2 eexists; split; [by do 7 right; left|]; split; [set_solver|reflexivity]]|]).
  by apply elem_of_nil in Hin.
Qed.

(** C36: what an agent proxy hands on for its tenant, the gateway serves: for
    every route of the proxy but the label values, the request is served by the
    gateway's endpoint of that path under the proxy's tenant and behind its
    admission, and the endpoint's handler gets the client's request with the
    path the client asked for, Prometheus's "write" turned into "receive". *)
Theorem agent_route_reaches_gateway ui m path admission req t :
  (m, path) ∈ AgentProxy.routes → path ≠ "/api/v1/label/*path" →
  contains_char "/"%char t = false → t ≠ "" →
  rq_Method req = m → rq_Path req = path →
  let path' := if String.eqb path AgentProxy.write then AgentProxy.receive else path in
  ∃ ep methods f, (ep, methods, f) ∈ tenant_endpoints ∧ path' = "/api/v1" +:+ ep
    ∧ serve (NewHandler options ui) admission (AgentProxy.wrap t req)
      = if o_EnabledTenantsAdmission options && bool_decide (admission !! t = None)
        then http_Error ("tenant " +:+ t +:+ " is not allowed to access") 403
        else (if o_CertAuthenticator options then withAuthorization f else f)
               (set_rq_Info (Some t) (set_rq_Path path' (set_rq_Vars (<["tenant_id" := t]> ∅) req))).
Proof.
  intros Hin Hnl Ht Hne Hm Hpath. cbv zeta.
  destruct (agent_endpoint m path Hin Hnl) as (ep & methods & f & He & Hmeth & Hep).
  exists ep, methods, f. split; [done|]. split; [done|].
  assert (Hw : rq_Path (AgentProxy.wrap t req) = "/" +:+ t +:+ "/api/v1" +:+ ep).
  { unfold AgentProxy.wrap. cbn [rq_Path set_rq_Path]. rewrite Hpath, Hep.
    by rewrite (proj2 (String.eqb_neq t "")). }
  rewrite Hep. apply (endpoint_served ui ep methods f admission (AgentProxy.wrap t req) t He Ht Hne); [|exact Hw].
  by simpl; rewrite Hm.
Qed.
End routing.
