(* ===== verification/Watcher.v ===== *)
(** [pkg/monitoring-gateway/config_watcher.go]: the watcher that reloads the
    admission configuration, as a state machine over the events of its loop,
    and the way [runGateway] feeds its configurations to the handler. *)
From stdpp Require Import base gmap strings list pretty sorting.
From Stdlib Require Import Ascii String.
From S2P Require Import Prelude GoStd K8s Base Url Gateway GatewayFacts.
Open Scope Z_scope.

(** [encoding/json] on the configuration. *)
Class WatchLib := {
  watch_md5 :: Md5;
  json_Tenants : string → GoError + list string;
}.

(** The watcher: the hash of the last configuration, the metrics, and the
    configurations sent on its channel. *)
Record ConfigWatcher := {
  lastLoadedConfigHash : Z;
  refreshCounter : nat; changesCounter : nat; errorCounter : nat;
  tenantsGauge : nat;
  cw_ch : list (list string);
}.

Definition NewConfigWatcher : ConfigWatcher := {|
  lastLoadedConfigHash := 0; refreshCounter := 0; changesCounter := 0; errorCounter := 0;
  tenantsGauge := 0; cw_ch := [] |}.

(** fsnotify's operations, bits of a mask. *)
Definition op_Create : Z := 1.
Definition op_Write : Z := 2.
Definition op_Remove : Z := 4.
Definition op_Rename : Z := 8.
Definition op_Chmod : Z := 16.

(** What the [select] of [Run] receives, with the file as [refresh] then finds
    it ([None]: it cannot be read), and whether the context is done by the
    time [refresh] sends. *)
Inductive Event :=
  | EvFile (name : string) (op : Z) (content : option string) (done : bool)
  | EvTick (content : option string) (done : bool)
  | EvError (err : option GoError).

Section watcher.
Context {HW : WatchLib}.

Definition ParseConfig (content : string) : GoError + list string := json_Tenants content.

(** Six bytes of the hash, little-endian. *)
Definition little_endian (bytes : list Z) : Z := foldr (λ b acc, b + 256 * acc) 0 bytes.
Definition hashAsMetricValue (data : string) : Z :=
  little_endian (take 6 (md5_Sum data) ++ [0; 0]).

Definition loadConfig (file : option string) : GoError + (list string * Z) :=
  match file with
  | None => inl (EMsg "failed to read configuration file")
  | Some content =>
      if String.eqb content "" then inl (EMsg "configuration file is empty")
      else match ParseConfig content with
           | inl _ => inl (EMsg "failed to parse configuration file")
           | inr config => inr (config, hashAsMetricValue content)
           end
  end.

Definition refresh (file : option string) (done : bool) (cw : ConfigWatcher) : ConfigWatcher :=
  match loadConfig file with
  | inl _ => {| lastLoadedConfigHash := lastLoadedConfigHash cw; refreshCounter := S (refreshCounter cw);
                changesCounter := changesCounter cw; errorCounter := S (errorCounter cw);
                tenantsGauge := tenantsGauge cw; cw_ch := cw_ch cw |}
  | inr (config, cfgHash) =>
      if lastLoadedConfigHash cw =? cfgHash then
        {| lastLoadedConfigHash := lastLoadedConfigHash cw; refreshCounter := S (refreshCounter cw);
           changesCounter := changesCounter cw; errorCounter := errorCounter cw;
           tenantsGauge := tenantsGauge cw; cw_ch := cw_ch cw |}
      else
        {| lastLoadedConfigHash := cfgHash; refreshCounter := S (refreshCounter cw);
           changesCounter := S (changesCounter cw); errorCounter := errorCounter cw;
           tenantsGauge := length config;
           cw_ch := if done then cw_ch cw else cw_ch cw ++ [config] |}
  end.

(** [event.Op^(fsnotify.Chmod|fsnotify.Remove) == 0] *)
Definition op_ignored (op : Z) : bool := Z.lxor op (Z.lor op_Chmod op_Remove) =? 0.

Definition Run_step (cw : ConfigWatcher) (ev : Event) : ConfigWatcher :=
  match ev with
  | EvFile name op content done =>
      if String.eqb name "" then cw
      else if op_ignored op then cw
      else refresh content done cw
  | EvTick content done => refresh content done cw
  | EvError None => cw
  | EvError (Some _) =>
      {| lastLoadedConfigHash := lastLoadedConfigHash cw; refreshCounter := refreshCounter cw;
         changesCounter := changesCounter cw; errorCounter := S (errorCounter cw);
         tenantsGauge := tenantsGauge cw; cw_ch := cw_ch cw |}
  end.

(** [Run]: one refresh, then the events until the context is done. *)
Definition Run (first : option string) (events : list Event) (cw : ConfigWatcher) : ConfigWatcher :=
  foldl Run_step (refresh first false cw) events.

(** ** Specification *)

(** The file of an event that rereads it. *)
Definition reread (ev : Event) : option (option string) :=
  match ev with
  | EvFile name op content _ =>
      if String.eqb name "" || op_ignored op then None else Some content
  | EvTick content _ => Some content
  | EvError _ => None
  end.

(** The contents that were read and parse. *)
Definition good (file : option string) : option (string * list string) :=
  match file with
  | Some content => if String.eqb content "" then None
                    else match ParseConfig content with inr c => Some (content, c) | inl _ => None end
  | None => None
  end.

Definition not_done (ev : Event) : Prop :=
  match ev with EvFile _ _ _ done | EvTick _ done => done = false | EvError _ => True end.

Lemma loadConfig_good file :
  loadConfig file = match good file with
                    | Some (content, c) => inr (c, hashAsMetricValue content)
                    | None => loadConfig file
                    end
  ∧ (good file = None → ∃ e, loadConfig file = inl e).
Proof.
  unfold loadConfig, good. destruct file as [content|]; [|by eauto].
  destruct (String.eqb content ""); [by eauto|]. destruct (ParseConfig content); split; eauto; done.
Qed.

Lemma little_endian_bound l :
  Forall (λ b, 0 ≤ b < 256) l → 0 ≤ little_endian l < 256 ^ Z.of_nat (length l).
Proof.
  induction l as [|b l IH]; intros Hl; simpl; [lia|]. apply Forall_cons in Hl as [Hb Hl].
  specialize (IH Hl). change (length (b :: l)) with (S (length l)).
  replace (Z.of_nat (S (length l))) with (1 + Z.of_nat (length l)) by lia.
  rewrite Z.pow_add_r by lia. fold (little_endian l) in *. lia.
Qed.

Lemma little_endian_zeros l n : little_endian (l ++ replicate n 0) = little_endian l.
Proof.
  unfold little_endian. rewrite foldr_app. f_equal. induction n as [|n IH]; [done|].
  simpl. by rewrite IH.
Qed.

(** The hash of a configuration fits in 48 bits, and so in the mantissa of
    the float64 it is kept in. *)
Theorem hash_fits_float64 data : 0 ≤ hashAsMetricValue data < 2 ^ 48.
Proof.
  unfold hashAsMetricValue. change [0; 0] with (replicate 2 0). rewrite little_endian_zeros.
  destruct (md5_Sum_bytes data) as [Hlen Hb].
  pose proof (little_endian_bound (take 6 (md5_Sum data)) ltac:(by apply Forall_take)) as H.
  rewrite length_take, Hlen in H. exact H.
Qed.

(** Of the file's events only the one that is a chmod and a remove at once
    is ignored: a chmod alone or a remove alone rereads the file. *)
Theorem op_ignored_iff op : op_ignored op = true ↔ op = 20.
Proof.
  unfold op_ignored. rewrite Z.eqb_eq. split; [|by intros ->].
  intros H. apply Z.lxor_eq in H. by rewrite H.
Qed.

(** The good contents of a run, in order, and the state they determine. *)
Definition run_goods (first : option string) (events : list Event) : list (string * list string) :=
  omap good (first :: omap reread events).

Definition tracks (goods : list (string * list string)) (cw : ConfigWatcher) : Prop :=
  match last goods with
  | None => lastLoadedConfigHash cw = 0 ∧ cw_ch cw = []
  | Some (content, c) => lastLoadedConfigHash cw = hashAsMetricValue content ∧ last (cw_ch cw) = Some c
                         ∧ Forall (λ c, ∃ content, (content, c) ∈ goods) (cw_ch cw)
  end.

Lemma refresh_tracks goods file cw :
  (∀ content c, good file = Some (content, c) → hashAsMetricValue content ≠ 0) →
  (∀ c1 c2 x1 x2, good file = Some (x1, c1) → (x2, c2) ∈ goods →
     hashAsMetricValue x1 = hashAsMetricValue x2 → c1 = c2) →
  tracks goods cw →
  tracks (goods ++ (match good file with Some g => [g] | None => [] end)) (refresh file false cw).
Proof.
  intros Hnz Hinj Ht. unfold refresh. destruct (loadConfig_good file) as [Heq Hbad].
  destruct (good file) as [[content c]|] eqn:Eg.
  - rewrite Heq. unfold tracks in *. rewrite last_snoc.
    destruct (last goods) as [[x2 c2]|] eqn:El.
    + apply last_Some in El as [goods' ->]. destruct Ht as (Hh & Hlast & Hall).
      destruct (Z.eqb_spec (lastLoadedConfigHash cw) (hashAsMetricValue content)) as [E|E]; simpl.
      * rewrite Hh in E. split; [by rewrite Hh|]. split.
        -- rewrite Hlast. f_equal. symmetry. eapply Hinj; [done| |by symmetry]. set_solver.
        -- eapply list.Forall_impl; [exact Hall|]. intros x [y Hy]. exists y. set_solver.
      * split; [done|]. rewrite last_snoc. split; [done|]. apply Forall_app. split.
        -- eapply list.Forall_impl; [exact Hall|]. intros x [y Hy]. exists y. set_solver.
        -- apply Forall_singleton. exists content. set_solver.
    + apply last_None in El as ->. destruct Ht as [Hh Hch].
      destruct (Z.eqb_spec (lastLoadedConfigHash cw) (hashAsMetricValue content)) as [E|E]; simpl.
      * rewrite Hh in E. by destruct (Hnz content c eq_refl).
      * rewrite Hch. simpl. split; [done|]. split; [done|]. apply Forall_singleton.
        exists content. by left.
  - destruct (Hbad eq_refl) as [e ->]. rewrite app_nil_r. exact Ht.
Qed.

(** Contents whose hashes do not collide with each other or with 0. *)
Definition no_collision (goods : list (string * list string)) : Prop :=
  (∀ x c, (x, c) ∈ goods → hashAsMetricValue x ≠ 0)
  ∧ ∀ x1 c1 x2 c2, (x1, c1) ∈ goods → (x2, c2) ∈ goods →
      hashAsMetricValue x1 = hashAsMetricValue x2 → c1 = c2.

Lemma Run_step_tracks goods cw ev :
  not_done ev → tracks goods cw →
  no_collision (goods ++ omap good (omap reread [ev])) →
  tracks (goods ++ omap good (omap reread [ev])) (Run_step cw ev).
Proof.
  intros Hd Ht [Hnz Hinj].
  assert (Hnone : reread ev = None → lastLoadedConfigHash (Run_step cw ev) = lastLoadedConfigHash cw
    ∧ cw_ch (Run_step cw ev) = cw_ch cw).
  { destruct ev as [name op content d|content d|[e|]]; simpl; try done.
    by destruct (String.eqb name ""), (op_ignored op). }
  assert (Hsome : ∀ file, reread ev = Some file → Run_step cw ev = refresh file false cw).
  { intros file. destruct ev as [name op content d|content d|[e|]]; simpl in *; try done; subst.
    - destruct (String.eqb name ""), (op_ignored op); simpl; try done. by intros [= ->].
    - by intros [= ->]. }
  simpl in *. destruct (reread ev) as [file|] eqn:E; simpl in *.
  - rewrite (Hsome file eq_refl).
    apply refresh_tracks; [| |done].
    + intros x c Hg. apply (Hnz x c). rewrite Hg. set_solver.
    + intros c1 c2 x1 x2 Hg Hin. apply Hinj; [rewrite Hg; set_solver|set_solver].
  - rewrite app_nil_r. unfold tracks in *. destruct (Hnone eq_refl) as [-> ->]. done.
Qed.

Lemma no_collision_sub a b : a ⊆ b → no_collision b → no_collision a.
Proof. intros Hs [H1 H2]. split; [|intros ????]; eauto. Qed.

Lemma steps_track goods cw events :
  Forall not_done events → tracks goods cw →
  no_collision (goods ++ omap good (omap reread events)) →
  tracks (goods ++ omap good (omap reread events)) (foldl Run_step cw events).
Proof.
  revert goods cw. induction events as [|ev events IH]; intros goods cw Hd Ht Hnc.
  - by rewrite app_nil_r.
  - apply Forall_cons in Hd as [Hd Hds].
    assert (Hsplit : omap good (omap reread (ev :: events))
      = omap good (omap reread [ev]) ++ omap good (omap reread events)).
    { by rewrite <-!omap_app. }
    rewrite Hsplit in Hnc |- *. rewrite app_assoc in Hnc |- *. simpl foldl. apply IH; [done| |done].
    apply Run_step_tracks; [done..|]. eapply no_collision_sub; [|exact Hnc]. set_solver.
Qed.

Lemma Run_tracks first events :
  Forall not_done events → no_collision (run_goods first events) →
  tracks (run_goods first events) (Run first events NewConfigWatcher).
Proof.
  intros Hd Hnc. unfold run_goods, Run in *.
  assert (Hsplit : omap good (first :: omap reread events)
    = (match good first with Some g => [g] | None => [] end) ++ omap good (omap reread events)).
  { simpl. by destruct (good first). }
  rewrite Hsplit in Hnc |- *. apply steps_track; [done| |done].
  apply (refresh_tracks []); [| |done].
  - intros x c Hg. apply (proj1 Hnc x c). rewrite Hg. set_solver.
  - intros c1 c2 x1 x2 Hg Hin. by apply elem_of_nil in Hin.
Qed.
End watcher.

(** C29: the gateway admits what the configuration file says: whatever the order
    of file events, ticks and errors, with unreadable and unparsable contents in
    between, once the configurations the watcher sent have been applied the
    tenants admitted are those of the last good content of the file, provided
    the 48-bit hashes of the contents do not collide. *)
Theorem admission_follows_file {HW : WatchLib} options first events content tenants :
  o_EnabledTenantsAdmission options = true → Forall not_done events →
  no_collision (run_goods first events) →
  Forall (λ g, "/-/" ∉ g.2) (run_goods first events) →
  last (run_goods first events) = Some (content, tenants) →
  ∃ m, set_all options ∅ (cw_ch (Run first events NewConfigWatcher)) = Ok m
       ∧ ∀ t, t ≠ "/-/" → (is_Some (m !! t) ↔ t ∈ tenants).
Proof.
  intros Hon Hd Hnc Hbad Hlast. pose proof (Run_tracks first events Hd Hnc) as Ht.
  unfold tracks in Ht. rewrite Hlast in Ht. destruct Ht as (_ & Hch & Hall).
  assert (Hok : Forall (λ c, "/-/" ∉ c) (cw_ch (Run first events NewConfigWatcher))).
  { eapply list.Forall_impl; [exact Hall|]. intros c [x Hx]. rewrite list.Forall_forall in Hbad.
    exact (Hbad _ Hx). }
  destruct (set_all_refines options Hon ∅ None _ eq_refl Hok) as (m & Hm & Ha).
  exists m. split; [done|]. rewrite Hch in Ha. by destruct Ha.
Qed.
