(* ===== verification/GatewayCommand.v ===== *)
(** The gateway's command: [pkg/monitoring-gateway/config.go], the clients of
    [remote.go] and [cmd/monitoring-gateway/gateway.go]: the flags it
    registers, the configuration it reads from them, and the handler, the
    proxies and the source of admitted tenants it starts with. *)
From stdpp Require Import base gmap strings list pretty sorting.
From Stdlib Require Import Ascii String.
From S2P Require Import Prelude GoStd K8s Base Url GoNet Duration Gateway GatewayFacts Watcher Flags Proxy.

(** The first error of a chain of calls. *)
Definition sum_bind {A B} (x : GoError + A) (f : A → GoError + B) : GoError + B :=
  match x with inl e => inl e | inr a => f a end.
Notation "x ←? m ; k" := (sum_bind m (λ x, k)) (at level 100, m at next level, right associativity,
  format "x  ←?  m ; '/' k").
Definition wrap_err {A} (msg : string) (x : GoError + A) : GoError + A :=
  match x with inl e => inl (EWrap msg e) | inr a => inr a end.

(** ** The HTTP client configuration of prometheus/common *)

(** What the source does not name of the third-party structures. *)
Class ClientConfigs := {
  TLSRest : Type; TLSRest_eq :: EqDecision TLSRest; no_TLSRest : TLSRest;
  ClientRest : Type; ClientRest_eq :: EqDecision ClientRest; no_ClientRest : ClientRest;
}.

Record ClientTLS `{!ClientConfigs} := {
  ct_CAFile : string; ct_CertFile : string; ct_KeyFile : string; ct_ServerName : string;
  ct_InsecureSkipVerify : bool; ct_Rest : TLSRest;
}.
(** [BasicAuth] of config.go, and of the client configuration. *)
Record ClientAuth := { ca_Username : string; ca_Password : string; ca_PasswordFile : string }.
Record ClientConfig `{!ClientConfigs} := {
  cc_BasicAuth : option ClientAuth; cc_BearerToken : string; cc_BearerTokenFile : string;
  cc_ProxyURL : string; cc_TLSConfig : ClientTLS; cc_Rest : ClientRest;
}.
#[export] Instance ClientTLS_eq `{!ClientConfigs} : EqDecision ClientTLS. Proof. solve_decision. Defined.
#[export] Instance ClientAuth_eq : EqDecision ClientAuth. Proof. solve_decision. Defined.
#[export] Instance ClientConfig_eq `{!ClientConfigs} : EqDecision ClientConfig. Proof. solve_decision. Defined.

Definition no_ClientTLS `{!ClientConfigs} : ClientTLS := {|
  ct_CAFile := ""; ct_CertFile := ""; ct_KeyFile := ""; ct_ServerName := ""; ct_InsecureSkipVerify := false;
  ct_Rest := no_TLSRest |}.
Definition no_ClientConfig `{!ClientConfigs} : ClientConfig := {|
  cc_BasicAuth := None; cc_BearerToken := ""; cc_BearerTokenFile := ""; cc_ProxyURL := "";
  cc_TLSConfig := no_ClientTLS; cc_Rest := no_ClientRest |}.

(** ** config.go *)

(** [DownstreamTripperConfig], as it is read from a file. *)
Record DownstreamTripperConfig `{!ClientConfigs} := {
  dt_IdleConnTimeout : Z; dt_ResponseHeaderTimeout : Z; dt_TLSHandshakeTimeout : Z; dt_ExpectContinueTimeout : Z;
  dt_MaxIdleConns : option Z; dt_MaxIdleConnsPerHost : option Z; dt_MaxConnsPerHost : option Z;
  dt_HTTPClientConfig : ClientConfig;
}.

(** [ExternalRemoteWriteConfig] as the gateway reads it. A configuration has a
    URL: one without it is not modelled. *)
Record LoadedRemoteWrite `{!ClientConfigs} := {
  lw_Name : string; lw_URL : URL; lw_Headers : gmap string string; lw_RemoteTimeout : Z;
  lw_BasicAuth : option ClientAuth; lw_BearerToken : string; lw_TLSConfig : ClientTLS;
}.

(** [http.Transport]: the settings that vary. The proxy is the environment's,
    connections are dialed for at most 30 seconds, and HTTP/2 is attempted. *)
Record Transport := {
  t_MaxIdleConns : Z; t_MaxIdleConnsPerHost : Z; t_MaxConnsPerHost : Z; t_IdleConnTimeout : Z;
  t_ResponseHeaderTimeout : Z; t_TLSHandshakeTimeout : Z; t_ExpectContinueTimeout : Z;
}.

(** YAML decoders and the constructors of HTTP clients. *)
Class CommandLib `{!ClientConfigs} := {
  RoundTripper : Type;
  (* config.NewRoundTripperFromConfig, and the transport of
     config.NewClientFromConfig *)
  NewRoundTripperFromConfig : ClientConfig → string → GoError + RoundTripper;
  NewClientFromConfig : ClientConfig → string → GoError + RoundTripper;
  (* yaml.UnmarshalStrict *)
  yaml_tripper : string → GoError + DownstreamTripperConfig;
  yaml_remote_writes : string → GoError + list LoadedRemoteWrite;
  os_ReadFile : string → GoError + string;
}.

Inductive Tripper `{!ClientConfigs} `{!CommandLib} := TTransport (t : Transport) | TClient (rt : RoundTripper).

Definition RegisterHTTPFlags : list Flag :=
  [mkFlag "http-address" KString "0.0.0.0:9090"; mkFlag "http-grace-period" KDuration "2m";
   mkFlag "http.config" KString ""].

Definition QueryConfig_RegisterFlag `{!Kingpin} : list Flag :=
  mkFlag "query.address" KString "" :: RegisterPathOrContent "query.config".
Definition RulesQueryConfig_RegisterFlag `{!Kingpin} : list Flag :=
  mkFlag "rules-query.address" KString "" :: RegisterPathOrContent "rules-query.config".
Definition RemoteWriteConfig_RegisterFlag `{!Kingpin} : list Flag :=
  mkFlag "remote-write.address" KString "" :: RegisterPathOrContent "remote-write.config".

(** The transport of an empty configuration. *)
Definition default_transport : Transport := {|
  t_MaxIdleConns := 100; t_MaxIdleConnsPerHost := 0; t_MaxConnsPerHost := 0; t_IdleConnTimeout := 90 * second;
  t_ResponseHeaderTimeout := 0; t_TLSHandshakeTimeout := 10 * second; t_ExpectContinueTimeout := second |}.

Definition or_positive (d old : Z) : Z := if (0 <? d)%Z then d else old.

(** A client configuration of any kind hides the other settings. *)
Definition ParseTransportConfiguration `{!ClientConfigs} `{!CommandLib} (content : string) : GoError + Tripper :=
  if String.eqb content "" then inr (TTransport default_transport)
  else
    c ←? wrap_err "parsing downstream tripper config YAML file" (yaml_tripper content);
    if decide (dt_HTTPClientConfig c = no_ClientConfig) then
      let d := default_transport in
      inr (TTransport {|
        t_IdleConnTimeout := or_positive (dt_IdleConnTimeout c) (t_IdleConnTimeout d);
        t_ResponseHeaderTimeout := or_positive (dt_ResponseHeaderTimeout c) (t_ResponseHeaderTimeout d);
        t_TLSHandshakeTimeout := or_positive (dt_TLSHandshakeTimeout c) (t_TLSHandshakeTimeout d);
        t_ExpectContinueTimeout := or_positive (dt_ExpectContinueTimeout c) (t_ExpectContinueTimeout d);
        t_MaxIdleConns := default (t_MaxIdleConns d) (dt_MaxIdleConns c);
        t_MaxIdleConnsPerHost := default (t_MaxIdleConnsPerHost d) (dt_MaxIdleConnsPerHost c);
        t_MaxConnsPerHost := default (t_MaxConnsPerHost d) (dt_MaxConnsPerHost c) |})
    else
      rt ←? NewRoundTripperFromConfig (dt_HTTPClientConfig c) "";
      inr (TClient rt).

(** ** remote.go *)

Section remote.
Context `{!ClientConfigs} `{!CommandLib}.

(** A file is preferred to a content. *)
Definition LoadExternalRemoteWriteConfig (file content : string) : GoError + list LoadedRemoteWrite :=
  buff ←? (if String.eqb file "" then inr content else os_ReadFile file);
  if String.eqb buff "" then inr []
  else wrap_err "" (yaml_remote_writes buff).

(** A client, and the transport under the one that injects its headers. *)
Record ExternalClient := { ec_Client : remoteWriteClient; ec_Transport : RoundTripper }.

Definition external_client_config (conf : LoadedRemoteWrite) : ClientConfig := {|
  cc_BasicAuth := (λ ba, {| ca_Username := ca_Username ba; ca_Password := ca_Password ba;
                            ca_PasswordFile := ca_PasswordFile ba |}) <$> lw_BasicAuth conf;
  cc_BearerToken := lw_BearerToken conf; cc_BearerTokenFile := ""; cc_ProxyURL := "";
  cc_TLSConfig := lw_TLSConfig conf; cc_Rest := no_ClientRest |}.

Definition newExternalRemoteWriteClient (conf : LoadedRemoteWrite) : GoError + ExternalClient :=
  t ←? NewClientFromConfig (external_client_config conf) "remote_storage_write_client";
  inr {| ec_Client := {| rc_url := url_String (lw_URL conf);
                         rc_timeout := or_positive (lw_RemoteTimeout conf) (30 * second);
                         rc_headers := lw_Headers conf |};
         ec_Transport := t |}.

Fixpoint NewExternalRemoteWriteClients (rwsCfg : list LoadedRemoteWrite) : GoError + list ExternalClient :=
  match rwsCfg with
  | [] => inr []
  | rwCfg :: rest =>
      writeClient ←? newExternalRemoteWriteClient rwCfg;
      clients ←? NewExternalRemoteWriteClients rest;
      inr (writeClient :: clients)
  end.
End remote.

(** ** gateway.go: the flags *)

(** [QueryConfig], [RulesQueryConfig] and [RemoteWriteConfig]: an address, and
    where the configuration of its transport is. *)
Record Downstream := { ds_URL : string; ds_Tripper : PathOrContent }.
Record HTTPServerConfig := { hs_BindAddr : string; hs_GracePeriod : Z; hs_TLSConfig : string }.

Record gatewayConfig := {
  gcf_http : HTTPServerConfig;
  gcf_debugEnabledUI : bool;
  gcf_tenantsFilePath : string; gcf_tenantsFileContent : string; gcf_refreshInterval : Z;
  gcf_tenantHeader : string; gcf_tenantLabelName : string;
  gcf_ExternalRemoteWrites : PathOrContent;
  gcf_queryConfig : Downstream; gcf_rulesQueryConfig : Downstream; gcf_remoteWriteConfig : Downstream;
}.

Definition http_of (m : FlagValues) : HTTPServerConfig := {|
  hs_BindAddr := get_string m "http-address"; hs_GracePeriod := get_duration m "http-grace-period";
  hs_TLSConfig := get_string m "http.config" |}.
Definition downstream_of (m : FlagValues) (prefix : string) : Downstream :=
  {| ds_URL := get_string m (prefix +:+ ".address"); ds_Tripper := path_or_content m (prefix +:+ ".config") |}.

Definition gateway_registerFlag `{!Kingpin} : list Flag :=
  RegisterHTTPFlags
  ++ [mkFlag "debug.enable-ui" KBool "false";
      mkFlag "tenant.header" KString "WHIZARD-TENANT"; mkFlag "tenant.label-name" KString "tenant_id";
      mkFlag "tenant.admission-control-config-file" KString "";
      mkFlag "tenant.admission-control-config" KString "";
      mkFlag "tenant.admission-control-config-file-refresh-interval" KDuration "1m"]
  ++ RegisterPathOrContent "external-remote-writes.config"
  ++ QueryConfig_RegisterFlag ++ RulesQueryConfig_RegisterFlag ++ RemoteWriteConfig_RegisterFlag.

(** The variables the flags are bound to. *)
Definition gatewayConfig_of (m : FlagValues) : gatewayConfig := {|
  gcf_http := http_of m;
  gcf_debugEnabledUI := get_bool m "debug.enable-ui";
  gcf_tenantsFilePath := get_string m "tenant.admission-control-config-file";
  gcf_tenantsFileContent := get_string m "tenant.admission-control-config";
  gcf_refreshInterval := get_duration m "tenant.admission-control-config-file-refresh-interval";
  gcf_tenantHeader := get_string m "tenant.header"; gcf_tenantLabelName := get_string m "tenant.label-name";
  gcf_ExternalRemoteWrites := path_or_content m "external-remote-writes.config";
  gcf_queryConfig := downstream_of m "query"; gcf_rulesQueryConfig := downstream_of m "rules-query";
  gcf_remoteWriteConfig := downstream_of m "remote-write" |}.

(** ** gateway.go: what runs *)

(** Where the admitted tenants come from: a file that is watched, or one
    configuration. *)
Inductive AdmissionSource := FromFile (path : string) (interval : Z) | FromContent (tenants : list string).

Section run.
Context `{!Kingpin} `{!ClientConfigs} `{!CommandLib} `{!WatchLib}.

(** The server, the handler's options and the proxies behind them. *)
Record GatewayRun := {
  run_Server : HTTPServerConfig;
  run_Options : Options;
  run_QueryProxy : option (ReverseProxy Tripper);
  run_RulesQueryProxy : option (ReverseProxy Tripper);
  run_RemoteWriteProxy : option (ReverseProxy Tripper);
  run_ExternalRWClients : list ExternalClient;
  run_Admission : AdmissionSource;
}.

Definition downstream_proxy (what : string) (d : Downstream) : GoError + option (ReverseProxy Tripper) :=
  if String.eqb (ds_URL d) "" then inr None
  else
    downstreamURL ←? wrap_err ("setup " +:+ what +:+ " downstream service") (url_Parse (ds_URL d));
    content ←? Content (ds_Tripper d);
    downstreamTripper ←? ParseTransportConfiguration content;
    inr (Some (NewSingleHostReverseProxy downstreamURL downstreamTripper)).

Definition is_some {A} (o : option A) : bool := match o with Some _ => true | None => false end.

Definition gateway_options (conf : gatewayConfig) (q r w : option (ReverseProxy Tripper)) (clients : list ExternalClient)
    : Options := {|
  o_TenantHeader := gcf_tenantHeader conf; o_TenantLabelName := gcf_tenantLabelName conf;
  o_QueryProxy := is_some q; o_RulesQueryProxy := is_some r; o_RemoteWriteProxy := is_some w;
  o_ExternalRWClients := ec_Client <$> clients; o_CertAuthenticator := false;
  o_EnabledTenantsAdmission :=
    negb (String.eqb (gcf_tenantsFileContent conf) "") || negb (String.eqb (gcf_tenantsFilePath conf) "");
  o_EnabledQueryUI := gcf_debugEnabledUI conf |}.

Variable watch : string → GoError + unit.        (* fsnotify on a path *)
Variable file : string → option string.          (* the files, at the start *)

(** A file is preferred to a content, and must be valid at the start. *)
Definition admission_source (conf : gatewayConfig) : GoError + AdmissionSource :=
  if negb (String.eqb (gcf_tenantsFilePath conf) "") then
    _ ←? wrap_err "failed to initialize config watcher" (watch (gcf_tenantsFilePath conf));
    _ ←? wrap_err "failed to validate configuration file" (loadConfig (file (gcf_tenantsFilePath conf)));
    inr (FromFile (gcf_tenantsFilePath conf) (gcf_refreshInterval conf))
  else if String.eqb (gcf_tenantsFileContent conf) "" then inr (FromContent [])
  else
    cf ←? wrap_err "failed to validate configuration content" (ParseConfig (gcf_tenantsFileContent conf));
    inr (FromContent cf).

Definition runGateway (conf : gatewayConfig) : GoError + GatewayRun :=
  q ←? downstream_proxy "query" (gcf_queryConfig conf);
  r ←? downstream_proxy "rules query" (gcf_rulesQueryConfig conf);
  w ←? downstream_proxy "remote write" (gcf_remoteWriteConfig conf);
  content ←? Content (gcf_ExternalRemoteWrites conf);
  rwsCfg ←? LoadExternalRemoteWriteConfig "" content;
  clients ←? NewExternalRemoteWriteClients rwsCfg;
  source ←? admission_source conf;
  inr {| run_Server := gcf_http conf; run_Options := gateway_options conf q r w clients;
         run_QueryProxy := q; run_RulesQueryProxy := r; run_RemoteWriteProxy := w;
         run_ExternalRWClients := clients; run_Admission := source |}.
End run.

(** The goroutine that applies the configurations: the admission map, and
    whether the prober has been told that the gateway is ready. *)
Record GatewayState := { gs_Admission : AdmissionMap; gs_Ready : bool }.
Definition gateway_start : GatewayState := {| gs_Admission := ∅; gs_Ready := false |}.

Fixpoint update_loop (options : Options) (st : GatewayState) (updates : list (list string)) : Outcome GatewayState :=
  match updates with
  | [] => Ok st
  | c :: updates =>
      match SetAdmissionControlHandler options (gs_Admission st) c with
      | Err err => Err (EWrap "failed to set tenants admission config in gateway" err)
      | Panic p => Panic p
      | Ok m => update_loop options {| gs_Admission := m; gs_Ready := true |} updates
      end
  end.
