(* ===== verification/GatewayProcess.v ===== *)
(** The gateway while it runs: the actors that [runGateway]
    ([cmd/monitoring-gateway/gateway.go]) and [main] ([main.go]) add to the group,
    [ConfigFromWatcher] and the goroutine of the watcher
    ([pkg/monitoring-gateway/config_watcher.go]), as a machine whose steps
    interleave in any order. The goroutines share channels, a context and the
    channels that cancel them; [Run] of the group is third-party. *)
From stdpp Require Import base gmap strings list pretty sorting.
From Stdlib Require Import Ascii String.
From S2P Require Import Prelude GoStd K8s Base Url Gateway GatewayFacts Watcher Flags Proxy GatewayCommand.
Open Scope nat_scope.

(** ** Channels *)

(** A buffered channel. An operation that is not possible yet blocks: [None]. *)
Record Chan (A : Type) := { ch_cap : nat; ch_buf : list A; ch_closed : bool }.
Arguments ch_cap {A}. Arguments ch_buf {A}. Arguments ch_closed {A}.

Section chan.
Context {A : Type}.

Definition make_chan (n : nat) : Chan A := {| ch_cap := n; ch_buf := []; ch_closed := false |}.

Definition chan_send (a : A) (ch : Chan A) : option (Outcome (Chan A)) :=
  if ch_closed ch then Some (Panic "send on closed channel")
  else if length (ch_buf ch) <? ch_cap ch
  then Some (Ok {| ch_cap := ch_cap ch; ch_buf := ch_buf ch ++ [a]; ch_closed := false |})
  else None.

(** [v, ok := <-ch]: what was sent before the close is received first. *)
Definition chan_recv (ch : Chan A) : option (option A * Chan A) :=
  match ch_buf ch with
  | a :: rest => Some (Some a, {| ch_cap := ch_cap ch; ch_buf := rest; ch_closed := ch_closed ch |})
  | [] => if ch_closed ch then Some (None, ch) else None
  end.

Definition chan_close (ch : Chan A) : Outcome (Chan A) :=
  if ch_closed ch then Panic "close of closed channel"
  else Ok {| ch_cap := ch_cap ch; ch_buf := ch_buf ch; ch_closed := true |}.
End chan.

(** ** The group *)

(** The actors of the gateway, in the order they are added: its server, what
    writes its updates, the loop that applies them, and the two listeners of
    signals. *)
Inductive Actor := AServer | ASource | AUpdater | AInterrupt | AReload.
#[export] Instance Actor_eq_dec : EqDecision Actor.
Proof. solve_decision. Defined.
Definition actors : list Actor := [AServer; ASource; AUpdater; AInterrupt; AReload].

(** [run.Group]: the actors run concurrently; when the first returns, the others
    are interrupted, none of them twice; [Run] returns when all have returned,
    with the error of the first. [rg_interrupt returned interrupted] is whom
    [Run] interrupts next. *)
Class RunGroup := {
  rg_interrupt : list (Actor * option GoError) → list Actor → option Actor;
  rg_Run : list (Actor * option GoError) → option (option GoError);
  rg_waits : ∀ interrupted, rg_interrupt [] interrupted = None;
  rg_once : ∀ returned interrupted a, rg_interrupt returned interrupted = Some a → a ∉ interrupted;
  rg_all : ∀ returned interrupted, returned ≠ [] → rg_interrupt returned interrupted = None →
    ∀ a, a ∈ actors → a ∉ returned.*1 → a ∈ interrupted;
  rg_first : ∀ a e returned, (∀ b, b ∈ actors → b ∈ (a :: returned.*1)) →
    rg_Run ((a, e) :: returned) = Some e;
  rg_running : ∀ returned a, a ∈ actors → a ∉ returned.*1 → rg_Run returned = None;
}.

(** ** The process *)

(** Where [Run] of the watcher is: before it starts, before its first refresh,
    at its [select], at the [select] of [refresh] with a configuration to send,
    or stopped, its channel closed. *)
Inductive RunAt := RIdle | RStart | RSelect | RSend (config : list string) | RStopped.

(** Where the actor that writes the updates is: before it starts the watcher,
    waiting for a configuration (or, with a fixed one, for the end), or with a
    configuration to send. *)
Inductive SourceAt := SStart | SWait | SSend (config : list string).

Record Process := {
  gp_Watcher : ConfigWatcher;
  gp_Run : RunAt;
  gp_Source : SourceAt;
  gp_updates : Chan (list string);
  gp_Gateway : GatewayState;
  gp_Serving : bool;
  gp_Healthy : bool;
  gp_reload : Chan unit;
  gp_returned : list (Actor * option GoError);
  gp_interrupted : list Actor;
}.

Definition set_run (cw : ConfigWatcher) (r : RunAt) (s : Process) : Process := {|
  gp_Watcher := cw; gp_Run := r; gp_Source := gp_Source s; gp_updates := gp_updates s; gp_Gateway := gp_Gateway s;
  gp_Serving := gp_Serving s; gp_Healthy := gp_Healthy s; gp_reload := gp_reload s;
  gp_returned := gp_returned s; gp_interrupted := gp_interrupted s |}.
Definition set_source (at_ : SourceAt) (ch : Chan (list string)) (s : Process) : Process := {|
  gp_Watcher := gp_Watcher s; gp_Run := gp_Run s; gp_Source := at_; gp_updates := ch; gp_Gateway := gp_Gateway s;
  gp_Serving := gp_Serving s; gp_Healthy := gp_Healthy s; gp_reload := gp_reload s;
  gp_returned := gp_returned s; gp_interrupted := gp_interrupted s |}.
Definition set_gateway (ch : Chan (list string)) (g : GatewayState) (s : Process) : Process := {|
  gp_Watcher := gp_Watcher s; gp_Run := gp_Run s; gp_Source := gp_Source s; gp_updates := ch; gp_Gateway := g;
  gp_Serving := gp_Serving s; gp_Healthy := gp_Healthy s; gp_reload := gp_reload s;
  gp_returned := gp_returned s; gp_interrupted := gp_interrupted s |}.
Definition set_serving (serving healthy : bool) (s : Process) : Process := {|
  gp_Watcher := gp_Watcher s; gp_Run := gp_Run s; gp_Source := gp_Source s; gp_updates := gp_updates s;
  gp_Gateway := gp_Gateway s; gp_Serving := serving; gp_Healthy := healthy; gp_reload := gp_reload s;
  gp_returned := gp_returned s; gp_interrupted := gp_interrupted s |}.
Definition set_reload (ch : Chan unit) (s : Process) : Process := {|
  gp_Watcher := gp_Watcher s; gp_Run := gp_Run s; gp_Source := gp_Source s; gp_updates := gp_updates s;
  gp_Gateway := gp_Gateway s; gp_Serving := gp_Serving s; gp_Healthy := gp_Healthy s; gp_reload := ch;
  gp_returned := gp_returned s; gp_interrupted := gp_interrupted s |}.
Definition return_ (a : Actor) (e : option GoError) (s : Process) : Process := {|
  gp_Watcher := gp_Watcher s; gp_Run := gp_Run s; gp_Source := gp_Source s; gp_updates := gp_updates s;
  gp_Gateway := gp_Gateway s; gp_Serving := gp_Serving s; gp_Healthy := gp_Healthy s; gp_reload := gp_reload s;
  gp_returned := gp_returned s ++ [(a, e)]; gp_interrupted := gp_interrupted s |}.
Definition set_interrupted (a : Actor) (s : Process) : Process := {|
  gp_Watcher := gp_Watcher s; gp_Run := gp_Run s; gp_Source := gp_Source s; gp_updates := gp_updates s;
  gp_Gateway := gp_Gateway s; gp_Serving := gp_Serving s; gp_Healthy := gp_Healthy s; gp_reload := gp_reload s;
  gp_returned := gp_returned s; gp_interrupted := gp_interrupted s ++ [a] |}.

Definition running (a : Actor) (s : Process) : bool := bool_decide (a ∉ (gp_returned s).*1).
Definition interrupted (a : Actor) (s : Process) : bool := bool_decide (a ∈ gp_interrupted s).

(** ** The steps of the goroutines *)

Inductive WatchStep := WFirst (file : option string) | WEvent (ev : Event) | WGiveUp | WStop.
Inductive SourceStep := FStart | FReceive | FStopped | FDone | FSend.
Inductive UpdateStep := UReceive | UCancel.
Inductive Label :=
  | LServe | LServerReturns (e : option GoError)
  | LWatch (w : WatchStep) | LSource (f : SourceStep) | LUpdate (u : UpdateStep)
  | LSignal | LCanceled | LHangup | LReloadCanceled
  | LInterrupt.

Notation "'when' b 'do' x" := (if b then x else None) (at level 200, b at level 100, x at level 200, only parsing).

Section process.
Context `{!WatchLib} `{!RunGroup}.
Variable options : Options.
Variable source : AdmissionSource.

Definition start : Process := {|
  gp_Watcher := NewConfigWatcher; gp_Run := RIdle;
  gp_Source := match source with FromFile _ _ => SStart | FromContent cf => SSend cf end;
  gp_updates := make_chan 1; gp_Gateway := gateway_start;
  gp_Serving := false; gp_Healthy := false; gp_reload := make_chan 1; gp_returned := []; gp_interrupted := [] |}.

(** *** The watcher *)

(** [refresh] up to its [select]: the watcher after it, and the configuration
    it is about to send when the file is good and new. *)
Definition to_send (file : option string) (cw : ConfigWatcher) : option (list string) :=
  match loadConfig file with
  | inl _ => None
  | inr (config, cfgHash) => if (lastLoadedConfigHash cw =? cfgHash)%Z then None else Some config
  end.
Definition at_select (o : option (list string)) : RunAt := match o with Some c => RSend c | None => RSelect end.

Definition refresh_select (file : option string) (s : Process) : Process :=
  set_run (refresh file true (gp_Watcher s)) (at_select (to_send file (gp_Watcher s))) s.

(** [Stop]: the file watcher, which nobody else reads, is drained and closed, and
    then the channel. *)
Definition Stop (s : Process) : Process := set_run (gp_Watcher s) RStopped s.

(** [Run]: a refresh, then the events until the context is done; then [Stop].
    [refresh] gives up when the context is done. *)
Definition Run_at (w : WatchStep) (s : Process) : option Process :=
  match gp_Run s, w with
  | RStart, WFirst file => Some (refresh_select file s)
  | RSelect, WEvent ev =>
      Some (match reread ev with
            | Some file => refresh_select file s
            | None => set_run (Run_step (gp_Watcher s) ev) RSelect s
            end)
  | RSelect, WStop => when interrupted ASource s do Some (Stop s)
  | RSend _, WGiveUp => when interrupted ASource s do Some (set_run (gp_Watcher s) RSelect s)
  | _, _ => None
  end.

(** [refresh] sends: its channel has no buffer, so that the configuration is
    received at once. *)
Definition sent (c : list string) (cw : ConfigWatcher) : ConfigWatcher := {|
  lastLoadedConfigHash := lastLoadedConfigHash cw; refreshCounter := refreshCounter cw;
  changesCounter := changesCounter cw; errorCounter := errorCounter cw; tenantsGauge := tenantsGauge cw;
  cw_ch := cw_ch cw ++ [c] |}.

(** *** What writes the updates *)

(** An actor that returns after the deferred [close(updates)]. *)
Definition close_updates (e : option GoError) (s : Process) : Outcome Process :=
  match chan_close (gp_updates s) with
  | Ok ch => Ok (return_ ASource e (set_source (gp_Source s) ch s))
  | Err err => Err err
  | Panic p => Panic p
  end.

(** The send on [updates] that both actors make. *)
Definition send_update (s : Process) : option (Outcome Process) :=
  match gp_Source s with
  | SSend c =>
      match chan_send c (gp_updates s) with
      | None => None
      | Some (Ok ch) => Some (Ok (set_source SWait ch s))
      | Some (Err e) => Some (Err e)
      | Some (Panic p) => Some (Panic p)
      end
  | _ => None
  end.

(** [ConfigFromWatcher]: it starts [Run], and forwards what the watcher sends
    until the context is done. The send on [updates] waits for room, whatever
    happens to the context. *)
Definition ConfigFromWatcher_at (f : SourceStep) (s : Process) : option (Outcome Process) :=
  match gp_Source s, f with
  | SStart, FStart => Some (Ok (set_source SWait (gp_updates s) (set_run (gp_Watcher s) RStart s)))
  | SWait, FReceive =>
      match gp_Run s with
      | RSend c => Some (Ok (set_source (SSend c) (gp_updates s) (set_run (sent c (gp_Watcher s)) RSelect s)))
      | _ => None
      end
  | SWait, FStopped =>
      match gp_Run s with
      | RStopped => Some (close_updates (Some (EMsg "config watcher stopped unexpectedly")) s)
      | _ => None
      end
  | SWait, FDone => when interrupted ASource s do Some (close_updates (Some (EMsg "context canceled")) s)
  | SSend _, FSend => send_update s
  | _, _ => None
  end.

(** The actor of a fixed configuration: it sends it and waits. *)
Definition content_at (f : SourceStep) (s : Process) : option (Outcome Process) :=
  match gp_Source s, f with
  | SSend _, FSend => send_update s
  | SWait, FDone => when interrupted ASource s do Some (close_updates None s)
  | _, _ => None
  end.

Definition source_at (f : SourceStep) (s : Process) : option (Outcome Process) :=
  when running ASource s do
    match source with FromFile _ _ => ConfigFromWatcher_at f s | FromContent _ => content_at f s end.

(** *** The loop that applies them *)

Definition updater_at (u : UpdateStep) (s : Process) : option (Outcome Process) :=
  when running AUpdater s do
    match u with
    | UReceive =>
        match chan_recv (gp_updates s) with
        | None => None
        | Some (None, _) => Some (Ok (return_ AUpdater None s))
        | Some (Some c, ch) =>
            Some (match update_loop options (gp_Gateway s) [c] with
                  | Ok g => Ok (set_gateway ch g s)
                  | Err e => Ok (return_ AUpdater (Some e) (set_gateway ch (gp_Gateway s) s))
                  | Panic p => Panic p
                  end)
        end
    | UCancel => when interrupted AUpdater s do Some (Ok (return_ AUpdater None s))
    end.

(** *** The server and the signals *)

(** The server's actor tells the prober that it is healthy and serves. When
    serving ends is up to the network. *)
Definition server_at (l : Label) (s : Process) : option Process :=
  when running AServer s do
    match l with
    | LServe => when negb (gp_Serving s) do Some (set_serving true true s)
    | LServerReturns e => when gp_Serving s do Some (return_ AServer e s)
    | _ => None
    end.

(** A signal ends the process without an error; a hangup is dispatched if the
    last one has been received. Nobody receives it. *)
Definition interrupt_at (l : Label) (s : Process) : option Process :=
  when running AInterrupt s do
    match l with
    | LSignal => Some (return_ AInterrupt None s)
    | LCanceled => when interrupted AInterrupt s do Some (return_ AInterrupt (Some (EMsg "canceled")) s)
    | _ => None
    end.

Definition reload_at (l : Label) (s : Process) : option Process :=
  when running AReload s do
    match l with
    | LHangup =>
        Some (match chan_send tt (gp_reload s) with Some (Ok ch) => set_reload ch s | _ => s end)
    | LReloadCanceled => when interrupted AReload s do Some (return_ AReload (Some (EMsg "canceled")) s)
    | _ => None
    end.

(** The interrupts: the server's tells the prober that it is not ready, shuts the
    server down, and then that it is not healthy; the others cancel a context or
    close a channel. *)
Definition interrupt_actor (a : Actor) (s : Process) : Process :=
  let s := match a with
           | AServer => set_serving (gp_Serving s) false
                          (set_gateway (gp_updates s) {| gs_Admission := gs_Admission (gp_Gateway s); gs_Ready := false |} s)
           | _ => s
           end in
  set_interrupted a s.

Definition perform (l : Label) (s : Process) : option (Outcome Process) :=
  match l with
  | LServe | LServerReturns _ => Ok <$> server_at l s
  | LWatch w => Ok <$> Run_at w s
  | LSource f => source_at f s
  | LUpdate u => updater_at u s
  | LSignal | LCanceled => Ok <$> interrupt_at l s
  | LHangup | LReloadCanceled => Ok <$> reload_at l s
  | LInterrupt =>
      match rg_interrupt (gp_returned s) (gp_interrupted s) with
      | Some a => Some (Ok (interrupt_actor a s))
      | None => None
      end
  end.

(** A run of the process. *)
Inductive exec : Process → list Label → Process → Prop :=
  | exec_nil s : exec s [] s
  | exec_step s tr s1 l s2 : exec s tr s1 → perform l s1 = Some (Ok s2) → exec s (tr ++ [l]) s2.

(** The same, for a schedule that is given. *)
Fixpoint schedule (tr : list Label) (s : Process) : option Process :=
  match tr with
  | [] => Some s
  | l :: tr => match perform l s with Some (Ok s') => schedule tr s' | _ => None end
  end.

(** The exit status of [main], once [Run] of the group has returned. *)
Definition exit_status (s : Process) : option Z :=
  (λ e, match e with Some _ => 1%Z | None => 0%Z end) <$> rg_Run (gp_returned s).
End process.
