(* ===== verification/AgentCommand.v ===== *)
(** The agent proxy's commands: [cmd/monitoring-gateway/agent-proxy.go], the
    [main] of [cmd/monitoring-gateway], which starts the gateway or the agent
    proxy, [cmd/monitoring-agent-proxy] and [Server.Run] of
    [pkg/monitoring-agent-proxy/server.go]. *)
From stdpp Require Import base gmap strings list pretty sorting.
From Stdlib Require Import Ascii String.
From S2P Require Import Prelude GoStd K8s Base Url GoNet Duration Gateway GatewayFacts Watcher Flags Proxy GatewayCommand.

(** ** The client configuration of Thanos *)

Record ThanosTransport (R : Type) := { tt_MaxIdleConnsPerHost : Z; tt_MaxConnsPerHost : Z; tt_Rest : R }.
Arguments tt_MaxIdleConnsPerHost {R}.
Arguments tt_MaxConnsPerHost {R}.
Arguments tt_Rest {R}.
Arguments Build_ThanosTransport {R}.

Record ThanosClient `{!ClientConfigs} (R : Type) := {
  th_BasicAuth : ClientAuth; th_BearerToken : string; th_BearerTokenFile : string; th_ProxyURL : string;
  th_TLSConfig : ClientTLS; th_TransportConfig : ThanosTransport R;
}.
Arguments th_BasicAuth {_ R}.
Arguments th_BearerToken {_ R}.
Arguments th_BearerTokenFile {_ R}.
Arguments th_ProxyURL {_ R}.
Arguments th_TLSConfig {_ R}.
Arguments th_TransportConfig {_ R}.
Arguments Build_ThanosClient {_ R}.

Class AgentLib `{!ClientConfigs} `{!CommandLib} := {
  (* what the source does not name of the transport's settings *)
  TransportRest : Type;
  (* clientconfig.NewDefaultHTTPClientConfig, and yaml.UnmarshalStrict over it *)
  NewDefaultHTTPClientConfig : ThanosClient TransportRest;
  yaml_thanos_client : string → GoError + ThanosClient TransportRest;
  (* BasicAuth.IsZero *)
  BasicAuth_IsZero : ClientAuth → bool;
  BasicAuth_IsZero_iff : ∀ a, BasicAuth_IsZero a = true ↔
    a = {| ca_Username := ""; ca_Password := ""; ca_PasswordFile := "" |};
  (* yaml.Unmarshal of a config.URL, as its text *)
  yaml_config_URL : string → GoError + string;
  (* HTTPClientConfig.Validate *)
  Validate : ClientConfig → option GoError;
  (* clientconfig.NewRoundTripperFromConfig *)
  thanos_NewRoundTripper : ClientConfig → ThanosTransport TransportRest → string → GoError + RoundTripper;
}.

(** ** agent-proxy.go *)

Record gatewayCfg := {
  gwc_clientConfigPath : PathOrContent; gwc_address : string;
  gwc_clientTlsKey : string; gwc_clientTlsCert : string; gwc_serverTlsClientCa : string; gwc_serverName : string;
  gwc_insecureSkipVerify : bool; gwc_maxIdleConnsPerHost : Z; gwc_maxConnsPerHost : Z;
}.
(** The TLS flags of the server are registered and never read. *)
Record agentProxyConfig := {
  apc_http : HTTPServerConfig;
  apc_serverTlsKey : string; apc_serverTlsCert : string; apc_serverTlsClientCa : string;
  apc_gatewayConfig : gatewayCfg; apc_tenant : string;
}.

Definition agent_registerFlag `{!Kingpin} : list Flag :=
  RegisterHTTPFlags
  ++ RegisterPathOrContent "gateway.config"
  ++ [mkFlag "gateway.address" KString ""; mkFlag "gateway.client-tls-key" KString "";
      mkFlag "gateway.client-tls-cert" KString ""; mkFlag "gateway.server-tls-client-ca" KString "";
      mkFlag "gateway.server-name" KString ""; mkFlag "gateway.insecure-skip-verify" KBool "false";
      mkFlag "maxIdleConnsPerHost" KInt "100"; mkFlag "maxConnsPerHost" KInt "0";
      mkFlag "server-tls-key" KString ""; mkFlag "server-tls-cert" KString "";
      mkFlag "server-tls-client-ca" KString ""; mkFlag "tenant" KString ""].

Definition gatewayCfg_of (m : FlagValues) : gatewayCfg := {|
  gwc_clientConfigPath := path_or_content m "gateway.config"; gwc_address := get_string m "gateway.address";
  gwc_clientTlsKey := get_string m "gateway.client-tls-key"; gwc_clientTlsCert := get_string m "gateway.client-tls-cert";
  gwc_serverTlsClientCa := get_string m "gateway.server-tls-client-ca";
  gwc_serverName := get_string m "gateway.server-name";
  gwc_insecureSkipVerify := get_bool m "gateway.insecure-skip-verify";
  gwc_maxIdleConnsPerHost := get_int m "maxIdleConnsPerHost"; gwc_maxConnsPerHost := get_int m "maxConnsPerHost" |}.
Definition agentProxyConfig_of (m : FlagValues) : agentProxyConfig := {|
  apc_http := http_of m;
  apc_serverTlsKey := get_string m "server-tls-key"; apc_serverTlsCert := get_string m "server-tls-cert";
  apc_serverTlsClientCa := get_string m "server-tls-client-ca";
  apc_gatewayConfig := gatewayCfg_of m; apc_tenant := get_string m "tenant" |}.

Section agent.
Context `{!Kingpin} `{!ClientConfigs} `{!CommandLib} `{!AgentLib}.

Definition newRoundTripperFromConfig (cfg : ThanosClient TransportRest) (name : string) : GoError + RoundTripper :=
  proxy ←? (if String.eqb (th_ProxyURL cfg) "" then inr "" else yaml_config_URL (th_ProxyURL cfg));
  let httpClientConfig := {|
    cc_BasicAuth := if BasicAuth_IsZero (th_BasicAuth cfg) then None else Some (th_BasicAuth cfg);
    cc_BearerToken := th_BearerToken cfg; cc_BearerTokenFile := th_BearerTokenFile cfg;
    cc_ProxyURL := proxy;
    cc_TLSConfig := {| ct_CAFile := ct_CAFile (th_TLSConfig cfg); ct_CertFile := ct_CertFile (th_TLSConfig cfg);
                       ct_KeyFile := ct_KeyFile (th_TLSConfig cfg); ct_ServerName := ct_ServerName (th_TLSConfig cfg);
                       ct_InsecureSkipVerify := ct_InsecureSkipVerify (th_TLSConfig cfg); ct_Rest := no_TLSRest |};
    cc_Rest := no_ClientRest |} in
  match Validate httpClientConfig with
  | Some err => inl err
  | None => thanos_NewRoundTripper httpClientConfig (th_TransportConfig cfg) name
  end.

(** Without a file, the default configuration with the flags over it. *)
Definition flags_client (g : gatewayCfg) : ThanosClient TransportRest :=
  let d := NewDefaultHTTPClientConfig in {|
  th_BasicAuth := th_BasicAuth d; th_BearerToken := th_BearerToken d; th_BearerTokenFile := th_BearerTokenFile d;
  th_ProxyURL := th_ProxyURL d;
  th_TLSConfig := {| ct_CAFile := gwc_serverTlsClientCa g; ct_CertFile := gwc_clientTlsCert g;
                     ct_KeyFile := gwc_clientTlsKey g; ct_ServerName := gwc_serverName g;
                     ct_InsecureSkipVerify := gwc_insecureSkipVerify g; ct_Rest := ct_Rest (th_TLSConfig d) |};
  th_TransportConfig := {|
    tt_MaxIdleConnsPerHost := gwc_maxIdleConnsPerHost g; tt_MaxConnsPerHost := gwc_maxConnsPerHost g;
    tt_Rest := tt_Rest (th_TransportConfig d) |} |}.

(** The server and the options of its handler. *)
Record AgentRun := {
  ar_Server : HTTPServerConfig; ar_Tenant : string; ar_Endpoint : URL; ar_GatewayProxy : ReverseProxy RoundTripper;
}.

Definition runAgentProxy (conf : agentProxyConfig) (gatewayConfigYaml : string) : GoError + AgentRun :=
  let g := apc_gatewayConfig conf in
  gatewayClientCfg ←? (if String.eqb gatewayConfigYaml "" then inr (flags_client g)
                       else wrap_err "parsing gateway config YAML file failed" (yaml_thanos_client gatewayConfigYaml));
  roundTripper ←? newRoundTripperFromConfig gatewayClientCfg "agent-proxy";
  rawUrl ←? wrap_err "setup query downstream service" (url_Parse (gwc_address g));
  inr {| ar_Server := apc_http conf; ar_Tenant := apc_tenant conf; ar_Endpoint := rawUrl;
         ar_GatewayProxy := agent_NewSingleHostReverseProxy rawUrl roundTripper |}.

(** The set-up of the command. Without a tenant it wraps an error that is nil,
    and so succeeds with nothing to run. *)
Definition agent_setup (conf : agentProxyConfig) : GoError + option AgentRun :=
  yaml ←? Content (gwc_clientConfigPath (apc_gatewayConfig conf));
  if String.eqb (gwc_address (apc_gatewayConfig conf)) "" then inl (EMsg "no --gateway.address parameter was given")
  else if String.eqb (apc_tenant conf) "" then inr None
  else run ←? runAgentProxy conf yaml; inr (Some run).

(** What the agent sends for a request of one of its routes ([AgentProxy.routes]
    lists them; they share one handler): the handler puts the tenant in front of
    the path and hands the request to the proxy. *)
Definition agent_handler (run : AgentRun) (r : Outgoing) : Outgoing :=
  let path := u_Path (og_URL r) in
  let path := if String.eqb path AgentProxy.write then AgentProxy.receive else path in
  let path := if negb (String.eqb (ar_Tenant run) "") then "/" +:+ ar_Tenant run +:+ path else path in
  px_Director (ar_GatewayProxy run)
    {| og_URL := set_path path (og_URL r); og_Host := og_Host r; og_Header := og_Header r |}.
End agent.

(** ** main.go: the command is the entry point's first argument *)

Inductive Command := CGateway | CAgentProxy.
Definition Command_String (c : Command) : string :=
  match c with CGateway => "gateway" | CAgentProxy => "agent-proxy" end.

Definition app_flags : list Flag :=
  [mkFlag "debug.name" KString "";
   mkFlag "log.level" (KEnum ["error"; "warn"; "info"; "debug"]) "info";
   mkFlag "log.format" (KEnum ["logfmt"; "json"]) "logfmt"].

Definition command_flags `{!Kingpin} (c : Command) : list Flag :=
  app_flags ++ match c with CGateway => gateway_registerFlag | CAgentProxy => agent_registerFlag end.

Section main.
Context `{!Kingpin} `{!ClientConfigs} `{!CommandLib} `{!AgentLib} `{!WatchLib}.
Variable watch : string → GoError + unit.
Variable file : string → option string.

(** What the group of actors runs, next to the signal handlers. *)
Inductive Running := RunsGateway (r : GatewayRun) | RunsAgent (r : AgentRun) | RunsNothing.

Definition setup (c : Command) (m : FlagValues) : GoError + Running :=
  match c with
  | CGateway => r ←? runGateway watch file (gatewayConfig_of m); inr (RunsGateway r)
  | CAgentProxy =>
      r ←? agent_setup (agentProxyConfig_of m);
      inr (match r with Some r => RunsAgent r | None => RunsNothing end)
  end.

Definition main (c : Command) (args : list string) : GoError + Running :=
  m ←? cl_Parse (command_flags c) args;
  wrap_err ("preparing " +:+ Command_String c +:+ " command failed") (setup c m).
End main.

(** ** cmd/monitoring-agent-proxy and server.go *)

(** The TLS configurations of Thanos; a server without a certificate has none. *)
Class TLSLib := {
  TLSClientConfig : Type;
  TLSServerConfig : Type;
  NewClientConfig : string → string → string → string → bool → GoError + TLSClientConfig;
  NewServerConfig : string → string → string → string → GoError + option TLSServerConfig;
}.

Module Standalone.
Section standalone.
Context `{!Kong} `{!TLSLib}.

(** The flags of [cli], by the names [kong] gives them. *)
Definition cli : list Flag :=
  [mkFlag "log.level" (KEnum ["debug"; "info"; "warn"; "error"]) "info";
   mkFlag "log.format" (KEnum ["json"; "logfmt"]) "logfmt";
   mkFlag "http-address" KString "0.0.0.0:9090"; mkFlag "server-tls-key" KString "";
   mkFlag "server-tls-cert" KString ""; mkFlag "server-tls-client-ca" KString "";
   mkFlag "gateway.address" KString ""; mkFlag "gateway.client-tls-key" KString "";
   mkFlag "gateway.client-tls-cert" KString ""; mkFlag "gateway.server-tls-client-ca" KString "";
   mkFlag "gateway.server-name" KString ""; mkFlag "gateway.insecure-skip-verify" KBool "true";
   mkFlag "tenant" KString ""; mkFlag "maxIdleConnsPerHost" KInt "100"; mkFlag "maxConnsPerHost" KInt "0"].

(** What of [http.DefaultTransport] is changed. *)
Record StandaloneTransport := {
  st_MaxIdleConnsPerHost : Z; st_MaxConnsPerHost : Z; st_TLSClientConfig : TLSClientConfig;
}.
Record StandaloneOptions := {
  so_Tenant : string; so_GatewayProxy : ReverseProxy StandaloneTransport; so_ListenAddress : string;
  so_TLSConfig : option TLSServerConfig;
}.

(** [Server.Run]: it listens with TLS or in plain HTTP. *)
Inductive Listening := ListenTLS (addr : string) (c : TLSServerConfig) | ListenPlain (addr : string).
Definition Server_Run (o : StandaloneOptions) : Listening :=
  match so_TLSConfig o with
  | Some c => ListenTLS (so_ListenAddress o) c
  | None => ListenPlain (so_ListenAddress o)
  end.

Definition standalone_main (args : list string) : GoError + (StandaloneOptions * Listening) :=
  m ←? cl_Parse cli args;
  rawUrl ←? url_Parse (get_string m "gateway.address");
  client ←? NewClientConfig (get_string m "gateway.client-tls-cert") (get_string m "gateway.client-tls-key")
              (get_string m "gateway.server-tls-client-ca") (get_string m "gateway.server-name")
              (get_bool m "gateway.insecure-skip-verify");
  server ←? NewServerConfig (get_string m "server-tls-cert") (get_string m "server-tls-key")
              (get_string m "server-tls-client-ca") "1.1";
  let options := {|
    so_Tenant := get_string m "tenant";
    so_GatewayProxy := agent_NewSingleHostReverseProxy rawUrl
      {| st_MaxIdleConnsPerHost := get_int m "maxIdleConnsPerHost";
         st_MaxConnsPerHost := get_int m "maxConnsPerHost"; st_TLSClientConfig := client |};
    so_ListenAddress := get_string m "http-address"; so_TLSConfig := server |} in
  inr (options, Server_Run options).
End standalone.
End Standalone.
