(* ===== verification/Ruler.v ===== *)
(** [pkg/controllers/resources/ruler]: the config maps that carry a ruler's
    rules ([configmap.go]: selection, sharding by hash, packing, deletion of the
    stale ones), and its names, addresses and services ([ruler.go],
    [service.go]). *)
From stdpp Require Import base gmap strings list pretty sorting.
From Stdlib Require Import Ascii String.
From S2P Require Import Prelude GoStd K8s Api Objects Client Base.

(** prometheus-operator's rule validation and the YAML of a rule file. *)
Class RuleLib := {
  yaml_Marshal_rules : PrometheusRuleSpec → GoError + string;
  ValidateRule : PrometheusRuleSpec → list GoError;
}.

(** [int(float64(corev1.MaxSecretSize) * 0.5)], half a mebibyte. *)
Definition maxConfigMapDataSize : Z := 524288.

(** ** Packing *)

Definition file_size (file : string) : Z := Z.of_nat (String.length file).

Section packing.
Context `{!MapRange}.

Definition bucketSize (bucket : gmap string string) : Z :=
  foldl (λ total kv, total + file_size kv.2)%Z 0%Z (map_range "bucketSize" bucket).

(** One file name of the loop: the buckets that are closed and the current
    one, to which the file is added if it fits and which is closed if not. *)
Definition pack_file (files : gmap string string)
    (acc : list (gmap string string) * gmap string string) (filename : string)
    : list (gmap string string) * gmap string string :=
  let '(closed, current) := acc in
  let content := map_get files filename in
  if (maxConfigMapDataSize <? bucketSize current + file_size content)%Z
  then (closed ++ [current], <[filename := content]> ∅)
  else (closed, <[filename := content]> current).

Definition pack (files : gmap string string) : list (gmap string string) :=
  let fileNames := sort_strings (map_range "fileNames" files).*1 in
  let '(closed, current) := foldl (pack_file files) ([], ∅) fileNames in
  closed ++ [current].
End packing.

(** ** Sharding *)

(** The bytes of the hash summed into a uint64: the shift of byte [i] is
    [(16 - i - 1) * 8], and shifts of 64 and more leave nothing. *)
Definition uint64 (z : Z) : Z := z mod 2 ^ 64.
Fixpoint sum64_from (i : Z) (hash : list Z) (s : Z) : Z :=
  match hash with
  | [] => s
  | b :: hash' => sum64_from (i + 1) hash' (Z.lor s (uint64 (Z.shiftl b (uint64 ((16 - i - 1) * 8)))))
  end.
Definition sum64 (hash : list Z) : Z := sum64_from 0 hash 0.

Section ruler.
Context {W : Type} `{!Kube W} `{!K8sLib} `{!MapRange} `{!BaseLib} `{!RuleLib}.
Variable r : Ruler.       (* r.ruler *)

(** ** ruler.go *)

Definition ruler_labels : StrMap :=
  <[LabelNameAppManagedBy := om_Name (rl_Meta r)]> (<[LabelNameAppName := AppNameRuler]> BaseLabels).
Definition ruler_name_of (suffix : list string) : string := QualifiedName AppNameRuler (om_Name (rl_Meta r)) suffix.
Definition OwnerReferences : list OwnerReference := [{|
  or_APIVersion := tm_APIVersion (rl_Type r); or_Kind := tm_Kind (rl_Type r);
  or_Name := om_Name (rl_Meta r); or_UID := om_UID (rl_Meta r); or_Controller := Some true |}].
Definition ruler_meta (name : string) : ObjectMeta := {|
  om_Name := name; om_GenerateName := ""; om_Namespace := om_Namespace (rl_Meta r); om_UID := "";
  om_ResourceVersion := ""; om_Labels := ruler_labels; om_Annotations := ∅; om_Finalizers := [];
  om_DeletionTimestamp := None; om_OwnerReferences := OwnerReferences |}.

(** [*r.ruler.Spec.Shards]: a nil dereference when it is unset. *)
Definition shards_deref : Outcome Z :=
  match rls_Shards (rl_Spec r) with Some n => Ok n | None => Panic "nil pointer dereference" end.

Definition per_shard (f : nat → string) : Outcome (list string) :=
  match shards_deref with
  | Ok n => Ok (f <$> seq 0 (Z.to_nat n))
  | Err e => Err e
  | Panic p => Panic p
  end.
Definition shard_service (sn : nat) : string := ruler_name_of [itoa (Z.of_nat sn); ServiceNameSuffix].
Definition Endpoints : Outcome (list string) := per_shard (λ sn,
  "dnssrv+_grpc._tcp." +:+ shard_service sn +:+ "." +:+ om_Namespace (rl_Meta r) +:+ ".svc").
Definition HttpAddrs : Outcome (list string) := per_shard (λ sn,
  "http://" +:+ shard_service sn +:+ "." +:+ om_Namespace (rl_Meta r) +:+ ".svc:" +:+ itoa HTTPPort).
Definition GrpcAddrs : Outcome (list string) := per_shard (λ sn,
  shard_service sn +:+ "." +:+ om_Namespace (rl_Meta r) +:+ ".svc:" +:+ itoa GRPCPort).

(** ^([1-9]\d*|0)$ *)
Fixpoint all_digits (s : string) : bool :=
  match s with
  | EmptyString => true
  | String a s' => match digit_of a with Some _ => all_digits s' | None => false end
  end.
Definition sequenceNumber (s : string) : bool :=
  match s with
  | EmptyString => false
  | String a s' => String.eqb s "0"
      || (match digit_of a with Some d => negb (Z.eqb d 0) | None => false end && all_digits s')
  end.

(** ** configmap.go *)

Definition GenerateContent (spec : PrometheusRuleSpec) : GoError + string :=
  match yaml_Marshal_rules spec with
  | inl err => inl (EWrap "failed to marshal content" err)
  | inr content => match ValidateRule spec with [] => inr content | _ => inl (EMsg "Invalid rule") end
  end.

Definition selectNamespaces (nsSelector : option LabelSelector) : M W (list string) :=
  match nsSelector with
  | None => mret [om_Namespace (rl_Meta r)]
  | Some sel =>
      s ← attempt (lift_outcome (LabelSelectorAsSelector sel));
      match s with
      | inl err => fail (EWrap "convert rule namespace label selector to selector" err)
      | inr selector =>
          items ← List (A:=Namespace) {| lo_Namespace := None; lo_Selector := selector |};
          mret ((λ ns, om_Name (ns_Meta ns)) <$> items)
      end
  end.

(** The first rule of a file name wins. *)
Definition add_rule (rules : gmap string PrometheusRuleSpec) (promRule : PrometheusRule)
    : gmap string PrometheusRuleSpec :=
  let file := om_Namespace (prule_Meta promRule) +:+ "-" +:+ om_Name (prule_Meta promRule) +:+ ".yaml" in
  match rules !! file with Some _ => rules | None => <[file := prule_Spec promRule]> rules end.

Definition rules_of_namespace (selectors : list (gmap string string → bool))
    (rules : gmap string PrometheusRuleSpec) (ns : string) : M W (gmap string PrometheusRuleSpec) :=
  found ← fold_each (λ acc s,
            items ← List (A:=PrometheusRule) {| lo_Namespace := ns_opt ns; lo_Selector := s |};
            mret (acc ++ items)) [] selectors;
  mret (foldl add_rule rules found).

Definition selectPrometheusRules : M W (gmap string PrometheusRuleSpec) :=
  namespaces ← selectNamespaces (rls_RuleNamespaceSelector (rl_Spec r));
  selectors ← fold_each (λ acc s, x ← lift_outcome (LabelSelectorAsSelector s); mret (acc ++ [x]))
                [] (rls_RuleSelectors (rl_Spec r));
  fold_each (rules_of_namespace selectors) ∅ namespaces.

Definition shard_of (shards : Z) (file : string) (g : RuleGroup) : Z :=
  (sum64 (md5_Sum (file +:+ "/" +:+ rg_Name g)) mod shards)%Z.

(** [shardSpecs\[shardSn\].Groups = append(...)]; the number is below [shards]. *)
Definition append_group (shards : Z) (file : string) (shardSpecs : list (list RuleGroup)) (g : RuleGroup)
    : list (list RuleGroup) :=
  alter (λ groups, groups ++ [g]) (Z.to_nat (shard_of shards file g)) shardSpecs.

(** The groups of a file, by the shard they go to. *)
Definition shard_groups (shards : Z) (file : string) (spec : PrometheusRuleSpec) : list (list RuleGroup) :=
  foldl (append_group shards file) (replicate (Z.to_nat shards) []) (prs_Groups spec).

Definition set_file (sn : nat) (file content : string) (shardsRuleFiles : list (gmap string string))
    : list (gmap string string) :=
  alter (<[file := content]>) sn shardsRuleFiles.

Definition shard_file (file : string) (acc : list (gmap string string)) (shard : nat * list RuleGroup)
    : GoError + list (gmap string string) :=
  match shard.2 with
  | [] => inr acc
  | groups => match GenerateContent {| prs_Groups := groups |} with
              | inl err => inl err
              | inr content => inr (set_file shard.1 file content acc)
              end
  end.

Fixpoint fold_err {A B} (f : B → A → GoError + B) (b : B) (l : list A) : GoError + B :=
  match l with
  | [] => inr b
  | x :: l' => match f b x with inl e => inl e | inr b' => fold_err f b' l' end
  end.

Definition shard_rule (shards : Z) (acc : list (gmap string string)) (rule : string * PrometheusRuleSpec)
    : GoError + list (gmap string string) :=
  match prs_Groups rule.2 with
  | [] => inr acc
  | _ =>
      if (1 <? shards)%Z
      then fold_err (shard_file rule.1) acc (imap pair (shard_groups shards rule.1 rule.2))
      else match GenerateContent rule.2 with
           | inl err => inl err
           | inr content => inr (set_file 0 rule.1 content acc)
           end
  end.

Definition makeRulesConfigMaps (ruleFiles : gmap string string) (shardSn : nat) : GoError + list ConfigMap :=
  match find (λ kv : string * string, (maxConfigMapDataSize <? file_size kv.2)%Z)
          (map_range "ruleFiles" ruleFiles) with
  | Some (filename, _) =>
      inl (EMsg ("rule file '" +:+ filename +:+ "' is too large for a single Kubernetes ConfigMap"))
  | None =>
      inr (imap (λ i bucket, {|
        cm_Meta := ruler_meta (ruler_name_of ["rulefiles"] +:+ "-" +:+ itoa (Z.of_nat shardSn) +:+ "-" +:+ itoa (Z.of_nat i));
        cm_Data := bucket |}) (pack ruleFiles))
  end.

(** A list with one resource, the error. *)
Definition errResourcesFunc (err : GoError) : list (ResourceFn W) := [fail err].

Definition shard_config_maps (shardsRuleFiles : list (gmap string string)) : GoError + list (list ConfigMap) :=
  fold_err (λ acc sn_files, match makeRulesConfigMaps sn_files.2 sn_files.1 with
                            | inl err => inl err
                            | inr cms => inr (acc ++ [cms])
                            end)
    [] (imap pair shardsRuleFiles).

(** Is this the name of one of the ruler's rule config maps? *)
Definition is_rule_configmap (name : string) : bool :=
  let namePrefix := ruler_name_of ["rulefiles"] +:+ "-" in
  has_prefix name namePrefix &&
  match split_on "-"%char (trim_prefix name namePrefix) with
  | [shardSn; cmSn] => sequenceNumber shardSn && sequenceNumber cmSn
  | _ => false
  end.

Definition by_name (cms : list ConfigMap) : gmap string ConfigMap :=
  foldl (λ m cm, <[om_Name (cm_Meta cm) := cm]> m) ∅ cms.

Definition data_changed (currents : gmap string ConfigMap) (kv : string * ConfigMap) : bool :=
  match currents !! kv.1 with
  | Some current => negb (bool_decide (cm_Data kv.2 = cm_Data current))
  | None => true
  end.

(** The deletions, then the creations and updates that change the data. *)
Definition configmap_resources (targets : gmap string ConfigMap) (items : list ConfigMap) : list (ResourceFn W) :=
  let own := filter (λ cm, is_rule_configmap (om_Name (cm_Meta cm)) = true) items in
  let currents := by_name own in
  ((λ cm, mret (Some (OConfigMap cm, OperationDelete))) <$>
     filter (λ cm, targets !! om_Name (cm_Meta cm) = None) own)
  ++ ((λ kv : string * ConfigMap, mret (Some (OConfigMap kv.2, OperationCreateOrUpdate))) <$>
     filter (λ kv, data_changed currents kv = true) (map_range "targets" targets)).

(** The resources, and the names of the config maps of each shard, which the
    stateful sets mount ([shardsRuleConfigMapNames]). *)
Definition ruleConfigMaps : M W (list (ResourceFn W) * list (list string)) :=
  rules ← attempt selectPrometheusRules;
  match rules with
  | inl err => mret (errResourcesFunc err, [])
  | inr prometheusRules =>
      let shards := match rls_Shards (rl_Spec r) with Some n => uint64 n | None => 1%Z end in
      if (2 ^ 31 <=? shards)%Z then panic "makeslice: len out of range"
      else if (shards =? 0)%Z && existsb (λ kv : string * PrometheusRuleSpec,
                match prs_Groups kv.2 with [] => false | _ => true end) (map_range "prometheusRules" prometheusRules)
      then panic "index out of range"
      else
        match fold_err (shard_rule shards) (replicate (Z.to_nat shards) ∅)
                (map_range "prometheusRules" prometheusRules) with
        | inl err => mret (errResourcesFunc err, [])
        | inr shardsRuleFiles =>
            match shard_config_maps shardsRuleFiles with
            | inl err => mret (errResourcesFunc err, [])
            | inr cms =>
                let names := (λ l : list ConfigMap, (λ cm, om_Name (cm_Meta cm)) <$> l) <$> cms in
                items ← attempt (List (A:=ConfigMap) (InNamespace (om_Namespace (rl_Meta r))));
                match items with
                | inl err => mret (errResourcesFunc err, names)
                | inr items => mret (configmap_resources (by_name (mjoin cms)) items, names)
                end
            end
        end
  end.

(** ** service.go *)

Definition ruler_service (shardSn : nat) : ResourceFn W :=
  let s := {|
    svc_Meta := ruler_meta (shard_service shardSn); svc_Type := "ClusterIP";
    svc_Selector := <[LabelNameRulerShardSn := itoa (Z.of_nat shardSn)]> ruler_labels;
    svc_Ports := [
      {| sp_Protocol := "TCP"; sp_Name := GRPCPortName; sp_Port := GRPCPort; sp_TargetPort := 0; sp_NodePort := 0 |};
      {| sp_Protocol := "TCP"; sp_Name := HTTPPortName; sp_Port := HTTPPort; sp_TargetPort := 0; sp_NodePort := 0 |}];
    svc_IPFamilies := []; svc_IPFamilyPolicy := ""; svc_ClusterIP := ""; svc_ClusterIPs := [] |} in
  o ← lift_outcome (SetControllerReference (ORuler r) (OCoreService s));
  mret (Some (o, OperationCreateOrUpdate)).

Definition is_shard_service (name : string) : bool :=
  let namePrefix := ruler_name_of [] +:+ "-" in
  let nameSuffix := "-" +:+ ServiceNameSuffix in
  has_prefix name namePrefix && has_suffix name nameSuffix
  && sequenceNumber (trim_suffix (trim_prefix name namePrefix) nameSuffix).

Definition ruler_services : M W (list (ResourceFn W)) :=
  n ← lift_outcome shards_deref;
  let shards := seq 0 (Z.to_nat n) in
  let targetNames := shard_service <$> shards in
  items ← attempt (List (A:=CoreService) (InNamespace (om_Namespace (rl_Meta r))));
  match items with
  | inl err => mret (errResourcesFunc err)
  | inr items =>
      mret ((ruler_service <$> shards)
        ++ ((λ svc, mret (Some (OCoreService svc, OperationDelete))) <$>
             filter (λ svc, is_shard_service (om_Name (svc_Meta svc)) = true
                            ∧ om_Name (svc_Meta svc) ∉ targetNames) items))
  end.
End ruler.
