(* ===== verification/RulerFacts.v ===== *)
(** What the rule config maps of a ruler guarantee: the hash of a group picks
    one shard, packing loses no file and overfills no config map, and stale
    config maps are told apart from those of other rulers. *)
From stdpp Require Import base gmap strings list pretty sorting.
From Stdlib Require Import Ascii String.
From S2P Require Import Prelude GoStd K8s Api Objects Client Base Ruler.
Open Scope nat_scope.

(** ** Sums of bytes *)

Lemma shiftl_byte b k : (0 ≤ b < 256)%Z → (0 ≤ k)%Z → (0 ≤ Z.shiftl b k < 2 ^ (k + 8))%Z.
Proof.
  intros Hb Hk. rewrite Z.shiftl_mul_pow2 by done. rewrite Z.pow_add_r by lia.
  pose proof (Z.pow_pos_nonneg 2 k). nia.
Qed.

Lemma uint64_big b k : (0 ≤ b < 256)%Z → (64 ≤ k)%Z → uint64 (Z.shiftl b k) = 0%Z.
Proof.
  intros Hb Hk. unfold uint64. rewrite Z.shiftl_mul_pow2 by lia.
  replace k with ((k - 64) + 64)%Z by lia. rewrite Z.pow_add_r by lia. rewrite Z.mul_assoc.
  apply Z.mod_mul. lia.
Qed.

Lemma uint64_small z : (0 ≤ z < 2 ^ 64)%Z → uint64 z = z.
Proof. intros. unfold uint64. by apply Z.mod_small. Qed.

(** Big-endian value of a list of bytes. *)
Definition big_endian (l : list Z) : Z := foldl (λ acc b, acc * 256 + b)%Z 0%Z l.

Lemma big_endian_from a l :
  foldl (λ acc b, acc * 256 + b)%Z a l = (a * 2 ^ (8 * Z.of_nat (length l)) + big_endian l)%Z.
Proof.
  unfold big_endian. revert a. induction l as [|b l IH]; intros a; [simpl; lia|].
  cbn [foldl]. rewrite IH, (IH (0 * 256 + b)%Z). change (length (b :: l)) with (S (length l)).
  replace (8 * Z.of_nat (S (length l)))%Z with (8 + 8 * Z.of_nat (length l))%Z by lia.
  rewrite Z.pow_add_r by lia. lia.
Qed.

Lemma big_endian_cons b l :
  big_endian (b :: l) = (b * 2 ^ (8 * Z.of_nat (length l)) + big_endian l)%Z.
Proof. unfold big_endian at 1. cbn [foldl]. rewrite big_endian_from. lia. Qed.

Lemma big_endian_bound l :
  Forall (λ b, 0 ≤ b < 256)%Z l → (0 ≤ big_endian l < 2 ^ (8 * Z.of_nat (length l)))%Z.
Proof.
  induction l as [|b l IH]; intros Hl; [done|]. apply Forall_cons in Hl as [Hb Hl].
  specialize (IH Hl). rewrite big_endian_cons. change (length (b :: l)) with (S (length l)).
  replace (8 * Z.of_nat (S (length l)))%Z with (8 + 8 * Z.of_nat (length l))%Z by lia.
  rewrite Z.pow_add_r by lia. pose proof (Z.pow_pos_nonneg 2 (8 * Z.of_nat (length l))). nia.
Qed.

(** An or of bits that do not overlap is a sum. *)
Lemma lor_no_overlap a b k : (0 ≤ k)%Z → (0 ≤ b < 2 ^ k)%Z → Z.lor (a * 2 ^ k) b = (a * 2 ^ k + b)%Z.
Proof.
  intros Hk Hb. assert (Hland : Z.land (a * 2 ^ k) b = 0%Z).
  { apply Z.bits_inj'. intros n Hn. rewrite Z.land_spec, Z.bits_0.
    destruct (Z.lt_ge_cases n k) as [Hlt|Hge].
    - by rewrite Z.mul_pow2_bits_low.
    - rewrite andb_false_iff. right. apply Z.testbit_false; [done|].
      rewrite Z.div_small; [done|]. split; [lia|].
      eapply Z.lt_le_trans; [apply Hb|]. apply Z.pow_le_mono_r; lia. }
  by rewrite Z.add_nocarry_lxor, Z.lxor_lor by done.
Qed.

Lemma sum64_low l i q :
  (8 ≤ i)%Z → (i + Z.of_nat (length l) = 16)%Z → Forall (λ b, 0 ≤ b < 256)%Z l →
  sum64_from i l (q * 2 ^ (8 * Z.of_nat (length l))) = (q * 2 ^ (8 * Z.of_nat (length l)) + big_endian l)%Z.
Proof.
  revert i q. induction l as [|b l IH]; intros i q Hi Hlen Hl; [simpl; unfold big_endian; simpl; lia|].
  apply Forall_cons in Hl as [Hb Hl]. change (length (b :: l)) with (S (length l)) in *.
  cbn [sum64_from]. set (k := (8 * Z.of_nat (length l))%Z).
  replace ((16 - i - 1) * 8)%Z with k by lia. rewrite (uint64_small k) by (unfold k; lia).
  pose proof (shiftl_byte b k Hb ltac:(unfold k; lia)) as Hx.
  assert (Hk : (2 ^ (k + 8) ≤ 2 ^ 64)%Z) by (apply Z.pow_le_mono_r; unfold k; lia).
  rewrite uint64_small by lia.
  replace (8 * Z.of_nat (S (length l)))%Z with (k + 8)%Z by (unfold k; lia).
  rewrite lor_no_overlap by (unfold k in *; lia).
  replace (q * 2 ^ (k + 8) + Z.shiftl b k)%Z with ((q * 256 + b) * 2 ^ k)%Z.
  - unfold k. rewrite (IH (i + 1)%Z (q * 256 + b)%Z) by (done || lia). rewrite big_endian_cons.
    fold k. rewrite Z.pow_add_r by (unfold k; lia). lia.
  - rewrite Z.shiftl_mul_pow2, Z.pow_add_r by (unfold k; lia). lia.
Qed.

Lemma sum64_high l i :
  (0 ≤ i)%Z → (i + Z.of_nat (length l) ≤ 8)%Z → Forall (λ b, 0 ≤ b < 256)%Z l →
  ∀ rest, sum64_from i (l ++ rest) 0 = sum64_from (i + Z.of_nat (length l)) rest 0.
Proof.
  revert i. induction l as [|b l IH]; intros i Hi Hlen Hl rest.
  - simpl. f_equal. lia.
  - apply Forall_cons in Hl as [Hb Hl]. change (length (b :: l)) with (S (length l)) in *.
    change ((b :: l) ++ rest) with (b :: (l ++ rest)). cbn [sum64_from].
    rewrite (uint64_small ((16 - i - 1) * 8)) by lia. rewrite uint64_big by lia.
    change (Z.lor 0 0) with 0%Z. rewrite IH by (done || lia). f_equal. lia.
Qed.

(** The sum of a digest is the big-endian value of its last eight bytes, the
    first eight being shifted out; it is a uint64, so the shard of a group is
    one of the shards. *)
Theorem sum64_last_eight_bytes hash :
  length hash = 16 → Forall (λ b, 0 ≤ b < 256)%Z hash →
  sum64 hash = big_endian (drop 8 hash) ∧ (0 ≤ sum64 hash < 2 ^ 64)%Z
  ∧ ∀ shards, (0 < shards)%Z → (0 ≤ sum64 hash mod shards < shards)%Z.
Proof.
  intros Hlen Hb. assert (E : sum64 hash = big_endian (drop 8 hash)).
  { unfold sum64. rewrite <-(take_drop 8 hash) at 1.
    assert (H1 : length (take 8 hash) = 8) by (rewrite length_take; lia).
    assert (H2 : length (drop 8 hash) = 8) by (rewrite length_drop; lia).
    rewrite sum64_high by (try rewrite H1; try lia; by apply Forall_take).
    rewrite H1. change (0 + Z.of_nat 8)%Z with 8%Z.
    pose proof (sum64_low (drop 8 hash) 8 0 ltac:(lia) ltac:(rewrite H2; lia) ltac:(by apply Forall_drop)) as H.
    rewrite Z.mul_0_l in H. rewrite H. lia. }
  pose proof (big_endian_bound (drop 8 hash) ltac:(by apply Forall_drop)) as Hbd.
  rewrite length_drop, Hlen in Hbd. rewrite E. split; [done|]. split; [exact Hbd|].
  intros shards Hs. by apply Z.mod_pos_bound.
Qed.

(** ** Packing *)

Section packing.
Context {HM : MapRange}.

Definition total (l : list (string * string)) : Z := foldr (λ kv acc, file_size kv.2 + acc)%Z 0%Z l.

Lemma total_foldl l a : foldl (λ t kv, t + file_size kv.2)%Z a l = (a + total l)%Z.
Proof. revert a. induction l as [|kv l IH]; intros a; simpl; [lia|]. rewrite IH. lia. Qed.

Lemma total_perm l l' : l ≡ₚ l' → total l = total l'.
Proof. induction 1; simpl; lia. Qed.

Lemma bucketSize_total b : bucketSize b = total (map_to_list b).
Proof.
  unfold bucketSize. rewrite total_foldl. rewrite (total_perm _ _ (map_range_perm "bucketSize" b)). lia.
Qed.

Lemma bucketSize_insert b k v :
  b !! k = None → bucketSize (<[k := v]> b) = (bucketSize b + file_size v)%Z.
Proof.
  intros Hk. rewrite !bucketSize_total. rewrite (total_perm _ _ (map_to_list_insert b k v Hk)). simpl. lia.
Qed.

Lemma bucketSize_singleton k v : bucketSize (<[k := v]> ∅) = file_size v.
Proof.
  rewrite bucketSize_insert by apply lookup_empty. rewrite bucketSize_total.
  by rewrite map_to_list_empty.
Qed.

Context (files : gmap string string).

(** The buckets hold the files of [names], each in one bucket. *)
Record packed (names : list string) (buckets : list (gmap string string)) : Prop := {
  p_size : Forall (λ b, bucketSize b ≤ maxConfigMapDataSize)%Z buckets;
  p_sound : ∀ i b k v, buckets !! i = Some b → b !! k = Some v → k ∈ names ∧ files !! k = Some v;
  p_complete : ∀ k, k ∈ names → ∃ i b, buckets !! i = Some b ∧ is_Some (b !! k);
  p_once : ∀ i j b b' k, buckets !! i = Some b → buckets !! j = Some b' →
    is_Some (b !! k) → is_Some (b' !! k) → i = j;
}.

(** Replacing the last bucket by itself with one more file keeps the rest. *)
Lemma packed_add names closed current name v :
  name ∉ names → files !! name = Some v →
  (bucketSize current + file_size v ≤ maxConfigMapDataSize)%Z →
  packed names (closed ++ [current]) →
  packed (names ++ [name]) (closed ++ [<[name := v]> current]).
Proof.
  intros Hname Hv Hfit [Hs Hsnd Hc Ho].
  assert (Hnone : ∀ i b, (closed ++ [current]) !! i = Some b → b !! name = None).
  { intros i b Hi. destruct (b !! name) eqn:E; [|done]. destruct Hname. by eapply Hsnd. }
  assert (Hcur : (closed ++ [current]) !! length closed = Some current) by by apply list_lookup_middle.
  assert (Hback : ∀ i b, (closed ++ [<[name := v]> current]) !! i = Some b →
    (i ≠ length closed ∧ (closed ++ [current]) !! i = Some b) ∨ (i = length closed ∧ b = <[name := v]> current)).
  { intros i b Hi. apply lookup_app_Some in Hi as [Hi|[Hge Hi]].
    - left. split; [apply lookup_lt_Some in Hi; lia|]. by apply lookup_app_l_Some.
    - right. destruct (i - length closed) eqn:E; [|by rewrite lookup_nil in Hi || destruct n].
      inversion Hi. split; [lia|done]. }
  split.
  - apply Forall_app in Hs as [Hs1 Hs2]. apply Forall_app. split; [done|]. apply Forall_singleton.
    rewrite bucketSize_insert; [done|by eapply Hnone].
  - intros i b k w Hi Hk. rewrite elem_of_app, list_elem_of_singleton.
    destruct (Hback i b Hi) as [[_ Hi']|[-> ->]].
    + destruct (Hsnd i b k w Hi' Hk). by split; [left|].
    + apply lookup_insert_Some in Hk as [[<- <-]|[Hne Hk]]; [by split; [right|]|].
      destruct (Hsnd _ _ _ _ Hcur Hk). by split; [left|].
  - intros k [Hk|Hk%list_elem_of_singleton]%elem_of_app.
    + destruct (Hc k Hk) as (i & b & Hi & Hb). destruct (decide (i = length closed)) as [->|Hne].
      * rewrite Hcur in Hi. inversion Hi; subst b. exists (length closed), (<[name := v]> current).
        split; [by apply list_lookup_middle|]. rewrite lookup_insert_is_Some'. by right.
      * exists i, b. split; [|done]. apply lookup_app_Some in Hi as [Hi|[Hge Hi]]; [by apply lookup_app_l_Some|].
        destruct (i - length closed) eqn:E; [lia|]. by destruct n.
    + subst k. exists (length closed), (<[name := v]> current).
      split; [by apply list_lookup_middle|]. rewrite lookup_insert_eq. eauto.
  - intros i j b b' k Hi Hj Hb Hb'.
    destruct (Hback i b Hi) as [[Hne Hi']|[-> ->]], (Hback j b' Hj) as [[Hne' Hj']|[-> ->]]; [| | |done].
    + eapply Ho; eauto.
    + rewrite lookup_insert_is_Some' in Hb'. destruct Hb' as [<-|Hb'].
      * rewrite (Hnone _ _ Hi') in Hb. by destruct Hb.
      * eapply Ho; eauto.
    + rewrite lookup_insert_is_Some' in Hb. destruct Hb as [<-|Hb].
      * rewrite (Hnone _ _ Hj') in Hb'. by destruct Hb'.
      * eapply Ho; eauto.
Qed.

(** Closing a bucket: an empty one is added. *)
Lemma packed_close names buckets : packed names buckets → packed names (buckets ++ [∅]).
Proof.
  intros [Hs Hsnd Hc Ho].
  assert (Hback : ∀ i b k, (buckets ++ [∅ : gmap string string]) !! i = Some b → is_Some (b !! k) →
    buckets !! i = Some b).
  { intros i b k Hi Hk. apply lookup_app_Some in Hi as [Hi|[_ Hi]]; [done|].
    apply list_lookup_singleton_Some in Hi as [_ <-]. rewrite lookup_empty in Hk. by destruct Hk. }
  split.
  - apply Forall_app. split; [done|]. apply Forall_singleton. rewrite bucketSize_total, map_to_list_empty.
    unfold maxConfigMapDataSize. simpl. lia.
  - intros i b k v Hi Hk. eapply Hsnd; [|done]. eapply Hback; eauto.
  - intros k Hk. destruct (Hc k Hk) as (i & b & Hi & Hb). exists i, b. split; [|done].
    by apply lookup_app_l_Some.
  - intros i j b b' k Hi Hj Hb Hb'. eapply Ho; [eapply Hback..| |]; eauto.
Qed.

Lemma pack_loop names done_ closed current :
  NoDup (done_ ++ names) → (∀ n, n ∈ names → is_Some (files !! n)) →
  (∀ n v, files !! n = Some v → (file_size v ≤ maxConfigMapDataSize)%Z) →
  packed done_ (closed ++ [current]) →
  let '(closed', current') := foldl (pack_file files) (closed, current) names in
  packed (done_ ++ names) (closed' ++ [current']).
Proof.
  revert done_ closed current. induction names as [|name names IH]; intros d closed current Hnd Hf Hsz Hp.
  - by rewrite app_nil_r.
  - cbn [foldl]. destruct (Hf name ltac:(by left)) as [v Hv].
    assert (Hname : name ∉ d).
    { apply NoDup_app in Hnd as (_ & Hd & _). intros Hin. apply (Hd name Hin). by left. }
    rewrite (cons_middle name d names), app_assoc in Hnd |- *.
    assert (E : pack_file files (closed, current) name =
      if (maxConfigMapDataSize <? bucketSize current + file_size v)%Z
      then (closed ++ [current], <[name := v]> ∅) else (closed, <[name := v]> current)).
    { unfold pack_file, map_get. by rewrite Hv. }
    rewrite E. clear E. destruct (Z.ltb_spec maxConfigMapDataSize (bucketSize current + file_size v)) as [Hover|Hfit].
    + apply IH; [done|intros; apply Hf; by right|done|].
      apply packed_add; [done|done| |by apply packed_close].
      rewrite bucketSize_total, map_to_list_empty. simpl. specialize (Hsz _ _ Hv). lia.
    + apply IH; [done|intros; apply Hf; by right|done|]. by apply packed_add.
Qed.

(** C18: packing rule files into config maps loses nothing and repeats nothing:
    every file is in exactly one config map, with its content, nothing else is
    in any, and none is larger than the limit, provided no file alone is. *)
Theorem pack_partitions :
  (∀ n v, files !! n = Some v → (file_size v ≤ maxConfigMapDataSize)%Z) →
  Forall (λ b, bucketSize b ≤ maxConfigMapDataSize)%Z (pack files)
  ∧ (∀ n v, files !! n = Some v ↔ ∃ i b, pack files !! i = Some b ∧ b !! n = Some v)
  ∧ ∀ i j b b' n, pack files !! i = Some b → pack files !! j = Some b' →
      is_Some (b !! n) → is_Some (b' !! n) → i = j.
Proof.
  intros Hsz. unfold pack. set (names := sort_strings (map_range "fileNames" files).*1).
  assert (Hperm : names ≡ₚ (map_range "fileNames" files).*1) by apply merge_sort_Permutation.
  assert (Hnames : ∀ n, n ∈ names ↔ is_Some (files !! n)).
  { intros n. rewrite Hperm, list_elem_of_fmap. split.
    - intros ([k v] & -> & Hv%elem_of_map_range). simpl. eauto.
    - intros [v Hv]. exists (n, v). split; [done|]. by apply elem_of_map_range. }
  assert (Hp0 : packed [] ([] ++ [∅])).
  { apply (packed_close [] []). split; [constructor|by intros ????; rewrite lookup_nil|by intros ? ?%elem_of_nil|
      by intros ?????; rewrite lookup_nil]. }
  pose proof (pack_loop names [] [] ∅) as Hloop.
  destruct (foldl (pack_file files) ([], ∅) names) as [closed current].
  destruct Hloop as [Hs Hsnd Hc Ho].
  { rewrite app_nil_l, Hperm. apply map_range_NoDup. }
  { intros n. apply Hnames. }
  { done. }
  { done. }
  split; [done|]. split; [|done]. intros n v. split.
  - intros Hv. destruct (Hc n) as (i & b & Hi & [w Hw]); [apply Hnames; eauto|].
    exists i, b. split; [done|]. destruct (Hsnd _ _ _ _ Hi Hw) as [_ H]. congruence.
  - intros (i & b & Hi & Hb). by eapply Hsnd.
Qed.
End packing.

(** ** Sharding *)

Lemma buckets_perm {A} (f : A → nat) (l : list A) n :
  (∀ x, x ∈ l → f x < n) →
  mjoin ((λ i, filter (λ x, f x = i) l) <$> seq 0 n) ≡ₚ l.
Proof.
  induction l as [|x l IH]; intros Hf.
  - assert (H : ∀ m k, mjoin ((λ i, filter (λ x : A, f x = i) []) <$> seq k m) = []).
    { induction m as [|m IHm]; intros k; [done|]. exact (IHm (S k)). }
    by rewrite H.
  - assert (Hx : f x < n) by (apply Hf; by left).
    etransitivity; [|apply perm_skip, IH; intros; apply Hf; by right].
    replace n with (f x + S (n - S (f x))) by lia. rewrite !seq_app, !fmap_app, !join_app.
    cbn [seq fmap list_fmap mjoin list_join]. rewrite Nat.add_0_l.
    assert (Hsame : ∀ k m, (∀ i, k ≤ i < k + m → i ≠ f x) →
      (λ i, filter (λ x, f x = i) (x :: l)) <$> seq k m = (λ i, filter (λ x, f x = i) l) <$> seq k m).
    { intros k m Hi. apply list_fmap_ext. intros j i Hj.
      apply lookup_seq in Hj as [-> Hj]. rewrite filter_cons_False; [done|].
      intros E. apply (Hi (k + j)); lia. }
    rewrite !Hsame by lia. rewrite filter_cons_True by done. cbn [app].
    by rewrite <-Permutation_middle.
Qed.

Lemma buckets_join {A} (f : A → nat) (ls : list (list A)) (l : list A) :
  (∀ x, x ∈ l → f x < length ls) → (∀ i b, ls !! i = Some b → b = filter (λ x, f x = i) l) → mjoin ls ≡ₚ l.
Proof.
  intros Hf Hls. etransitivity; [|by apply (buckets_perm f l (length ls))]. apply reflexive_eq. f_equal.
  apply list_eq. intros i. rewrite list_lookup_fmap. destruct (ls !! i) as [b|] eqn:Hi.
  - rewrite lookup_seq_lt by by eapply lookup_lt_Some. simpl. f_equal. by apply Hls.
  - rewrite lookup_seq_ge by by apply lookup_ge_None. done.
Qed.

Section sharding.
Context {HB : BaseLib} (shards : Z) (file : string) (Hs : (0 < shards)%Z).

(** The shard of a group: the last eight bytes of the MD5 of its file and name,
    read as one big-endian number, modulo the number of shards. *)
Definition hash_shard (g : RuleGroup) : Z :=
  (big_endian (drop 8 (md5_Sum (file +:+ "/" +:+ rg_Name g))) mod shards)%Z.

Lemma shard_of_hash g : shard_of shards file g = hash_shard g.
Proof.
  unfold shard_of, hash_shard. destruct (md5_Sum_bytes (file +:+ "/" +:+ rg_Name g)) as [Hl Hb].
  by rewrite (proj1 (sum64_last_eight_bytes _ Hl Hb)).
Qed.

Lemma hash_shard_bound g : (0 ≤ hash_shard g < shards)%Z.
Proof. by apply Z.mod_pos_bound. Qed.

Lemma append_groups l : ∀ specs,
  length (foldl (append_group shards file) specs l) = length specs
  ∧ ∀ i b, foldl (append_group shards file) specs l !! i = Some b →
      ∃ b0, specs !! i = Some b0 ∧ b = b0 ++ filter (λ g, Z.to_nat (hash_shard g) = i) l.
Proof.
  induction l as [|g l IH]; intros specs; cbn [foldl].
  { split; [done|]. intros i b Hb. exists b. split; [done|]. by rewrite app_nil_r. }
  destruct (IH (append_group shards file specs g)) as [I1 I2]. unfold append_group in *. rewrite shard_of_hash in *.
  split; [by rewrite I1, length_alter|]. intros i b Hb. apply I2 in Hb as (b0 & Hb0 & ->).
  rewrite filter_cons. destruct (decide (Z.to_nat (hash_shard g) = i)) as [<-|Hne].
  - rewrite list_lookup_alter_eq in Hb0. destruct (specs !! _) as [b1|]; [|done]. inversion Hb0; subst.
    exists b1. split; [done|]. by rewrite <-app_assoc.
  - rewrite list_lookup_alter_ne in Hb0 by done. by exists b0.
Qed.
End sharding.

(** C21: sharding distributes the groups of a rule file by their hash: a shard
    gets, in the order of the file, exactly the groups for which the last eight
    bytes of the MD5 of "file/group", as a big-endian number, leave the number
    of the shard modulo the number of shards; so that over the shards the groups
    are those of the file, each with its multiplicity. *)
Theorem shard_groups_partition {HB : BaseLib} shards file spec :
  (0 < shards)%Z →
  length (shard_groups shards file spec) = Z.to_nat shards
  ∧ (∀ sn groups, shard_groups shards file spec !! sn = Some groups →
       groups = filter (λ g, big_endian (drop 8 (md5_Sum (file +:+ "/" +:+ rg_Name g))) mod shards = Z.of_nat sn)%Z
                  (prs_Groups spec))
  ∧ mjoin (shard_groups shards file spec) ≡ₚ prs_Groups spec.
Proof.
  intros Hs. unfold shard_groups.
  destruct (append_groups shards file (prs_Groups spec) (replicate (Z.to_nat shards) [])) as [Hlen Hall].
  rewrite length_replicate in Hlen.
  assert (Hb : ∀ sn b, foldl (append_group shards file) (replicate (Z.to_nat shards) []) (prs_Groups spec) !! sn = Some b →
    b = filter (λ g, Z.to_nat (hash_shard shards file g) = sn) (prs_Groups spec)).
  { intros sn b (b0 & [-> _]%lookup_replicate_1 & ->)%Hall. done. }
  split; [done|]. split.
  - intros sn groups ->%Hb. apply list_filter_iff. intros g. pose proof (hash_shard_bound shards file Hs g).
    unfold hash_shard in *. lia.
  - apply (buckets_join (λ g, Z.to_nat (hash_shard shards file g))); [|done].
    intros g _. rewrite Hlen. pose proof (hash_shard_bound shards file Hs g). lia.
Qed.

(** ** Whose config map? *)

Lemma digit_char d : (d < 10)%N → digit_of (pretty_N_char d) = Some (Z.of_N d).
Proof. apply digit_of_pretty. Qed.

Lemma all_digits_go x s : all_digits s = true → all_digits (pretty_N_go x s) = true.
Proof.
  revert s. induction (N.lt_wf_0 x) as [x _ IH]; intros s Hs.
  destruct (decide (x = 0)%N) as [->|Hx]; [done|].
  rewrite pretty_N_go_step by lia. apply IH; [apply N.div_lt; lia|].
  cbn [all_digits]. by rewrite digit_char by (apply N.mod_lt; lia).
Qed.

Lemma pretty_go_first x s :
  (0 < x)%N → ∃ d s', (0 < d < 10)%N ∧ pretty_N_go x s = String (pretty_N_char d) s'.
Proof.
  revert s. induction (N.lt_wf_0 x) as [x _ IH]; intros s Hx.
  rewrite pretty_N_go_step by done. destruct (decide (x `div` 10 = 0)%N) as [E|E].
  - rewrite E, pretty_N_go_0. eexists _, _. split; [|done].
    apply N.div_small_iff in E; [|done]. rewrite N.mod_small by done. lia.
  - apply IH; [apply N.div_lt; lia|]. by apply N.neq_0_lt_0.
Qed.

Lemma itoa_nat_go n : 0 < n → itoa (Z.of_nat n) = pretty_N_go (N.of_nat n) "".
Proof.
  intros Hn. unfold itoa, pretty, pretty_Z. destruct n as [|n]; [lia|].
  change (Z.of_nat (S n)) with (Z.pos (Pos.of_succ_nat n)).
  unfold pretty, pretty_positive, pretty, pretty_N. rewrite decide_False by done.
  f_equal. 
Qed.

Lemma itoa_digits n : all_digits (itoa (Z.of_nat n)) = true.
Proof. destruct n as [|n]; [done|]. rewrite itoa_nat_go by lia. by apply all_digits_go. Qed.

Lemma itoa_sequence n : sequenceNumber (itoa (Z.of_nat n)) = true.
Proof.
  pose proof (itoa_digits n) as Hd. destruct n as [|n]; [done|].
  rewrite itoa_nat_go in * by lia.
  destruct (pretty_go_first (N.of_nat (S n)) "" ltac:(lia)) as (d & s' & Hd' & E). rewrite E in *.
  cbn [all_digits sequenceNumber] in *. rewrite digit_char in * by lia. rewrite Hd.
  apply orb_true_iff. right. rewrite andb_true_r. destruct (Z.eqb_spec (Z.of_N d) 0); [lia|done].
Qed.

Lemma digits_no_dash s : all_digits s = true → contains_char "-"%char s = false.
Proof.
  induction s as [|a s IH]; [done|]. cbn [all_digits contains_char].
  destruct (digit_of a) eqn:E; [|done]. intros H. rewrite (IH H), orb_false_r.
  destruct (Ascii.eqb a "-") eqn:Ea; [|done]. apply Ascii.eqb_eq in Ea as ->. done.
Qed.

Lemma sequence_no_dash s : sequenceNumber s = true → contains_char "-"%char s = false.
Proof.
  intros H. apply digits_no_dash. destruct s as [|a s]; [done|]. cbn [sequenceNumber] in H.
  apply orb_true_iff in H as [H|H]; [by apply String.eqb_eq in H as ->|].
  apply andb_true_iff in H as [H1 H2]. cbn [all_digits]. by destruct (digit_of a).
Qed.

(** The text after the last dash. *)
Lemma last_dash a b a' b' :
  contains_char "-"%char b = false → contains_char "-"%char b' = false →
  a +:+ String "-" b = a' +:+ String "-" b' → a = a' ∧ b = b'.
Proof.
  intros Hb Hb'. revert a'. induction a as [|x a IH]; intros [|y a'] H.
  - by inversion H.
  - inversion H; subst. by rewrite contains_char_app, orb_true_r in Hb.
  - inversion H; subst. by rewrite contains_char_app, orb_true_r in Hb'.
  - inversion H as [[Hxy E]]. destruct (IH a' E) as [-> ->]. done.
Qed.

Section owners.
Context (r r' : Ruler).

Lemma ruler_name_rulefiles x : ruler_name_of x ["rulefiles"]
  = "ruler-" +:+ (om_Name (rl_Meta x) +:+ String "-" "rulefiles").
Proof. unfold ruler_name_of, QualifiedName. simpl. by rewrite append_assoc. Qed.

(** C19: of the rule config maps of all rulers in a namespace, the ones a ruler
    takes for its own, and so may delete as stale, are exactly its own: names
    of different rulers are never confused, whatever dashes and digits they
    contain. *)
Theorem rule_configmap_owner sn i :
  is_rule_configmap r (ruler_name_of r' ["rulefiles"] +:+ "-" +:+ itoa (Z.of_nat sn) +:+ "-" +:+ itoa (Z.of_nat i))
  = true ↔ om_Name (rl_Meta r) = om_Name (rl_Meta r').
Proof.
  set (a := itoa (Z.of_nat sn)). set (b := itoa (Z.of_nat i)).
  assert (Ha : contains_char "-"%char a = false) by apply digits_no_dash, itoa_digits.
  assert (Hb : contains_char "-"%char b = false) by apply digits_no_dash, itoa_digits.
  unfold is_rule_configmap. split.
  - intros [Hpre H]%andb_true_iff. apply has_prefix_inv in Hpre as [suffix Hname].
    rewrite Hname in H. rewrite trim_prefix_app in H.
    destruct (split_on "-" suffix) as [|c [|d [|]]] eqn:Es; try done.
    apply andb_true_iff in H as [Hc%sequence_no_dash Hd%sequence_no_dash].
    assert (Hsuf : suffix = c +:+ String "-" d).
    { rewrite <-(join_split "-" suffix), Es. reflexivity. }
    rewrite Hsuf in Hname.
    assert (E : (ruler_name_of r' ["rulefiles"] +:+ String "-" a) +:+ String "-" b
      = (ruler_name_of r ["rulefiles"] +:+ String "-" c) +:+ String "-" d).
    { rewrite !append_assoc in *. exact Hname. }
    apply last_dash in E as [E _]; [|done|done]. apply last_dash in E as [E _]; [|done|done].
    rewrite !ruler_name_rulefiles in E.
    change ("ruler-" +:+ ?x) with (String "r" (String "u" (String "l" (String "e" (String "r" (String "-" x)))))) in E.
    inversion E as [E']. apply last_dash in E' as [E' _]; [|done|done]. done.
  - intros Hname. assert (En : ruler_name_of r' ["rulefiles"] = ruler_name_of r ["rulefiles"]).
    { by rewrite !ruler_name_rulefiles, Hname. }
    rewrite En. set (P := ruler_name_of r ["rulefiles"]).
    change (P +:+ "-" +:+ a +:+ "-" +:+ b) with (P +:+ ("-" +:+ (a +:+ "-" +:+ b))).
    rewrite <-append_assoc. rewrite has_prefix_app, trim_prefix_app.
    change (a +:+ "-" +:+ b) with (a +:+ String "-" b).
    rewrite split_on_app by done. rewrite split_on_no_sep by done.
    cbn [andb]. unfold a, b. by rewrite !itoa_sequence.
Qed.
End owners.
