(* ===== verification/Query.v ===== *)
(** [pkg/controllers/resources/query] and [pkg/controllers/query_controller.go]:
    the querier of a service, the stores it reaches, directly or through a
    sidecar proxy, and the configuration of that proxy. The queries are never
    nil: their name is read before the nil tests of the source. *)
From stdpp Require Import base gmap strings list pretty sorting.
From Stdlib Require Import Ascii String.
From S2P Require Import Prelude GoStd K8s Api Objects Client Base Workload Web Tenant Ingester GoNet.

Class QueryLib := {
  (* yaml.Marshal of one targetgroup.Group, from its targets *)
  yaml_Marshal_targets : list StrMap → GoError + string;
  (* mergo.Merge(&query.Spec, template) *)
  mergo_Merge_QuerySpec : QuerySpec → QuerySpec → GoError + QuerySpec;
}.

(** ** The proxied and the direct stores *)

Record ProxyStore := {
  ListenHost : string; ListenPort : Z; TargetHost : string; TargetPort : Z; TlsCaFile : string;
}.
Record Stores := { DirectStores : list string; ProxyStores : list ProxyStore }.

Definition query_configDir : string := "/etc/whizard".
Definition storesFile : string := "store-sd.yaml".
Definition envoyConfigDir : string := "/etc/envoy/config".
Definition envoyConfigFile : string := "envoy.yaml".
Definition envoyLdsFile : string := "lds.yaml".
Definition envoyCdsFile : string := "cds.yaml".
Definition envoySecretsDir : string := "/etc/envoy/secrets".

Definition uint32 (z : Z) : Z := z mod 2 ^ 32.

(** One address: the stores so far and the next port to listen on. *)
Definition add_address (ca : option SecretKeySelector) (acc : Stores * Z) (address : string) : GoError + (Stores * Z) :=
  let '(stores, listenPort) := acc in
  match ca with
  | None => inr ({| DirectStores := DirectStores stores ++ [address]; ProxyStores := ProxyStores stores |}, listenPort)
  | Some ca =>
      match SplitHostPort address with
      | inl err => inl err
      | inr (host, portString) =>
          match ParseUint32 portString with
          | inl err => inl err
          | inr port =>
              inr ({| DirectStores := DirectStores stores;
                      ProxyStores := ProxyStores stores ++ [{|
                        ListenHost := "127.0.0.1"; ListenPort := listenPort; TargetHost := host;
                        TargetPort := uint32 port;
                        TlsCaFile := filepath_Join [envoySecretsDir; sks_Name ca; sks_Key ca] |}] |},
                   uint32 (listenPort + 1))
          end
      end
  end.

Fixpoint fold_sum {A B} (f : B → A → GoError + B) (b : B) (l : list A) : GoError + B :=
  match l with
  | [] => inr b
  | x :: l' => match f b x with inl e => inl e | inr b' => fold_sum f b' l' end
  end.

Definition first_listen_port : Z := 11000.

Definition query_stores (q : Query) : GoError + Stores :=
  match fold_sum (λ acc s, fold_sum (add_address (qs_CASecret s)) acc (qs_Addresses s))
          ({| DirectStores := []; ProxyStores := [] |}, first_listen_port) (qsp_Stores (q_Spec q)) with
  | inl err => inl err
  | inr (stores, _) => inr stores
  end.

(** ** envoy_config.go *)

Definition nl : string := String "010" "".
Definition dq (s : string) : string := String "034" (s +:+ String "034" "").
(** Lines of text, each with its newline. *)
Definition text (lines : list string) : string := foldr (λ l s, l +:+ nl +:+ s) "" lines.

(** [printf "%s:%d"] *)
Definition host_port (host : string) (port : Z) : string := host +:+ ":" +:+ itoa port.

Definition envoyConfigTemplate (NodeCluster NodeId CdsPath LdsPath : string) : string := text [
  "";
  "node:";
  "  cluster: " +:+ NodeCluster;
  "  id: " +:+ NodeId;
  "";
  "dynamic_resources:";
  "  cds_config:";
  "    path: " +:+ CdsPath;
  "  lds_config:";
  "    path: " +:+ LdsPath].

Definition lds_listener (s : ProxyStore) : list string := [
  "";
  "- " +:+ dq "@type" +:+ ": type.googleapis.com/envoy.config.listener.v3.Listener";
  "  name: " +:+ host_port (ListenHost s) (ListenPort s);
  "  address:";
  "    socket_address:";
  "      address: " +:+ ListenHost s;
  "      port_value: " +:+ itoa (ListenPort s);
  "  filter_chains:";
  "  - filters:";
  "    - name: envoy.http_connection_manager";
  "      typed_config:";
  "        " +:+ dq "@type" +:+ ": type.googleapis.com/envoy.extensions.filters.network.http_connection_manager.v3.HttpConnectionManager";
  "        stat_prefix: store_apis";
  "        http_filters:";
  "        - name: envoy.filters.http.router";
  "        route_config:";
  "          name: local_route";
  "          virtual_hosts:";
  "          - name: local_service";
  "            domains:";
  "            - " +:+ dq "*";
  "            routes:";
  "            - match:";
  "                prefix: " +:+ dq "/";
  "              route:";
  "                host_rewrite_literal: " +:+ TargetHost s;
  "                cluster: " +:+ host_port (TargetHost s) (TargetPort s)].

Definition cds_cluster (s : ProxyStore) : list string := [
  "";
  "- " +:+ dq "@type" +:+ ": type.googleapis.com/envoy.config.cluster.v3.Cluster";
  "  name: " +:+ host_port (TargetHost s) (TargetPort s);
  "  type: STRICT_DNS";
  "  typed_extension_protocol_options:";
  "    envoy.extensions.upstreams.http.v3.HttpProtocolOptions:";
  "      " +:+ dq "@type" +:+ ": type.googleapis.com/envoy.extensions.upstreams.http.v3.HttpProtocolOptions";
  "      explicit_http_config:";
  "        http2_protocol_options: {}";
  "  load_assignment:";
  "    cluster_name: " +:+ host_port (TargetHost s) (TargetPort s);
  "    endpoints:";
  "    - lb_endpoints:";
  "      - endpoint:";
  "          address:";
  "            socket_address:";
  "              address: " +:+ TargetHost s;
  "              port_value: " +:+ itoa (TargetPort s);
  "  transport_socket:";
  "    name: envoy.transport_sockets.tls";
  "    typed_config:";
  "      " +:+ dq "@type" +:+ ": type.googleapis.com/envoy.extensions.transport_sockets.tls.v3.UpstreamTlsContext";
  "      common_tls_context: ";
  "        validation_context:";
  "          trusted_ca:";
  "            filename: " +:+ TlsCaFile s;
  "        alpn_protocols:";
  "        - h2";
  "        - http/1.1";
  "      sni: " +:+ TargetHost s].

(** [{{- range .ProxyStores }} ... {{ end }}] after the resources: the body of a
    store begins with the newline that ends the line before it. *)
Definition envoy_resources (body : ProxyStore → list string) (stores : list ProxyStore) : string :=
  nl +:+ "resources:" +:+ foldr (λ s rest, text (body s) +:+ rest) nl stores.

Definition envoyLdsTemplate : list ProxyStore → string := envoy_resources lds_listener.
Definition envoyCdsTemplate : list ProxyStore → string := envoy_resources cds_cluster.

(** The templates read fields of their argument only, and do not fail. *)
Definition envoyConfigFiles (identifier : string) (stores : Stores) : StrMap :=
  <[envoyCdsFile := envoyCdsTemplate (ProxyStores stores)]>
    (<[envoyLdsFile := envoyLdsTemplate (ProxyStores stores)]>
      (<[envoyConfigFile := envoyConfigTemplate "query-stores-proxy" identifier
           (filepath_Join [envoyConfigDir; envoyCdsFile]) (filepath_Join [envoyConfigDir; envoyLdsFile])]> ∅)).

Section query.
Context {W : Type} `{!Kube W} `{!K8sLib} `{!MapRange} `{!BaseLib} `{!WorkLib} `{!WebLib} `{!QueryLib}.
Variable service : Service.       (* q.Service *)
Variable q : Query.               (* q.query *)

(** ** query.go *)

Definition query_labels : StrMap :=
  <[LabelNameAppManagedBy := om_Name (sv_Meta service)]> (<[LabelNameAppName := AppNameQuery]> BaseLabels).
Definition query_name (suffix : list string) : string := QualifiedName AppNameQuery (om_Name (q_Meta q)) suffix.
Definition query_meta (name : string) : ObjectMeta :=
  new_meta name "" (om_Namespace (sv_Meta service)) query_labels ∅.

Definition query_addr (scheme : string) : string :=
  scheme +:+ "://" +:+ query_name [ServiceNameSuffix] +:+ "." +:+ om_Namespace (sv_Meta service)
  +:+ ".svc:" +:+ itoa HTTPPort.
Definition query_HttpAddr : string := query_addr "http".
Definition query_HttpsAddr : string := query_addr "https".

(** ** configmap.go *)

Definition proxyConfigMap : ResourceFn W :=
  stores ← lift_sum (query_stores q);
  owned_by (OQuery q) (OConfigMap {|
    cm_Meta := query_meta (query_name ["proxy-config"]);
    cm_Data := envoyConfigFiles (om_Namespace (sv_Meta service) +:+ "/" +:+ om_Name (sv_Meta service)) stores |}).

Definition AddressLabel : string := "__address__".
Definition store_targets (stores : Stores) : list StrMap :=
  ((λ address, <[AddressLabel := address]> ∅) <$> DirectStores stores)
  ++ ((λ s, <[AddressLabel := host_port (ListenHost s) (ListenPort s)]> ∅) <$> ProxyStores stores).

Definition storesConfigMap : ResourceFn W :=
  stores ← lift_sum (query_stores q);
  out ← lift_sum (yaml_Marshal_targets (store_targets stores));
  owned_by (OQuery q) (OConfigMap {|
    cm_Meta := query_meta (query_name ["stores-config"]); cm_Data := <[storesFile := out]> ∅ |}).

(** ** secret.go and service.go *)

Definition query_webConfigSecret : ResourceFn W :=
  web_config_secret (query_meta (query_name ["web-config"])) (om_Namespace (q_Meta q)) (qsp_WebConfig (q_Spec q))
    (owned_by (OQuery q)).

Definition query_service : ResourceFn W :=
  owned_by (OQuery q) (OCoreService {|
    svc_Meta := query_meta (query_name [ServiceNameSuffix]); svc_Type := "ClusterIP";
    svc_Selector := query_labels;
    svc_Ports := [service_port GRPCPortName GRPCPort; service_port HTTPPortName HTTPPort];
    svc_IPFamilies := []; svc_IPFamilyPolicy := ""; svc_ClusterIP := ""; svc_ClusterIPs := [] |}).

(** ** deployment.go *)

Definition query_repeatableArgs : list string :=
  ["--query.replica-label"; "--selector-label"; "--endpoint"; "--endpoint-strict"; "--store.sd-files"; "--enable-feature"].
Definition query_unsupportedArgs : list string :=
  ["--log.request.decision"; "--metadata"; "--rule"; "--store"; "--exemplar"; "--target"; "--store-strict";
   "--grpc-address"; "--http-address"].

Definition service_members : ListOptions := MatchingLabels (ManagedLabelByService (sv_Meta service)).

(** The endpoints of the ingesters, of the partitions of the stores and of the
    shards of the rulers of the service. *)
Definition ingester_endpoints : M W (list string) :=
  items ← List (A:=Ingester) service_members;
  fold_each (λ acc item, SetService (ig_Meta item) ;; mret (acc ++ ingester_Endpoints item)) [] items.

Definition dnssrv (name ns : string) : string := "dnssrv+_grpc._tcp." +:+ name +:+ "." +:+ ns +:+ ".svc".

Definition store_endpoints (item : Store) : list string :=
  let timeRanges := match ssp_TimeRanges (st_Spec item) with
                    | [] => [{| tr_MinTime := ssp_MinTime (st_Spec item); tr_MaxTime := ssp_MaxTime (st_Spec item) |}]
                    | l => l
                    end in
  imap (λ i _,
    let partitionName :=
      match i with
      | O => join "-" [AppNameStore; om_Name (st_Meta item); ServiceNameSuffix]
      | _ => join "-" [AppNameStore; om_Name (st_Meta item); "partition"; itoa (Z.of_nat i); ServiceNameSuffix]
      end in
    dnssrv partitionName (om_Namespace (st_Meta item))) timeRanges.

Definition ruler_shards (item : Ruler) : Z :=
  match rls_Shards (rl_Spec item) with
  | Some n => if (1 <? n)%Z then n else 1%Z
  | None => 1%Z
  end.
Definition ruler_endpoints (item : Ruler) : list string :=
  (λ shardSn, dnssrv (QualifiedName AppNameRuler (om_Name (rl_Meta item)) [itoa (Z.of_nat shardSn); ServiceNameSuffix])
                (om_Namespace (rl_Meta item))) <$> seq 0 (Z.to_nat (ruler_shards item)).

Definition query_endpoints : M W (list string) :=
  ingesters ← ingester_endpoints;
  stores ← List (A:=Store) service_members;
  rulers ← List (A:=Ruler) service_members;
  mret (ingesters ++ (stores ≫= store_endpoints) ++ (rulers ≫= ruler_endpoints)).

Definition query_base_args (endpoints : list string) : list string :=
  let common := qsp_Common (q_Spec q) in
  ["query"] ++ web_args (qsp_WebConfig (q_Spec q))
  ++ opt_arg "--query.promql-engine=" (qsp_PromqlEngine (q_Spec q))
  ++ opt_arg "--log.level=" (LogLevel common) ++ opt_arg "--log.format=" (LogFormat common)
  ++ ["--store.sd-files=" +:+ filepath_Join [query_configDir; storesFile]]
  ++ ((λ labelName, "--query.replica-label=" +:+ labelName) <$> qsp_ReplicaLabelNames (q_Spec q))
  ++ ((λ endpoint, "--endpoint=" +:+ endpoint) <$> endpoints).

Definition query_args (endpoints : list string) : list string :=
  sort_tail (add_flags query_unsupportedArgs query_repeatableArgs (query_base_args endpoints)
               (Flags (qsp_Common (q_Spec q)))).

Definition query_container (endpoints : list string) : Container :=
  let webConfig := qsp_WebConfig (q_Spec q) in {|
  c_Name := "query"; c_Image := Image (qsp_Common (q_Spec q)); c_ImagePullPolicy := "";
  c_Command := []; c_Args := query_args endpoints; c_Resources := Resources (qsp_Common (q_Spec q));
  c_Ports := [container_port GRPCPortName GRPCPort; container_port HTTPPortName HTTPPort]; c_Env := [];
  c_VolumeMounts := [ro_mount "stores-config" query_configDir]
                    ++ (web_volumes (query_name ["web-config"]) webConfig).2;
  c_LivenessProbe := Some (web_liveness webConfig); c_ReadinessProbe := Some (web_readiness webConfig) |}.

(** The secrets of the proxied stores, one volume and one mount per store. *)
Definition ca_secrets : list SecretKeySelector := omap qs_CASecret (qsp_Stores (q_Spec q)).
Definition secret_volume (ca : SecretKeySelector) : Volume :=
  {| vol_Name := "secret-" +:+ sks_Name ca;
     vol_Source := VSSecret {| svs_SecretName := sks_Name ca; svs_DefaultMode := None; svs_Items := [] |} |}.
Definition secret_mount (ca : SecretKeySelector) : VolumeMount :=
  {| vm_Name := "secret-" +:+ sks_Name ca; vm_ReadOnly := true;
     vm_MountPath := filepath_Join [envoySecretsDir; sks_Name ca; sks_Key ca]; vm_SubPath := sks_Key ca |}.

Definition envoy_container : Container := {|
  c_Name := "proxy"; c_Image := sc_Image (qsp_Envoy (q_Spec q)); c_ImagePullPolicy := ""; c_Command := [];
  c_Args := ["-c"; filepath_Join [envoyConfigDir; envoyConfigFile]; "--base-id"; "1"];
  c_Resources := sc_Resources (qsp_Envoy (q_Spec q)); c_Ports := []; c_Env := [];
  c_VolumeMounts := [ro_mount "proxy-config" envoyConfigDir] ++ (secret_mount <$> ca_secrets);
  c_LivenessProbe := None; c_ReadinessProbe := None |}.

Definition query_volumes : list Volume :=
  [config_volume "proxy-config" (query_name ["proxy-config"]);
   config_volume "stores-config" (query_name ["stores-config"])]
  ++ (web_volumes (query_name ["web-config"]) (qsp_WebConfig (q_Spec q))).1
  ++ (secret_volume <$> ca_secrets).

Definition query_template (annotations : StrMap) (containers : list Container) : Deployment :=
  let common := qsp_Common (q_Spec q) in {|
  dep_Meta := query_meta (query_name []); dep_Replicas := Replicas common; dep_Selector := query_labels;
  dep_Template := {| pt_Labels := query_labels; pt_Annotations := annotations;
                     pt_Spec := common_pod common query_volumes containers |} |}.

Definition query_deployment : ResourceFn W :=
  annotations ← web_annotations (qsp_WebConfig (q_Spec q)) query_webConfigSecret;
  endpoints ← query_endpoints;
  containers ← patch_containers (Containers (qsp_Common (q_Spec q))) [query_container endpoints; envoy_container];
  owned_by (OQuery q) (ODeployment (query_template annotations containers)).

Definition query_Reconcile : M W unit :=
  ReconcileResources [proxyConfigMap; storesConfigMap; query_webConfigSecret; query_deployment; query_service].
End query.

(** ** pkg/controllers/query_controller.go *)

Section controller.
Context {W : Type} `{!Kube W} `{!K8sLib} `{!MapRange} `{!BaseLib} `{!WorkLib} `{!WebLib} `{!QueryLib}.

Definition applyConfigurationFromQueryTemplateSpec (query : Query) (template : QuerySpec) : GoError + Query :=
  match mergo_Merge_QuerySpec (q_Spec query) template with
  | inl err => inl err
  | inr spec => inr {| q_Type := q_Type query; q_Meta := q_Meta query; q_Spec := spec |}
  end.

Definition QueryReconciler_Reconcile (req : NamespacedName) : M W unit :=
  r ← attempt (Get (A:=Query) req);
  match r with
  | inl err => if apierrors_IsNotFound err then mret tt else fail err
  | inr instance =>
      if String.eqb (map_get (om_Labels (q_Meta instance)) ServiceLabelKey) "" then mret tt
      else
        key ← of_option "nil pointer dereference" (ServiceNamespacedName (q_Meta instance));
        service ← Get (A:=Service) key;
        instance ← lift_sum (applyConfigurationFromQueryTemplateSpec instance
                     (QueryTemplateSpec (sv_Spec (ApplyDefaults service))));
        svc ← SetService (q_Meta instance);
        query_Reconcile svc instance
  end.

Definition query_mapFuncBySelectorFunc (fn : ObjectMeta → StrMap) (o : Object) : M W (list NamespacedName) :=
  items ← or_nil (List (A:=Query) (MatchingLabels (fn (obj_meta o))));
  mret ((λ item, {| nn_Namespace := om_Namespace (q_Meta item); nn_Name := om_Name (q_Meta item) |}) <$> items).
End controller.
