(* ===== verification/QueryFrontend.v ===== *)
(** [pkg/controllers/resources/queryfrontend] and
    [pkg/controllers/query_frontend_controller.go]: the query frontend of a
    service, its cache configuration, and the querier behind it. The frontends
    are never nil: their name is read before the nil tests of the source. *)
From stdpp Require Import base gmap strings list pretty sorting.
From Stdlib Require Import Ascii String.
From S2P Require Import Prelude GoStd K8s Api Objects Client Base Workload Web Tenant Ingester GoNet Query.

Class FrontendLib := {
  (* yaml.Marshal of the cache provider: its type and the in-memory configuration *)
  yaml_Marshal_cache : string → InMemoryResponseCacheConfig → GoError + string;
  (* yaml.Marshal of a DownstreamTripperConfig that skips the verification of certificates *)
  yaml_Marshal_tripper_insecure : GoError + string;
  (* mergo.Merge(&queryFrontend.Spec, template) *)
  mergo_Merge_QueryFrontendSpec : QueryFrontendSpec → QueryFrontendSpec → GoError + QueryFrontendSpec;
}.

Definition INMEMORY : string := "IN-MEMORY".
Definition frontend_configDir : string := "/etc/whizard".
Definition cacheConfigFile : string := "cache-config.yaml".

Section frontend.
Context {W : Type} `{!Kube W} `{!K8sLib} `{!MapRange} `{!BaseLib} `{!WorkLib} `{!WebLib} `{!FrontendLib}.
Variable service : Service.       (* q.Service *)
Variable q : QueryFrontend.       (* q.queryFrontend *)

(** ** query_frontend.go *)

Definition frontend_labels : StrMap :=
  <[LabelNameAppManagedBy := om_Name (sv_Meta service)]> (<[LabelNameAppName := AppNameQueryFrontend]> BaseLabels).
Definition frontend_name (suffix : list string) : string :=
  QualifiedName AppNameQueryFrontend (om_Name (qf_Meta q)) suffix.
Definition frontend_meta (name : string) : ObjectMeta :=
  new_meta name "" (om_Namespace (sv_Meta service)) frontend_labels ∅.

Definition frontend_addr (scheme : string) : string :=
  scheme +:+ "://" +:+ frontend_name [ServiceNameSuffix] +:+ "." +:+ om_Namespace (sv_Meta service)
  +:+ ".svc:" +:+ itoa HTTPPort.
Definition frontend_HttpAddr : string := frontend_addr "http".
Definition frontend_HttpsAddr : string := frontend_addr "https".

(** ** configmap.go *)

Definition defaultINMEMORYCacheConfig : InMemoryResponseCacheConfig :=
  {| MaxSize := ""; MaxSizeItems := 0; Validity := 0 |}.

(** The configuration of the cache; its type is always in-memory. *)
Definition cache_config : InMemoryResponseCacheConfig :=
  match qfs_CacheConfig (qf_Spec q) with
  | Some cc =>
      if String.eqb (rc_Type cc) INMEMORY then default defaultINMEMORYCacheConfig (rc_InMemory cc)
      else defaultINMEMORYCacheConfig
  | None => defaultINMEMORYCacheConfig
  end.

Definition cacheConfigConfigMap : ResourceFn W :=
  data ← lift_sum (yaml_Marshal_cache INMEMORY cache_config);
  owned_by (OQueryFrontend q) (OConfigMap {|
    cm_Meta := frontend_meta (frontend_name ["cache-config"]); cm_Data := <[cacheConfigFile := data]> ∅ |}).

(** ** secret.go and service.go *)

Definition frontend_webConfigSecret : ResourceFn W :=
  web_config_secret (frontend_meta (frontend_name ["web-config"])) (om_Namespace (qf_Meta q))
    (qfs_WebConfig (qf_Spec q)) (owned_by (OQueryFrontend q)).

Definition frontend_service : ResourceFn W :=
  owned_by (OQueryFrontend q) (OCoreService {|
    svc_Meta := frontend_meta (frontend_name [ServiceNameSuffix]); svc_Type := "ClusterIP";
    svc_Selector := frontend_labels; svc_Ports := [service_port HTTPPortName HTTPPort];
    svc_IPFamilies := []; svc_IPFamilyPolicy := ""; svc_ClusterIP := ""; svc_ClusterIPs := [] |}).

(** ** deployment.go *)

Definition frontend_repeatableArgs : list string :=
  ["--query-frontend.forward-header"; "--query-frontend.org-id-header"].
Definition frontend_unsupportedArgs : list string := ["--log.request.decision"; "--http-address"].

Definition service_text : string := om_Name (sv_Meta service) +:+ "/" +:+ om_Namespace (sv_Meta service).

(** The address of the querier of the same service, which must be the only
    one. *)
Definition frontend_queryAddress : M W string :=
  items ← List (A:=Query) (MatchingLabels (ManagedLabelBySameService (qf_Meta q)));
  match items with
  | [] => fail (EMsg ("no query frontend or query exist for service " +:+ service_text))
  | [o] =>
      svc ← SetService (q_Meta o);
      mret (if server_tls (qsp_WebConfig (q_Spec o)) then query_HttpsAddr svc o else query_HttpAddr svc o)
  | _ => fail (EMsg ("more than one query defined for service " +:+ service_text))
  end.

Definition tripper_args (addr : string) : GoError + list string :=
  match url_Parse addr with
  | inl err => inl err
  | inr url =>
      if HasScheme "https" url then
        match yaml_Marshal_tripper_insecure with
        | inl err => inl err
        | inr body => inr ["--query-frontend.downstream-tripper-config=" +:+ body]
        end
      else inr []
  end.

Definition frontend_base_args (addr : string) (tripper : list string) : list string :=
  let common := qfs_Common (qf_Spec q) in
  let cacheFile := filepath_Join [frontend_configDir; cacheConfigFile] in
  ["query-frontend"] ++ tripper ++ web_args (qfs_WebConfig (qf_Spec q))
  ++ ["--query-frontend.downstream-url=" +:+ addr;
      "--labels.response-cache-config-file=" +:+ cacheFile;
      "--query-range.response-cache-config-file=" +:+ cacheFile]
  ++ opt_arg "--log.level=" (LogLevel common) ++ opt_arg "--log.format=" (LogFormat common).

Definition frontend_args (addr : string) (tripper : list string) : list string :=
  sort_tail (add_flags frontend_unsupportedArgs frontend_repeatableArgs (frontend_base_args addr tripper)
               (Flags (qfs_Common (qf_Spec q)))).

Definition frontend_container (hashCode addr : string) (tripper : list string) : Container :=
  let webConfig := qfs_WebConfig (qf_Spec q) in {|
  c_Name := "query-frontend"; c_Image := Image (qfs_Common (qf_Spec q)); c_ImagePullPolicy := "";
  c_Command := []; c_Args := frontend_args addr tripper; c_Resources := Resources (qfs_Common (qf_Spec q));
  c_Ports := [container_port HTTPPortName HTTPPort];
  c_Env := [{| ev_Name := TenantHash; ev_Value := EnvLiteral hashCode |}];
  c_VolumeMounts := [ro_mount "cache-config" frontend_configDir]
                    ++ (web_volumes (frontend_name ["web-config"]) webConfig).2;
  c_LivenessProbe := Some (web_liveness webConfig); c_ReadinessProbe := Some (web_readiness webConfig) |}.

Definition frontend_volumes : list Volume :=
  (web_volumes (frontend_name ["web-config"]) (qfs_WebConfig (qf_Spec q))).1
  ++ [config_volume "cache-config" (frontend_name ["cache-config"])].

Definition frontend_template (annotations : StrMap) (containers : list Container) : Deployment :=
  let common := qfs_Common (qf_Spec q) in {|
  dep_Meta := frontend_meta (frontend_name []); dep_Replicas := Replicas common; dep_Selector := frontend_labels;
  dep_Template := {| pt_Labels := frontend_labels; pt_Annotations := annotations;
                     pt_Spec := common_pod common frontend_volumes containers |} |}.

Definition frontend_deployment : ResourceFn W :=
  hashCode ← GetTenantHash (<[ServiceLabelKey := map_get (om_Labels (qf_Meta q)) ServiceLabelKey]> ∅);
  addr ← frontend_queryAddress;
  tripper ← lift_sum (tripper_args addr);
  annotations ← web_annotations (qfs_WebConfig (qf_Spec q)) frontend_webConfigSecret;
  containers ← patch_containers (Containers (qfs_Common (qf_Spec q))) [frontend_container hashCode addr tripper];
  owned_by (OQueryFrontend q) (ODeployment (frontend_template annotations containers)).

Definition frontend_Reconcile : M W unit :=
  ReconcileResources [cacheConfigConfigMap; frontend_webConfigSecret; frontend_deployment; frontend_service].
End frontend.

(** ** pkg/controllers/query_frontend_controller.go *)

Section controller.
Context {W : Type} `{!Kube W} `{!K8sLib} `{!MapRange} `{!BaseLib} `{!WorkLib} `{!WebLib} `{!FrontendLib}.

Definition applyConfigurationFromQueryFrontendTemplateSpec (frontend : QueryFrontend) (template : QueryFrontendSpec)
    : GoError + QueryFrontend :=
  match mergo_Merge_QueryFrontendSpec (qf_Spec frontend) template with
  | inl err => inl err
  | inr spec => inr {| qf_Type := qf_Type frontend; qf_Meta := qf_Meta frontend; qf_Spec := spec |}
  end.

Definition QueryFrontendReconciler_Reconcile (req : NamespacedName) : M W unit :=
  r ← attempt (Get (A:=QueryFrontend) req);
  match r with
  | inl err => if apierrors_IsNotFound err then mret tt else fail err
  | inr instance =>
      if String.eqb (map_get (om_Labels (qf_Meta instance)) ServiceLabelKey) "" then mret tt
      else
        key ← of_option "nil pointer dereference" (ServiceNamespacedName (qf_Meta instance));
        service ← Get (A:=Service) key;
        instance ← lift_sum (applyConfigurationFromQueryFrontendTemplateSpec instance
                     (QueryFrontendTemplateSpec (sv_Spec (ApplyDefaults service))));
        svc ← SetService (qf_Meta instance);
        frontend_Reconcile svc instance
  end.

Definition frontend_mapFuncBySelectorFunc (fn : ObjectMeta → StrMap) (o : Object) : M W (list NamespacedName) :=
  items ← or_nil (List (A:=QueryFrontend) (MatchingLabels (fn (obj_meta o))));
  mret ((λ item, {| nn_Namespace := om_Namespace (qf_Meta item); nn_Name := om_Name (qf_Meta item) |}) <$> items).
End controller.
