(* ===== verification/EnvoyConfig.v ===== *)
(** [pkg/util/envoy_config.go] and the [envoyConfigMap] of the router, the query,
    the query frontend and the ruler: the static configuration of a TLS sidecar,
    rendered into a config map. No reconciliation calls them. *)
From stdpp Require Import base gmap strings list pretty sorting.
From Stdlib Require Import Ascii String.
From S2P Require Import Prelude GoStd K8s Api Objects Client Base Router Query QueryFrontend Ruler.

(** ** The template *)

(** [{{ .name }}] and [{{ if .name }}] over a map of strings: a key that is missing
    prints as [<no value>], and only a text that is not empty is true. *)
Definition tmpl_field (data : StrMap) (name : string) : string := default "<no value>" (data !! name).
Definition tmpl_enabled (data : StrMap) (name : string) : bool :=
  match data !! name with Some v => negb (String.eqb v "") | None => false end.

Definition static_self_listener (data : StrMap) : list string := [
  "    - name: self_listener";
  "      address:";
  "        socket_address:";
  "          address: 0.0.0.0";
  "          port_value: " +:+ tmpl_field data "ServiceMappingPort";
  "      filter_chains:";
  "        - filters:";
  "            - name: envoy.filters.network.http_connection_manager";
  "              typed_config:";
  "                '@type': type.googleapis.com/envoy.extensions.filters.network.http_connection_manager.v3.HttpConnectionManager";
  "                scheme_header_transformation:";
  "                  scheme_to_overwrite: https";
  "                stat_prefix: ingress_http";
  "                codec_type: auto";
  "                route_config:";
  "                  virtual_hosts:";
  "                    - name: default";
  "                      domains:";
  "                        - '*'";
  "                      routes:";
  "                        - match:";
  "                            prefix: /";
  "                          route:";
  "                            cluster: local_serivce";
  "                http_filters:";
  "                  - name: envoy.filters.http.router";
  "          transport_socket:";
  "            name: envoy.transport_sockets.tls";
  "            typed_config:";
  "              '@type': type.googleapis.com/envoy.extensions.transport_sockets.tls.v3.DownstreamTlsContext";
  "              common_tls_context:";
  "                tls_certificates:";
  "                  - certificate_chain:";
  "                      filename: " +:+ tmpl_field data "ServiceTLSCertFile";
  "                    private_key:";
  "                      filename: " +:+ tmpl_field data "ServiceTLSKeyFile"].

Definition static_proxy_listener (data : StrMap) : list string := [
  "    - name: proxy_listener";
  "      address:";
  "        socket_address:";
  "          address: 0.0.0.0";
  "          port_value: " +:+ tmpl_field data "ProxyLocalListenPort";
  "      filter_chains:";
  "        - filters:";
  "            - name: envoy.filters.network.http_connection_manager";
  "              typed_config:";
  "                '@type': type.googleapis.com/envoy.extensions.filters.network.http_connection_manager.v3.HttpConnectionManager";
  "                scheme_header_transformation:";
  "                  scheme_to_overwrite: https";
  "                stat_prefix: ingress_http";
  "                codec_type: auto";
  "                route_config:";
  "                  virtual_hosts:";
  "                    - name: default";
  "                      domains:";
  "                        - '*'";
  "                      routes:";
  "                        - match:";
  "                            prefix: /";
  "                          route:";
  "                            cluster: upstrean_serivce";
  "                http_filters:";
  "                  - name: envoy.filters.http.router"].

Definition static_local_cluster (data : StrMap) : list string := [
  "  - name: local_serivce";
  "    type: STATIC";
  "    lb_policy: ROUND_ROBIN";
  "    load_assignment:";
  "      cluster_name: local_serivce";
  "      endpoints:";
  "        - lb_endpoints:";
  "            - endpoint:";
  "                address:";
  "                  socket_address:";
  "                    address: 127.0.0.1";
  "                    port_value: " +:+ tmpl_field data "ServiceListenPort"].

Definition static_upstream_cluster (data : StrMap) : list string := [
  "  - name: upstrean_serivce";
  "    type: STRICT_DNS";
  "    lb_policy: ROUND_ROBIN";
  "    load_assignment:";
  "      cluster_name: upstrean_serivce";
  "      endpoints:";
  "        - lb_endpoints:";
  "            - endpoint:";
  "                address:";
  "                  socket_address:";
  "                    address: " +:+ tmpl_field data "ProxyServiceAddress";
  "                    port_value: " +:+ tmpl_field data "ProxyServicePort";
  "    transport_socket:";
  "      name: envoy.transport_sockets.tls";
  "      typed_config:";
  "        '@type': type.googleapis.com/envoy.extensions.transport_sockets.tls.v3.UpstreamTlsContext";
  "        common_tls_context:";
  "          validation_context:";
  "            trust_chain_verification: ACCEPT_UNTRUSTED";
  "        sni: " +:+ tmpl_field data "ProxyServiceAddress"].

(** The whole file. No line of it has a margin for [Dedent] to remove, and
    executing it on a map of strings into a buffer cannot fail. *)
Definition EnvoyStaticConfigTemplate (data : StrMap) : string := text (
  [""; "static_resources:"; "  listeners:"]
  ++ (if tmpl_enabled data "LocalServiceEnabled" then static_self_listener data else [])
  ++ (if tmpl_enabled data "ProxyServiceEnabled" then static_proxy_listener data else [])
  ++ ["  clusters:"]
  ++ (if tmpl_enabled data "LocalServiceEnabled" then static_local_cluster data else [])
  ++ (if tmpl_enabled data "ProxyServiceEnabled" then static_upstream_cluster data else [])).

(** ** The config maps *)

(** [controllerutil.CreateOrPatch] of a config map, with a mutation that cannot
    fail. *)
Class PatchLib (W : Type) := { CreateOrPatch : ConfigMap → (ConfigMap → ConfigMap) → M W unit }.

Definition configmapDataMutate (data : StrMap) (cm : ConfigMap) : ConfigMap := {| cm_Meta := cm_Meta cm; cm_Data := data |}.

Section envoy.
Context {W : Type} `{!K8sLib} `{!PatchLib W}.

(** The steps the components share. The object that gets the owner is still a
    config map ([SetControllerReference_refs]). *)
Definition apply_envoy (owner : Object) (meta : ObjectMeta) (data : StrMap) : M W unit :=
  let files := <[envoyConfigFile := EnvoyStaticConfigTemplate data]> ∅ in
  o ← lift_outcome (SetControllerReference owner (OConfigMap {| cm_Meta := meta; cm_Data := files |}));
  match o with
  | OConfigMap cm => CreateOrPatch cm (configmapDataMutate (cm_Data cm))
  | _ => mret tt
  end.

Definition router_envoyConfigMap (service : Service) (r : Router) (data : StrMap) : M W unit :=
  apply_envoy (ORouter r) (router_meta service (router_name r ["envoy-config"])) data.
Definition query_envoyConfigMap (service : Service) (q : Query) (data : StrMap) : M W unit :=
  apply_envoy (OQuery q) (query_meta service (query_name q ["envoy-config"])) data.
Definition frontend_envoyConfigMap (service : Service) (q : QueryFrontend) (data : StrMap) : M W unit :=
  apply_envoy (OQueryFrontend q) (frontend_meta service (frontend_name q ["envoy-config"])) data.
Definition ruler_envoyConfigMap (r : Ruler) (data : StrMap) : M W unit :=
  apply_envoy (ORuler r) (ruler_meta r (ruler_name_of r ["envoy-config"])) data.

(** What is applied is the rendered file under the given name, with the
    owner's reference. *)
Lemma apply_envoy_applies owner meta data (w w' : W) :
  apply_envoy owner meta data w = (Ok tt, w') →
  ∃ cm, om_Name (cm_Meta cm) = om_Name meta ∧ om_Namespace (cm_Meta cm) = om_Namespace meta
    ∧ cm_Data cm = <[envoyConfigFile := EnvoyStaticConfigTemplate data]> ∅
    ∧ CreateOrPatch cm (configmapDataMutate (cm_Data cm)) w = (Ok tt, w').
Proof.
  unfold apply_envoy, mbind, M_mbind, M_bind, lift_outcome.
  destruct (SetControllerReference _ _) as [o|e|p] eqn:E; intros Hrun; try discriminate Hrun.
  destruct (SetControllerReference_refs _ _ _ E) as [refs ->]. cbn in Hrun. eexists. split_and!; [..|exact Hrun]; done.
Qed.
End envoy.

(** ** The test of the template *)

Definition staticConfig : string := text [
  "";
  "static_resources:";
  "  listeners:";
  "    - name: self_listener";
  "      address:";
  "        socket_address:";
  "          address: 0.0.0.0";
  "          port_value: 10902";
  "      filter_chains:";
  "        - filters:";
  "            - name: envoy.filters.network.http_connection_manager";
  "              typed_config:";
  "                '@type': type.googleapis.com/envoy.extensions.filters.network.http_connection_manager.v3.HttpConnectionManager";
  "                scheme_header_transformation:";
  "                  scheme_to_overwrite: https";
  "                stat_prefix: ingress_http";
  "                codec_type: auto";
  "                route_config:";
  "                  virtual_hosts:";
  "                    - name: default";
  "                      domains:";
  "                        - '*'";
  "                      routes:";
  "                        - match:";
  "                            prefix: /";
  "                          route:";
  "                            cluster: local_serivce";
  "                http_filters:";
  "                  - name: envoy.filters.http.router";
  "          transport_socket:";
  "            name: envoy.transport_sockets.tls";
  "            typed_config:";
  "              '@type': type.googleapis.com/envoy.extensions.transport_sockets.tls.v3.DownstreamTlsContext";
  "              common_tls_context:";
  "                tls_certificates:";
  "                  - certificate_chain:";
  "                      filename: /etc/whizard/certs/tls.crt";
  "                    private_key:";
  "                      filename: /etc/whizard/certs/tls.key";
  "    - name: proxy_listener";
  "      address:";
  "        socket_address:";
  "          address: 0.0.0.0";
  "          port_value: 10000";
  "      filter_chains:";
  "        - filters:";
  "            - name: envoy.filters.network.http_connection_manager";
  "              typed_config:";
  "                '@type': type.googleapis.com/envoy.extensions.filters.network.http_connection_manager.v3.HttpConnectionManager";
  "                scheme_header_transformation:";
  "                  scheme_to_overwrite: https";
  "                stat_prefix: ingress_http";
  "                codec_type: auto";
  "                route_config:";
  "                  virtual_hosts:";
  "                    - name: default";
  "                      domains:";
  "                        - '*'";
  "                      routes:";
  "                        - match:";
  "                            prefix: /";
  "                          route:";
  "                            cluster: upstrean_serivce";
  "                http_filters:";
  "                  - name: envoy.filters.http.router";
  "  clusters:";
  "  - name: local_serivce";
  "    type: STATIC";
  "    lb_policy: ROUND_ROBIN";
  "    load_assignment:";
  "      cluster_name: local_serivce";
  "      endpoints:";
  "        - lb_endpoints:";
  "            - endpoint:";
  "                address:";
  "                  socket_address:";
  "                    address: 127.0.0.1";
  "                    port_value: 10904";
  "  - name: upstrean_serivce";
  "    type: STRICT_DNS";
  "    lb_policy: ROUND_ROBIN";
  "    load_assignment:";
  "      cluster_name: upstrean_serivce";
  "      endpoints:";
  "        - lb_endpoints:";
  "            - endpoint:";
  "                address:";
  "                  socket_address:";
  "                    address: query-whizard-operated.kubesphere-monitoring-system.svc";
  "                    port_value: 10902";
  "    transport_socket:";
  "      name: envoy.transport_sockets.tls";
  "      typed_config:";
  "        '@type': type.googleapis.com/envoy.extensions.transport_sockets.tls.v3.UpstreamTlsContext";
  "        common_tls_context:";
  "          validation_context:";
  "            trust_chain_verification: ACCEPT_UNTRUSTED";
  "        sni: query-whizard-operated.kubesphere-monitoring-system.svc"].

Example TestTempExec :
  EnvoyStaticConfigTemplate (list_to_map [
    ("LocalServiceEnabled", "true"); ("ServiceMappingPort", "10902"); ("ServiceListenPort", "10904");
    ("ServiceTLSCertFile", "/etc/whizard/certs/tls.crt"); ("ServiceTLSKeyFile", "/etc/whizard/certs/tls.key");
    ("ProxyServiceEnabled", "true"); ("ProxyLocalListenPort", "10000");
    ("ProxyServiceAddress", "query-whizard-operated.kubesphere-monitoring-system.svc"); ("ProxyServicePort", "10902")])
  = staticConfig.
Proof. vm_compute. reflexivity. Qed.
