(* ===== verification/QueryFacts.v ===== *)
(** What a query guarantees: its endpoints are those the other components
    announce, its proxied stores have their own listeners and their certificates
    at hand, and every request reconciling a query or a query frontend may
    issue. *)
From stdpp Require Import base gmap strings list pretty sorting.
From Stdlib Require Import Ascii String.
From S2P Require Import Prelude GoStd K8s Api Objects Client Clients Base ClientFacts Workload Web WorkloadFacts Tenant TenantFacts GoNet GoNetFacts Ingester Store Ruler Query QueryFrontend.
Open Scope nat_scope.

(** ** Endpoints *)

(** [store_endpoints] repeats [store.Endpoints]. *)
Lemma store_endpoints_eq item : store_endpoints item = store_Endpoints item.
Proof. done. Qed.

(** Where the ruler announces at least one shard, the query reaches just its
    shards. *)
Lemma ruler_endpoints_eq item n :
  rls_Shards (rl_Spec item) = Some n → (0 < n)%Z → Endpoints item = Ok (ruler_endpoints item).
Proof.
  intros Hn Hpos. unfold Endpoints, per_shard, shards_deref, ruler_endpoints, ruler_shards. rewrite Hn.
  destruct (Z.ltb_spec 1 n); [done|]. by replace n with 1%Z by lia.
Qed.

(** The arguments of a name among those of another. *)
Lemma named_map n p (l : list string) :
  (∀ x, GetArgName (p +:+ x) = n) → named n ((λ x, p +:+ x) <$> l) = (λ x, p +:+ x) <$> l.
Proof.
  intros Hp. induction l as [|x l IH]; [done|]. unfold named in *. rewrite fmap_cons, filter_cons, decide_True by done.
  by rewrite IH.
Qed.

Lemma GetArgName_app p x : contains_char "="%char p = false → GetArgName (p +:+ "=" +:+ x) = p.
Proof.
  intros Hp. unfold GetArgName. change ("=" +:+ x) with (String "="%char x). by rewrite split_on_app.
Qed.

Lemma named_none n (l : list string) : Forall (λ a, GetArgName a ≠ n) l → named n l = [].
Proof.
  intros H. unfold named. induction H as [|a l Ha _ IH]; [done|]. by rewrite filter_cons, decide_False.
Qed.

Lemma opt_arg_named n p v : contains_char "="%char p = false → p ≠ n → named n (opt_arg (p +:+ "=") v) = [].
Proof.
  intros Hp Hne. apply named_none. unfold opt_arg. destruct (String.eqb v ""); [done|].
  apply Forall_singleton. by rewrite append_assoc, GetArgName_app.
Qed.

Lemma map_named n p (l : list string) :
  contains_char "="%char p = false → p ≠ n → named n ((λ x, (p +:+ "=") +:+ x) <$> l) = [].
Proof.
  intros Hp Hne. apply named_none, list.Forall_fmap, list.Forall_forall. intros x _. simpl.
  by rewrite append_assoc, GetArgName_app.
Qed.

Lemma query_base_endpoints q endpoints :
  named "--endpoint" (query_base_args q endpoints) = (λ e, "--endpoint=" +:+ e) <$> endpoints.
Proof.
  unfold query_base_args. rewrite !named_app.
  rewrite (opt_arg_named _ "--query.promql-engine"), (opt_arg_named _ "--log.level"),
    (opt_arg_named _ "--log.format"), (map_named _ "--query.replica-label") by done.
  rewrite (named_map _ "--endpoint=") by (intros x; by apply (GetArgName_app "--endpoint")).
  by destruct (qsp_WebConfig (q_Spec q)).
Qed.

Section endpoints.
Context {W : Type} {HK : Kube W} {HL : K8sLib} {HM : MapRange} {HB : BaseLib} {HW : WorkLib} {HE : WebLib} {HQ : QueryLib}.

Lemma fold_endpoints items acc (w w' : W) eps :
  fold_each (λ acc item, SetService (ig_Meta item) ;; mret (acc ++ ingester_Endpoints item)) acc items w = (Ok eps, w') →
  eps = acc ++ (items ≫= ingester_Endpoints).
Proof.
  revert acc w. induction items as [|i items IH]; intros acc w H; simpl in H.
  - inversion H; subst. by rewrite app_nil_r.
  - apply bind_Ok_inv in H as (acc1 & w1 & H1 & H2).
    apply bind_Ok_inv in H1 as (svc & w2 & _ & H1). inversion H1; subst.
    apply IH in H2 as ->. by rewrite <-(assoc_L (++)).
Qed.

(** The endpoints of a query are what the ingesters, the stores and the rulers
    of the service announce. *)
Lemma query_endpoints_inv svc (w w' : W) eps :
  query_endpoints svc w = (Ok eps, w') →
  ∃ ingesters stores rulers w1 w2,
    (List (A:=Ingester) (service_members svc) w).1 = Ok ingesters
    ∧ (List (A:=Store) (service_members svc) w1).1 = Ok stores
    ∧ (List (A:=Ruler) (service_members svc) w2).1 = Ok rulers
    ∧ eps = (ingesters ≫= ingester_Endpoints) ++ (stores ≫= store_Endpoints) ++ (rulers ≫= ruler_endpoints).
Proof.
  unfold query_endpoints, ingester_endpoints. intros (ieps & w1 & H1 & H)%bind_Ok_inv.
  apply bind_Ok_inv in H1 as (ings & w0 & Hi & H1). apply fold_endpoints in H1 as ->.
  apply bind_Ok_inv in H as (sts & w2 & Hs & H). apply bind_Ok_inv in H as (rls & w3 & Hr & H).
  inversion H; subst. exists ings, sts, rls, w1, w2. by rewrite Hi, Hs, Hr.
Qed.

(** C5: a querier is started with one [--endpoint] for every ingester, partition
    of a store and shard of a ruler of its service, the names these components
    announce themselves, and with those the user adds, and no other. *)
Theorem query_reads_every_component svc q (w w' : W) o op :
  Containers (qsp_Common (q_Spec q)) = "" →
  query_deployment svc q w = (Ok (Some (o, op)), w') →
  ∃ d c ingesters stores rulers w1 w2 w3,
    o = ODeployment d ∧ c ∈ ps_Containers (pt_Spec (dep_Template d)) ∧ c_Name c = "query"
    ∧ (List (A:=Ingester) (service_members svc) w1).1 = Ok ingesters
    ∧ (List (A:=Store) (service_members svc) w2).1 = Ok stores
    ∧ (List (A:=Ruler) (service_members svc) w3).1 = Ok rulers
    ∧ named "--endpoint" (c_Args c) ≡ₚ
        ((λ e, "--endpoint=" +:+ e) <$>
           (ingesters ≫= ingester_Endpoints) ++ (stores ≫= store_Endpoints) ++ (rulers ≫= ruler_endpoints))
        ++ named "--endpoint" (Flags (qsp_Common (q_Spec q)))
    ∧ ∀ r, r ∈ rulers → ∀ n, rls_Shards (rl_Spec r) = Some n → (0 < n)%Z → Endpoints r = Ok (ruler_endpoints r).
Proof.
  unfold query_deployment. intros Hc (ann & w1 & _ & H)%bind_Ok_inv.
  apply bind_Ok_inv in H as (eps & w2 & He & H). rewrite Hc in H.
  apply bind_Ok_inv in H as (cs & w3 & Hp & H). rewrite patch_none in Hp. inversion Hp; subst.
  apply owned_by_inv in H as (_ & _ & refs & ->).
  destruct (query_endpoints_inv _ _ _ _ He) as (ings & sts & rls & w4 & w5 & Hi & Hs & Hr & ->).
  eexists _, (query_container q _), ings, sts, rls, w1, w4, w5. split; [done|]. split; [by left|].
  do 4 (split; [done|]). split.
  - cbn [c_Args query_container]. unfold query_args. rewrite sort_tail_named, add_flags_named. unfold merged.
    rewrite decide_False, decide_True, query_base_endpoints by (try apply (bool_decide_unpack _); done). done.
  - intros r _ n Hn Hpos. by eapply ruler_endpoints_eq.
Qed.
End endpoints.

(** ** Proxied stores *)

Definition direct_addresses (q : Query) : list string :=
  qsp_Stores (q_Spec q) ≫= λ s, match qs_CASecret s with None => qs_Addresses s | Some _ => [] end.
Definition proxied_addresses (q : Query) : list (SecretKeySelector * string) :=
  qsp_Stores (q_Spec q) ≫= λ s, match qs_CASecret s with None => [] | Some ca => (λ a, (ca, a)) <$> qs_Addresses s end.

(** What a proxied address becomes, but for the port its proxy listens on. *)
Definition proxies (x : SecretKeySelector * string) (p : ProxyStore) : Prop :=
  ListenHost p = "127.0.0.1" ∧ TlsCaFile p = vm_MountPath (secret_mount x.1)
  ∧ ∃ port, SplitHostPort x.2 = inr (TargetHost p, port) ∧ ParseUint32 port = inr (TargetPort p).

Definition listens_from (port : Z) (ps : list ProxyStore) : Prop :=
  ∀ i p, ps !! i = Some p → ListenPort p = uint32 (port + Z.of_nat i).

Lemma uint32_range z : (0 ≤ uint32 z < 2 ^ 32)%Z.
Proof. apply Z.mod_pos_bound. lia. Qed.
Lemma uint32_id z : (0 ≤ z < 2 ^ 32)%Z → uint32 z = z.
Proof. apply Z.mod_small. Qed.
Lemma uint32_add a b : uint32 (uint32 a + b) = uint32 (a + b).
Proof. apply Zplus_mod_idemp_l. Qed.

(** One store: its addresses go to one of the two lists. *)
Lemma add_addresses ca addrs stores port r :
  uint32 port = port → fold_sum (add_address ca) (stores, port) addrs = inr r →
  ∃ ps, DirectStores r.1 = DirectStores stores ++ (match ca with None => addrs | Some _ => [] end)
    ∧ ProxyStores r.1 = ProxyStores stores ++ ps
    ∧ Forall2 proxies (match ca with None => [] | Some ca => (λ a, (ca, a)) <$> addrs end) ps
    ∧ listens_from port ps ∧ r.2 = uint32 (port + Z.of_nat (length ps)).
Proof.
  revert stores port. induction addrs as [|a addrs IH]; intros stores port Hport H; simpl in H.
  - inversion H; subst. exists []. simpl. rewrite Z.add_0_r, Hport.
    assert (listens_from port []) by (intros i p Hp; by rewrite lookup_nil in Hp).
    destruct ca; simpl; rewrite !app_nil_r; by repeat (split; [done|]).
  - destruct ca as [ca|].
    + destruct (SplitHostPort a) as [e|[host ps]] eqn:Es; [done|]. destruct (ParseUint32 ps) as [e|n] eqn:En; [done|].
      destruct (IH _ _ (uint32_id _ (uint32_range _)) H) as (l & Hd & Hp & Hf & Hl & Hr).
      assert (Hn : uint32 n = n).
      { apply uint32_id. apply ParseUint32_range in En. unfold max_uint32 in En. lia. }
      eexists (_ :: l). split; [exact Hd|]. split; [rewrite Hp; simpl; by rewrite <-(assoc_L (++))|].
      split; [|split].
      * constructor; [|exact Hf]. split; [done|]. split; [done|]. exists ps. simpl. by rewrite Hn.
      * intros [|i] p Hi; simpl in Hi.
        -- inversion Hi; subst. simpl. by rewrite Z.add_0_r, Hport.
        -- rewrite (Hl i p Hi), uint32_add. f_equal. lia.
      * rewrite Hr, uint32_add. simpl. f_equal. lia.
    + destruct (IH _ _ Hport H) as (l & Hd & Hp & Hf & Hl & Hr). exists l.
      split; [by rewrite Hd; simpl; rewrite <-(assoc_L (++))|]. done.
Qed.

Lemma listens_app port ps qs :
  listens_from port ps → listens_from (uint32 (port + Z.of_nat (length ps))) qs → listens_from port (ps ++ qs).
Proof.
  intros Hp Hq i p Hi. apply lookup_app_Some in Hi as [Hi|[Hlen Hi]]; [by apply Hp|].
  rewrite (Hq _ _ Hi), uint32_add. f_equal. rewrite Nat2Z.inj_sub by done. lia.
Qed.

Lemma add_stores l stores port r :
  uint32 port = port →
  fold_sum (λ acc s, fold_sum (add_address (qs_CASecret s)) acc (qs_Addresses s)) (stores, port) l = inr r →
  ∃ ps, DirectStores r.1 = DirectStores stores ++ (l ≫= λ s, match qs_CASecret s with None => qs_Addresses s | Some _ => [] end)
    ∧ ProxyStores r.1 = ProxyStores stores ++ ps
    ∧ Forall2 proxies (l ≫= λ s, match qs_CASecret s with None => [] | Some ca => (λ a, (ca, a)) <$> qs_Addresses s end) ps
    ∧ listens_from port ps.
Proof.
  revert stores port. induction l as [|s l IH]; intros stores port Hport H; simpl in H.
  - inversion H; subst. exists []. rewrite !app_nil_r. split; [done|]. split; [done|]. split; [constructor|].
    intros i p Hp. by rewrite lookup_nil in Hp.
  - destruct (fold_sum (add_address (qs_CASecret s)) (stores, port) (qs_Addresses s)) as [e|[st1 p1]] eqn:E; [done|].
    destruct (add_addresses _ _ _ _ _ Hport E) as (ps & Hd & Hp & Hf & Hl & Hr). simpl in Hd, Hp, Hr. subst p1.
    destruct (IH _ _ (uint32_id _ (uint32_range _)) H) as (qs & Hd' & Hp' & Hf' & Hl').
    exists (ps ++ qs). rewrite Hd', Hd, Hp', Hp, <-!(assoc_L (++)). split; [done|]. split; [done|]. split.
    + by apply Forall2_app.
    + by apply listens_app.
Qed.

Lemma listens_NoDup port ps :
  (0 ≤ port)%Z → (port + Z.of_nat (length ps) ≤ 2 ^ 32)%Z → listens_from port ps → NoDup (ListenPort <$> ps).
Proof.
  intros Hlo Hhi Hl. apply NoDup_alt. intros i j n Hi Hj. rewrite list_lookup_fmap in Hi, Hj.
  destruct (ps !! i) as [p|] eqn:Ei; [|done]. destruct (ps !! j) as [p'|] eqn:Ej; [|done].
  pose proof (lookup_lt_Some _ _ _ Ei). pose proof (lookup_lt_Some _ _ _ Ej).
  simpl in Hi, Hj. rewrite (Hl _ _ Ei) in Hi. rewrite (Hl _ _ Ej) in Hj.
  rewrite !uint32_id in * by lia. assert (port + Z.of_nat i = port + Z.of_nat j)%Z by congruence. lia.
Qed.

(** C23: the stores of a query: the addresses of a store without a certificate are
    used as they are; every address of a store with one is split into a host and
    a port, in order, and gets a listener of its own on the local host, on the
    ports from 11000, no two the same, with the certificate at the path where
    the proxy mounts it. *)
Theorem proxied_stores_listen q stores :
  query_stores q = inr stores →
  DirectStores stores = direct_addresses q
  ∧ Forall2 proxies (proxied_addresses q) (ProxyStores stores)
  ∧ (∀ i p, ProxyStores stores !! i = Some p → ListenPort p = uint32 (11000 + Z.of_nat i))
  ∧ (Z.of_nat (length (proxied_addresses q)) ≤ 2 ^ 32 - 11000 → NoDup (ListenPort <$> ProxyStores stores))%Z
  ∧ Forall (λ x, secret_mount x.1 ∈ c_VolumeMounts (envoy_container q)) (proxied_addresses q).
Proof.
  unfold query_stores. destruct (fold_sum _ _ _) as [e|[st port]] eqn:E; [done|]. intros [= <-].
  destruct (add_stores _ _ _ _ eq_refl E) as (ps & Hd & Hp & Hf & Hl). simpl in Hd, Hp.
  split; [done|]. rewrite Hp. split; [exact Hf|]. split; [exact Hl|]. split.
  - intros Hlen. apply (listens_NoDup first_listen_port); [done| |done].
    apply Forall2_length in Hf. unfold first_listen_port. change (proxied_addresses q) with
      (qsp_Stores (q_Spec q) ≫= λ s, match qs_CASecret s with None => [] | Some ca => (λ a, (ca, a)) <$> qs_Addresses s end) in Hlen.
    rewrite Hf in Hlen. lia.
  - apply list.Forall_forall. intros [ca a] Hin. unfold proxied_addresses in Hin.
    apply list_elem_of_bind in Hin as (s & Hin & Hs). destruct (qs_CASecret s) as [ca'|] eqn:Eca; [|by apply elem_of_nil in Hin].
    apply list_elem_of_fmap in Hin as (a' & [= -> ->] & _). cbn [c_VolumeMounts envoy_container].
    apply elem_of_app. right. apply list_elem_of_fmap. exists ca'. split; [done|].
    unfold ca_secrets. apply list_elem_of_omap. by exists s.
Qed.

Lemma fold_sum_ok {A B} (f : B → A → GoError + B) (P : A → Prop) (I : B → Prop) b l :
  I b → Forall P l → (∀ b x, I b → P x → ∃ b', f b x = inr b' ∧ I b') → ∃ b', fold_sum f b l = inr b' ∧ I b'.
Proof.
  intros Hb Hl Hf. revert b Hb. induction Hl as [|x l Hx _ IH]; intros b Hb; [by exists b|].
  destruct (Hf b x Hb Hx) as (b1 & E & Hb1). simpl. rewrite E. by apply IH.
Qed.

(** The stores of a query are accepted whenever the address of every store
    with a certificate is a host and a 32-bit port, the host in brackets if it
    has a colon. *)
Theorem proxied_addresses_accepted q :
  Forall (λ x, ∃ host port, (0 ≤ port ≤ max_uint32)%Z
      ∧ (plain_host host ∧ x.2 = host_port host port
         ∨ contains_char "["%char host = false ∧ contains_char "]"%char host = false
           ∧ x.2 = "[" +:+ host +:+ "]:" +:+ itoa port)) (proxied_addresses q) →
  ∃ stores, query_stores q = inr stores.
Proof.
  intros Hall.
  assert (Hok : ∃ r, fold_sum (λ acc s, fold_sum (add_address (qs_CASecret s)) acc (qs_Addresses s))
            ({| DirectStores := []; ProxyStores := [] |}, first_listen_port) (qsp_Stores (q_Spec q)) = inr r ∧ True).
  { apply (fold_sum_ok _ (λ s, s ∈ qsp_Stores (q_Spec q)) (λ _, True)); [done|by apply list.Forall_forall|].
    intros acc s _ Hs.
    apply (fold_sum_ok _ (λ a, a ∈ qs_Addresses s) (λ _, True)); [done|by apply list.Forall_forall|].
    intros [st p] a _ Ha. unfold add_address. destruct (qs_CASecret s) as [ca|] eqn:Eca; [|by eexists].
    rewrite list.Forall_forall in Hall. destruct (Hall (ca, a)) as (host & port & Hport & Haddr).
    { apply list_elem_of_bind. exists s. rewrite Eca. split; [|done]. apply list_elem_of_fmap. by exists a. }
    assert (E : SplitHostPort a = inr (host, itoa port)).
    { simpl in Haddr. destruct Haddr as [[Hh ->]|(Ho & Hb & ->)].
      - apply SplitHostPort_host_port; [done|lia].
      - apply SplitHostPort_brackets; [|done|done]. apply digits_plain, itoa_all_digits. lia. }
    rewrite E, ParseUint32_itoa by done. by eexists. }
  destruct Hok as ([stores p] & E & _). exists stores. unfold query_stores. by rewrite E.
Qed.

(** ** The frontend and the querier behind it *)

(** The characters of the names in a service's address. *)
Definition dns_names (name ns : string) : Prop := string_forallb dns_char name = true ∧ string_forallb dns_char ns = true.

Lemma service_address_parses app name ns scheme port path :
  scheme ∈ ["http"; "https"] → string_forallb dns_char app = true → app ≠ "" → dns_names name ns → (0 ≤ port)%Z →
  string_forallb path_char path = true → path = "" ∨ has_prefix path "/" = true →
  let host := QualifiedName app name [ServiceNameSuffix] +:+ "." +:+ ns +:+ ".svc" in
  url_Parse (scheme +:+ "://" +:+ host +:+ ":" +:+ itoa port +:+ path) = inr (service_URL scheme host (itoa port) path).
Proof.
  intros Hs Happ Hne [Hname Hns] Hport Hpc Hpath host.
  apply url_Parse_service; [done| | |by apply itoa_all_digits|done|done].
  - unfold host, QualifiedName. by destruct app.
  - unfold host, QualifiedName. rewrite !string_forallb_app, Happ, Hname, Hns. done.
Qed.

Section frontend.
Context {W : Type} {HK : Kube W} {HL : K8sLib} {HM : MapRange} {HB : BaseLib} {HW : WorkLib} {HE : WebLib} {HF : FrontendLib}.

Lemma queryAddress_inv svc q (w w' : W) addr :
  frontend_queryAddress svc q w = (Ok addr, w') →
  ∃ o svc' w1, List (A:=Query) (MatchingLabels (ManagedLabelBySameService (qf_Meta q))) w = (Ok [o], w1)
    ∧ SetService (q_Meta o) w1 = (Ok svc', w')
    ∧ addr = if server_tls (qsp_WebConfig (q_Spec o)) then query_HttpsAddr svc' o else query_HttpAddr svc' o.
Proof.
  unfold frontend_queryAddress. intros (items & w1 & Hl & H)%bind_Ok_inv.
  destruct items as [|o [|o' items]]; [done| |done].
  apply bind_Ok_inv in H as (svc' & w2 & Hs & H). inversion H; subst. by exists o, svc', w1.
Qed.

Lemma frontend_base_downstream q addr tripper :
  named "--query-frontend.downstream-url" tripper = [] →
  named "--query-frontend.downstream-url" (frontend_base_args q addr tripper)
  = ["--query-frontend.downstream-url=" +:+ addr].
Proof.
  intros Ht. unfold frontend_base_args. cbv zeta. rewrite !named_app, Ht.
  rewrite (opt_arg_named _ "--log.level"), (opt_arg_named _ "--log.format") by done.
  pose proof (GetArgName_app "--query-frontend.downstream-url" addr eq_refl) as E.
  assert (Hd : named "--query-frontend.downstream-url" ["--query-frontend.downstream-url=" +:+ addr;
    "--labels.response-cache-config-file=" +:+ filepath_Join [frontend_configDir; cacheConfigFile];
    "--query-range.response-cache-config-file=" +:+ filepath_Join [frontend_configDir; cacheConfigFile]]
    = ["--query-frontend.downstream-url=" +:+ addr]).
  { unfold named. rewrite filter_cons, decide_True by exact E. by rewrite !filter_cons, !decide_False by done. }
  rewrite Hd. by destruct (qfs_WebConfig (qf_Spec q)).
Qed.

Lemma tripper_args_named addr l n :
  tripper_args addr = inr l → n ≠ "--query-frontend.downstream-tripper-config" → named n l = [].
Proof.
  unfold tripper_args. destruct (url_Parse addr) as [e|u]; [done|]. destruct (HasScheme "https" u).
  - destruct yaml_Marshal_tripper_insecure as [e|body]; [done|]. intros [= <-] Hn.
    apply named_none, Forall_singleton.
    pose proof (GetArgName_app "--query-frontend.downstream-tripper-config" body eq_refl) as E.
    intros E'. apply Hn. by rewrite <-E', <-E.
  - by intros [= <-].
Qed.

(** C15: the query frontend sends its queries to the one querier of its service:
    to the host of the service reconciled for that querier, on its HTTP port,
    under the scheme of the querier's own web configuration. *)
Theorem frontend_reaches_its_querier svc q (w w' : W) o op :
  Containers (qfs_Common (qf_Spec q)) = "" →
  named "--query-frontend.downstream-url" (Flags (qfs_Common (qf_Spec q))) = [] →
  frontend_deployment svc q w = (Ok (Some (o, op)), w') →
  ∃ d c querier svc' w1 w2 w3, o = ODeployment d ∧ ps_Containers (pt_Spec (dep_Template d)) = [c]
    ∧ List (A:=Query) (MatchingLabels (ManagedLabelBySameService (qf_Meta q))) w1 = (Ok [querier], w2)
    ∧ SetService (q_Meta querier) w2 = (Ok svc', w3)
    ∧ let scheme := if server_tls (qsp_WebConfig (q_Spec querier)) then "https" else "http" in
      let host := query_name querier [ServiceNameSuffix] +:+ "." +:+ om_Namespace (sv_Meta svc') +:+ ".svc" in
      named "--query-frontend.downstream-url" (c_Args c)
        = ["--query-frontend.downstream-url=" +:+ scheme +:+ "://" +:+ host +:+ ":" +:+ itoa HTTPPort]
      ∧ (dns_names (om_Name (q_Meta querier)) (om_Namespace (sv_Meta svc')) →
         url_Parse (scheme +:+ "://" +:+ host +:+ ":" +:+ itoa HTTPPort)
         = inr (service_URL scheme host (itoa HTTPPort) "")).
Proof.
  unfold frontend_deployment. intros Hc Hflags (h & w1 & _ & H)%bind_Ok_inv.
  apply bind_Ok_inv in H as (addr & w2 & Ha & H). apply bind_Ok_inv in H as (tr & w3 & Ht & H).
  apply bind_Ok_inv in H as (ann & w4 & _ & H). rewrite Hc in H.
  apply bind_Ok_inv in H as (cs & w5 & Hp & H). rewrite patch_none in Hp. inversion Hp; subst.
  apply owned_by_inv in H as (_ & _ & refs & ->).
  destruct (queryAddress_inv _ _ _ _ _ Ha) as (querier & svc' & w6 & Hl & Hs & Haddr).
  set (scheme := if server_tls (qsp_WebConfig (q_Spec querier)) then "https" else "http").
  assert (E : addr = scheme +:+ "://" +:+ (query_name querier [ServiceNameSuffix] +:+ "." +:+ om_Namespace (sv_Meta svc') +:+ ".svc")
                +:+ ":" +:+ itoa HTTPPort).
  { rewrite Haddr. unfold scheme. destruct (server_tls _); unfold query_HttpsAddr, query_HttpAddr, query_addr;
      by rewrite !append_assoc. }
  eexists _, (frontend_container q h addr tr), querier, svc', w1, w6, w2. do 4 (split; [done|]). cbv zeta. fold scheme. split.
  - rewrite <-E. apply Permutation_singleton_r. cbn [c_Args frontend_container]. unfold frontend_args.
    rewrite sort_tail_named, add_flags_named. unfold merged.
    rewrite decide_False, decide_False, Hflags by (apply (bool_decide_unpack _); done). cbn [last].
    rewrite frontend_base_downstream; [done|]. destruct (tripper_args addr) as [e|l] eqn:Et; [done|].
    inversion Ht; subst. by eapply tripper_args_named.
  - intros Hdns. pose proof (service_address_parses AppNameQuery (om_Name (q_Meta querier)) (om_Namespace (sv_Meta svc'))
      scheme HTTPPort "") as Hparse. cbv zeta in Hparse. rewrite append_nil_r in Hparse.
    apply Hparse; [|done|done|done|done|done|by left]. unfold scheme. destruct (server_tls _); set_solver.
Qed.
End frontend.
