(* ===== verification/GatewayWorkload.v ===== *)
(** [pkg/controllers/resources/gateway] and
    [pkg/controllers/gateway_controller.go]: the workload of the gateway, which
    sits in front of the queriers and the router of a service, the tenants it
    admits, and the built-in user of its web configuration. The gateways are
    never nil: their name is read before the nil tests of the source. *)
From stdpp Require Import base gmap strings list pretty sorting.
From Stdlib Require Import Ascii String.
From S2P Require Import Prelude GoStd K8s Api Objects Client Base Workload Web Tenant Ingester GoNet Duration Router Query QueryFrontend.

(** [config] of deployment.go: how an upstream is reached. The TLS
    configuration, when there is one, only skips the verification. *)
Record ProxyConfig := {
  pc_BasicAuth : option (string * string); pc_BearerToken : string; pc_InsecureSkipVerify : bool;
}.
(** [monitoringgateway.ExternalRemoteWriteConfig] *)
Record ExternalRemoteWriteConfig := {
  er_Name : string; er_URL : URL; er_Headers : StrMap; er_RemoteTimeout : Z;
  er_BasicAuth : option (string * string); er_BearerToken : string; er_InsecureSkipVerify : bool;
}.
#[export] Instance ProxyConfig_eq : EqDecision ProxyConfig. Proof. solve_decision. Defined.

Class GatewayLib := {
  (* json.Marshal of an AdmissionControlConfig, from its tenants *)
  json_AdmissionConfig : list string → GoError + string;
  (* yaml.Marshal of a config and of the external remote writes *)
  yaml_Marshal_config : ProxyConfig → GoError + string;
  yaml_Marshal_external : list ExternalRemoteWriteConfig → GoError + string;
  (* bcrypt.GenerateFromPassword with the default cost *)
  bcrypt_GenerateFromPassword : string → GoError + string;
  (* the i-th rand.Intn(n) of a call, which the text names *)
  rand_Intn : string → nat → nat → nat;
  rand_Intn_range : ∀ site i n, 0 < n → rand_Intn site i n < n;
  (* mergo.Merge(&gateway.Spec, template) *)
  mergo_Merge_GatewaySpec : GatewaySpec → GatewaySpec → GoError + GatewaySpec;
}.

Definition tenantsAdmissionConfigFile : string := "tenants-admission.yaml".
Definition gateway_port : Z := 9090.

(** ** Random strings *)

Definition defaultLetters : list string :=
  split_on " "%char "a b c d e f g h i j k l m n o p q r s t u v w x y z A B C D E F G H I J K L M N O P Q R S T U V W X Y Z 0 1 2 3 4 5 6 7 8 9".

(** [randomString(n)] with the default letters. *)
Definition randomString `{!GatewayLib} (site : string) (n : nat) : string :=
  String.concat "" ((λ i, default "" (defaultLetters !! rand_Intn site i (length defaultLetters))) <$> seq 0 n).

Section gateway.
Context {W : Type} `{!Kube W} `{!K8sLib} `{!MapRange} `{!BaseLib} `{!WorkLib} `{!WebLib} `{!GatewayLib}.
Variable service : Service.       (* g.Service *)
Variable g : Gateway.             (* g.gateway *)

(** ** gateway.go *)

Definition gateway_labels : StrMap :=
  <[LabelNameAppManagedBy := om_Name (gw_Meta g)]> (<[LabelNameAppName := AppNameGateway]> BaseLabels).
Definition gateway_name (suffix : list string) : string := QualifiedName AppNameGateway (om_Name (gw_Meta g)) suffix.
Definition gateway_meta (name : string) : ObjectMeta :=
  new_meta name "" (om_Namespace (sv_Meta service)) gateway_labels ∅.

Definition gateway_addr (scheme : string) : string :=
  scheme +:+ "://" +:+ gateway_name [ServiceNameSuffix] +:+ "." +:+ om_Namespace (sv_Meta service)
  +:+ ".svc:" +:+ itoa gateway_port.
Definition gateway_HttpAddr : string := gateway_addr "http".
Definition gateway_HttpsAddr : string := gateway_addr "https".

(** ** configmap.go *)

(** Is a tenant live, and of the gateway's service? *)
Definition tenant_admitted (tenant : Tenant) : bool :=
  time_IsZero (om_DeletionTimestamp (tn_Meta tenant))
  && match om_Labels (tn_Meta tenant) !! ServiceLabelKey with
     | Some v => String.eqb (map_get (om_Labels (gw_Meta g)) ServiceLabelKey) v
     | None => false
     end.

Definition admitted_tenants (items : list Tenant) : list string :=
  (λ t, tsp_Tenant (tn_Spec t)) <$> filter (λ t, tenant_admitted t = true) items.

Definition tenantsAdmissionConfigMap : ResourceFn W :=
  let cm data := OConfigMap {| cm_Meta := gateway_meta (gateway_name ["tenants-admission-config"]); cm_Data := data |} in
  if negb (gsp_EnabledTenantsAdmission (gw_Spec g)) then mret (Some (cm ∅, OperationDelete))
  else
    items ← List (A:=Tenant) everywhere;
    acBytes ← lift_sum (json_AdmissionConfig (admitted_tenants items));
    owned_by (OGateway g) (cm (<[tenantsAdmissionConfigFile := acBytes]> ∅)).

(** ** secret.go *)

Definition built_in_user : string := gateway_name ["built-in-user"].
Definition built_in_auth : BasicAuth :=
  {| ba_Username := {| sks_Name := built_in_user; sks_Key := "username" |};
     ba_Password := {| sks_Name := built_in_user; sks_Key := "password" |} |}.

(** The secret of a user, a hashed password and the password in clear text. *)
Definition built_in_secret (user password clearTextPassword : string) : Secret := {|
  sec_Meta := gateway_meta built_in_user; sec_Data := ∅;
  sec_StringData := <["username" := user]> (<["password" := password]> (<["cpassword" := clearTextPassword]> ∅)) |}.

(** When the password cannot be hashed nothing is created, and no error is
    returned. *)
Definition generateBuiltInBasicAuthUserSecret : M W unit :=
  let user := randomString "user" 16 in
  let clearTextPassword := randomString "password" 32 in
  match bcrypt_GenerateFromPassword clearTextPassword with
  | inl _ => mret tt
  | inr password =>
      o ← lift_outcome (SetControllerReference (OGateway g) (OSecret (built_in_secret user password clearTextPassword)));
      kube_create o ;; mret tt
  end.

Definition ensure_built_in_user : M W unit :=
  r ← attempt (Get (A:=Secret) {| nn_Namespace := om_Namespace (gw_Meta g); nn_Name := built_in_user |});
  match r with
  | inl err => if apierrors_IsNotFound err then generateBuiltInBasicAuthUserSecret else fail err
  | inr _ => mret tt
  end.

Definition add_built_in (wc : WebConfig) : WebConfig := {|
  wc_HTTPServerTLSConfig := wc_HTTPServerTLSConfig wc; wc_HTTPServerConfig := wc_HTTPServerConfig wc;
  wc_BasicAuthUsers := wc_BasicAuthUsers wc ++ [built_in_auth] |}.

(** The secret, and the web configuration of the gateway, to which the built-in
    user is appended in place. *)
Definition gateway_webConfigSecret (webConfig : option WebConfig)
    : M W (option (Object * Operation) * option WebConfig) :=
  webConfig ← (match webConfig with
               | Some wc =>
                   match wc_BasicAuthUsers wc with
                   | [] => mret (Some wc)
                   | _ :: _ => ensure_built_in_user ;; mret (Some (add_built_in wc))
                   end
               | None => mret None
               end);
  secret ← web_config_secret (gateway_meta (gateway_name ["web-config"])) (om_Namespace (gw_Meta g)) webConfig
             (owned_by (OGateway g));
  mret (secret, webConfig).

(** ** service.go *)

Definition gateway_service : ResourceFn W :=
  let fresh := empty_service (gateway_meta (gateway_name [ServiceNameSuffix])) in
  s ← get_or fresh (svc_Meta fresh);
  owned_by (OGateway g) (OCoreService (expose gateway_labels gateway_port (gsp_NodePort (gw_Spec g)) s)).
End gateway.

(** ** deployment.go: the upstreams *)

Section upstreams.
Context {W : Type} `{!Kube W} `{!K8sLib} `{!GatewayLib}.
Variable service : Service.       (* g.Service *)
Variable g : Gateway.             (* g.gateway *)

Definition same_service : ListOptions := MatchingLabels (ManagedLabelBySameService (gw_Meta g)).
Definition gateway_service_text : string := om_Name (sv_Meta service) +:+ "/" +:+ om_Namespace (sv_Meta service).

(** The address of the only component of a kind in the service; [none] is what
    its absence means. *)
Definition only_one {A} (what : string) (none : M W string) (address : A → M W string) (items : list A) : M W string :=
  match items with
  | [] => none
  | [o] => address o
  | _ => fail (EMsg ("more than one " +:+ what +:+ " defined for service " +:+ gateway_service_text))
  end.

Definition queryfrontendAddress : M W string :=
  items ← List (A:=QueryFrontend) same_service;
  only_one "query frontend" (mret "") (λ q,
    svc ← SetService (qf_Meta q);
    mret (if server_tls (qfs_WebConfig (qf_Spec q)) then frontend_HttpsAddr svc q else frontend_HttpAddr svc q)) items.

Definition gateway_queryAddress : M W string :=
  items ← List (A:=Query) same_service;
  only_one "query" (mret "") (λ q,
    svc ← SetService (q_Meta q);
    mret (if server_tls (qsp_WebConfig (q_Spec q)) then query_HttpsAddr svc q else query_HttpAddr svc q)) items.

Definition remoteWriteAddress : M W string :=
  items ← List (A:=Router) same_service;
  only_one "router" (fail (EMsg ("no router defined for service " +:+ gateway_service_text))) (λ o,
    svc ← SetService (rt_Meta o); mret (router_RemoteWriteAddr svc o)) items.

(** *** Their configuration *)

Definition no_config : ProxyConfig := {| pc_BasicAuth := None; pc_BearerToken := ""; pc_InsecureSkipVerify := false |}.
Definition insecure_config : ProxyConfig :=
  {| pc_BasicAuth := None; pc_BearerToken := ""; pc_InsecureSkipVerify := true |}.
Definition no_auth : BasicAuth :=
  {| ba_Username := {| sks_Name := ""; sks_Key := "" |}; ba_Password := {| sks_Name := ""; sks_Key := "" |} |}.

(** [buff, _ := yaml.Marshal(cfg)] *)
Definition config_text (cfg : ProxyConfig) : string :=
  match yaml_Marshal_config cfg with inr buff => buff | inl _ => "" end.

Definition parse_or (err url : string) : M W URL :=
  match url_Parse url with inl _ => fail (EMsg err) | inr u => mret u end.

(** The flag of an upstream whose certificate is not verified. *)
Definition tls_arg (flag : string) (url : URL) : list string :=
  if HasScheme "https" url then [flag +:+ config_text insecure_config] else [].

(** The user and password of the secrets of the service's namespace. *)
Definition basic_auth (ba : BasicAuth) : M W (option (string * string)) :=
  if decide (ba = no_auth) then mret None
  else
    user ← Get (A:=Secret) {| nn_Namespace := om_Namespace (sv_Meta service); nn_Name := sks_Name (ba_Username ba) |};
    pass ← Get (A:=Secret) {| nn_Namespace := om_Namespace (sv_Meta service); nn_Name := sks_Name (ba_Password ba) |};
    mret (Some (map_get (sec_Data user) (sks_Key (ba_Username ba)), map_get (sec_Data pass) (sks_Key (ba_Password ba)))).

(** [addr = queryFrontendAddr], or the querier's; there must be one. *)
Definition frontend_or_query (queryFrontendAddr queryAddr : string) : M W string :=
  let addr := if String.eqb queryFrontendAddr "" then queryAddr else queryFrontendAddr in
  if String.eqb addr "" then fail (EMsg ("no query frontend and query exist for service " +:+ gateway_service_text))
  else mret addr.

(** With a remote query: the metrics are read from it, the rules from the
    querier. *)
Definition remote_query_args (rq : RemoteQuerySpec) (queryFrontendAddr queryAddr : string) : M W (list string) :=
  remoteQueryUrl ← parse_or ("invalid remoteQuery Url: " +:+ rq_URL rq) (rq_URL rq);
  auth ← basic_auth (hc_BasicAuth (rq_HTTPClientConfig rq));
  let cfg := {| pc_BasicAuth := auth; pc_BearerToken := hc_BearerToken (rq_HTTPClientConfig rq);
                pc_InsecureSkipVerify := HasScheme "https" remoteQueryUrl |} in
  addr ← frontend_or_query queryFrontendAddr queryAddr;
  queryUrl ← parse_or ("invalid query address: " +:+ addr) addr;
  mret (["--query.address=" +:+ rq_URL rq]
        ++ (if decide (cfg = no_config) then [] else ["--query.config=" +:+ config_text cfg])
        ++ ["--rules-query.address=" +:+ queryAddr] ++ tls_arg "--rules-query.config=" queryUrl).

Definition local_query_args (queryFrontendAddr queryAddr : string) : M W (list string) :=
  addr ← frontend_or_query queryFrontendAddr queryAddr;
  queryUrl ← parse_or ("invalid query address: " +:+ addr) addr;
  mret (["--query.address=" +:+ addr] ++ tls_arg "--query.config=" queryUrl).

Definition query_upstream_args (queryFrontendAddr queryAddr : string) : M W (list string) :=
  match sv_RemoteQuery (sv_Spec service) with
  | Some rq =>
      if String.eqb (rq_URL rq) "" then local_query_args queryFrontendAddr queryAddr
      else remote_query_args rq queryFrontendAddr queryAddr
  | None => local_query_args queryFrontendAddr queryAddr
  end.

(** The error of a router address that does not parse names the querier's. *)
Definition router_upstream_args (queryAddr : string) : M W (list string) :=
  routerAddr ← remoteWriteAddress;
  url ← parse_or ("invalid router address: " +:+ queryAddr) routerAddr;
  mret (["--remote-write.address=" +:+ routerAddr] ++ tls_arg "--remote-write.config=" url).

Definition external_remote_write (rw : RemoteWriteSpec) : M W ExternalRemoteWriteConfig :=
  url ← parse_or ("invalid remote write url: " +:+ rw_URL rw) (rw_URL rw);
  timeout ← (if String.eqb (rw_RemoteTimeout rw) "" then mret 0%Z
             else match time_ParseDuration (rw_RemoteTimeout rw) with
                  | inl _ => fail (EMsg ("invalid remoteTimeout: " +:+ rw_RemoteTimeout rw))
                  | inr t => mret t
                  end);
  auth ← basic_auth (hc_BasicAuth (rw_HTTPClientConfig rw));
  mret {| er_Name := rw_Name rw; er_URL := url; er_Headers := rw_Headers rw; er_RemoteTimeout := timeout;
          er_BasicAuth := auth; er_BearerToken := hc_BearerToken (rw_HTTPClientConfig rw);
          er_InsecureSkipVerify := HasScheme "https" url |}.

Definition external_args : M W (list string) :=
  rwsCfg ← fold_each (λ acc rw, c ← external_remote_write rw; mret (acc ++ [c])) [] (sv_RemoteWrites (sv_Spec service));
  buff ← lift_sum (yaml_Marshal_external rwsCfg);
  mret ["--external-remote-writes.config=" +:+ buff].

Definition upstream_args : M W (list string) :=
  queryFrontendAddr ← queryfrontendAddress;
  queryAddr ← gateway_queryAddress;
  queries ← query_upstream_args queryFrontendAddr queryAddr;
  writes ← router_upstream_args queryAddr;
  external ← external_args;
  mret (queries ++ writes ++ external).
End upstreams.

(** ** deployment.go *)

Section deployment.
Context {W : Type} `{!Kube W} `{!K8sLib} `{!MapRange} `{!BaseLib} `{!WorkLib} `{!WebLib} `{!GatewayLib}.
Variable service : Service.
Variable g : Gateway.

Definition gateway_base_args (webConfig : option WebConfig) : list string :=
  let spec := gw_Spec g in
  let common := gsp_Common spec in
  opt_arg "--log.level=" (LogLevel common) ++ opt_arg "--log.format=" (LogFormat common)
  ++ opt_arg "--tenant.header=" (sv_TenantHeader (sv_Spec service))
  ++ opt_arg "--tenant.label-name=" (sv_TenantLabelName (sv_Spec service))
  ++ (if gsp_DebugMode spec then ["--debug.enable-ui"] else [])
  ++ (if gsp_EnabledTenantsAdmission spec
      then ["--tenant.admission-control-config-file=" +:+ WhizardConfigMountPath +:+ tenantsAdmissionConfigFile]
      else [])
  ++ web_args webConfig.

Definition admission_volumes : list Volume * list VolumeMount :=
  if gsp_EnabledTenantsAdmission (gw_Spec g)
  then ([config_volume "tenants-admission-config" (gateway_name g ["tenants-admission-config"])],
        [ro_mount "tenants-admission-config" WhizardConfigMountPath])
  else ([], []).

Definition gateway_container (webConfig : option WebConfig) (args : list string) : Container := {|
  c_Name := "gateway"; c_Image := Image (gsp_Common (gw_Spec g)); c_ImagePullPolicy := ""; c_Command := [];
  c_Args := gateway_base_args webConfig ++ args; c_Resources := Resources (gsp_Common (gw_Spec g));
  c_Ports := [container_port "http" gateway_port]; c_Env := [];
  c_VolumeMounts := admission_volumes.2 ++ (web_volumes (gateway_name g ["web-config"]) webConfig).2;
  c_LivenessProbe := None; c_ReadinessProbe := None |}.

Definition gateway_template (webConfig : option WebConfig) (annotations : StrMap) (containers : list Container)
    : Deployment :=
  let common := gsp_Common (gw_Spec g) in {|
  dep_Meta := gateway_meta service g (gateway_name g []); dep_Replicas := Replicas common;
  dep_Selector := gateway_labels g;
  dep_Template := {| pt_Labels := gateway_labels g; pt_Annotations := annotations;
    pt_Spec := common_pod common
      (admission_volumes.1 ++ (web_volumes (gateway_name g ["web-config"]) webConfig).1) containers |} |}.

(** The annotations of the pods, and the web configuration after the built-in
    user was appended. *)
Definition gateway_annotations : M W (StrMap * option WebConfig) :=
  match gsp_WebConfig (gw_Spec g) with
  | None => mret (∅, None)
  | Some wc =>
      secret ← gateway_webConfigSecret service g (Some wc);
      annotations ← config_hash secret.1;
      mret (annotations, secret.2)
  end.

Definition gateway_deployment : M W (option (Object * Operation) * option WebConfig) :=
  web ← gateway_annotations;
  args ← upstream_args service g;
  containers ← patch_containers (Containers (gsp_Common (gw_Spec g)))
    [gateway_container web.2 args];
  d ← owned_by (OGateway g) (ODeployment (gateway_template web.2 web.1 containers));
  mret (d, web.2).

(** The last function finds the web configuration as the first left it. *)
Definition gateway_Reconcile : M W unit :=
  d ← gateway_deployment;
  ReconcileResources [
    (mret d.1 : M W (option (Object * Operation))); gateway_service service g; tenantsAdmissionConfigMap service g;
    (s ← gateway_webConfigSecret service g d.2; mret s.1 : M W (option (Object * Operation)))].
End deployment.

(** ** pkg/controllers/gateway_controller.go *)

Section controller.
Context {W : Type} `{!Kube W} `{!K8sLib} `{!MapRange} `{!BaseLib} `{!WorkLib} `{!WebLib} `{!GatewayLib}.

Definition applyConfigurationFromGatewayTemplateSpec (gateway : Gateway) (template : GatewaySpec) : GoError + Gateway :=
  match mergo_Merge_GatewaySpec (gw_Spec gateway) template with
  | inl err => inl err
  | inr spec => inr {| gw_Type := gw_Type gateway; gw_Meta := gw_Meta gateway; gw_Spec := spec |}
  end.

Definition GatewayReconciler_Reconcile (req : NamespacedName) : M W unit :=
  r ← attempt (Get (A:=Gateway) req);
  match r with
  | inl err => if apierrors_IsNotFound err then mret tt else fail err
  | inr instance =>
      if String.eqb (map_get (om_Labels (gw_Meta instance)) ServiceLabelKey) "" then mret tt
      else
        key ← of_option "nil pointer dereference" (ServiceNamespacedName (gw_Meta instance));
        service ← Get (A:=Service) key;
        instance ← lift_sum (applyConfigurationFromGatewayTemplateSpec instance
                     (GatewayTemplateSpec (sv_Spec (ApplyDefaults service))));
        svc ← SetService (gw_Meta instance);
        gateway_Reconcile svc instance
  end.

Definition gateway_mapFuncBySelectorFunc (fn : ObjectMeta → StrMap) (o : Object) : M W (list NamespacedName) :=
  items ← or_nil (List (A:=Gateway) (MatchingLabels (fn (obj_meta o))));
  mret ((λ item, {| nn_Namespace := om_Namespace (gw_Meta item); nn_Name := om_Name (gw_Meta item) |}) <$> items).
End controller.
