(* ===== verification/BlockManager.v ===== *)
(** [pkg/controllers/resources/storage] and
    [pkg/controllers/storage_controller.go]: the hash of a storage's
    configuration, kept in its annotation, and the block manager of a storage,
    a web server and the collector of blocks in one deployment. *)
From stdpp Require Import base gmap strings list pretty sorting.
From Stdlib Require Import Ascii String.
From S2P Require Import Prelude GoStd K8s Api Objects Client Base Workload Web Tenant Ingester GoNet.

Definition webContainerName : string := "web".
Definition gcContainerName : string := "gc".

Section storage.
Context {W : Type} `{!Kube W} `{!K8sLib} `{!MapRange} `{!BaseLib} `{!WorkLib}.
Variable s : Storage.       (* s.storage *)

(** ** storage.go *)

Definition storage_labels : StrMap :=
  <[LabelNameAppManagedBy := om_Name (stg_Meta s)]> (<[LabelNameAppName := AppNameStorage]> BaseLabels).
Definition storage_name (suffix : list string) : string := QualifiedName AppNameBlockManager (om_Name (stg_Meta s)) suffix.
Definition storage_meta (name : string) : ObjectMeta :=
  new_meta name "" (om_Namespace (stg_Meta s)) storage_labels ∅.

(** The key other objects name the storage by. *)
Definition storage_key : string := join "." [om_Namespace (stg_Meta s); om_Name (stg_Meta s)].

Definition with_hash (hash : string) : Storage :=
  {| stg_Type := stg_Type s;
     stg_Meta := set_om_Annotations (<[LabelNameStorageHash := hash]> (om_Annotations (stg_Meta s))) (stg_Meta s);
     stg_Spec := stg_Spec s |}.

(** The storage itself, when its annotation is not the hash of its
    configuration. *)
Definition updateHashAnnotation : ResourceFn W :=
  hashStr ← GetStorageHash storage_key;
  mret (match om_Annotations (stg_Meta s) !! LabelNameStorageHash with
        | Some v => if String.eqb v hashStr then None else Some (OStorage (with_hash hashStr), OperationCreateOrUpdate)
        | None => Some (OStorage (with_hash hashStr), OperationCreateOrUpdate)
        end).

(** ** deployment.go *)

(** The block manager, when it is enabled. *)
Definition block_manager : option BlockManagerSpec :=
  match sto_BlockManager (stg_Spec s) with
  | Some bm => match bm_Enable bm with Some true => Some bm | _ => None end
  | None => None
  end.

(** The collector's settings, when it is enabled. *)
Definition isGCEnabled (bm : BlockManagerSpec) : option BlockGC :=
  match bm_GC bm with
  | Some gc => match gc_Enable gc with Some true => Some gc | _ => None end
  | None => None
  end.

Definition empty_deployment (m : ObjectMeta) : Deployment := {|
  dep_Meta := m; dep_Replicas := None; dep_Selector := ∅; dep_Template := sts_Template (empty_sts m) |}.

Definition empty_container (name : string) : Container := {|
  c_Name := name; c_Image := ""; c_ImagePullPolicy := ""; c_Command := []; c_Args := [];
  c_Resources := emptyResources; c_Ports := []; c_Env := []; c_VolumeMounts := [];
  c_LivenessProbe := None; c_ReadinessProbe := None |}.

Definition web_base_args (bm : BlockManagerSpec) (storageConfig : string) : list string :=
  ["tools"; "bucket"; "web"; "--objstore.config=" +:+ storageConfig]
  ++ opt_arg "--log.level=" (LogLevel (bm_Common bm)) ++ opt_arg "--log.format=" (LogFormat (bm_Common bm))
  ++ (match bm_BlockSyncInterval bm with Some d => ["--refresh=" +:+ time_Duration_String d] | None => [] end).

(** The web container as it is configured. *)
Definition web_container (bm : BlockManagerSpec) (mounts : list VolumeMount) (storageConfig : string) (c : Container)
    : Container := {|
  c_Name := c_Name c; c_Image := Image (bm_Common bm); c_ImagePullPolicy := ImagePullPolicy (bm_Common bm);
  c_Command := c_Command c; c_Args := web_base_args bm storageConfig; c_Resources := Resources (bm_Common bm);
  c_Ports := c_Ports c; c_Env := c_Env c; c_VolumeMounts := mounts;
  c_LivenessProbe := match c_LivenessProbe c with None => Some DefaultLivenessProbe | p => p end;
  c_ReadinessProbe := match c_ReadinessProbe c with None => Some DefaultReadinessProbe | p => p end |}.

Definition fresh_web : Container := {|
  c_Name := webContainerName; c_Image := ""; c_ImagePullPolicy := ""; c_Command := []; c_Args := [];
  c_Resources := emptyResources; c_Ports := [container_port HTTPPortName HTTPPort]; c_Env := [];
  c_VolumeMounts := []; c_LivenessProbe := None; c_ReadinessProbe := None |}.

(** A duration of at least a nanosecond. *)
Definition opt_duration (flag : string) (d : option Z) : list string :=
  match d with
  | Some d => if (d =? 0)%Z then [] else [flag +:+ time_Duration_String d]
  | None => []
  end.

Definition gc_args (gc : BlockGC) (storageConfig : string) : list string :=
  ["--objstore.config=" +:+ storageConfig]
  ++ opt_duration "--gc.interval=" (gc_GCInterval gc) ++ opt_duration "--gc.cleanup-timeout=" (gc_CleanupTimeout gc)
  ++ opt_arg "--tenant.default-id=" (gc_DefaultTenantId gc) ++ opt_arg "--tenant.label-name=" (gc_TenantLabelName gc).

Definition fresh_gc (gc : BlockGC) : Container := {|
  c_Name := gcContainerName; c_Image := gc_Image gc; c_ImagePullPolicy := gc_ImagePullPolicy gc; c_Command := [];
  c_Args := []; c_Resources := emptyResources; c_Ports := []; c_Env := []; c_VolumeMounts := [];
  c_LivenessProbe := None; c_ReadinessProbe := None |}.

(** The collector as it is configured: the image of a container that is there
    already stays. *)
Definition gc_container (gc : BlockGC) (mounts : list VolumeMount) (storageConfig : string) (c : Container)
    : Container := {|
  c_Name := c_Name c; c_Image := c_Image c; c_ImagePullPolicy := c_ImagePullPolicy c;
  c_Command := c_Command c; c_Args := gc_args gc storageConfig; c_Resources := gc_Resources gc;
  c_Ports := c_Ports c; c_Env := c_Env c; c_VolumeMounts := mounts;
  c_LivenessProbe := c_LivenessProbe c; c_ReadinessProbe := c_ReadinessProbe c |}.

(** The last container named web is edited where it is, or one is appended. *)
Definition put_web (bm : BlockManagerSpec) (mounts : list VolumeMount) (storageConfig : string)
    (containers : list Container) : list Container :=
  match main_container webContainerName containers with
  | Some i => alter (web_container bm mounts storageConfig) i containers
  | None => containers ++ [web_container bm mounts storageConfig fresh_web]
  end.

(** The first container named gc is edited or, when the collector is disabled,
    removed; one is appended when there is none. *)
Definition put_gc (bm : BlockManagerSpec) (mounts : list VolumeMount) (storageConfig : string)
    (containers : list Container) : list Container :=
  match list_find (λ c, c_Name c = gcContainerName) containers, isGCEnabled bm with
  | Some (i, _), Some gc => alter (gc_container gc mounts storageConfig) i containers
  | Some (i, _), None => delete i containers
  | None, Some gc => containers ++ [gc_container gc mounts storageConfig (fresh_gc gc)]
  | None, None => containers
  end.

Definition storage_pod (bm : BlockManagerSpec) (volumes : list Volume) (containers : list Container) (p : PodSpec)
    : PodSpec :=
  let common := bm_Common bm in {|
  ps_NodeSelector := NodeSelector common; ps_Tolerations := Tolerations common; ps_Affinity := Affinity common;
  ps_SecurityContext := SecurityContext common;
  ps_ImagePullSecrets := match ImagePullSecrets common with [] => ps_ImagePullSecrets p | l => l end;
  ps_ServiceAccountName := bm_ServiceAccountName bm;
  ps_TerminationGracePeriodSeconds := ps_TerminationGracePeriodSeconds p; ps_Volumes := volumes;
  ps_InitContainers := ps_InitContainers p; ps_Containers := containers |}.

(** What is written over the deployment that is there. *)
Definition storage_template (bm : BlockManagerSpec) (volumes : list Volume) (containers : list Container)
    (d : Deployment) : Deployment :=
  let t := dep_Template d in {|
  dep_Meta := dep_Meta d;
  dep_Replicas := match dep_Replicas d with None | Some 0%Z => Replicas (bm_Common bm) | n => n end;
  dep_Selector := storage_labels;
  dep_Template := {| pt_Labels := storage_labels; pt_Annotations := pt_Annotations t;
                     pt_Spec := storage_pod bm volumes containers (pt_Spec t) |} |}.

Definition storage_deployment : ResourceFn W :=
  let fresh := empty_deployment (storage_meta (storage_name [])) in
  match block_manager with
  | None => mret (Some (ODeployment fresh, OperationDelete))
  | Some bm =>
      d ← get_or fresh (dep_Meta fresh);
      vols ← VolumesAndVolumeMountsForStorage (om_Namespace (stg_Meta s) +:+ "." +:+ om_Name (stg_Meta s));
      storageConfig ← GetStorageConfig storage_key;
      let containers := put_gc bm vols.2 storageConfig
        (put_web bm vols.2 storageConfig (ps_Containers (pt_Spec (dep_Template d)))) in
      containers ← patch_containers (Containers (bm_Common bm)) containers;
      owned_by (OStorage s) (ODeployment (storage_template bm vols.1 containers d))
  end.

(** ** service.go *)

Definition storage_service : ResourceFn W :=
  let fresh := empty_service (storage_meta (storage_name [ServiceNameSuffix])) in
  match block_manager with
  | None => mret (Some (OCoreService fresh, OperationDelete))
  | Some bm =>
      svc ← get_or fresh (svc_Meta fresh);
      owned_by (OStorage s) (OCoreService (expose storage_labels HTTPPort (bm_NodePort bm) svc))
  end.

(** The functions after the first take the storage as it was read: of the
    owner, a reference has the name and the identifier. *)
Definition storage_Reconcile : M W unit :=
  ReconcileResources [updateHashAnnotation; storage_deployment; storage_service].
End storage.

(** ** pkg/controllers/storage_controller.go *)

Section controller.
Context {W : Type} `{!Kube W} `{!K8sLib} `{!MapRange} `{!BaseLib} `{!WorkLib}.

Definition StorageReconciler_Reconcile (req : NamespacedName) : M W unit :=
  r ← attempt (Get (A:=Storage) req);
  match r with
  | inl err => if apierrors_IsNotFound err then mret tt else fail err
  | inr instance => storage_Reconcile instance
  end.

(** Does an S3 storage refer to a secret of this name? Its two keys are
    dereferenced without a test. *)
Definition refers_to (name : string) (s3 : S3) : Outcome bool :=
  let named ref := match ref with Some r => String.eqb (sks_Name r) name | None => false end in
  let tls := h_TLSConfig (s3_HTTPConfig s3) in
  match s3_AccessKey s3 with
  | None => Panic "nil pointer dereference"
  | Some access =>
      if String.eqb (sks_Name access) name then Ok true
      else match s3_SecretKey s3 with
           | None => Panic "nil pointer dereference"
           | Some secret => Ok (String.eqb (sks_Name secret) name || named (tls_CA tls) || named (tls_Key tls)
                                || named (tls_Cert tls))
           end
  end.

Definition storage_request (name : string) (reqs : list NamespacedName) (s : Storage) : M W (list NamespacedName) :=
  match sto_S3 (stg_Spec s) with
  | None => mret reqs
  | Some s3 =>
      hit ← lift_outcome (refers_to name s3);
      mret (if hit : bool
            then reqs ++ [{| nn_Namespace := om_Namespace (stg_Meta s); nn_Name := om_Name (stg_Meta s) |}] else reqs)
  end.

Definition mapToStoragebySecretRefFunc (o : Object) : M W (list NamespacedName) :=
  items ← or_nil (List (A:=Storage) (InNamespace (obj_Namespace o)));
  fold_each (storage_request (obj_Name o)) [] items.
End controller.
