(* ===== verification/BlockManagerFacts.v ===== *)
(** What the deployment of the block manager guarantees: its two containers are
    what the specification says, and the others are left alone. *)
From stdpp Require Import base gmap strings list pretty sorting.
From Stdlib Require Import Ascii String.
From S2P Require Import Prelude GoStd K8s Api Objects Client Base Workload WorkloadFacts Tenant GoNet BlockManager.
Open Scope nat_scope.

(** ** Containers by name *)

Definition of_name (n : string) (l : list Container) : list Container := filter (λ c, c_Name c = n) l.

Lemma of_name_app n l k : of_name n (l ++ k) = of_name n l ++ of_name n k.
Proof. apply filter_app. Qed.

Lemma of_name_none n l : n ∉ c_Name <$> l → of_name n l = [].
Proof.
  intros Hn. apply elem_of_nil_inv. intros c [<- Hc]%list_elem_of_filter. apply Hn, list_elem_of_fmap. by exists c.
Qed.

Lemma of_name_one n c : of_name n [c] = if decide (c_Name c = n) then [c] else [].
Proof. unfold of_name. by rewrite filter_cons. Qed.

Lemma split_named n l :
  NoDup (c_Name <$> l) →
  n ∉ c_Name <$> l
  ∨ ∃ l1 c l2, l = l1 ++ c :: l2 ∧ c_Name c = n ∧ n ∉ c_Name <$> l1 ∧ n ∉ c_Name <$> l2.
Proof.
  intros Hnd. destruct (decide (n ∈ c_Name <$> l)) as [(c & -> & Hc)%list_elem_of_fmap|]; [|by left]. right.
  apply list_elem_of_split in Hc as (l1 & l2 & ->). exists l1, c, l2.
  rewrite fmap_app, fmap_cons in Hnd. apply NoDup_app in Hnd as (_ & Hd & [Hc2 _]%NoDup_cons).
  do 2 (split; [done|]). split; [|done]. intros H1. apply (Hd _ H1). by left.
Qed.

Lemma imap_pair_last n (l1 l2 : list Container) c k :
  c_Name c = n → n ∉ c_Name <$> l2 →
  last (filter (λ ic : nat * Container, c_Name ic.2 = n) (imap (λ i x, (k + i, x)) (l1 ++ c :: l2)))
  = Some (k + length l1, c).
Proof.
  intros Hc Hl2. rewrite imap_app, filter_app. simpl. rewrite filter_cons_True by done.
  assert (Hnil : filter (λ ic : nat * Container, c_Name ic.2 = n)
                   (imap ((λ i x, (k + (length l1 + i), x)) ∘ S) l2) = []).
  { apply elem_of_nil_inv. intros [i x] [Hx Hin]%list_elem_of_filter. simpl in Hx.
    apply elem_of_lookup_imap in Hin as (j & y & [= -> ->] & Hy). apply Hl2. rewrite <-Hx.
    apply list_elem_of_fmap. exists y. split; [done|]. by eapply list_elem_of_lookup_2. }
  unfold compose in *. rewrite Hnil, last_app. simpl. f_equal. f_equal. lia.
Qed.

Lemma main_container_at n l1 l2 c :
  c_Name c = n → n ∉ c_Name <$> l2 → main_container n (l1 ++ c :: l2) = Some (length l1).
Proof.
  intros Hc Hl2. unfold main_container. change (@pair nat Container) with (λ i (x : Container), (0 + i, x)).
  by rewrite imap_pair_last.
Qed.

Lemma main_container_none n l : n ∉ c_Name <$> l → main_container n l = None.
Proof.
  intros Hn. unfold main_container.
  replace (filter _ _) with (@nil (nat * Container)); [done|]. symmetry. apply elem_of_nil_inv.
  intros [i x] [Hx Hin]%list_elem_of_filter. simpl in Hx. apply elem_of_lookup_imap in Hin as (j & y & [= -> ->] & Hy).
  apply Hn. rewrite <-Hx. apply list_elem_of_fmap. exists y. split; [done|]. by eapply list_elem_of_lookup_2.
Qed.

Lemma list_find_at n l1 l2 c :
  c_Name c = n → n ∉ c_Name <$> l1 →
  list_find (λ c, c_Name c = n) (l1 ++ c :: l2) = Some (length l1, c).
Proof.
  intros Hc Hl1. apply list_find_Some. rewrite list_lookup_middle by done. split; [done|]. split; [done|].
  intros j y Hj Hlt Hy. rewrite lookup_app_l in Hj by done. apply Hl1. rewrite <-Hy.
  apply list_elem_of_fmap. exists y. split; [done|]. by eapply list_elem_of_lookup_2.
Qed.

Lemma list_find_absent n l : n ∉ c_Name <$> l → list_find (λ c, c_Name c = n) l = None.
Proof.
  intros Hn. apply list_find_None, list.Forall_forall. intros c Hc Hx. apply Hn. rewrite <-Hx.
  apply list_elem_of_fmap. by exists c.
Qed.

Lemma alter_middle {A} (f : A → A) l1 c l2 : alter f (length l1) (l1 ++ c :: l2) = l1 ++ f c :: l2.
Proof. induction l1 as [|x l1 IH]; [done|]. cbn. f_equal. exact IH. Qed.

(** What editing a container of one name does to the containers of each name. *)
Definition replaces (n : string) (new : option Container → list Container) (f : list Container → list Container) : Prop :=
  ∀ l, NoDup (c_Name <$> l) →
    of_name n (f l) = new (head (of_name n l))
    ∧ (∀ m, m ≠ n → of_name m (f l) = of_name m l)
    ∧ NoDup (c_Name <$> f l).

Lemma replaces_intro n new f :
  (∀ o, (∀ c, o = Some c → c_Name c = n) → (c_Name <$> new o) = [] ∨ (c_Name <$> new o) = [n]) →
  (∀ l, n ∉ c_Name <$> l → f l = l ++ new None) →
  (∀ l1 c l2, c_Name c = n → n ∉ c_Name <$> l1 → n ∉ c_Name <$> l2 → f (l1 ++ c :: l2) = l1 ++ new (Some c) ++ l2) →
  replaces n new f.
Proof.
  intros Hname Hnone Hsome l Hnd.
  assert (Hnew : ∀ o, (∀ c, o = Some c → c_Name c = n) → of_name n (new o) = new o).
  { intros o Ho. destruct (Hname o Ho) as [E|E]; destruct (new o) as [|c [|d k]]; try done.
    injection E as E. by rewrite of_name_one, decide_True. }
  assert (Hother : ∀ m o, (∀ c, o = Some c → c_Name c = n) → m ≠ n → of_name m (new o) = []).
  { intros m o Ho Hm. apply of_name_none. destruct (Hname o Ho) as [-> | ->]; set_solver. }
  destruct (split_named n l Hnd) as [Hn|(l1 & c & l2 & -> & Hc & H1 & H2)].
  - rewrite (Hnone l Hn), (of_name_none n l Hn). split; [|split].
    + by rewrite of_name_app, (of_name_none n l Hn), Hnew.
    + intros m Hm. by rewrite of_name_app, Hother, app_nil_r.
    + rewrite fmap_app. destruct (Hname None) as [-> | ->]; [done|by rewrite app_nil_r|].
      apply NoDup_app. split; [done|]. split; [|apply NoDup_singleton]. set_solver.
  - assert (Ho : ∀ c', Some c = Some c' → c_Name c' = n) by (intros c' [= <-]; done).
    rewrite Hsome by done. change (c :: l2) with ([c] ++ l2) in *.
    rewrite !of_name_app, (of_name_none n l1), (of_name_none n l2), of_name_one, decide_True, (Hnew (Some c)) by done.
    simpl. rewrite app_nil_r. split; [done|]. split.
    + intros m Hm. rewrite !of_name_app, Hother by done.
      change (c :: l2) with ([c] ++ l2). rewrite of_name_app, of_name_one, decide_False by congruence. done.
    + rewrite !fmap_app in *. simpl in Hnd. rewrite Hc in Hnd.
      destruct (Hname (Some c) Ho) as [-> | ->]; [|done]. simpl. eapply sublist_NoDup; [exact Hnd|].
      apply sublist_app; [done|]. by apply sublist_cons.
Qed.

Lemma replaces_compose n m new new' f g l :
  n ≠ m → replaces n new f → replaces m new' g → NoDup (c_Name <$> l) →
  of_name n (g (f l)) = new (head (of_name n l)) ∧ of_name m (g (f l)) = new' (head (of_name m l))
  ∧ (∀ k, k ≠ n → k ≠ m → of_name k (g (f l)) = of_name k l) ∧ NoDup (c_Name <$> g (f l)).
Proof.
  intros Hnm Hf Hg Hnd. destruct (Hf l Hnd) as (F1 & F2 & F3). destruct (Hg (f l) F3) as (G1 & G2 & G3).
  split; [by rewrite (G2 n)|]. split; [by rewrite G1, (F2 m)|]. split; [|done]. intros k Hk Hk'. by rewrite G2, F2.
Qed.

(** ** The block manager *)

Section block_manager.
Context {HM : MapRange} {HB : BaseLib} {HW : WorkLib}.
Context (bm : BlockManagerSpec) (mounts : list VolumeMount) (config : string).

Definition edited (containers : list Container) : list Container :=
  put_gc bm mounts config (put_web bm mounts config containers).

Definition new_web (c : option Container) : list Container :=
  [web_container bm mounts config (default fresh_web c)].
Definition new_gc (c : option Container) : list Container :=
  match isGCEnabled bm with
  | Some gc => [gc_container gc mounts config (default (fresh_gc gc) c)]
  | None => []
  end.

Lemma put_web_replaces : replaces webContainerName new_web (put_web bm mounts config).
Proof.
  apply replaces_intro.
  - intros [c|] Hc; right; simpl; [by rewrite (Hc c)|done].
  - intros l Hn. unfold put_web. by rewrite main_container_none.
  - intros l1 c l2 Hc H1 H2. unfold put_web. rewrite main_container_at by done. apply alter_middle.
Qed.

Lemma put_gc_replaces : replaces gcContainerName new_gc (put_gc bm mounts config).
Proof.
  apply replaces_intro.
  - intros o Ho. unfold new_gc. destruct (isGCEnabled bm) as [gc|]; [right|by left].
    destruct o as [c|]; simpl; [by rewrite (Ho c)|done].
  - intros l Hn. unfold put_gc, new_gc. rewrite list_find_absent by done.
    destruct (isGCEnabled bm); [done|by rewrite app_nil_r].
  - intros l1 c l2 Hc H1 H2. unfold put_gc, new_gc. rewrite list_find_at by done.
    destruct (isGCEnabled bm); [apply alter_middle|by rewrite delete_middle].
Qed.

(** The containers of the block manager, over any deployment it finds: the web
    container is the specification's, keeping the probes and the ports it has;
    there is a collector exactly when it is enabled, with the specification's
    settings but, when one is already there, the image it has; the containers
    that others added are untouched, and no name is taken twice. *)
Theorem block_manager_containers containers :
  NoDup (c_Name <$> containers) →
  of_name webContainerName (edited containers) = new_web (head (of_name webContainerName containers))
  ∧ of_name gcContainerName (edited containers) = new_gc (head (of_name gcContainerName containers))
  ∧ (∀ n, n ≠ webContainerName → n ≠ gcContainerName → of_name n (edited containers) = of_name n containers)
  ∧ NoDup (c_Name <$> edited containers).
Proof. apply replaces_compose; [done|apply put_web_replaces|apply put_gc_replaces]. Qed.

(** A collector that is there keeps its image. *)
Lemma collector_image_kept containers gc old :
  NoDup (c_Name <$> containers) → isGCEnabled bm = Some gc → of_name gcContainerName containers = [old] →
  c_Image <$> of_name gcContainerName (edited containers) = [c_Image old].
Proof.
  intros Hnd Hgc Hold.
  assert (Hne : webContainerName ≠ gcContainerName) by done.
  destruct (replaces_compose _ _ _ _ _ _ containers Hne put_web_replaces put_gc_replaces Hnd) as (_ & H & _).
  unfold edited. rewrite H, Hold.
  unfold new_gc. by rewrite Hgc.
Qed.
End block_manager.
