(* ===== verification/RulerWorkload.v ===== *)
(** [pkg/controllers/resources/ruler/statefulset.go], the rest of [ruler.go] and
    [pkg/controllers/ruler_controller.go]: the stateful set of each shard of a
    ruler, with the proxy that writes its samples through the gateway and the
    sidecar that reloads its rules, and the controller's map functions. *)
From stdpp Require Import base gmap strings list pretty sorting.
From Stdlib Require Import Ascii String.
From S2P Require Import Prelude GoStd K8s Api Objects Client Base Workload Web Tenant Ingester GoNet Router Query QueryFrontend GatewayWorkload Ruler.

(** [clientconfig.HTTPConfig], as the source fills it. *)
Record HTTPConfig := {
  hq_Scheme : string; hq_StaticAddresses : list string; hq_PathPrefix : string;
  hq_InsecureSkipVerify : bool; hq_BasicAuth : string * string;
}.

(** [config] of statefulset.go: the configuration of cortex-tenant. *)
Record CortexTenant := {
  ct_Listen : string; ct_ListenPprof : string; ct_ListenMetricsAddress : string; ct_MetricsIncludeTenant : bool;
  ct_Target : string; ct_EnableIPv6 : bool; ct_LogLevel : string; ct_Timeout : Z; ct_TimeoutShutdown : Z;
  ct_Concurrency : Z; ct_Metadata : bool; ct_LogResponseErrors : bool; ct_MaxConnDuration : Z;
  ct_MaxConnsPerHost : Z; ct_InsecureSkipVerify : bool; ct_EgressUsername : string; ct_EgressPassword : string;
  ct_TenantLabel : string; ct_TenantLabelList : list string; ct_TenantPrefix : string;
  ct_TenantLabelRemove : bool; ct_TenantHeader : string; ct_TenantDefault : string; ct_TenantAcceptAll : bool;
}.

(** The options the source gives [promoperator.CreateConfigReloader]. *)
Record ReloaderOptions := {
  ro_Name : string; ro_Scheme : string; ro_Host : string; ro_Path : string; ro_ListenLocal : bool;
  ro_LocalHost : string; ro_LogFormat : string; ro_LogLevel : string; ro_WatchedDirectories : list string;
  ro_VolumeMounts : list VolumeMount; ro_Shard : Z;
}.

Class RulerLib := {
  ruler_rules :: RuleLib;
  CreateConfigReloader : ReloaderOptions → Container;
  (* yaml.Marshal of the query configurations, of the remote-write section with
     the default configuration and this URL, and of a cortex-tenant configuration *)
  yaml_Marshal_http_configs : list HTTPConfig → GoError + string;
  yaml_Marshal_remote_write : URL → GoError + string;
  yaml_Marshal_cortex : CortexTenant → GoError + string;
  (* mergo.Merge(&ruler.Spec, template) *)
  mergo_Merge_RulerSpec : RulerSpec → RulerSpec → GoError + RulerSpec;
}.

Definition ruler_configDir : string := "/etc/whizard".
Definition rulesDir : string := ruler_configDir +:+ "/rules".

Section ruler.
Context {W : Type} `{!Kube W} `{!K8sLib} `{!MapRange} `{!BaseLib} `{!WorkLib} `{!RulerLib}.
Variable service : Service.       (* r.Service *)
Variable r : Ruler.               (* r.ruler *)

Definition ruler_repeatableArgs : list string :=
  ["--query"; "--query.sd-files"; "--rule-file"; "--alertmanagers.url"; "--alert.label-drop"].
Definition ruler_unsupportedArgs : list string := ["--receive.local-endpoint"; "--http-address"; "--grpc-address"].

(** ** Secrets *)

(** [mountSecret]: the volume, the mount, and the path of the file. *)
Definition mountSecret (secretSelector : SecretKeySelector) (volumeName : string) : Volume * VolumeMount * string :=
  let mountpath := ruler_configDir +:+ "/" +:+ volumeName in
  ({| vol_Name := volumeName;
      vol_Source := VSSecret {| svs_SecretName := sks_Name secretSelector; svs_DefaultMode := None;
        svs_Items := [{| kp_Key := sks_Key secretSelector; kp_Path := sks_Key secretSelector |}] |} |},
   {| vm_Name := volumeName; vm_ReadOnly := false; vm_MountPath := mountpath; vm_SubPath := "" |},
   mountpath +:+ "/" +:+ sks_Key secretSelector).

(** The built-in user of the gateway and its password in clear text. *)
Definition getBuiltInUser (gatewayInstance : Gateway) : M W (string * string) :=
  SetService (gw_Meta gatewayInstance) ;;
  let secret key := Some {| sks_Name := built_in_user gatewayInstance; sks_Key := key |} in
  username ← GetValueFromSecret (secret "username") (om_Namespace (gw_Meta gatewayInstance));
  password ← GetValueFromSecret (secret "cpassword") (om_Namespace (gw_Meta gatewayInstance));
  mret (username, password).

Definition has_users (webConfig : option WebConfig) : bool :=
  match webConfig with
  | Some wc => match wc_BasicAuthUsers wc with [] => false | _ => true end
  | None => false
  end.

(** The built-in user, when the gateway asks for one. *)
Definition gateway_user (gatewayInstance : Gateway) : M W (string * string) :=
  if has_users (gsp_WebConfig (gw_Spec gatewayInstance)) then getBuiltInUser gatewayInstance else mret ("", "").

(** The gateway of the ruler's service, which must be the only one, and its
    address. *)
Definition ruler_gateway : M W (Gateway * string) :=
  items ← List (A:=Gateway) (MatchingLabels (ManagedLabelBySameService (rl_Meta r)));
  match items with
  | [gatewayInstance] =>
      svc ← SetService (gw_Meta gatewayInstance);
      mret (gatewayInstance,
            if server_tls (gsp_WebConfig (gw_Spec gatewayInstance)) then gateway_HttpsAddr svc gatewayInstance
            else gateway_HttpAddr svc gatewayInstance)
  | _ => fail (EMsg "the number of gateway is not 1")
  end.

(** ** Querying and writing through the gateway *)

Definition query_config (gatewayInstance : Gateway) (gatewayEndpoint : string) : M W HTTPConfig :=
  match url_Parse gatewayEndpoint with
  | inl err => fail err
  | inr url =>
      user ← gateway_user gatewayInstance;
      mret {| hq_Scheme := u_Scheme url; hq_StaticAddresses := [u_Host url]; hq_PathPrefix := rls_Tenant (rl_Spec r);
              hq_InsecureSkipVerify := server_tls (gsp_WebConfig (gw_Spec gatewayInstance)); hq_BasicAuth := user |}
  end.

(** The volumes, the mounts and the arguments of the queries. The user is read
    into variables that shadow the outer ones, which stay empty: the block that
    would edit the password of the marshalled text is never entered. *)
Definition query_part (gatewayInstance : Gateway) (gatewayEndpoint : string)
    : M W (list Volume * list VolumeMount * list string) :=
  match rls_QueryConfig (rl_Spec r) with
  | Some ref =>
      let '(v, m, fullPath) := mountSecret ref "query-config" in
      mret ([v], [m], ["--query.config.file=" +:+ fullPath])
  | None =>
      cfg ← query_config gatewayInstance gatewayEndpoint;
      let buff := match yaml_Marshal_http_configs [cfg] with inr b => b | inl _ => "" end in
      mret ([], [], ["--query.config=" +:+ buff])
  end.

Definition write_proxy_config (user : string * string) (insecure : bool) (target : string) : CortexTenant := {|
  ct_Listen := "127.0.0.1:8081"; ct_ListenPprof := ""; ct_ListenMetricsAddress := "0.0.0.0:8082";
  ct_MetricsIncludeTenant := false; ct_Target := target; ct_EnableIPv6 := false; ct_LogLevel := "warn";
  ct_Timeout := 10 * second; ct_TimeoutShutdown := 0; ct_Concurrency := 512; ct_Metadata := false;
  ct_LogResponseErrors := false; ct_MaxConnDuration := 0; ct_MaxConnsPerHost := 64;
  ct_InsecureSkipVerify := insecure; ct_EgressUsername := user.1; ct_EgressPassword := user.2;
  ct_TenantLabel := sv_TenantLabelName (sv_Spec service); ct_TenantLabelList := []; ct_TenantPrefix := "";
  ct_TenantLabelRemove := true; ct_TenantHeader := sv_TenantHeader (sv_Spec service);
  ct_TenantDefault := sv_DefaultTenantId (sv_Spec service); ct_TenantAcceptAll := false |}.

Definition sidecar (name : string) (spec : SidecarSpec) (args : list string) : Container := {|
  c_Name := name; c_Image := sc_Image spec; c_ImagePullPolicy := ""; c_Command := []; c_Args := args;
  c_Resources := sc_Resources spec; c_Ports := []; c_Env := []; c_VolumeMounts := [];
  c_LivenessProbe := None; c_ReadinessProbe := None |}.

Definition addWriteProxyContainer (gatewayInstance : Gateway) (gatewayEndpoint : string) : M W Container :=
  match url_Parse (gatewayEndpoint +:+ "/api/v1/receive") with
  | inl err => fail err
  | inr writeUrl =>
      user ← gateway_user gatewayInstance;
      cfgContent ← lift_sum (yaml_Marshal_cortex
        (write_proxy_config user (server_tls (gsp_WebConfig (gw_Spec gatewayInstance))) (url_String writeUrl)));
      mret (sidecar "write-proxy" (rls_RulerWriteProxy (rl_Spec r)) ["--config-content=" +:+ cfgContent])
  end.

(** The same for the remote writes, and the proxy they go through. *)
Definition write_part (gatewayInstance : Gateway) (gatewayEndpoint : string)
    : M W (list Volume * list VolumeMount * list string * list Container) :=
  match rls_RemoteWriteConfig (rl_Spec r) with
  | Some ref =>
      let '(v, m, fullPath) := mountSecret ref "remote-write-config" in
      mret ([v], [m], ["--remote-write.config-file=" +:+ fullPath], [])
  | None =>
      match url_Parse "http://127.0.0.1:8081/push" with
      | inl err => fail err
      | inr writeUrl =>
          buff ← lift_sum (yaml_Marshal_remote_write writeUrl);
          proxy ← addWriteProxyContainer gatewayInstance gatewayEndpoint;
          mret ([], [], ["--remote-write.config=" +:+ buff], [proxy])
      end
  end.

(** ** The pod of a shard *)

Definition rule_mount (name cmName : string) : Volume * VolumeMount :=
  (config_volume name cmName,
   {| vm_Name := name; vm_ReadOnly := false; vm_MountPath := filepath_Join [rulesDir; cmName]; vm_SubPath := "" |}).

(** The rule config maps of a shard are a set of names: their volumes come in
    the order of a map. *)
Definition rule_volumes (names : list string) : GoError + list (Volume * VolumeMount) :=
  fold_sum (λ acc (kv : string * unit),
      match DNS1123Label "configmap" kv.1 with
      | inl err => inl err
      | inr name => inr (acc ++ [rule_mount name kv.1])
      end) [] (map_range "shardsRuleConfigMapNames" (list_to_map ((λ n, (n, tt)) <$> names))).

Definition quoted (s : string) : string := dq s.

Definition ruler_base_args (queries writes : list string) : list string :=
  let spec := rl_Spec r in
  let common := rls_Common spec in
  ["rule"]
  ++ (match rls_AlertmanagersConfig spec with
      | Some _ => ["--alertmanagers.config=$(ALERTMANAGERS_CONFIG)"]
      | None => (λ url, "--alertmanagers.url=" +:+ url) <$> rls_AlertmanagersURL spec
      end)
  ++ opt_arg "--log.level=" (LogLevel common) ++ opt_arg "--log.format=" (LogFormat common)
  ++ ["--label=" +:+ RulerReplicaLabelName +:+ "=" +:+ quoted "$(POD_NAME)"]
  ++ ((λ kv : string * string, "--label=" +:+ kv.1 +:+ "=" +:+ quoted kv.2) <$> map_range "Labels" (rls_Labels spec))
  ++ ["--data-dir=" +:+ StorageDir; "--rule-file=" +:+ rulesDir +:+ "/*/*.yaml";
      "--alert.label-drop=" +:+ RulerReplicaLabelName]
  ++ ((λ lb, "--alert.label-drop=" +:+ lb) <$> rls_AlertDropLabels spec)
  ++ opt_arg "--eval-interval=" (rls_EvaluationInterval spec) ++ queries ++ writes.

Definition ruler_args (queries writes : list string) : list string :=
  sort_tail (add_flags ruler_unsupportedArgs ruler_repeatableArgs (ruler_base_args queries writes)
               (Flags (rls_Common (rl_Spec r)))).

Definition alertmanagers_env : list EnvVar :=
  match rls_AlertmanagersConfig (rl_Spec r) with
  | Some ref => [{| ev_Name := "ALERTMANAGERS_CONFIG"; ev_Value := EnvSecretRef ref |}]
  | None => []
  end.

Definition rule_container (mounts : list VolumeMount) (args : list string) : Container :=
  let common := rls_Common (rl_Spec r) in {|
  c_Name := "rule"; c_Image := Image common; c_ImagePullPolicy := ""; c_Command := []; c_Args := args;
  c_Resources := Resources common;
  c_Ports := [container_port GRPCPortName GRPCPort; container_port HTTPPortName HTTPPort];
  c_Env := [{| ev_Name := "POD_NAME"; ev_Value := EnvFieldRef "metadata.name" |}] ++ alertmanagers_env;
  c_VolumeMounts := mounts; c_LivenessProbe := Some DefaultLivenessProbe;
  c_ReadinessProbe := Some DefaultReadinessProbe |}.

Definition reload_container (rules : list VolumeMount) : Container :=
  let common := rls_Common (rl_Spec r) in
  let c := CreateConfigReloader {|
    ro_Name := "config-reloader"; ro_Scheme := "http"; ro_Host := "127.0.0.1:" +:+ itoa HTTPPort;
    ro_Path := "/-/reload"; ro_ListenLocal := true; ro_LocalHost := "127.0.0.1"; ro_LogFormat := LogFormat common;
    ro_LogLevel := LogLevel common; ro_WatchedDirectories := vm_MountPath <$> rules; ro_VolumeMounts := rules;
    ro_Shard := -1 |} in {|
  c_Name := c_Name c; c_Image := sc_Image (rls_PrometheusConfigReloader (rl_Spec r));
  c_ImagePullPolicy := c_ImagePullPolicy c; c_Command := c_Command c; c_Args := c_Args c;
  c_Resources := sc_Resources (rls_PrometheusConfigReloader (rl_Spec r)); c_Ports := c_Ports c; c_Env := c_Env c;
  c_VolumeMounts := c_VolumeMounts c; c_LivenessProbe := c_LivenessProbe c; c_ReadinessProbe := c_ReadinessProbe c |}.

Definition shard_labels (shardSn : nat) : StrMap := <[LabelNameRulerShardSn := itoa (Z.of_nat shardSn)]> (ruler_labels r).
Definition shard_name (shardSn : nat) : string := ruler_name_of r [itoa (Z.of_nat shardSn)].

Definition ruler_sts (shardSn : nat) (volumes : list Volume) : StatefulSet :=
  let common := rls_Common (rl_Spec r) in {|
  sts_Meta := ruler_meta r (shard_name shardSn); sts_Replicas := Replicas common; sts_Selector := shard_labels shardSn;
  sts_ServiceName := shard_service r shardSn;
  sts_Template := {| pt_Labels := shard_labels shardSn; pt_Annotations := ∅; pt_Spec := common_pod common volumes [] |};
  sts_VolumeClaimTemplates := []; sts_PVCRetentionPolicy := None |}.

(** The stateful set of a shard, from the names of its rule config maps. *)
Definition ruler_statefulSet (names : list (list string)) (shardSn : nat) : ResourceFn W :=
  cms ← of_option "index out of range" (names !! shardSn);
  rules ← lift_sum (rule_volumes cms);
  let '(sts, mounted, _) := AddTSDBVolume (ruler_sts shardSn rules.*1) (rule_container rules.*2 [])
                              (rls_DataVolume (rl_Spec r)) in
  gateway ← ruler_gateway;
  queries ← query_part gateway.1 gateway.2;
  writes ← write_part gateway.1 gateway.2;
  let '(qvols, qmounts, qargs) := queries in
  let '(wvols, wmounts, wargs, proxies) := writes in
  let container := rule_container (c_VolumeMounts mounted ++ qmounts ++ wmounts) (ruler_args qargs wargs) in
  containers ← patch_containers (Containers (rls_Common (rl_Spec r)))
    (proxies ++ [container; reload_container rules.*2]);
  owned_by (ORuler r) (OStatefulSet (put_containers containers (add_volumes (qvols ++ wvols) sts))).

(** The stateful sets of the shards, and the deletion of those of shards that
    are no more. *)
Definition is_shard_statefulset (name : string) : bool :=
  let namePrefix := ruler_name_of r [] +:+ "-" in
  has_prefix name namePrefix && sequenceNumber (trim_prefix name namePrefix).

Definition ruler_statefulSets (names : list (list string)) : M W (list (ResourceFn W)) :=
  n ← lift_outcome (shards_deref r);
  let shards := seq 0 (Z.to_nat n) in
  let targetNames := shard_name <$> shards in
  items ← attempt (List (A:=StatefulSet) (InNamespace (om_Namespace (rl_Meta r))));
  match items with
  | inl err => mret (errResourcesFunc err)
  | inr items =>
      mret ((ruler_statefulSet names <$> shards)
        ++ ((λ sts, mret (Some (OStatefulSet sts, OperationDelete))) <$>
             filter (λ sts, is_shard_statefulset (om_Name (sts_Meta sts)) = true
                            ∧ om_Name (sts_Meta sts) ∉ targetNames) items))
  end.

Definition ruler_Reconcile : M W unit :=
  cms ← ruleConfigMaps r;
  sts ← ruler_statefulSets cms.2;
  svcs ← ruler_services r;
  ReconcileResources (cms.1 ++ sts ++ svcs).

(** ** The addresses of the query proxy, which nothing calls *)

Definition ruler_members : ListOptions := MatchingLabels (ManagedLabelBySameService (rl_Meta r)).

Definition ruler_remoteWriteAddress : M W string :=
  items ← List (A:=Router) ruler_members;
  only_one service "router" (fail (EMsg ("no router defined for service " +:+ gateway_service_text service))) (λ o,
    svc ← SetService (rt_Meta o);
    mret (if server_tls (rsp_WebConfig (rt_Spec o)) then router_RemoteWriteHTTPSAddr svc o
          else router_RemoteWriteAddr svc o)) items.

Definition ruler_queryAddress : M W string :=
  frontends ← List (A:=QueryFrontend) ruler_members;
  only_one service "query frontend"
    (queries ← List (A:=Query) ruler_members;
     only_one service "query"
       (fail (EMsg ("no query frontend or query exist for service " +:+ gateway_service_text service))) (λ o,
       svc ← SetService (q_Meta o);
       mret (if server_tls (qsp_WebConfig (q_Spec o)) then query_HttpsAddr svc o else query_HttpAddr svc o)) queries)
    (λ q, svc ← SetService (qf_Meta q);
      mret (if server_tls (qfs_WebConfig (qf_Spec q)) then frontend_HttpsAddr svc q else frontend_HttpAddr svc q))
    frontends.
End ruler.

(** ** pkg/controllers/ruler_controller.go *)

Section controller.
Context {W : Type} `{!Kube W} `{!K8sLib} `{!MapRange} `{!BaseLib} `{!WorkLib} `{!RulerLib}.

Definition applyConfigurationFromRulerTemplateSpec (ruler : Ruler) (template : RulerTemplateSpec) : GoError + Ruler :=
  match mergo_Merge_RulerSpec (rl_Spec ruler) (rlt_Spec template) with
  | inl err => inl err
  | inr spec => inr {| rl_Type := rl_Type ruler; rl_Meta := rl_Meta ruler; rl_Spec := spec |}
  end.

Definition RulerReconciler_Reconcile (req : NamespacedName) : M W unit :=
  r ← attempt (Get (A:=Ruler) req);
  match r with
  | inl err => if apierrors_IsNotFound err then mret tt else fail err
  | inr instance =>
      if String.eqb (map_get (om_Labels (rl_Meta instance)) ServiceLabelKey) "" then mret tt
      else
        key ← of_option "nil pointer dereference" (ServiceNamespacedName (rl_Meta instance));
        service ← Get (A:=Service) key;
        instance ← lift_sum (applyConfigurationFromRulerTemplateSpec instance
                     (sv_RulerTemplateSpec (sv_Spec (ApplyDefaults service))));
        svc ← SetService (rl_Meta instance);
        ruler_Reconcile svc instance
  end.

Definition ruler_req (item : Ruler) : NamespacedName :=
  {| nn_Namespace := om_Namespace (rl_Meta item); nn_Name := om_Name (rl_Meta item) |}.

Definition ruler_mapFuncBySelectorFunc (fn : ObjectMeta → StrMap) (o : Object) : M W (list NamespacedName) :=
  items ← or_nil (List (A:=Ruler) (MatchingLabels (fn (obj_meta o))));
  mret (ruler_req <$> items).

Definition mapToRulerFunc (o : Object) : M W (list NamespacedName) :=
  items ← or_nil (List (A:=Ruler) (MatchingLabels (ManagedLabelByService (obj_meta o))));
  mret (ruler_req <$> items).

(** [metav1.LabelSelectorAsSelector] of a pointer: the nil selector matches
    nothing. *)
Definition rule_selector_of (sel : option LabelSelector) : Outcome (StrMap → bool) :=
  match sel with None => Ok (λ _, false) | Some sel => LabelSelectorAsSelector sel end.

(** The ruler with the template of its service, when it names one. *)
Definition templated_ruler (item : Ruler) : M W Ruler :=
  match ServiceNamespacedName (rl_Meta item) with
  | None => mret item
  | Some key =>
      service ← Get (A:=Service) key;
      lift_sum (applyConfigurationFromRulerTemplateSpec item (sv_RulerTemplateSpec (sv_Spec (ApplyDefaults service))))
  end.

(** Does a rule of a namespace concern this ruler? Every error is logged, and
    the ruler skipped. *)
Definition concerns (ns : Namespace) (item : Ruler) : M W bool :=
  if String.eqb (om_Namespace (rl_Meta item)) (om_Name (ns_Meta ns)) then mret true
  else
    item ← attempt (templated_ruler item);
    match item with
    | inl _ => mret false
    | inr item =>
        sel ← attempt (lift_outcome (rule_selector_of (rls_RuleNamespaceSelector (rl_Spec item))));
        mret (match sel with inl _ => false | inr matches => matches (om_Labels (ns_Meta ns)) end)
    end.

Definition mapRuleToRulerFunc (o : Object) : M W (list NamespacedName) :=
  ns ← attempt (Get (A:=Namespace) {| nn_Namespace := ""; nn_Name := obj_Namespace o |});
  match ns with
  | inl _ => mret []
  | inr ns =>
      items ← or_nil (List (A:=Ruler) everywhere);
      fold_each (λ reqs item, b ← concerns ns item; mret (if b : bool then reqs ++ [ruler_req item] else reqs)) [] items
  end.
End controller.

(** ** The query proxy, which nothing calls either *)

Section query_proxy.
Context {W : Type} `{!Kube W} `{!GatewayLib}.

(** The test compares the configuration with a value of another type and always
    differs: the flag is always there. *)
Definition addQueryProxyContainer (service : Service) (r : Ruler) (queryAddr remoteWriteAddr : string) : M W Container :=
  let insecure := match url_Parse queryAddr with inr url => HasScheme "https" url | inl _ => false end in
  auth ← (match sv_RemoteQuery (sv_Spec service) with
          | Some rq => basic_auth service (hc_BasicAuth (rq_HTTPClientConfig rq))
          | None => mret None
          end);
  let bearer := match sv_RemoteQuery (sv_Spec service) with
                | Some rq => hc_BearerToken (rq_HTTPClientConfig rq) | None => "" end in
  let cfg := {| pc_BasicAuth := auth; pc_BearerToken := bearer; pc_InsecureSkipVerify := insecure |} in
  url ← parse_or ("invalid router address: " +:+ remoteWriteAddr) remoteWriteAddr;
  mret (sidecar "query-proxy" (rls_RulerQueryProxy (rl_Spec r))
    (["--http-address=127.0.0.1:9080"; "--tenant.label-name=" +:+ sv_TenantLabelName (sv_Spec service);
      "--tenant.header=" +:+ sv_TenantHeader (sv_Spec service); "--query.config=" +:+ config_text cfg;
      "--query.address=" +:+ queryAddr; "--remote-write.address=" +:+ remoteWriteAddr]
     ++ tls_arg "--remote-write.config=" url)).
End query_proxy.
