(* ===== verification/RulerWorkloadFacts.v ===== *)
(** What the stateful sets of a ruler guarantee: whose they are, how they reach
    the gateway, and what the user's flags do to their arguments. *)
From stdpp Require Import base gmap strings list pretty sorting.
From Stdlib Require Import Ascii String.
From S2P Require Import Prelude GoStd K8s Api Objects Client Base Workload Web WorkloadFacts Tenant GoNet Ingester Router Query QueryFrontend QueryFacts GatewayWorkload Ruler RulerFacts RulerWorkload.
Open Scope nat_scope.

(** ** Sequence numbers *)

(** The number that digits go on from [a]. *)
Fixpoint digits_value (a : N) (s : string) : N :=
  match s with
  | EmptyString => a
  | String c s' => digits_value (10 * a + match digit_of c with Some d => Z.to_N d | None => 0 end) s'
  end.

Lemma digit_of_char c d : digit_of c = Some d → (0 ≤ d < 10)%Z ∧ pretty_N_char (Z.to_N d) = c.
Proof.
  destruct c as [[] [] [] [] [] [] [] []]; vm_compute; intros E; try discriminate; injection E as <-; by vm_compute.
Qed.

Lemma pretty_digits_value a s acc :
  (0 < a)%N → all_digits s = true → pretty_N_go (digits_value a s) acc = pretty_N_go a (s +:+ acc).
Proof.
  revert a. induction s as [|c s IH]; intros a Ha; [done|]. cbn [all_digits digits_value].
  destruct (digit_of c) as [d|] eqn:Ed; [|done]. intros Hs. apply digit_of_char in Ed as [Hd <-].
  assert (Hlt : (Z.to_N d < 10)%N) by lia.
  rewrite IH, pretty_N_go_step by (done || lia).
  rewrite <-(N.div_unique (10 * a + Z.to_N d) 10 a (Z.to_N d)) by lia.
  by rewrite <-(N.mod_unique (10 * a + Z.to_N d) 10 a (Z.to_N d)) by lia.
Qed.

Lemma sequence_itoa s : sequenceNumber s = true ↔ ∃ k, s = itoa (Z.of_nat k).
Proof.
  split; [|intros [k ->]; apply itoa_sequence]. destruct s as [|c s]; [done|]. cbn [sequenceNumber].
  intros [E%String.eqb_eq|[Hc Hs]%andb_true_iff]%orb_true_iff; [exists 0; by rewrite E|].
  destruct (digit_of c) as [d|] eqn:Ed; [|done]. apply negb_true_iff, Z.eqb_neq in Hc.
  apply digit_of_char in Ed as [Hd <-]. set (a := Z.to_N d). assert (Ha : (0 < a < 10)%N) by lia.
  assert (Hpos : (0 < digits_value a s)%N).
  { assert (∀ t b, (0 < b → 0 < digits_value b t)%N) as Hv; [|apply Hv; lia].
    induction t as [|e t IH]; intros b Hb; [done|]. simpl. apply IH. lia. }
  exists (N.to_nat (digits_value a s)). rewrite itoa_nat_go, N2Nat.id by lia.
  rewrite pretty_digits_value, pretty_N_go_step by (done || lia).
  rewrite N.div_small, N.mod_small, pretty_N_go_0, append_nil_r by lia. done.
Qed.

(** ** The stateful sets of a ruler *)

Lemma shard_name_eq r k :
  shard_name r k = "ruler-" +:+ (om_Name (rl_Meta r) +:+ String "-" (itoa (Z.of_nat k))).
Proof. unfold shard_name, ruler_name_of, QualifiedName. simpl. by rewrite append_assoc. Qed.

Lemma shard_name_prefix r k : shard_name r k = (ruler_name_of r [] +:+ "-") +:+ itoa (Z.of_nat k).
Proof. unfold shard_name, ruler_name_of, QualifiedName. by rewrite !append_assoc. Qed.

Lemma is_shard_statefulset_spec r name : is_shard_statefulset r name = true ↔ ∃ k, name = shard_name r k.
Proof.
  unfold is_shard_statefulset. rewrite andb_true_iff. split.
  - intros [(s & ->)%has_prefix_inv H]. rewrite trim_prefix_app in H. apply sequence_itoa in H as [k ->].
    exists k. by rewrite shard_name_prefix.
  - intros [k ->]. rewrite shard_name_prefix, has_prefix_app, trim_prefix_app. split; [done|]. apply itoa_sequence.
Qed.

Lemma shard_name_inj r r' k k' :
  shard_name r k = shard_name r' k' → om_Name (rl_Meta r) = om_Name (rl_Meta r') ∧ itoa (Z.of_nat k) = itoa (Z.of_nat k').
Proof.
  rewrite !shard_name_eq. intros E%append_inj_l.
  apply last_dash in E as [-> ->]; [done|apply digits_no_dash, itoa_digits|apply digits_no_dash, itoa_digits].
Qed.

Section stale.
Context {W : Type} {HK : Kube W} {HL : K8sLib} {HM : MapRange} {HB : BaseLib} {HW : WorkLib} {HR : RulerLib}.

(** C20: of the stateful sets of its namespace a ruler reconciles one per shard, and
    deletes exactly those named after a shard it no longer has; it never takes
    the stateful set of another ruler's shard for its own. *)
Theorem stale_statefulsets_deleted svc r names n items (w w1 w' : W) fs :
  shards_deref r = Ok n →
  List (A:=StatefulSet) (InNamespace (om_Namespace (rl_Meta r))) w = (Ok items, w1) →
  ruler_statefulSets svc r names w = (Ok fs, w') →
  ∃ stale, fs = (ruler_statefulSet svc r names <$> seq 0 (Z.to_nat n))
                ++ ((λ sts, mret (Some (OStatefulSet sts, OperationDelete))) <$> stale)
    ∧ (∀ sts, sts ∈ stale ↔ sts ∈ items ∧ ∃ k, Z.to_nat n ≤ k ∧ om_Name (sts_Meta sts) = shard_name r k)
    ∧ (∀ sts r' k, sts ∈ stale → om_Name (sts_Meta sts) = shard_name r' k → om_Name (rl_Meta r) = om_Name (rl_Meta r')).
Proof.
  intros Hn Hl. unfold ruler_statefulSets. rewrite Hn. intros (n' & w2 & Hd & H)%bind_Ok_inv. inversion Hd; subst n' w2.
  apply bind_Ok_inv in H as (res & w2 & Ha & H). unfold attempt in Ha. rewrite Hl in Ha. inversion Ha; subst.
  inversion H; subst. eexists. split; [done|].
  match goal with |- (∀ sts, sts ∈ ?l ↔ _) ∧ _ =>
    assert (Hs : ∀ sts, sts ∈ l ↔ sts ∈ items ∧ ∃ k, Z.to_nat n ≤ k ∧ om_Name (sts_Meta sts) = shard_name r k)
  end.
  { intros sts. rewrite list_elem_of_filter, is_shard_statefulset_spec. split.
    - intros [[[k Hk] Hnot] Hin]. split; [done|]. exists k. split; [|done].
      destruct (decide (Z.to_nat n ≤ k)); [done|]. exfalso. apply Hnot. rewrite Hk.
      apply list_elem_of_fmap. exists k. split; [done|]. apply elem_of_seq. lia.
    - intros [Hin (k & Hk & Hname)]. split; [|done]. split; [by exists k|]. rewrite Hname.
      intros (j & E & Hj)%list_elem_of_fmap. apply elem_of_seq in Hj.
      apply shard_name_inj in E as [_ E]. apply itoa_inj in E. lia. }
  split; [exact Hs|]. intros sts r' k Hin Hname. apply Hs in Hin as [_ (j & _ & Hj)].
  rewrite Hj in Hname. by apply shard_name_inj in Hname as [? _].
Qed.
End stale.

(** ** Labels *)

Section labels.
Context {W : Type} {HK : Kube W} {HL : K8sLib} {HM : MapRange} {HB : BaseLib} {HW : WorkLib} {HR : RulerLib}.

Definition replica_label : string := "--label=" +:+ RulerReplicaLabelName +:+ "=" +:+ quoted "$(POD_NAME)".
Definition label_arg (kv : string * string) : string := "--label=" +:+ kv.1 +:+ "=" +:+ quoted kv.2.

Lemma label_arg_name kv : GetArgName (label_arg kv) = "--label".
Proof. apply (GetArgName_app "--label"). done. Qed.

Lemma named_all n (l : list string) : Forall (λ a, GetArgName a = n) l → named n l = l.
Proof.
  intros H. unfold named. induction H as [|a l Ha _ IH]; [done|]. by rewrite filter_cons, decide_True, IH by done.
Qed.

Lemma base_labels r queries writes :
  named "--label" queries = [] → named "--label" writes = [] →
  named "--label" (ruler_base_args r queries writes)
  = replica_label :: (label_arg <$> map_range "Labels" (rls_Labels (rl_Spec r))).
Proof.
  intros Hq Hw. unfold ruler_base_args. cbv zeta. rewrite !named_app, Hq, Hw.
  rewrite (opt_arg_named _ "--log.level"), (opt_arg_named _ "--log.format"), (opt_arg_named _ "--eval-interval"),
    (map_named _ "--alert.label-drop") by done.
  replace (named "--label" (match rls_AlertmanagersConfig _ with Some _ => _ | None => _ end)) with (@nil string).
  2:{ destruct (rls_AlertmanagersConfig _); [done|]. symmetry. by apply (map_named _ "--alertmanagers.url"). }
  change (λ kv : string * string, _) with label_arg. rewrite (named_all "--label" (label_arg <$> _)).
  - cbn. by rewrite app_nil_r.
  - apply list.Forall_fmap, list.Forall_true, label_arg_name.
Qed.

Lemma query_part_args r g endpoint (w w' : W) vs ms args :
  query_part r g endpoint w = (Ok (vs, ms, args), w') → named "--label" args = [].
Proof.
  unfold query_part. destruct (rls_QueryConfig _) as [ref|].
  - cbv [mountSecret]. intros [= <- <- <- <-]. by apply (map_named "--label" "--query.config.file" [_]).
  - intros (cfg & w1 & _ & H)%bind_Ok_inv. cbv zeta in H. apply (f_equal fst) in H. simpl in H. injection H as <- <- <-.
    by apply (map_named "--label" "--query.config" [_]).
Qed.

Lemma write_part_args svc r g endpoint (w w' : W) vs ms args cs :
  write_part svc r g endpoint w = (Ok (vs, ms, args, cs), w') → named "--label" args = [].
Proof.
  unfold write_part. destruct (rls_RemoteWriteConfig _) as [ref|].
  - cbv [mountSecret]. intros [= <- <- <- <- <-]. by apply (map_named "--label" "--remote-write.config-file" [_]).
  - destruct (url_Parse _); [done|]. intros (b & w1 & _ & H)%bind_Ok_inv. apply bind_Ok_inv in H as (p & w2 & _ & H).
    apply (f_equal fst) in H. simpl in H. injection H as <- <- <- <-.
    by apply (map_named "--label" "--remote-write.config" [_]).
Qed.

(** What the last [--label] flag of the user leaves of labels. *)
Definition overwritten (flags labels : list string) : list string :=
  match last (named "--label" flags) with Some f => f :: tail labels | None => labels end.

Lemma ruler_args_labels r queries writes :
  named "--label" queries = [] → named "--label" writes = [] →
  named "--label" (ruler_args r queries writes)
  ≡ₚ overwritten (Flags (rls_Common (rl_Spec r)))
       (replica_label :: (label_arg <$> map_to_list (rls_Labels (rl_Spec r)))).
Proof.
  intros Hq Hw. unfold ruler_args. rewrite sort_tail_named, add_flags_named. unfold merged, overwritten.
  rewrite !decide_False by (apply (bool_decide_unpack _); done). rewrite base_labels by done.
  destruct (last _); simpl; by rewrite (map_range_perm "Labels").
Qed.

(** C40: the rules of a shard are evaluated under the replica label and the labels of
    the ruler, whatever the order of the map, unless the user gives a [--label]
    flag: thanos takes any number of them, but the last one is written here over
    the replica label, by which the rulers of a shard are told apart, and the
    others are lost. *)
Theorem rules_carry_the_labels svc r names sn (w w' : W) o op :
  Containers (rls_Common (rl_Spec r)) = "" →
  ruler_statefulSet svc r names sn w = (Ok (Some (o, op)), w') →
  ∃ sts c, o = OStatefulSet sts ∧ c ∈ ps_Containers (pt_Spec (sts_Template sts)) ∧ c_Name c = "rule"
    ∧ named "--label" (c_Args c)
      ≡ₚ match last (named "--label" (Flags (rls_Common (rl_Spec r)))) with
         | None => replica_label :: (label_arg <$> map_to_list (rls_Labels (rl_Spec r)))
         | Some flag => flag :: (label_arg <$> map_to_list (rls_Labels (rl_Spec r)))
         end.
Proof.
  intros Hc. unfold ruler_statefulSet. intros (cms & w1 & _ & H)%bind_Ok_inv.
  apply bind_Ok_inv in H as (rules & w2 & _ & H). destruct (AddTSDBVolume _ _ _) as [[sts mounted] b].
  apply bind_Ok_inv in H as (gw & w3 & _ & H). apply bind_Ok_inv in H as ([[qvols qmounts] qargs] & w4 & Hq & H).
  apply bind_Ok_inv in H as ([[[wvols wmounts] wargs] proxies] & w5 & Hw & H). rewrite Hc in H. cbv zeta in H.
  apply bind_Ok_inv in H as (cs & w6 & Hp & H). rewrite patch_none in Hp. inversion Hp; subst.
  apply owned_by_inv in H as (_ & _ & refs & ->). eexists _, _. split; [done|]. split.
  { simpl. apply elem_of_app. right. by left. }
  split; [done|]. apply query_part_args in Hq. apply write_part_args in Hw. cbn [c_Args rule_container].
  rewrite ruler_args_labels by done. unfold overwritten. by destruct (last _).
Qed.
End labels.
