(* ===== verification/Pods.v ===== *)
(** The typing of the pods: the deployments of the router, the query, the query
    frontend and the gateway are well formed. *)
From stdpp Require Import base gmap strings list pretty sorting.
From Stdlib Require Import Ascii String.
From S2P Require Import Prelude GoStd K8s Api Objects Client Base Workload Web WorkloadFacts Tenant GoNet Ingester Router Query QueryFrontend GatewayWorkload.
Open Scope nat_scope.

(** ** Volume names *)

Definition web_names : list string := ["web-config"; "tls-assets"].

(** Volumes next to those of a web configuration. *)
Lemma NoDup_with_web fixed secret wc :
  NoDup (fixed ++ web_names) → NoDup (fixed ++ (vol_Name <$> (web_volumes secret wc).1)).
Proof.
  intros Hn. eapply sublist_NoDup; [exact Hn|]. apply sublist_app; [done|]. apply web_volumes_names.
Qed.

(** A deployment whose selector is the labels of its pods, whose containers have
    distinct names and mount only volumes of the pod, and whose volumes have
    distinct names when the secrets do, and only then. *)
Definition typed (secrets : list string) (o : Object) : Prop :=
  ∃ d, let p := pt_Spec (dep_Template d) in o = ODeployment d
    ∧ dep_Selector d = pt_Labels (dep_Template d)
    ∧ NoDup (c_Name <$> ps_Containers p)
    ∧ (∀ c, c ∈ ps_Containers p → (vm_Name <$> c_VolumeMounts c) ⊆ vol_Name <$> ps_Volumes p)
    ∧ (NoDup (vol_Name <$> ps_Volumes p) ↔ NoDup secrets).

Lemma deployment_typed secrets meta replicas labels ann common volumes containers m :
  NoDup (c_Name <$> containers) → (NoDup (vol_Name <$> volumes) ↔ NoDup secrets) →
  Forall (λ c, (vm_Name <$> c_VolumeMounts c) ⊆ vol_Name <$> volumes) containers →
  typed secrets (obj_set_meta m (ODeployment {| dep_Meta := meta; dep_Replicas := replicas; dep_Selector := labels;
    dep_Template := {| pt_Labels := labels; pt_Annotations := ann;
                       pt_Spec := common_pod common volumes containers |} |})).
Proof.
  intros Hc Hv Hm. rewrite list.Forall_forall in Hm. eexists. cbv zeta. split; [reflexivity|]. by split_and!.
Qed.

(** Without secrets the names are distinct. *)
Lemma typed_no_secrets (l : list string) : NoDup l → NoDup l ↔ NoDup (@nil string).
Proof. split; [constructor|done]. Qed.

(** Names that begin with a prefix, distinct when the rest is. *)
Lemma NoDup_prefixed p (l : list string) : NoDup l → NoDup ((λ x, p +:+ x) <$> l).
Proof. apply NoDup_fmap_2. intros x y. apply append_inj_l. Qed.

Lemma NoDup_prefixed_inv p (l : list string) : NoDup ((λ x, p +:+ x) <$> l) → NoDup l.
Proof. apply NoDup_fmap_1. Qed.

(** The namespaces of names do not meet when no fixed name has the prefix. *)
Lemma NoDup_with_prefixed fixed p (l : list string) :
  NoDup fixed → forallb (λ f, negb (has_prefix f p)) fixed = true →
  NoDup (fixed ++ ((λ x, p +:+ x) <$> l)) ↔ NoDup l.
Proof.
  intros Hf Hp. split.
  - intros (_ & _ & H)%NoDup_app. by eapply NoDup_prefixed_inv.
  - intros Hl. apply NoDup_app. split; [done|]. split; [|by apply NoDup_prefixed].
    intros f Hin (x & -> & _)%list_elem_of_fmap. rewrite forallb_forall in Hp.
    apply list_elem_of_In, Hp in Hin. by rewrite has_prefix_app in Hin.
Qed.

Section pods.
Context {W : Type} {HK : Kube W} {HL : K8sLib} {HM : MapRange} {HB : BaseLib} {HW : WorkLib} {HE : WebLib}.
Context {HQ : QueryLib} {HF : FrontendLib} {HG : GatewayLib}.

(** The resources that create pods from nothing but the specification of their
    component, with the secrets whose names their volumes carry. The user's own
    containers are not described. *)
Inductive built : list string → ResourceFn W → Prop :=
  | built_router svc r : Containers (rsp_Common (rt_Spec r)) = "" → built [] (router_deployment svc r)
  | built_query svc q : Containers (qsp_Common (q_Spec q)) = "" →
      built (sks_Name <$> ca_secrets q) (query_deployment svc q)
  | built_frontend svc q : Containers (qfs_Common (qf_Spec q)) = "" → built [] (frontend_deployment svc q)
  | built_gateway svc g : Containers (gsp_Common (gw_Spec g)) = "" →
      built [] (d ← gateway_deployment svc g; mret d.1 : M W (option (Object * Operation))).

Lemma router_pods svc r (w w' : W) o op :
  Containers (rsp_Common (rt_Spec r)) = "" →
  router_deployment svc r w = (Ok (Some (o, op)), w') → typed [] o.
Proof.
  unfold router_deployment. intros Hc. cbv zeta. rewrite Hc.
  intros (ann & w1 & _ & H)%bind_Ok_inv. apply bind_Ok_inv in H as (cs & w2 & Hp & H).
  rewrite patch_none in Hp. inversion Hp; subst.
  apply owned_by_inv in H as (_ & _ & refs & ->). apply (deployment_typed [] _ _ _ _ (rsp_Common (rt_Spec r))).
  - apply NoDup_singleton.
  - apply typed_no_secrets, (NoDup_with_web ["hashrings-config"] _ (rsp_WebConfig (rt_Spec r))). by apply (bool_decide_unpack _).
  - apply Forall_singleton. unfold router_container, router_web_volumes. cbn [c_VolumeMounts].
    rewrite !fmap_app. pose proof (web_volumes_mounts (router_name r ["web-config"]) (rsp_WebConfig (rt_Spec r))) as E.
    unfold web_volumes in E. by rewrite E.
Qed.

Lemma query_pods svc q (w w' : W) o op :
  Containers (qsp_Common (q_Spec q)) = "" →
  query_deployment svc q w = (Ok (Some (o, op)), w') → typed (sks_Name <$> ca_secrets q) o.
Proof.
  unfold query_deployment. intros Hc (ann & w1 & _ & H)%bind_Ok_inv.
  apply bind_Ok_inv in H as (eps & w2 & _ & H). rewrite Hc in H.
  apply bind_Ok_inv in H as (cs & w3 & Hp & H). rewrite patch_none in Hp. inversion Hp; subst.
  apply owned_by_inv in H as (_ & _ & refs & ->). apply deployment_typed.
  - by apply (bool_decide_unpack _).
  - unfold query_volumes. rewrite !fmap_app, app_assoc, <-list_fmap_compose.
    rewrite (list_fmap_compose sks_Name (λ x, "secret-" +:+ x)). split.
    + intros (_ & _ & H)%NoDup_app. by eapply NoDup_prefixed_inv.
    + intros Hs. eapply sublist_NoDup.
      * apply (NoDup_with_prefixed (["proxy-config"; "stores-config"] ++ web_names) "secret-" (sks_Name <$> ca_secrets q));
          [by apply (bool_decide_unpack _)|done|exact Hs].
      * apply sublist_app; [|done]. apply sublist_app; [done|]. apply web_volumes_names.
  - unfold query_volumes. rewrite !fmap_app, <-list_fmap_compose.
    apply Forall_cons; split; [|apply Forall_singleton]; cbn [c_VolumeMounts query_container envoy_container];
      rewrite fmap_app.
    + rewrite web_volumes_mounts. set_solver.
    + rewrite <-list_fmap_compose. set_solver.
Qed.

Lemma frontend_pods svc q (w w' : W) o op :
  Containers (qfs_Common (qf_Spec q)) = "" →
  frontend_deployment svc q w = (Ok (Some (o, op)), w') → typed [] o.
Proof.
  unfold frontend_deployment. intros Hc (h & w1 & _ & H)%bind_Ok_inv.
  apply bind_Ok_inv in H as (addr & w2 & _ & H). apply bind_Ok_inv in H as (tr & w3 & _ & H).
  apply bind_Ok_inv in H as (ann & w4 & _ & H). rewrite Hc in H.
  apply bind_Ok_inv in H as (cs & w5 & Hp & H). rewrite patch_none in Hp. inversion Hp; subst.
  apply owned_by_inv in H as (_ & _ & refs & ->). apply deployment_typed.
  - apply NoDup_singleton.
  - apply typed_no_secrets. unfold frontend_volumes. rewrite fmap_app, (Permutation_app_comm (_ <$> _)).
    apply (NoDup_with_web ["cache-config"]). by apply (bool_decide_unpack _).
  - apply Forall_singleton. unfold frontend_volumes, frontend_container. cbn [c_VolumeMounts].
    rewrite !fmap_app, web_volumes_mounts. set_solver.
Qed.

Lemma gateway_pods svc g (w w' : W) o op wc :
  Containers (gsp_Common (gw_Spec g)) = "" →
  gateway_deployment svc g w = (Ok (Some (o, op), wc), w') → typed [] o.
Proof.
  unfold gateway_deployment. intros Hc (web & w1 & _ & H)%bind_Ok_inv.
  apply bind_Ok_inv in H as (args & w2 & _ & H). rewrite Hc in H.
  apply bind_Ok_inv in H as (cs & w5 & Hp & H). rewrite patch_none in Hp. inversion Hp; subst.
  apply bind_Ok_inv in H as (d & w6 & H & Hd). inversion Hd; subst.
  apply owned_by_inv in H as (_ & _ & refs & ->). apply deployment_typed.
  - apply NoDup_singleton.
  - apply typed_no_secrets. rewrite fmap_app. apply NoDup_with_web. unfold admission_volumes.
    destruct (gsp_EnabledTenantsAdmission (gw_Spec g)); by apply (bool_decide_unpack _).
  - apply Forall_singleton. unfold gateway_container. cbn [c_VolumeMounts].
    rewrite !fmap_app, web_volumes_mounts. unfold admission_volumes.
    by destruct (gsp_EnabledTenantsAdmission (gw_Spec g)).
Qed.

(** C28: the pods of the router, the query, the query frontend and the gateway,
    with or without a web configuration, TLS assets, admission control and
    proxied stores, but for the containers a user adds, are well typed: the
    selector of the deployment is the labels of its pods, no two containers share
    a name, every mount names a volume of the pod, and no two volumes share a
    name, except in the pods of a query that names a certificate secret for two of
    its stores: its volumes have distinct names if, and only if, these secrets
    do. *)
Theorem pods_well_formed (secrets : list string) (res : ResourceFn W) (w w' : W) o op :
  built secrets res → res w = (Ok (Some (o, op)), w') →
  ∃ d, let p := pt_Spec (dep_Template d) in o = ODeployment d
    ∧ dep_Selector d = pt_Labels (dep_Template d)
    ∧ NoDup (c_Name <$> ps_Containers p)
    ∧ (∀ c, c ∈ ps_Containers p → (vm_Name <$> c_VolumeMounts c) ⊆ vol_Name <$> ps_Volumes p)
    ∧ (NoDup (vol_Name <$> ps_Volumes p) ↔ NoDup secrets).
Proof.
  intros Hb H. change (typed secrets o).
  destruct Hb; [by eapply router_pods|by eapply query_pods|by eapply frontend_pods|].
  apply bind_Ok_inv in H as ([d wc] & w1 & H & Hd). inversion Hd; subst. by eapply gateway_pods.
Qed.
End pods.
