(* ===== verification/RequestFacts.v ===== *)
(** The requests of the reconciliations of a query, a query frontend, a gateway,
    a storage and a ruler, whatever the API server answers. *)
From stdpp Require Import base gmap strings list pretty sorting.
From Stdlib Require Import Ascii String.
From S2P Require Import Prelude GoStd K8s Api Objects Client Clients Base ClientFacts Workload Web WorkloadFacts Tenant GoNet Ingester Router Ruler Query QueryFrontend GatewayWorkload BlockManager RulerWorkload.
Open Scope nat_scope.

(** The requests of a component: it reads any object, lists some kinds, creates
    and updates objects of some kinds, and deletes the objects of [dels]. *)
Record Scope := { sc_Lists : list Kind; sc_Kinds : list Kind; sc_Dels : Object → Prop }.

Definition in_scope (s : Scope) (c : Call) : Prop :=
  match c with
  | CGet _ _ => True
  | CList k _ => k ∈ sc_Lists s
  | CCreate o | CUpdate o => obj_kind o ∈ sc_Kinds s
  | CStatusUpdate _ => False
  | CDelete o => sc_Dels s o ∨ (KStatefulSet ∈ sc_Kinds s ∧ ∃ sts, o = OStatefulSet sts)
  end.
Definition in_kinds (s : Scope) (k : Key) : Prop := k.1.1 ∈ sc_Kinds s.
#[export] Instance in_kinds_dec s k : Decision (in_kinds s k).
Proof. unfold in_kinds. apply _. Defined.

Lemma applies_scope s k c : in_kinds s k → applies k c → in_scope s c.
Proof.
  unfold in_kinds. intros Hk [Hc|(sts & <- & ->)]; [|right; by eauto].
  destruct c; simpl in *; try done; by subst.
Qed.

Section scope.
Context {W : Type} `{HK : Kube W} {HL : K8sLib} {HM : MapRange} {HB : BaseLib} (s : Scope).

(** The resources of a component stay in its scope when each only reads and
    yields objects of its kinds. *)
Definition stays (res : ResourceFn (Logged W)) : Prop := effects (in_scope s) res (yields (in_scope s) (in_kinds s)).

Lemma effects_ReconcileResources l :
  Forall stays l → effects (in_scope s) (ReconcileResources (W:=Logged W) l) (λ _, True).
Proof.
  intros Hl. apply effects_for_each. intros res Hres.
  apply (effects_reconcile_resource _ (in_kinds s)); [apply applies_scope|].
  rewrite list.Forall_forall in Hl. by apply Hl.
Qed.

Lemma stays_owned owner o : obj_kind o ∈ sc_Kinds s → stays (owned_by owner o).
Proof. intros Hk. by apply (effects_owned_by (in_scope s) (in_kinds s)). Qed.

Lemma stays_delete o : obj_kind o ∈ sc_Kinds s → sc_Dels s o → stays (mret (Some (o, OperationDelete))).
Proof. intros Hk Hd. apply effects_ret. intros o' op [= <- <-]. split; [done|]. intros _. by left. Qed.

Lemma stays_step {A} (m : M (Logged W) A) (f : A → M (Logged W) (option (Object * Operation))) :
  effects (in_scope s) m (λ _, True) → (∀ a, stays (f a)) → stays (mbind (M:=M (Logged W)) f m).
Proof. apply effects_step. Qed.

Lemma stays_web m ns wc owner :
  KSecret ∈ sc_Kinds s →
  (wc = None → sc_Dels s (OSecret {| sec_Meta := m; sec_Data := ∅; sec_StringData := ∅ |})) →
  ∀ {HE : WebLib}, stays (web_config_secret m ns wc (owned_by owner)).
Proof. intros Hk Hd HE. apply effects_web_config_secret; [done|done|]. intros E. left. by apply Hd. Qed.

Lemma effects_list {A} `{!Resource A} opts :
  r_kind ∈ sc_Lists s → effects (in_scope s) (List (W:=Logged W) (A:=A) opts) (λ _, True).
Proof. intros Hk. by apply effects_List. Qed.
End scope.

(** ** Queries and query frontends *)

Section query.
Context {W : Type} `{HK : Kube W} {HL : K8sLib} {HM : MapRange} {HB : BaseLib} {HW : WorkLib} {HE : WebLib}.
Context {HQ : QueryLib} {HF : FrontendLib}.

(** Of a query, the web configuration is deleted, when the specification has
    none. *)
Definition query_scope (svc : Service) (q : Query) : Scope := {|
  sc_Lists := [KIngester; KStore; KRuler]; sc_Kinds := [KConfigMap; KSecret; KDeployment; KCoreService];
  sc_Dels o := qsp_WebConfig (q_Spec q) = None
    ∧ obj_key o = (KSecret, om_Namespace (sv_Meta svc), "query-" +:+ om_Name (q_Meta q) +:+ "-web-config") |}.

Lemma query_web_stays svc q : stays (query_scope svc q) (query_webConfigSecret (W:=Logged W) svc q).
Proof. by apply stays_web; [decide_in|]. Qed.

Lemma effects_query_endpoints svc' svc q :
  effects (in_scope (query_scope svc' q)) (query_endpoints (W:=Logged W) svc) (λ _, True).
Proof.
  unfold query_endpoints, ingester_endpoints. apply effects_step.
  - apply effects_step; [apply effects_list; decide_in|]. intros items.
    apply effects_fold_each; [done|]. intros acc item _ _. reads.
  - intros eps. apply effects_step; [apply effects_list; decide_in|]. intros sts.
    apply effects_step; [apply effects_list; decide_in|]. intros rls. reads.
Qed.

Lemma effects_query_Reconcile svc q :
  effects (in_scope (query_scope svc q)) (query_Reconcile (W:=Logged W) svc q) (λ _, True).
Proof.
  apply effects_ReconcileResources. repeat (apply Forall_cons; split); [| | | | |done].
  - apply stays_step; [apply effects_lift_sum|]. intros stores. apply stays_owned. decide_in.
  - apply stays_step; [apply effects_lift_sum|]. intros stores. apply stays_step; [apply effects_lift_sum|]. intros out. apply stays_owned. decide_in.
  - apply query_web_stays.
  - apply stays_step; [eapply effects_web_annotations, query_web_stays|]. intros ann.
    apply stays_step; [apply effects_query_endpoints|]. intros eps.
    apply stays_step; [apply effects_patch_containers|]. intros cs. apply stays_owned. decide_in.
  - apply stays_owned. decide_in.
Qed.

Definition frontend_scope (svc : Service) (q : QueryFrontend) : Scope := {|
  sc_Lists := [KTenant; KQuery]; sc_Kinds := [KConfigMap; KSecret; KDeployment; KCoreService];
  sc_Dels o := qfs_WebConfig (qf_Spec q) = None
    ∧ obj_key o = (KSecret, om_Namespace (sv_Meta svc), "query-frontend-" +:+ om_Name (qf_Meta q) +:+ "-web-config") |}.

Lemma frontend_web_stays svc q : stays (frontend_scope svc q) (frontend_webConfigSecret (W:=Logged W) svc q).
Proof. by apply stays_web; [decide_in|]. Qed.

Lemma effects_frontend_Reconcile svc q :
  effects (in_scope (frontend_scope svc q)) (frontend_Reconcile (W:=Logged W) svc q) (λ _, True).
Proof.
  apply effects_ReconcileResources. repeat (apply Forall_cons; split); [| | | |done].
  - apply stays_step; [apply effects_lift_sum|]. intros data. apply stays_owned. decide_in.
  - apply frontend_web_stays.
  - apply stays_step.
    { unfold GetTenantHash. apply effects_step; [apply effects_list; decide_in|reads]. }
    intros h. apply stays_step.
    { unfold frontend_queryAddress. apply effects_step; [apply effects_list; decide_in|reads]. }
    intros addr. apply stays_step; [apply effects_lift_sum|]. intros tr.
    apply stays_step; [eapply effects_web_annotations, frontend_web_stays|]. intros ann.
    apply stays_step; [apply effects_patch_containers|]. intros cs. apply stays_owned. decide_in.
  - apply stays_owned. decide_in.
Qed.
End query.

(** ** Gateways *)

Section gateway.
Context {W : Type} `{HK : Kube W} {HL : K8sLib} {HM : MapRange} {HB : BaseLib} {HW : WorkLib} {HE : WebLib}.
Context {HG : GatewayLib}.

(** Of a gateway, also the configuration of the admitted tenants, when admission
    control is off. *)
Definition gateway_scope (svc : Service) (g : Gateway) : Scope := {|
  sc_Lists := [KTenant; KQueryFrontend; KQuery; KRouter]; sc_Kinds := [KDeployment; KCoreService; KConfigMap; KSecret];
  sc_Dels o :=
    (gsp_WebConfig (gw_Spec g) = None
     ∧ obj_key o = (KSecret, om_Namespace (sv_Meta svc), "gateway-" +:+ om_Name (gw_Meta g) +:+ "-web-config"))
    ∨ (gsp_EnabledTenantsAdmission (gw_Spec g) = false
       ∧ obj_key o = (KConfigMap, om_Namespace (sv_Meta svc),
                      "gateway-" +:+ om_Name (gw_Meta g) +:+ "-tenants-admission-config")) |}.

Section upstreams.
Variable sc : Scope.

Lemma effects_parse_or msg url : effects (in_scope sc) (parse_or (W:=Logged W) msg url) (λ _, True).
Proof. unfold parse_or. destruct (url_Parse url); reads. Qed.

Lemma effects_basic_auth svc ba : effects (in_scope sc) (basic_auth (W:=Logged W) svc ba) (λ _, True).
Proof. unfold basic_auth. destruct (decide _); reads. Qed.

Lemma effects_only_one {A} svc what none (address : A → M (Logged W) string) items :
  effects (in_scope sc) none (λ _, True) →
  (∀ a, effects (in_scope sc) (address a) (λ _, True)) →
  effects (in_scope sc) (only_one svc what none address items) (λ _, True).
Proof. intros Hn Ha. unfold only_one. destruct items as [|a [|b l]]; [done|by apply Ha|apply effects_fail]. Qed.

Lemma effects_query_upstream svc fa qa :
  effects (in_scope sc) (query_upstream_args (W:=Logged W) svc fa qa) (λ _, True).
Proof.
  pose proof effects_parse_or. pose proof effects_basic_auth.
  assert (Hf : ∀ a b, effects (in_scope sc) (frontend_or_query (W:=Logged W) svc a b) (λ _, True)).
  { intros a b. unfold frontend_or_query. cbv zeta. destruct (String.eqb _ ""); reads. }
  assert (Hl : ∀ a b, effects (in_scope sc) (local_query_args (W:=Logged W) svc a b) (λ _, True)).
  { intros a b. unfold local_query_args. reads. }
  assert (Hr : ∀ rq a b, effects (in_scope sc) (remote_query_args (W:=Logged W) svc rq a b) (λ _, True)).
  { intros rq a b. unfold remote_query_args. reads. }
  unfold query_upstream_args. destruct (sv_RemoteQuery (sv_Spec svc)) as [rq|]; [|done].
  destruct (String.eqb _ ""); done.
Qed.

Lemma effects_the_only {A} `{!Resource A} svc g what none (address : A → M (Logged W) string) :
  r_kind ∈ sc_Lists sc →
  effects (in_scope sc) none (λ _, True) →
  (∀ a, effects (in_scope sc) (address a) (λ _, True)) →
  effects (in_scope sc) (items ← List (A:=A) (same_service g); only_one svc what none address items) (λ _, True).
Proof.
  intros Hk Hn Ha. apply effects_step; [by apply effects_list|]. intros items. by apply effects_only_one.
Qed.

Lemma effects_external svc : effects (in_scope sc) (external_args (W:=Logged W) svc) (λ _, True).
Proof.
  pose proof effects_parse_or. pose proof effects_basic_auth. unfold external_args. apply effects_step; [|reads].
  apply effects_fold_each; [done|]. intros acc rw _ _. unfold external_remote_write.
  repeat first [apply effects_step; [|intro]|destruct (String.eqb _ "")|destruct (time_ParseDuration _)|reads].
Qed.

End upstreams.

Lemma effects_upstream_args svc g : effects (in_scope (gateway_scope svc g)) (upstream_args (W:=Logged W) svc g) (λ _, True).
Proof.
  pose proof (effects_parse_or (gateway_scope svc g)). pose proof (effects_external (gateway_scope svc g)). pose proof (effects_query_upstream (gateway_scope svc g)).
  unfold upstream_args, router_upstream_args, queryfrontendAddress, gateway_queryAddress, remoteWriteAddress.
  apply effects_step; [apply effects_the_only; [decide_in|reads|intros; reads]|]. intros fa.
  apply effects_step; [apply effects_the_only; [decide_in|reads|intros; reads]|]. intros qa.
  apply effects_step; [done|]. intros qs. apply effects_step; [|reads].
  apply effects_step; [apply effects_the_only; [decide_in|reads|intros; reads]|reads].
Qed.

(** The object is one of the gateway's, and the web configuration is absent only
    when the specification has none. *)
Definition stays_with (svc : Service) (g : Gateway) (m : M (Logged W) (option (Object * Operation) * option WebConfig)) : Prop :=
  effects (in_scope (gateway_scope svc g)) m (λ x,
    yields (in_scope (gateway_scope svc g)) (in_kinds (gateway_scope svc g)) x.1 ∧ (x.2 = None → gsp_WebConfig (gw_Spec g) = None)).

Lemma effects_built_in svc g : effects (in_scope (gateway_scope svc g)) (ensure_built_in_user (W:=Logged W) svc g) (λ _, True).
Proof.
  unfold ensure_built_in_user, generateBuiltInBasicAuthUserSecret. cbv zeta. apply effects_step; [reads|].
  intros [err|sec]; [|reads]. destruct (apierrors_IsNotFound err); [|reads].
  destruct (bcrypt_GenerateFromPassword _); [reads|].
  eapply effects_bind; [apply (effects_lift _ _ (λ o', obj_kind o' = KSecret))|].
  - intros o Ho%SetControllerReference_key. unfold obj_key in Ho. by inversion Ho.
  - intros o Ho. apply effects_step; [apply effects_record; simpl; rewrite Ho; decide_in|reads].
Qed.

Lemma gateway_web_stays svc g wc :
  (wc = None → gsp_WebConfig (gw_Spec g) = None) → stays_with svc g (gateway_webConfigSecret (W:=Logged W) svc g wc).
Proof.
  intros Hwc. unfold gateway_webConfigSecret. pose proof (effects_built_in svc g).
  eapply (effects_bind _ _ _ (λ wc, wc = None → gsp_WebConfig (gw_Spec g) = None)).
  - destruct wc as [wc|]; [|by apply effects_ret].
    destruct (wc_BasicAuthUsers wc); [by apply effects_ret|].
    apply effects_step; [done|]. intros _. by apply effects_ret.
  - intros wc' Hwc'. eapply effects_bind.
    + apply (effects_web_config_secret _ (in_kinds (gateway_scope svc g))); [done|decide_in|]. intros E. left. left. split; [by apply Hwc'|done].
    + intros secret Hs. by apply effects_ret.
Qed.

Lemma gateway_deployment_stays svc g : stays_with svc g (gateway_deployment (W:=Logged W) svc g).
Proof.
  unfold gateway_deployment. eapply (effects_bind _ _ _ (λ web, web.2 = None → gsp_WebConfig (gw_Spec g) = None)).
  - unfold gateway_annotations. destruct (gsp_WebConfig (gw_Spec g)) as [wc|] eqn:E; [|by apply effects_ret].
    eapply effects_bind; [by apply (gateway_web_stays svc g (Some wc))|]. intros [sec wc'] [_ Hwc].
    apply effects_step; [unfold config_hash; reads|]. intros ann. apply effects_ret. rewrite <-E. exact Hwc.
  - intros web Hweb. apply effects_step; [apply effects_upstream_args|]. intros args.
    apply effects_step; [apply effects_patch_containers|]. intros cs.
    eapply effects_bind; [apply (effects_owned_by _ (in_kinds (gateway_scope svc g))); decide_in|].
    intros d Hd. by apply effects_ret.
Qed.

Lemma effects_gateway_Reconcile svc g :
  effects (in_scope (gateway_scope svc g)) (gateway_Reconcile (W:=Logged W) svc g) (λ _, True).
Proof.
  unfold gateway_Reconcile. eapply effects_bind; [apply gateway_deployment_stays|]. intros [d wc] [Hd Hwc].
  apply effects_ReconcileResources. repeat (apply Forall_cons; split); [| | | |done].
  - by apply effects_ret.
  - apply stays_step; [by apply effects_get_or|]. intros svc'. apply stays_owned. decide_in.
  - unfold tenantsAdmissionConfigMap. cbv zeta. destruct (gsp_EnabledTenantsAdmission (gw_Spec g)) eqn:E; simpl.
    + apply stays_step; [apply effects_list; decide_in|]. intros items.
      apply stays_step; [apply effects_lift_sum|]. intros ac. apply stays_owned. decide_in.
    + apply stays_delete; [change (KConfigMap ∈ sc_Kinds (gateway_scope svc g)); decide_in|]. by right.
  - eapply effects_bind; [by apply gateway_web_stays|]. intros [sec wc'] [Hs _]. by apply effects_ret.
Qed.
End gateway.

(** ** Storages *)

Section storage.
Context {W : Type} `{HK : Kube W} {HL : K8sLib} {HM : MapRange} {HB : BaseLib} {HW : WorkLib}.

(** Of a storage, the deployment and the service of the block manager, unless it
    asks for an enabled one. *)
Definition storage_scope (s : Storage) : Scope := {|
  sc_Lists := []; sc_Kinds := [KStorage; KDeployment; KCoreService];
  sc_Dels o := (∀ bm, sto_BlockManager (stg_Spec s) = Some bm → bm_Enable bm ≠ Some true)
    ∧ obj_key o ∈ [(KDeployment, om_Namespace (stg_Meta s), "block-manager-" +:+ om_Name (stg_Meta s));
                   (KCoreService, om_Namespace (stg_Meta s), "block-manager-" +:+ om_Name (stg_Meta s) +:+ "-operated")] |}.

Lemma effects_GetStorageHash P key : (∀ k key, P (CGet k key)) →
  effects P (GetStorageHash (W:=Logged W) key) (λ _, True).
Proof. intros HP. unfold GetStorageHash. reads. Qed.

Lemma no_block_manager s : block_manager s = None → ∀ bm, sto_BlockManager (stg_Spec s) = Some bm → bm_Enable bm ≠ Some true.
Proof. unfold block_manager. intros H bm E. rewrite E in H. by destruct (bm_Enable bm) as [[]|]. Qed.

Lemma effects_storage_Reconcile s :
  effects (in_scope (storage_scope s)) (storage_Reconcile (W:=Logged W) s) (λ _, True).
Proof.
  apply effects_ReconcileResources. repeat (apply Forall_cons; split); [| | |done].
  - apply stays_step; [by apply effects_GetStorageHash|]. intros h. apply effects_ret. intros o op Ho.
    destruct (_ !! LabelNameStorageHash) as [v|]; [destruct (String.eqb v h); [done|]|];
      inversion Ho; subst; by (split; [decide_in|]).
  - unfold storage_deployment. cbv zeta. destruct (block_manager s) as [bm|] eqn:E.
    + apply stays_step; [by apply effects_get_or|]. intros d.
      apply stays_step; [by apply effects_VolumesForStorage|]. intros vols.
      apply stays_step; [by apply effects_GetStorageConfig|]. intros cfg.
      apply stays_step; [apply effects_patch_containers|]. intros cs. apply stays_owned. decide_in.
    + apply stays_delete; [decide_in|]. split; [by apply no_block_manager|]. by left.
  - unfold storage_service. cbv zeta. destruct (block_manager s) as [bm|] eqn:E.
    + apply stays_step; [by apply effects_get_or|]. intros d. apply stays_owned. decide_in.
    + apply stays_delete; [decide_in|]. split; [by apply no_block_manager|]. by right; left.
Qed.
End storage.

(** ** Rulers *)

Section ruler.
Context {W : Type} `{HK : Kube W} {HL : K8sLib} {HM : MapRange} {HB : BaseLib} {HW : WorkLib} {HR : RulerLib}.

(** What a ruler deletes: its own rule config maps, and the stateful sets and
    services of its own shards, by their names. *)
Definition ruler_stale (r : Ruler) (o : Object) : Prop :=
  match o with
  | OConfigMap cm => is_rule_configmap r (om_Name (cm_Meta cm)) = true
  | OStatefulSet sts => is_shard_statefulset r (om_Name (sts_Meta sts)) = true
  | OCoreService svc => is_shard_service r (om_Name (svc_Meta svc)) = true
  | _ => False
  end.

Definition ruler_scope (r : Ruler) : Scope := {|
  sc_Lists := [KNamespace; KPrometheusRule; KConfigMap; KStatefulSet; KCoreService; KGateway];
  sc_Kinds := [KConfigMap; KStatefulSet; KCoreService]; sc_Dels := ruler_stale r |}.

Lemma stays_fail {A} (s : Scope) err (P : A → Prop) : effects (in_scope s) (fail err : M (Logged W) A) P.
Proof. apply effects_fail. Qed.

Lemma ruler_reads r (P : Call → Prop) :
  P = in_scope (ruler_scope r) → effects P (ruler_gateway (W:=Logged W) r) (λ _, True).
Proof.
  intros ->. unfold ruler_gateway. apply effects_step; [apply effects_list; decide_in|].
  intros [|g [|g' l]]; [apply effects_fail| |apply effects_fail]. reads.
Qed.

Lemma effects_gateway_user P g : (∀ k key, P (CGet k key)) → effects P (gateway_user (W:=Logged W) g) (λ _, True).
Proof.
  intros HP. unfold gateway_user, getBuiltInUser, GetValueFromSecret. destruct (has_users _); [|reads].
  apply effects_step; [reads|]. intros _. cbv zeta. reads.
Qed.

Lemma effects_query_part P r g addr : (∀ k key, P (CGet k key)) →
  effects P (query_part (W:=Logged W) r g addr) (λ _, True).
Proof.
  intros HP. unfold query_part, query_config. pose proof (effects_gateway_user P g HP).
  destruct (rls_QueryConfig (rl_Spec r)); [by apply effects_ret|]. apply effects_step; [|reads].
  destruct (url_Parse addr); reads.
Qed.

Lemma effects_write_part P svc r g addr : (∀ k key, P (CGet k key)) →
  effects P (write_part (W:=Logged W) svc r g addr) (λ _, True).
Proof.
  intros HP. unfold write_part, addWriteProxyContainer. pose proof (effects_gateway_user P g HP).
  destruct (rls_RemoteWriteConfig (rl_Spec r)); [by apply effects_ret|].
  destruct (url_Parse "http://127.0.0.1:8081/push"); [reads|]. apply effects_step; [reads|]. intros buff.
  apply effects_step; [|reads]. destruct (url_Parse _); reads.
Qed.

Lemma ruler_statefulSet_stays svc r names sn :
  stays (ruler_scope r) (ruler_statefulSet (W:=Logged W) svc r names sn).
Proof.
  unfold ruler_statefulSet. apply stays_step; [by apply effects_option|]. intros cms.
  apply stays_step; [apply effects_lift_sum|]. intros rules.
  destruct (AddTSDBVolume _ _ _) as [[sts mounted] dv].
  apply stays_step; [by apply (ruler_reads r)|]. intros [g addr].
  apply stays_step; [by apply effects_query_part|]. intros [[qv qm] qa].
  apply stays_step; [by apply effects_write_part|]. intros [[[wv wm] wa] ps]. cbv zeta.
  apply stays_step; [apply effects_patch_containers|]. intros cs. apply stays_owned. decide_in.
Qed.

Lemma ruler_statefulSets_stay svc r names :
  effects (in_scope (ruler_scope r)) (ruler_statefulSets (W:=Logged W) svc r names) (Forall (stays (ruler_scope r))).
Proof.
  unfold ruler_statefulSets. apply effects_step; [by apply effects_lift|]. intros n. cbv zeta.
  apply effects_step; [eapply effects_true, effects_attempt, effects_list; decide_in|].
  intros [err|items]; apply effects_ret; [by apply Forall_singleton, effects_fail|].
  apply Forall_app. split; apply list.Forall_fmap, list.Forall_forall.
  - intros sn _. apply ruler_statefulSet_stays.
  - intros sts [[Hs _] _]%list_elem_of_filter. apply stays_delete; [decide_in|exact Hs].
Qed.

Lemma ruler_services_stay r :
  effects (in_scope (ruler_scope r)) (ruler_services (W:=Logged W) r) (Forall (stays (ruler_scope r))).
Proof.
  unfold ruler_services. apply effects_step; [by apply effects_lift|]. intros n. cbv zeta.
  apply effects_step; [eapply effects_true, effects_attempt, effects_list; decide_in|].
  intros [err|items]; apply effects_ret; [by apply Forall_singleton, effects_fail|].
  apply Forall_app. split; apply list.Forall_fmap, list.Forall_forall.
  - intros sn _. apply stays_owned. decide_in.
  - intros svc [[Hs _] _]%list_elem_of_filter. apply stays_delete; [decide_in|exact Hs].
Qed.

Lemma effects_selectPrometheusRules r :
  effects (in_scope (ruler_scope r)) (selectPrometheusRules (W:=Logged W) r) (λ _, True).
Proof.
  unfold selectPrometheusRules, selectNamespaces, rules_of_namespace.
  apply effects_step.
  { destruct (rls_RuleNamespaceSelector (rl_Spec r)); [|reads].
    apply effects_step; [eapply effects_true, (effects_attempt _ _ (λ _, True)), effects_lift; done|].
    intros [err|sel]; [reads|].
    apply effects_step; [apply effects_list; decide_in|]. intros items. reads. }
  intros nss. apply effects_step.
  { apply effects_fold_each; [done|]. intros acc s _ _. reads. }
  intros sels. apply effects_fold_each; [done|]. intros rules ns _ _. apply effects_step; [|reads].
  apply effects_fold_each; [done|]. intros acc s _ _. apply effects_step; [apply effects_list; decide_in|reads].
Qed.

Lemma configmap_resources_stay r targets items :
  Forall (stays (ruler_scope r)) (configmap_resources (W:=Logged W) r targets items).
Proof.
  unfold configmap_resources. cbv zeta. apply Forall_app. split; apply list.Forall_fmap, list.Forall_forall.
  - intros cm [_ [Hcm _]%list_elem_of_filter]%list_elem_of_filter. apply stays_delete; [decide_in|exact Hcm].
  - intros kv _. apply effects_ret. intros o op [= <- <-]. by split; [decide_in|].
Qed.

Lemma ruleConfigMaps_stay r :
  effects (in_scope (ruler_scope r)) (ruleConfigMaps (W:=Logged W) r) (λ x, Forall (stays (ruler_scope r)) x.1).
Proof.
  assert (Herr : ∀ err names, effects (in_scope (ruler_scope r))
    (mret (errResourcesFunc err, names) : M (Logged W) (list (ResourceFn (Logged W)) * list (list string)))
    (λ x, Forall (stays (ruler_scope r)) x.1)).
  { intros err names. by apply effects_ret, Forall_singleton, effects_fail. }
  unfold ruleConfigMaps.
  apply effects_step; [eapply effects_true, effects_attempt, effects_selectPrometheusRules|].
  intros [err|rules]; [apply Herr|]. cbv zeta.
  destruct (_ <=? _)%Z; [apply effects_panic|]. destruct (_ && _); [apply effects_panic|].
  destruct (fold_err _ _ _) as [err|files]; [apply Herr|].
  destruct (shard_config_maps _ _) as [err|cms]; [apply Herr|].
  apply effects_step; [eapply effects_true, effects_attempt, effects_list; decide_in|].
  intros [err|items]; [apply Herr|]. apply effects_ret, configmap_resources_stay.
Qed.

Lemma effects_ruler_Reconcile svc r :
  effects (in_scope (ruler_scope r)) (ruler_Reconcile (W:=Logged W) svc r) (λ _, True).
Proof.
  unfold ruler_Reconcile. eapply effects_bind; [apply ruleConfigMaps_stay|]. intros [cms names] Hc.
  eapply effects_bind; [apply ruler_statefulSets_stay|]. intros sts Hs.
  eapply effects_bind; [apply ruler_services_stay|]. intros svcs Hv.
  apply effects_ReconcileResources. by repeat (apply Forall_app; split).
Qed.
End ruler.

(** ** The components together *)

Section components.
Context {W : Type} `{HK : Kube W} {HL : K8sLib} {HM : MapRange} {HB : BaseLib} {HW : WorkLib} {HE : WebLib}.
Context {HQ : QueryLib} {HF : FrontendLib} {HG : GatewayLib}.

(** What a controller reconciles, in the world it finds: the object of the
    request, completed with the template of its service, and the service itself. *)
Definition reconciled_query (req : NamespacedName) (w : W) (svc : Service) (q : Query) : Prop :=
  ∃ q0 key s w1 w2 w3, Get req w = (Ok q0, w1) ∧ ServiceNamespacedName (q_Meta q0) = Some key ∧ Get key w1 = (Ok s, w2)
    ∧ applyConfigurationFromQueryTemplateSpec q0 (QueryTemplateSpec (sv_Spec (ApplyDefaults s))) = inr q
    ∧ SetService (q_Meta q) w2 = (Ok svc, w3).
Definition reconciled_frontend (req : NamespacedName) (w : W) (svc : Service) (q : QueryFrontend) : Prop :=
  ∃ q0 key s w1 w2 w3, Get req w = (Ok q0, w1) ∧ ServiceNamespacedName (qf_Meta q0) = Some key ∧ Get key w1 = (Ok s, w2)
    ∧ applyConfigurationFromQueryFrontendTemplateSpec q0 (QueryFrontendTemplateSpec (sv_Spec (ApplyDefaults s))) = inr q
    ∧ SetService (qf_Meta q) w2 = (Ok svc, w3).
Definition reconciled_gateway (req : NamespacedName) (w : W) (svc : Service) (g : Gateway) : Prop :=
  ∃ g0 key s w1 w2 w3, Get req w = (Ok g0, w1) ∧ ServiceNamespacedName (gw_Meta g0) = Some key ∧ Get key w1 = (Ok s, w2)
    ∧ applyConfigurationFromGatewayTemplateSpec g0 (GatewayTemplateSpec (sv_Spec (ApplyDefaults s))) = inr g
    ∧ SetService (gw_Meta g) w2 = (Ok svc, w3).

Definition reads_object (c : Call) : Prop := ∃ k key, c = CGet k key.

(** The common course of these controllers. *)
Lemma requests_reconcile {A Sp} `{!Resource A} (meta : A → ObjectMeta) (apply : A → Sp → GoError + A)
    (template : ServiceSpec → Sp) (run : Service → A → M (Logged W) unit) (scope : Service → A → Scope)
    (P : Call → Prop) req w :
  (∀ c, reads_object c → P c) →
  (∀ svc a, effects (in_scope (scope svc a)) (run svc a) (λ _, True)) →
  (∀ a0 key s w1 w2 w3 a svc c,
    Get req w = (Ok a0, w1) → ServiceNamespacedName (meta a0) = Some key → Get key w1 = (Ok s, w2) →
    apply a0 (template (sv_Spec (ApplyDefaults s))) = inr a → SetService (meta a) w2 = (Ok svc, w3) →
    in_scope (scope svc a) c → P c) →
  requests_at P {| lg_calls := []; lg_world := w |}
    (r ← attempt (Get (A:=A) req);
     match r with
     | inl err => if apierrors_IsNotFound err then mret tt else fail err
     | inr instance =>
         if String.eqb (map_get (om_Labels (meta instance)) ServiceLabelKey) "" then mret tt
         else
           key ← of_option "nil pointer dereference" (ServiceNamespacedName (meta instance));
           service ← Get (A:=Service) key;
           instance ← lift_sum (apply instance (template (sv_Spec (ApplyDefaults service))));
           svc ← SetService (meta instance);
           run svc instance
     end).
Proof.
  intros Hread Hrun HP.
  apply requests_attempt_Get; [intros k; apply Hread; by eexists _, _|]. intros [err|a0] s1 Hi; cbn [lg_world] in Hi.
  { apply (requests_effects _ _ (λ _, True)).
    destruct (apierrors_IsNotFound err); [by apply effects_ret|by apply effects_fail]. }
  specialize (Hi a0 eq_refl).
  destruct (String.eqb _ ""); [by apply (requests_effects _ _ (λ _, True)), effects_ret|].
  apply requests_option. intros key Hkey.
  apply requests_Get; [intros k; apply Hread; by eexists _, _|]. intros s s2 Hs.
  apply requests_lift_sum. intros a Ha.
  apply requests_SetService; [intros k key'; apply Hread; by eexists _, _|]. intros svc s3 Hsvc.
  eapply (requests_effects _ _ (λ _, True)), effects_impl; [|apply Hrun]. intros c. by apply (HP a0 key s (lg_world s1) (lg_world s2) (lg_world s3)).
Qed.

(** C27: whatever the API server answers, reconciling a query, a query frontend, a
    gateway or a storage reads, and for the object it read (completed with the
    template of its service) lists the kinds it depends on, creates and updates
    objects of its own kinds, and deletes only that object's web configuration,
    admission configuration or block manager, by their names, and only when its
    specification does not ask for it. *)
Theorem workload_requests_confined (req : NamespacedName) (w : W) :
  Forall (λ c, reads_object c ∨ ∃ svc q, reconciled_query req w svc q ∧ in_scope (query_scope svc q) c)
    (calls_from (QueryReconciler_Reconcile req) w)
  ∧ Forall (λ c, reads_object c ∨ ∃ svc q, reconciled_frontend req w svc q ∧ in_scope (frontend_scope svc q) c)
    (calls_from (QueryFrontendReconciler_Reconcile req) w)
  ∧ Forall (λ c, reads_object c ∨ ∃ svc g, reconciled_gateway req w svc g ∧ in_scope (gateway_scope svc g) c)
    (calls_from (GatewayReconciler_Reconcile req) w)
  ∧ Forall (λ c, reads_object c ∨ ∃ s w1, Get req w = (Ok s, w1) ∧ in_scope (storage_scope s) c)
    (calls_from (StorageReconciler_Reconcile req) w).
Proof.
  split; [|split; [|split]]; apply requests_calls.
  - apply (requests_reconcile q_Meta applyConfigurationFromQueryTemplateSpec QueryTemplateSpec query_Reconcile query_scope);
      [by left|apply effects_query_Reconcile|].
    intros q0 key s w1 w2 w3 q svc c H1 H2 H3 H4 H5 Hc. right. exists svc, q. split; [by exists q0, key, s, w1, w2, w3|done].
  - apply (requests_reconcile qf_Meta applyConfigurationFromQueryFrontendTemplateSpec QueryFrontendTemplateSpec
      frontend_Reconcile frontend_scope); [by left|apply effects_frontend_Reconcile|].
    intros q0 key s w1 w2 w3 q svc c H1 H2 H3 H4 H5 Hc. right. exists svc, q. split; [by exists q0, key, s, w1, w2, w3|done].
  - apply (requests_reconcile gw_Meta applyConfigurationFromGatewayTemplateSpec GatewayTemplateSpec
      gateway_Reconcile gateway_scope); [by left|apply effects_gateway_Reconcile|].
    intros q0 key s w1 w2 w3 q svc c H1 H2 H3 H4 H5 Hc. right. exists svc, q. split; [by exists q0, key, s, w1, w2, w3|done].
  - apply requests_attempt_Get; [left; by eexists _, _|]. intros [err|s] s1 Hi; apply (requests_effects _ _ (λ _, True)).
    { destruct (apierrors_IsNotFound err); [by apply effects_ret|by apply effects_fail]. }
    eapply effects_impl; [|apply (effects_storage_Reconcile s)]. intros c Hc. right. exists s, (lg_world s1).
    split; [by apply Hi|done].
Qed.
End components.

(** Whatever the API server answers, reconciling a ruler reads, lists rules and
    its own workload, creates and updates config maps, stateful sets and
    services, and, but for a stateful set that cannot be updated, deletes only
    rule config maps, stateful sets and services with the names of its own
    shards. *)
Theorem ruler_requests_confined {W} `{HK : Kube W} {HL : K8sLib} {HM : MapRange} {HB : BaseLib} {HW : WorkLib}
    {HR : RulerLib} svc r (w : W) :
  Forall (in_scope (ruler_scope r)) (calls_from (ruler_Reconcile svc r) w).
Proof. apply (effects_calls _ _ (λ _, True)), effects_ruler_Reconcile. Qed.

(** ** Tenants *)

Section tenant.
Context {W : Type} `{HK : Kube W} {HL : K8sLib} {HM : MapRange} {HB : BaseLib} {HC : Clock}.

(** What the placement of a tenant requests: reads, writes of tenants and of
    the components it assigns them to, and the deletion of compactors, rulers
    and stores. *)
Definition placement_request (c : Call) : Prop :=
  match c with
  | CGet _ _ => True
  | CList k _ => k ∈ [KTenant; KIngester; KCompactor; KStore]
  | CCreate o => obj_kind o ∈ [KIngester; KCompactor; KRuler; KStore]
  | CUpdate o => obj_kind o ∈ [KTenant; KIngester; KCompactor; KRuler; KStore]
  | CStatusUpdate o => obj_kind o ∈ [KTenant; KIngester]
  | CDelete o => obj_kind o ∈ [KCompactor; KRuler; KStore]
  end.

Notation TW := (Logged W * Tenant)%type.
Notation ok m := (effects placement_request m (λ _, True)).

Lemma effects_world {A} (m : M (Logged W) A) : ok m → ok (world m : M TW A).
Proof. by apply effects_zoom. Qed.

Lemma effects_tenant_get : ok (tenant : M TW Tenant).
Proof. apply effects_pure. intros s. by exists (Ok s.2), s. Qed.

Lemma effects_set_tenant t : ok (set_tenant t : M TW unit).
Proof. apply effects_pure. intros s. by eexists _, _. Qed.

Lemma effects_place (o : Object) : obj_kind o ∈ [KIngester; KCompactor; KRuler; KStore] →
  ok (CreateOrUpdate (W:=Logged W) o).
Proof.
  intros Hk. eapply effects_impl; [|apply effects_CreateOrUpdate].
  intros c Hc. destruct c; simpl in *; try done; injection Hc as Hc _ _; rewrite Hc; set_solver.
Qed.

Lemma effects_create {A} `{!Resource A} (a : A) : placement_request (CCreate (r_obj a)) → ok (Create (W:=Logged W) a).
Proof. intros HP. unfold Create. apply effects_step; [by apply effects_record|]. intros o. by apply effects_option. Qed.

Lemma effects_update {A} `{!Resource A} (a : A) : placement_request (CUpdate (r_obj a)) → ok (Update (W:=Logged W) a).
Proof. intros HP. unfold Update. apply effects_step; [by apply effects_record|]. intros o. by apply effects_option. Qed.

(** Walks over an operation of the reconciler. *)
Ltac place_step :=
  first
  [ apply effects_tenant_get | apply effects_set_tenant
  | apply effects_world
  | apply effects_place; decide_in
  | apply effects_update; simpl; decide_in | apply effects_create; simpl; decide_in
  | apply effects_StatusUpdate; simpl; decide_in | apply effects_Delete; simpl; decide_in
  | apply effects_List; simpl; decide_in
  | reads_step ].
Ltac places := repeat place_step.

Lemma effects_update_tenant : ok (update_tenant : M TW unit).
Proof. unfold update_tenant. places. Qed.
Lemma effects_update_status : ok (update_status : M TW unit).
Proof. unfold update_status. places. Qed.

Variable svc : option Service.

Lemma effects_removal ref :
  ok (removeTenantFromIngesterbyName svc ref : M TW unit)
  ∧ ok (removeTenantFromCompactorByName ref : M TW unit).
Proof.
  split; [unfold removeTenantFromIngesterbyName, service_spec|unfold removeTenantFromCompactorByName, ret_err]; places.
Qed.

Lemma effects_tenant_ingester : ok (Tenant.ingester svc : M TW unit).
Proof.
  pose proof (effects_removal) as Hr. pose proof effects_update_tenant. pose proof effects_update_status.
  assert (Hb : ok (ingester_body svc : M TW unit)).
  { unfold ingester_body, needResetIngester, assign_shared_ingester, assign_ingester.
    repeat first [apply Hr|place_step]. }
  assert (Hf : ok (ingester_finalize svc : M TW unit)).
  { unfold ingester_finalize. repeat first [apply Hr|apply effects_for_each; intros; unfold forget_in_status|place_step]. }
  unfold Tenant.ingester. places.
Qed.

Lemma effects_tenant_compactor : ok (Tenant.compactor svc : M TW unit).
Proof.
  pose proof (effects_removal) as Hr. pose proof effects_update_tenant. pose proof effects_update_status.
  assert (Hb : ok (compactor_body svc : M TW unit)).
  { unfold compactor_body, needResetCompactor, assign_shared_compactor. repeat first [apply Hr|place_step]. }
  assert (Hf : ok (compactor_finalize : M TW unit)).
  { unfold compactor_finalize. repeat first [apply Hr|place_step]. }
  unfold Tenant.compactor. places.
Qed.

Lemma effects_tenant_ruler : ok (Tenant.ruler svc : M TW unit).
Proof. pose proof effects_update_status. unfold Tenant.ruler, current_ruler. places. Qed.

Lemma effects_storage_hash key : ok (GetStorageHash (W:=Logged W) key).
Proof. by apply effects_GetStorageHash. Qed.

Lemma effects_tenant_hash sel : ok (GetTenantHash (W:=Logged W) sel).
Proof. unfold GetTenantHash. places. Qed.

Lemma effects_store_world : ok (store_world (W:=Logged W) svc).
Proof.
  pose proof effects_storage_hash. pose proof effects_tenant_hash.
  unfold store_world, sortTenantsByStorageAndService. apply effects_step; [places|]. intros stores.
  apply effects_step; [apply effects_fold_each; [done|]; intros; unfold collect_store; places|]. intros current.
  apply effects_step; [places|]. intros expected.
  apply effects_step; [apply effects_fold_each; [done|]; intros; unfold match_store, refresh_store; places|]. intros rest.
  apply effects_step; [apply effects_for_each; intros; unfold delete_elem; places|]. intros _.
  apply effects_for_each. intros e _. unfold create_elem. places.
Qed.

Lemma effects_run_tenant t : ok (run_tenant (W:=Logged W) svc t).
Proof.
  assert (H : ok (Tenant.Reconcile svc : M TW unit)).
  { pose proof effects_tenant_ingester. pose proof effects_tenant_compactor. pose proof effects_tenant_ruler.
    pose proof effects_store_world. unfold Tenant.Reconcile, store. places. }
  intros s r s' E. unfold run_tenant in E. destruct (Tenant.Reconcile svc (s, t)) as [r1 [s1 t1]] eqn:Er.
  inversion E; subst. by apply H in Er.
Qed.
End tenant.

Section tenant_controller.
Context {W : Type} `{HK : Kube W} {HL : K8sLib} {HM : MapRange} {HB : BaseLib} {HC : Clock}.

(** Whatever the API server answers, reconciling a tenant reads, lists tenants
    and the components they are assigned to, writes ingesters, compactors,
    rulers and stores, updates the tenant and statuses of ingesters, and deletes
    only compactors, rulers and stores: never an ingester, which may hold the
    tenant's data, nor any workload. *)
Theorem placement_requests_confined (req : NamespacedName) (w : W) :
  Forall placement_request (calls_from (TenantReconciler_Reconcile req) w).
Proof.
  apply (effects_calls _ _ (λ _, True)). unfold TenantReconciler_Reconcile.
  pose proof effects_run_tenant. reads.
Qed.
End tenant_controller.
