(* ===== verification/Controllers.v ===== *)
(** [cmd/controller-manager/app/controllers.go] and the [SetupWithManager] of
    the reconcilers: which events reach which reconciliation.

    A [Controller] is what a reconciler registers with controller-runtime's
    builder; [RuntimeLib] is what the builder promises: the requests an event
    gives a controller include those of its kind and of every watch that takes
    the event, and there are none without such a reason. *)
From stdpp Require Import base gmap strings list.
From Stdlib Require Import Ascii String.
From S2P Require Import Prelude GoStd K8s Api Objects Client Base Workload Web Tenant Ingester GoNet Router Store Compactor Query QueryFrontend GatewayWorkload BlockManager Ruler RulerWorkload.

(** ** Events *)

(** [event.CreateEvent] and the others; an update carries the object as it was. *)
Inductive EventType := CreateEvent | UpdateEvent (old : Object) | DeleteEvent | GenericEvent.

Record ObjectEvent := { ev_Type : EventType; ev_Object : Object }.

(** The predicate of the gateway's watch of tenants: the functions that are not
    set accept their events. *)
Definition gateway_p (e : ObjectEvent) : bool := match ev_Type e with UpdateEvent _ => false | _ => true end.

(** ** What the builder is given *)

Record Watching (W : Type) := {
  wt_Kind : Kind;
  wt_Map : Object → M W (list NamespacedName);
  wt_Predicate : ObjectEvent → bool }.
Arguments wt_Kind {W}. Arguments wt_Map {W}. Arguments wt_Predicate {W}.

Record Controller (W : Type) := {
  ct_For : Kind;
  ct_Watches : list (Watching W);
  ct_Owns : list Kind;
  ct_Reconcile : NamespacedName → M W Result }.
Arguments ct_For {W}. Arguments ct_Watches {W}. Arguments ct_Owns {W}. Arguments ct_Reconcile {W}.

(** A watch without predicates. *)
Definition Watches {W} (k : Kind) (f : Object → M W (list NamespacedName)) : Watching W :=
  {| wt_Kind := k; wt_Map := f; wt_Predicate := λ _, true |}.

(** [return ctrl.Result{}, err]. *)
Definition no_requeue {W} (m : M W unit) : M W Result := m ;; mret no_result.

Section setup.
Context {W : Type} `{!Kube W} `{!K8sLib} `{!MapRange} `{!BaseLib} `{!Clock} `{!WorkLib} `{!WebLib}.
Context `{!QueryLib} `{!FrontendLib} `{!GatewayLib} `{!RouterLib} `{!RulerLib} `{!StoreLib} `{!CompactorLib}.

Definition gateway_SetupWithManager : Controller W := {|
  ct_For := KGateway;
  ct_Watches := [
    Watches KService (gateway_mapFuncBySelectorFunc ManagedLabelByService);
    Watches KQuery (gateway_mapFuncBySelectorFunc ManagedLabelBySameService);
    Watches KQueryFrontend (gateway_mapFuncBySelectorFunc ManagedLabelBySameService);
    Watches KRouter (gateway_mapFuncBySelectorFunc ManagedLabelBySameService);
    {| wt_Kind := KTenant; wt_Map := gateway_mapFuncBySelectorFunc ManagedLabelBySameService; wt_Predicate := gateway_p |}];
  ct_Owns := [KDeployment; KCoreService; KConfigMap];
  ct_Reconcile := λ req, no_requeue (GatewayReconciler_Reconcile req) |}.

Definition frontend_SetupWithManager : Controller W := {|
  ct_For := KQueryFrontend;
  ct_Watches := [
    Watches KService (frontend_mapFuncBySelectorFunc ManagedLabelByService);
    Watches KQuery (frontend_mapFuncBySelectorFunc ManagedLabelBySameService);
    Watches KTenant (frontend_mapFuncBySelectorFunc ManagedLabelBySameService)];
  ct_Owns := [KDeployment; KCoreService; KConfigMap];
  ct_Reconcile := λ req, no_requeue (QueryFrontendReconciler_Reconcile req) |}.

Definition query_SetupWithManager : Controller W := {|
  ct_For := KQuery;
  ct_Watches := [
    Watches KService (query_mapFuncBySelectorFunc ManagedLabelByService);
    Watches KIngester (query_mapFuncBySelectorFunc ManagedLabelBySameService);
    Watches KStore (query_mapFuncBySelectorFunc ManagedLabelBySameService);
    Watches KRuler (query_mapFuncBySelectorFunc ManagedLabelBySameService)];
  ct_Owns := [KDeployment; KCoreService; KConfigMap];
  ct_Reconcile := λ req, no_requeue (QueryReconciler_Reconcile req) |}.

Definition router_SetupWithManager : Controller W := {|
  ct_For := KRouter;
  ct_Watches := [
    Watches KService (router_mapFuncBySelectorFunc ManagedLabelByService);
    Watches KIngester (router_mapFuncBySelectorFunc ManagedLabelBySameService)];
  ct_Owns := [KDeployment; KCoreService; KConfigMap];
  ct_Reconcile := λ req, no_requeue (RouterReconciler_Reconcile req) |}.

Definition store_SetupWithManager : Controller W := {|
  ct_For := KStore;
  ct_Watches := [
    Watches KService (store_mapFuncBySelectorFunc ManagedLabelByService);
    Watches KStorage (store_mapFuncBySelectorFunc ManagedLabelByStorage)];
  ct_Owns := [KStatefulSet; KCoreService];
  ct_Reconcile := λ req, no_requeue (StoreReconciler_Reconcile req) |}.

Definition compactor_SetupWithManager : Controller W := {|
  ct_For := KCompactor;
  ct_Watches := [
    Watches KService (compactor_mapFuncBySelectorFunc ManagedLabelByService);
    Watches KStorage (compactor_mapFuncBySelectorFunc ManagedLabelByStorage)];
  ct_Owns := [KStatefulSet; KCoreService];
  ct_Reconcile := λ req, no_requeue (CompactorReconciler_Reconcile req) |}.

Definition ingester_SetupWithManager : Controller W := {|
  ct_For := KIngester;
  ct_Watches := [
    Watches KService (mapFuncBySelectorFunc ManagedLabelByService);
    Watches KStorage (mapFuncBySelectorFunc ManagedLabelByStorage)];
  ct_Owns := [KStatefulSet; KCoreService];
  ct_Reconcile := IngesterReconciler_Reconcile |}.

Definition ruler_SetupWithManager : Controller W := {|
  ct_For := KRuler;
  ct_Watches := [
    Watches KPrometheusRule mapRuleToRulerFunc;
    Watches KService mapToRulerFunc;
    Watches KQuery (ruler_mapFuncBySelectorFunc ManagedLabelBySameService);
    Watches KQueryFrontend (ruler_mapFuncBySelectorFunc ManagedLabelBySameService);
    Watches KRouter (ruler_mapFuncBySelectorFunc ManagedLabelBySameService)];
  ct_Owns := [KStatefulSet; KCoreService; KConfigMap];
  ct_Reconcile := λ req, no_requeue (RulerReconciler_Reconcile req) |}.

Definition tenant_SetupWithManager : Controller W := {|
  ct_For := KTenant;
  ct_Watches := [
    Watches KIngester mapToTenantbyObjectSpecFunc;
    Watches KCompactor mapToTenantbyObjectSpecFunc;
    Watches KStore (λ _, mapToTenantByStore);
    Watches KService mapToTenantByService;
    Watches KRuler mapToTenantbyObjectSpecFunc];
  ct_Owns := [KRuler];
  ct_Reconcile := λ req, no_requeue (TenantReconciler_Reconcile req) |}.

Definition storage_SetupWithManager : Controller W := {|
  ct_For := KStorage;
  ct_Watches := [Watches KSecret mapToStoragebySecretRefFunc];
  ct_Owns := [KDeployment; KCoreService; KSecret];
  ct_Reconcile := λ req, no_requeue (StorageReconciler_Reconcile req) |}.

(** The controllers of the manager, in the order they are added. *)
Definition addControllers : list (Controller W) := [
  gateway_SetupWithManager; frontend_SetupWithManager; query_SetupWithManager; router_SetupWithManager;
  store_SetupWithManager; compactor_SetupWithManager; ingester_SetupWithManager; ruler_SetupWithManager;
  tenant_SetupWithManager; storage_SetupWithManager].
End setup.

(** ** controller-runtime *)

(** The request for an object. *)
Definition request_of (o : Object) : NamespacedName := {| nn_Namespace := obj_Namespace o; nn_Name := obj_Name o |}.

(** The requests that an event adds to the queue of a controller; the map
    functions read the cache the world is seen through. *)
Class RuntimeLib (W : Type) := {
  enqueued : Controller W → ObjectEvent → W → list NamespacedName;
  enqueued_For : ∀ c e w, obj_kind (ev_Object e) = ct_For c → request_of (ev_Object e) ∈ enqueued c e w;
  enqueued_Watches : ∀ c e w wt l w',
    wt ∈ ct_Watches c → wt_Kind wt = obj_kind (ev_Object e) → wt_Predicate wt e = true →
    wt_Map wt (ev_Object e) w = (Ok l, w') → l ⊆ enqueued c e w;
  enqueued_only : ∀ c e w k, k ∈ enqueued c e w →
    obj_kind (ev_Object e) = ct_For c ∨ obj_kind (ev_Object e) ∈ ct_Owns c
    ∨ ∃ wt, wt ∈ ct_Watches c ∧ wt_Kind wt = obj_kind (ev_Object e) ∧ wt_Predicate wt e = true }.
