(* ===== verification/ManagerCommand.v ===== *)
(** The commands of the operator and of the block manager:
    [cmd/controller-manager] with its options, and
    [cmd/monitoring-block-manager] with [NewBlockManager] and [Run] of
    [pkg/block/block-manager.go]. *)
From stdpp Require Import base gmap strings list pretty sorting.
From Stdlib Require Import Ascii String.
From S2P Require Import Prelude GoStd K8s Api Objects Client Base Workload Url GoNet Duration Block Flags GatewayCommand Controllers.

(** ** cmd/controller-manager/app/options *)

Record ControllerManagerOptions := {
  MetricsAddr : string; SecureMetrics : bool; MetricsCertPath : string; MetricsCertName : string;
  MetricsCertKey : string; EnableHTTP2 : bool; EnableLeaderElection : bool; ProbeAddr : string;
}.

Definition NewControllerManagerOptions : ControllerManagerOptions := {|
  EnableLeaderElection := false; MetricsAddr := "0"; SecureMetrics := true; MetricsCertName := "tls.crt";
  MetricsCertKey := "tls.key"; MetricsCertPath := ""; EnableHTTP2 := false; ProbeAddr := ":8081" |}.

Definition bool_text (b : bool) : string := if b then "true" else "false".

(** The flags, after those of the logging library; the defaults are the
    options as they are. *)
Definition manager_Flags (klog : list Flag) (s : ControllerManagerOptions) : list Flag :=
  klog
  ++ [mkFlag "metrics-bind-address" KString (MetricsAddr s); mkFlag "metrics-secure" KBool (bool_text (SecureMetrics s));
      mkFlag "metrics-cert-path" KString (MetricsCertPath s); mkFlag "metrics-cert-name" KString (MetricsCertName s);
      mkFlag "metrics-cert-key" KString (MetricsCertKey s); mkFlag "enable-http2" KBool (bool_text (EnableHTTP2 s))]
  ++ [mkFlag "health-probe-bind-address" KString (ProbeAddr s);
      mkFlag "leader-elect" KBool (bool_text (EnableLeaderElection s))].

(** The options the flags are bound to. *)
Definition manager_options_of (m : FlagValues) : ControllerManagerOptions := {|
  MetricsAddr := get_string m "metrics-bind-address"; SecureMetrics := get_bool m "metrics-secure";
  MetricsCertPath := get_string m "metrics-cert-path"; MetricsCertName := get_string m "metrics-cert-name";
  MetricsCertKey := get_string m "metrics-cert-key"; EnableHTTP2 := get_bool m "enable-http2";
  ProbeAddr := get_string m "health-probe-bind-address"; EnableLeaderElection := get_bool m "leader-elect" |}.

Definition manager_Validate (s : ControllerManagerOptions) : list GoError := [].

(** ** cmd/controller-manager/app/server.go *)

(** The options of the metrics server: whether its clients are authorized,
    HTTP/2 is refused, and the certificate it watches. *)
Record MetricsServerOptions := {
  mo_BindAddress : string; mo_SecureServing : bool; mo_FilterProvider : bool; mo_DisableHTTP2 : bool;
  mo_Certificate : option (string * string);
}.
Record ManagerOptions := {
  mgo_Metrics : MetricsServerOptions; mgo_HealthProbeBindAddress : string; mgo_LeaderElection : bool;
  mgo_LeaderElectionID : string;
}.

(** The manager of controller-runtime. *)
Class ManagerLib (W : Type) := {
  certwatcher_New : string → string → M W unit;
  manager_New : ManagerOptions → M W unit;
  mgr_Add_certwatcher : M W unit;
  mgr_Setup : Controller W → M W unit;
  mgr_AddHealthzCheck : string → M W unit;
  mgr_AddReadyzCheck : string → M W unit;
  mgr_Start : M W unit;
}.

(** The files of the metrics server's certificate. *)
Definition metrics_certificate (s : ControllerManagerOptions) : option (string * string) :=
  if String.eqb (MetricsCertPath s) "" then None
  else Some (filepath_Join [MetricsCertPath s; MetricsCertName s], filepath_Join [MetricsCertPath s; MetricsCertKey s]).

Definition manager_options (s : ControllerManagerOptions) : ManagerOptions := {|
  mgo_Metrics := {| mo_BindAddress := MetricsAddr s; mo_SecureServing := SecureMetrics s;
    mo_FilterProvider := SecureMetrics s; mo_DisableHTTP2 := negb (EnableHTTP2 s);
    mo_Certificate := metrics_certificate s |};
  mgo_HealthProbeBindAddress := ProbeAddr s; mgo_LeaderElection := EnableLeaderElection s;
  mgo_LeaderElectionID := "whizard-controller-manager-leader-election" |}.

Section manager.
Context {W : Type} `{!ManagerLib W}.

(** The error of a step, wrapped. *)
Definition step_or {A} (msg : string) (m : M W A) : M W A :=
  r ← attempt m;
  match r with inl err => fail (EWrap msg err) | inr a => mret a end.

(** [addControllers]: the first controller that cannot be set up ends it. *)
Definition add_controllers (controllers : list (Controller W)) : M W unit := for_each mgr_Setup controllers.

Definition server_Run (controllers : list (Controller W)) (s : ControllerManagerOptions) : M W unit :=
  match metrics_certificate s with
  | Some files => step_or "unable to initialize metrics certificate watcher" (certwatcher_New files.1 files.2)
  | None => mret tt
  end ;;
  step_or "unable to set up overall controller manager" (manager_New (manager_options s)) ;;
  match metrics_certificate s with
  | Some _ => step_or "unable to add metrics certificate watcher to manager" mgr_Add_certwatcher
  | None => mret tt
  end ;;
  step_or "unable to register controllers to the manager" (add_controllers controllers) ;;
  step_or "unable to set up health check" (mgr_AddHealthzCheck "healthz") ;;
  step_or "unable to set up ready check" (mgr_AddReadyzCheck "readyz") ;;
  step_or "unable to run the manager" mgr_Start.
End manager.

(** The command: its flags are those of the default options. *)
Definition NewControllerManagerCommand {W} `{!ManagerLib W} `{!Pflag} (klog : list Flag)
    (controllers : list (Controller W)) (args : list string) : M W unit :=
  m ← lift_sum (cl_Parse (manager_Flags klog NewControllerManagerOptions) args);
  match manager_Validate (manager_options_of m) with
  | err :: _ => fail err
  | [] => server_Run controllers (manager_options_of m)
  end.

(** ** cmd/monitoring-block-manager *)

Definition minute : Z := 60 * 10 ^ 9.
Definition hour : Z := 60 * minute.

Definition block_AddFlags : list Flag :=
  [mkFlag "tenant.label-name" KString "tenant_id"; mkFlag "tenant.default-id" KString "default-tenant";
   mkFlag "objstore.config" KString ""; mkFlag "objstore.config-file" KString "";
   mkFlag "gc.interval" KDuration (time_Duration_String (minute * 10));
   mkFlag "gc.cleanup-timeout" KDuration (time_Duration_String hour)].

(** What Go's own flags add ([flag.CommandLine]). *)
Definition block_flags (goflags : list Flag) : list Flag := block_AddFlags ++ goflags.

(** The block manager with its two durations. *)
Record BlockManagerRun := { br_Manager : BlockManager; br_gcInterval : Z; br_gcCleanupTimeout : Z }.

Definition NewBlockManager (tenantLabelName defaultTenantId storageConfig storageConfigFile : string)
    (interval cleanupTimeout : Z) : BlockManagerRun := {|
  br_Manager := {| bm_tenantLabelName := tenantLabelName; bm_defaultTenantId := defaultTenantId;
                   bm_storageConfig := storageConfig; bm_storageConfigFile := storageConfigFile |};
  br_gcInterval := interval; br_gcCleanupTimeout := cleanupTimeout |}.

Definition block_manager_of (m : FlagValues) : BlockManagerRun :=
  NewBlockManager (get_string m "tenant.label-name") (get_string m "tenant.default-id")
    (get_string m "objstore.config") (get_string m "objstore.config-file")
    (get_duration m "gc.interval") (get_duration m "gc.cleanup-timeout").

(** What the process needs of the cluster before it runs: its configuration and
    clients, and a cache that is filled. *)
Class BlockEnv (W : Type) := { kube_clients : M W unit; WaitForCacheSync : M W bool }.

Section block.
Context {W : Type} `{!Kube W} `{!BlockApi W} `{!BlockEnv W} `{!Pflag}.

Definition BlockManager_Run (b : BlockManager) (events : list GcEvent) : M W unit :=
  ok ← WaitForCacheSync;
  if negb ok then fail (EMsg "sync cache failed") else gc b events.

(** The exit status. *)
Definition block_run (m : FlagValues) (events : list GcEvent) : M W Z :=
  if String.eqb (get_string m "objstore.config") "" && String.eqb (get_string m "objstore.config-file") "" then mret 1%Z
  else
    clients ← attempt kube_clients;
    match clients with
    | inl _ => mret 1%Z
    | inr _ =>
        r ← attempt (BlockManager_Run (br_Manager (block_manager_of m)) events);
        mret (match r with inl _ => 1%Z | inr _ => 0%Z end)
    end.

Definition block_main (goflags : list Flag) (args : list string) (events : list GcEvent) : M W Z :=
  match cl_Parse (block_flags goflags) args with
  | inl _ => mret 1%Z
  | inr m => block_run m events
  end.
End block.
