(* ===== verification/ControllersFacts.v ===== *)
(** What the wiring of the controllers guarantees: what a reconciliation reads is
    heard by its controller, and the events of a service, of its components and
    of the secrets of a storage reach the objects that depend on them. *)
From stdpp Require Import base gmap strings list pretty sorting.
From Stdlib Require Import Ascii String.
From S2P Require Import Prelude GoStd K8s Api Objects Client Clients Base ClientFacts Workload Web WorkloadFacts Tenant GoNet Ingester IngesterFacts Router RouterFacts Store StoreFacts Compactor CompactorFacts Ruler Query QueryFrontend GatewayWorkload BlockManager RulerWorkload RequestFacts Controllers.
Open Scope nat_scope.

(** ** What a controller hears of *)

Definition heard {W} (c : Controller W) : list Kind := ct_For c :: (wt_Kind <$> ct_Watches c) ++ ct_Owns c.

(** The kinds a controller lists, and those it writes, that it does not hear of. *)
Definition unheard_reads (k : Kind) : list Kind :=
  match k with KStore => [KTenant] | KRuler => [KGateway; KNamespace] | _ => [] end.
Definition unheard_writes (k : Kind) : list Kind :=
  match k with KGateway | KQuery | KQueryFrontend | KRouter => [KSecret] | _ => [] end.

Section reads.
Context {W : Type} `{HK : Kube W} {HL : K8sLib} {HM : MapRange} {HB : BaseLib} {HC : Clock} {HW : WorkLib} {HE : WebLib}.
Context {HQ : QueryLib} {HF : FrontendLib} {HG : GatewayLib} {HRo : RouterLib} {HR : RulerLib} {HS : StoreLib} {HCo : CompactorLib}.

(** A request of a controller: a kind it lists or writes is one it hears of, but
    for the exceptions. *)
Definition is_heard (c : Controller (Logged W)) (call : Call) : Prop :=
  match call with
  | CList k _ => k ∈ heard c ++ unheard_reads (ct_For c)
  | CCreate o | CUpdate o => obj_kind o ∈ heard c ++ unheard_writes (ct_For c)
  | _ => True
  end.

Lemma scope_heard (c : Controller (Logged W)) s call :
  sc_Lists s ⊆ heard c ++ unheard_reads (ct_For c) → sc_Kinds s ⊆ heard c ++ unheard_writes (ct_For c) →
  in_scope s call → is_heard c call.
Proof. intros Hl Hk. destruct call; simpl; try done; [apply Hl|apply Hk|apply Hk]. Qed.

(** A component whose requests stay in a scope that its controller hears of. *)
Lemma scope_effects (c : Controller (Logged W)) s {A} (m : M (Logged W) A) :
  sc_Lists s ⊆ heard c ++ unheard_reads (ct_For c) → sc_Kinds s ⊆ heard c ++ unheard_writes (ct_For c) →
  effects (in_scope s) m (λ _, True) → effects (is_heard c) m (λ _, True).
Proof. intros Hl Hk. apply effects_impl. intros call. by apply scope_heard. Qed.

Ltac by_scope H := intros; eapply scope_effects; [..|apply H]; decide_in.

(** A component whose requests are known one by one. *)
Ltac by_request H := intros; eapply effects_impl; [|apply H]; intros [].

Lemma gateway_heard req :
  effects (is_heard gateway_SetupWithManager) (GatewayReconciler_Reconcile (W:=Logged W) req) (λ _, True).
Proof.
  assert (H : ∀ svc g, effects (is_heard gateway_SetupWithManager) (gateway_Reconcile (W:=Logged W) svc g) (λ _, True))
    by by_scope effects_gateway_Reconcile.
  unfold GatewayReconciler_Reconcile. reads.
Qed.

Lemma frontend_heard req :
  effects (is_heard frontend_SetupWithManager) (QueryFrontendReconciler_Reconcile (W:=Logged W) req) (λ _, True).
Proof.
  assert (H : ∀ svc q, effects (is_heard frontend_SetupWithManager) (frontend_Reconcile (W:=Logged W) svc q) (λ _, True))
    by by_scope effects_frontend_Reconcile.
  unfold QueryFrontendReconciler_Reconcile. reads.
Qed.

Lemma query_heard req :
  effects (is_heard query_SetupWithManager) (QueryReconciler_Reconcile (W:=Logged W) req) (λ _, True).
Proof.
  assert (H : ∀ svc q, effects (is_heard query_SetupWithManager) (query_Reconcile (W:=Logged W) svc q) (λ _, True))
    by by_scope effects_query_Reconcile.
  unfold QueryReconciler_Reconcile. reads.
Qed.

Lemma storage_heard req :
  effects (is_heard storage_SetupWithManager) (StorageReconciler_Reconcile (W:=Logged W) req) (λ _, True).
Proof.
  assert (H : ∀ s, effects (is_heard storage_SetupWithManager) (storage_Reconcile (W:=Logged W) s) (λ _, True))
    by by_scope effects_storage_Reconcile.
  unfold StorageReconciler_Reconcile. reads.
Qed.

Lemma ruler_heard req :
  effects (is_heard ruler_SetupWithManager) (RulerReconciler_Reconcile (W:=Logged W) req) (λ _, True).
Proof.
  assert (H : ∀ svc r, effects (is_heard ruler_SetupWithManager) (ruler_Reconcile (W:=Logged W) svc r) (λ _, True))
    by by_scope effects_ruler_Reconcile.
  unfold RulerReconciler_Reconcile. reads.
Qed.

Lemma router_heard req :
  effects (is_heard router_SetupWithManager) (RouterReconciler_Reconcile (W:=Logged W) req) (λ _, True).
Proof.
  assert (H : ∀ svc r, effects (is_heard router_SetupWithManager) (router_Reconcile (W:=Logged W) svc r) (λ _, True)).
  { intros. eapply effects_impl; [|apply effects_router_Reconcile]. intros c Hc. destruct c as [| | o | o | |]; simpl in *; try done;
    [subst; decide_in|..]; destruct (obj_kind o); try (exfalso; unfold router_kind in Hc; set_solver); decide_in. }
  unfold RouterReconciler_Reconcile. reads.
Qed.

Lemma tenant_heard req :
  effects (is_heard tenant_SetupWithManager) (TenantReconciler_Reconcile (W:=Logged W) req) (λ _, True).
Proof.
  assert (H : ∀ svc t, effects (is_heard tenant_SetupWithManager) (run_tenant (W:=Logged W) svc t) (λ _, True)).
  { intros. eapply effects_impl; [|apply effects_run_tenant]. intros c Hc. destruct c; simpl in *; set_solver. }
  unfold TenantReconciler_Reconcile. reads.
Qed.

Lemma store_heard req :
  effects (is_heard store_SetupWithManager) (StoreReconciler_Reconcile (W:=Logged W) req) (λ _, True).
Proof.
  assert (H : ∀ s, effects (is_heard store_SetupWithManager) (store_Reconcile (W:=Logged W) s) (λ _, True)).
  { intros. eapply effects_impl; [|apply effects_store_Reconcile]. intros c Hc.
    destruct c; simpl in *; unfold store_kind in *; try done; set_solver. }
  unfold StoreReconciler_Reconcile. reads.
Qed.

Lemma compactor_heard req :
  effects (is_heard compactor_SetupWithManager) (CompactorReconciler_Reconcile (W:=Logged W) req) (λ _, True).
Proof.
  assert (Hi : ∀ c, compactor_request c → is_heard compactor_SetupWithManager c).
  { intros [k key|k ns|o|o|o|o] Hc; simpl in *; try done; [rewrite Hc; decide_in|].
    destruct o; try done; simpl; decide_in. }
  assert (H1 : ∀ o, effects (is_heard compactor_SetupWithManager) (DeletePVC (W:=Logged W) o) (λ _, True)).
  { intros. eapply effects_impl; [apply Hi|apply effects_DeletePVC]. }
  assert (H2 : ∀ c, effects (is_heard compactor_SetupWithManager) (run_compactor (W:=Logged W) c) (λ _, True)).
  { intros. eapply effects_impl; [apply Hi|apply effects_run_compactor]. }
  assert (H3 : ∀ c, effects (is_heard compactor_SetupWithManager) (Update (W:=Logged W) (set_cmp_Finalizers [] c)) (λ _, True)).
  { intros. unfold Update. apply effects_step; [apply effects_record; simpl; decide_in|]. intros o. by apply effects_option. }
  unfold CompactorReconciler_Reconcile. reads.
Qed.

Lemma ingester_heard req :
  effects (is_heard ingester_SetupWithManager) (IngesterReconciler_Reconcile (W:=Logged W) req) (λ _, True).
Proof.
  assert (H : ∀ svc i, effects (is_heard ingester_SetupWithManager) (ingester_Reconcile (W:=Logged W) svc i) (λ _, True)).
  { intros. eapply effects_impl; [|apply effects_ingester_Reconcile]. intros c Hc.
    destruct c as [| |o|o|o|o]; simpl in *; try done; destruct Hc as [Hc|Hc]; injection Hc as Hc _ _; rewrite Hc; decide_in. }
  unfold IngesterReconciler_Reconcile, run_ingester. reads.
Qed.

Lemma no_requeue_heard (c : Controller (Logged W)) (m : M (Logged W) unit) :
  effects (is_heard c) m (λ _, True) → effects (is_heard c) (no_requeue m) (λ _, True).
Proof. intros Hm. apply effects_step; [done|]. intros _. by apply effects_ret. Qed.

Lemma controllers_heard :
  Forall (λ c : Controller (Logged W), ∀ req, effects (is_heard c) (ct_Reconcile c req) (λ _, True)) addControllers.
Proof.
  repeat (apply Forall_cons; split); [..|done]; intros req.
  - apply no_requeue_heard, gateway_heard.
  - apply no_requeue_heard, frontend_heard.
  - apply no_requeue_heard, query_heard.
  - apply no_requeue_heard, router_heard.
  - apply no_requeue_heard, store_heard.
  - apply no_requeue_heard, compactor_heard.
  - apply ingester_heard.
  - apply no_requeue_heard, ruler_heard.
  - apply no_requeue_heard, tenant_heard.
  - apply no_requeue_heard, storage_heard.
Qed.

(** C26: no reconciliation works on what its controller does not hear of: every
    kind of object that reconciling lists is one whose events its controller
    receives, except the tenants a store selects and the gateways and namespaces
    a ruler reads; every kind it creates or updates is too, except the secrets of
    web configurations. *)
Theorem reconciled_kinds_are_heard (c : Controller (Logged W)) (req : NamespacedName) (w : W) :
  c ∈ addControllers → Forall (is_heard c) (calls_from (ct_Reconcile c req) w).
Proof.
  intros Hc. apply (effects_calls _ _ (λ _, True)).
  pose proof controllers_heard as H. rewrite list.Forall_forall in H. by apply H.
Qed.
End reads.

(** ** Events *)

Section events.
Context {W : Type} {HK : Kube W} {HL : K8sLib} {HM : MapRange} {HB : BaseLib} {HC : Clock} {HW : WorkLib} {HE : WebLib}.
Context {HQ : QueryLib} {HF : FrontendLib} {HG : GatewayLib} {HRo : RouterLib} {HR : RulerLib} {HS : StoreLib} {HCo : CompactorLib}.
Context {HRt : RuntimeLib W}.

(** The cache answers a list with the objects it holds that match. *)
Context (objs : W → list Object).
Context (Hlist : ∀ k opts w, kube_list k opts w = (Ok (filter (λ o, mem_matches k opts o = true) (objs w)), w)).
(** Reading from it changes nothing. *)
Context (Hget : ∀ k key, keeps (kube_get (W:=W) k key)).

Lemma listed {A} `{!Resource A} opts (a : A) w :
  r_obj a ∈ objs w → mem_matches r_kind opts (r_obj a) = true →
  ∃ items, List (A:=A) opts w = (Ok items, w) ∧ a ∈ items.
Proof.
  intros Ha Hm. eexists. split.
  - unfold List. rewrite (bind_step _ _ _ _ _ (Hlist r_kind opts w)). reflexivity.
  - apply list_elem_of_omap. exists (r_obj a). split; [|apply r_of_obj]. by apply list_elem_of_filter.
Qed.

Lemma map_listed {A} `{!Resource A} opts (f : A → NamespacedName) (a : A) k w :
  r_obj a ∈ objs w → mem_matches r_kind opts (r_obj a) = true → k = f a →
  ∃ l, (items ← or_nil (List (A:=A) opts); mret (f <$> items)) w = (Ok l, w) ∧ k ∈ l.
Proof.
  intros Ha Hm ->. destruct (listed opts a w Ha Hm) as (items & E & Hin). exists (f <$> items). split.
  - unfold or_nil. rewrite (bind_step _ _ _ items w); [done|].
    by rewrite (bind_step _ _ _ _ _ (attempt_Ok _ _ _ _ E)).
  - by apply list_elem_of_fmap_2.
Qed.

Lemma matches_label {A} `{!Resource A} (a : A) k v :
  obj_Labels (r_obj a) !! k = Some v → mem_matches r_kind (MatchingLabels (<[k := v]> ∅)) (r_obj a) = true.
Proof.
  intros Hk. unfold mem_matches. rewrite r_obj_kind, bool_decide_true by done. simpl.
  apply SelectorFromSet_spec. intros k' v' [[<- <-]|[_ H]]%lookup_insert_Some; [done|]. by apply lookup_empty_Some in H.
Qed.

Lemma enqueued_by (c : Controller W) e w k kd f pr :
  obj_kind (ev_Object e) = kd →
  {| wt_Kind := kd; wt_Map := f; wt_Predicate := pr |} ∈ ct_Watches c → pr e = true →
  (∃ l, f (ev_Object e) w = (Ok l, w) ∧ k ∈ l) → k ∈ enqueued c e w.
Proof. intros <- Hw Hp (l & E & Hk). by apply (enqueued_Watches c e w _ l w Hw eq_refl Hp E). Qed.

(** An object that carries a label with this value. *)
Definition carries (k v : string) (x : Object) : Prop := obj_Labels x !! k = Some v.

(** A controller whose objects are listed by a label: an event whose object has
    the label's value reaches the ones that carry it. *)
Ltac by_label x :=
  eapply enqueued_by; [done|cbn; repeat first [by left|right]|by auto|];
  eapply (map_listed _ _ x); [done|by apply matches_label|done].

Lemma component_of (c : Controller W) x :
  c ∈ addControllers → obj_kind x = ct_For c →
  match x with
  | OGateway _ => c = gateway_SetupWithManager | OQueryFrontend _ => c = frontend_SetupWithManager
  | OQuery _ => c = query_SetupWithManager | ORouter _ => c = router_SetupWithManager
  | OStore _ => c = store_SetupWithManager | OCompactor _ => c = compactor_SetupWithManager
  | OIngester _ => c = ingester_SetupWithManager | ORuler _ => c = ruler_SetupWithManager
  | OTenant _ => c = tenant_SetupWithManager | OStorage _ => c = storage_SetupWithManager
  | _ => False
  end.
Proof.
  intros Hc Hk. unfold addControllers in Hc.
  repeat (apply elem_of_cons in Hc as [->|Hc]; [by destruct x|]). by apply elem_of_nil in Hc.
Qed.

(** An edited service reaches everything that is built from it: any event of
    a service enqueues, in the controller of its kind, each object that carries
    the label of that service, but the storages, which have no service, and the
    tenants that name a storage of their own. *)
Theorem service_event_reaches (c : Controller W) s x t w :
  c ∈ addControllers → x ∈ objs w → obj_kind x = ct_For c → ct_For c ≠ KStorage →
  carries ServiceLabelKey (om_Namespace (sv_Meta s) +:+ "." +:+ om_Name (sv_Meta s)) x →
  (obj_kind x = KTenant → obj_Namespace x = "" ∧ map_get (obj_Labels x) StorageLabelKey = DefaultStorage) →
  request_of x ∈ enqueued c {| ev_Type := t; ev_Object := OService s |} w.
Proof.
  intros Hc Hx Hk Hs Hl Ht. pose proof (component_of _ _ Hc Hk) as E.
  destruct x as [x|x|x|x|x|x|x|x|x|x|x| | | | | | | | |]; try done; subst c; try done; [|by_label x..].
  destruct (Ht eq_refl) as [Hns Hst]. eapply enqueued_by; [done|cbn; repeat first [by left|right]|done|].
  destruct (listed (MatchingLabels (ManagedLabelByService (sv_Meta s))) x w) as (items & E & Hin);
    [done|by apply matches_label|].
  eexists. split.
  - cbn. unfold mapToTenantByService, or_nil. rewrite (bind_step _ _ _ items w); [reflexivity|].
    by rewrite (bind_step _ _ _ _ _ (attempt_Ok _ _ _ _ E)).
  - apply list_elem_of_fmap. exists x. split; [|by apply list_elem_of_filter].
    unfold request, request_of. by rewrite Hns.
Qed.

(** Does a controller follow the components of a kind that are of the same
    service? *)
Definition follows (k : Kind) : list Kind :=
  match k with
  | KGateway => [KQuery; KQueryFrontend; KRouter; KTenant]
  | KQueryFrontend => [KQuery; KTenant]
  | KQuery => [KIngester; KStore; KRuler]
  | KRouter => [KIngester]
  | KRuler => [KQuery; KQueryFrontend; KRouter]
  | _ => []
  end.

(** C25: a changed component reaches the components that name its address or read
    its flags: an event of an ingester, store or ruler enqueues the queriers of
    its service, one of an ingester its routers, one of a querier its frontends,
    and one of a querier, frontend or router its gateways and rulers; so do the
    events of a tenant for its frontends and gateways, but the updates for the
    latter. *)
Theorem component_event_reaches (c : Controller W) x e v w :
  c ∈ addControllers → x ∈ objs w → obj_kind x = ct_For c →
  obj_kind (ev_Object e) ∈ follows (ct_For c) →
  (ct_For c = KGateway → obj_kind (ev_Object e) = KTenant → gateway_p e = true) →
  carries ServiceLabelKey v (ev_Object e) → carries ServiceLabelKey v x →
  request_of x ∈ enqueued c e w.
Proof.
  intros Hc Hx Hk Hf Hp Ho Hl. pose proof (component_of _ _ Hc Hk) as E.
  assert (Hsel : ManagedLabelBySameService (obj_meta (ev_Object e)) = <[ServiceLabelKey := v]> ∅).
  { unfold ManagedLabelBySameService, map_get. by rewrite Ho. }
  destruct x as [x|x|x|x|x|x|x|x|x|x|x| | | | | | | | |]; try done; subst c; cbn [ct_For follows] in *.
  all: try (by apply elem_of_nil in Hf).
  all: repeat (apply elem_of_cons in Hf as [Hf|Hf]; [eapply enqueued_by; [exact Hf|cbn; repeat first [by left|right]|by auto|]|]).
  all: try (by apply elem_of_nil in Hf).
  all: unfold gateway_mapFuncBySelectorFunc, frontend_mapFuncBySelectorFunc, query_mapFuncBySelectorFunc, router_mapFuncBySelectorFunc, ruler_mapFuncBySelectorFunc; rewrite ?Hsel.
  all: by (eapply (map_listed _ _ x); [done|by apply matches_label|done]).
Qed.

(** An update of a tenant, a new label or the start of its deletion, reaches
    no gateway: the tenants a gateway admits are computed again only when a
    tenant is created or gone, or another object changes. *)
Theorem tenant_update_unheard old t w :
  enqueued gateway_SetupWithManager {| ev_Type := UpdateEvent old; ev_Object := OTenant t |} w = [].
Proof.
  destruct (enqueued _ _ _) as [|k l] eqn:E; [done|]. exfalso.
  destruct (enqueued_only gateway_SetupWithManager {| ev_Type := UpdateEvent old; ev_Object := OTenant t |} w k)
    as [H|[H|(wt & Hw & Hk & Hp)]]; [rewrite E; by left|done|set_solver|].
  cbn in Hw. repeat (apply elem_of_cons in Hw as [->|Hw]; [done|]). by apply elem_of_nil in Hw.
Qed.

(** ** The rotation of a secret *)

(** A storage of the namespace can be asked for its secrets: its two keys are
    there. *)
Definition has_keys (s : Storage) : Prop :=
  ∀ s3, sto_S3 (stg_Spec s) = Some s3 → is_Some (s3_AccessKey s3) ∧ is_Some (s3_SecretKey s3).

(** The secrets that an S3 storage reads: its two keys and the material of its
    TLS connection. *)
Definition s3_secrets (s3 : S3) : list SecretKeySelector :=
  let tls := h_TLSConfig (s3_HTTPConfig s3) in
  omap id [s3_AccessKey s3; s3_SecretKey s3; tls_CA tls; tls_Cert tls; tls_Key tls].

Lemma refers_to_spec name s3 :
  is_Some (s3_AccessKey s3) → is_Some (s3_SecretKey s3) →
  refers_to name s3 = Ok (bool_decide (name ∈ sks_Name <$> s3_secrets s3)).
Proof.
  intros [a Ha] [k Hk]. unfold refers_to, s3_secrets. rewrite Ha, Hk. cbn [omap list_omap id fmap list_fmap].
  destruct (String.eqb_spec (sks_Name a) name) as [->|Ha'].
  { by rewrite bool_decide_true by set_solver. }
  f_equal. apply eq_bool_prop_intro. rewrite bool_decide_spec, Is_true_true, !orb_true_iff, String.eqb_eq.
  destruct (tls_CA _), (tls_Cert _), (tls_Key _); cbn; rewrite ?String.eqb_eq; set_solver.
Qed.

Lemma refers_to_total name s3 :
  is_Some (s3_AccessKey s3) → is_Some (s3_SecretKey s3) → ∃ b, refers_to name s3 = Ok b.
Proof. intros Ha Hk. rewrite refers_to_spec by done. by eexists. Qed.

Lemma storage_requests name items (w : W) :
  Forall has_keys items → ∀ acc, ∃ l,
    fold_each (storage_request (W:=W) name) acc items w = (Ok l, w)
    ∧ acc ⊆ l
    ∧ ∀ s s3, s ∈ items → sto_S3 (stg_Spec s) = Some s3 → refers_to name s3 = Ok true → request_of (OStorage s) ∈ l.
Proof.
  induction 1 as [|s items Hs _ IH]; intros acc.
  { exists acc. split_and!; [done|done|]. intros s s3 H. by apply elem_of_nil in H. }
  assert (Hstep : ∃ acc', storage_request name acc s w = (Ok acc', w) ∧ acc ⊆ acc'
    ∧ ∀ s3, sto_S3 (stg_Spec s) = Some s3 → refers_to name s3 = Ok true → request_of (OStorage s) ∈ acc').
  { unfold storage_request. destruct (sto_S3 (stg_Spec s)) as [s3|] eqn:E; [|by exists acc].
    destruct (Hs s3 E) as [Ha Hk]. destruct (refers_to_total name s3 Ha Hk) as [b Hb].
    rewrite Hb. destruct b; eexists; (split; [reflexivity|]); (split; [set_solver|]); intros s4 [= <-] H; [set_solver|congruence]. }
  destruct Hstep as (acc' & E & Hsub & Hin). destruct (IH acc') as (l & El & Hl & Hrest).
  exists l. split; [|split].
  - simpl. by rewrite (bind_step _ _ _ _ _ E).
  - set_solver.
  - intros s' s3 [->|H]%elem_of_cons E3 Hr; [|by eapply Hrest]. by apply Hl, (Hin s3).
Qed.

Lemma secret_event_reaches (s : Storage) s3 sec e w :
  ev_Object e = OSecret sec → OStorage s ∈ objs w → sto_S3 (stg_Spec s) = Some s3 →
  om_Namespace (stg_Meta s) = om_Namespace (sec_Meta sec) → refers_to (om_Name (sec_Meta sec)) s3 = Ok true →
  (∀ x, OStorage x ∈ objs w → has_keys x) →
  request_of (OStorage s) ∈ enqueued storage_SetupWithManager e w.
Proof.
  intros Hev Hs H3 Hns Hr Hkeys. eapply enqueued_by; [by rewrite Hev|by left|done|]. rewrite Hev.
  destruct (listed (InNamespace (obj_Namespace (OSecret sec))) s w) as (items & E & Hin); [done| |].
  { unfold mem_matches. rewrite bool_decide_true by done. simpl. unfold ns_opt.
    destruct (String.eqb_spec (obj_Namespace (OSecret sec)) ""); [done|]. rewrite andb_true_r. apply String.eqb_eq. exact Hns. }
  destruct (storage_requests (om_Name (sec_Meta sec)) items w) with (acc := @nil NamespacedName) as (l & El & _ & Hl).
  { apply list.Forall_forall. intros x Hx. apply Hkeys.
    unfold List in E. rewrite (bind_step _ _ _ _ _ (Hlist r_kind (InNamespace (obj_Namespace (OSecret sec))) w)) in E.
    inversion E as [E']. subst items. apply list_elem_of_omap in Hx as (o & Ho & Hx). apply list_elem_of_filter in Ho as [_ Ho].
    destruct o; try done. simpl in Hx. by inversion Hx; subst. }
  exists l. split; [|by eapply Hl].
  unfold mapToStoragebySecretRefFunc, or_nil. rewrite (bind_step _ _ _ items w); [done|].
  by rewrite (bind_step _ _ _ _ _ (attempt_Ok _ _ _ _ E)).
Qed.
Lemma storage_event_reaches (c : Controller W) s x t w :
  c ∈ addControllers → x ∈ objs w → obj_kind x = ct_For c → ct_For c ∈ [KStore; KCompactor; KIngester] →
  carries StorageLabelKey (storage_key s) x → request_of x ∈ enqueued c {| ev_Type := t; ev_Object := OStorage s |} w.
Proof.
  intros Hc Hx Hk Hf Hl. pose proof (component_of _ _ Hc Hk) as E.
  destruct x as [x|x|x|x|x|x|x|x|x|x|x| | | | | | | | |]; try done; subst c; cbn [ct_For] in Hf; try (exfalso; set_solver);
    by_label x.
Qed.

(** C24: a rotated secret reaches the pods that read it: an event of a secret that an
    S3 storage of its namespace reads, for a key or for TLS, enqueues the storage
    (provided every S3 storage in the cluster refers to both its keys: the handler
    of the event dereferences them); reconciling it
    writes the new hash of the configuration and the secrets into its annotation,
    once; that event of the storage enqueues every store, compactor and ingester
    that carries its label; and the pods of such a store or compactor, unless raw
    containers patch them, carry in their environment the hash that the storage
    has in the world in which they are built, so that a new one restarts them. *)
Theorem secret_rotation_reaches_pods (s : Storage) s3 sec e h w w' :
  ev_Object e = OSecret sec → OStorage s ∈ objs w → sto_S3 (stg_Spec s) = Some s3 →
  om_Namespace (stg_Meta s) = om_Namespace (sec_Meta sec) → om_Name (sec_Meta sec) ∈ sks_Name <$> s3_secrets s3 →
  (∀ x, OStorage x ∈ objs w → has_keys x) → GetStorageHash (storage_key s) w = (Ok h, w') →
  request_of (OStorage s) ∈ enqueued storage_SetupWithManager e w
  ∧ updateHashAnnotation s w
    = (Ok (if bool_decide (om_Annotations (stg_Meta s) !! LabelNameStorageHash = Some h) then None
           else Some (OStorage (with_hash s h), OperationCreateOrUpdate)), w')
  ∧ om_Annotations (stg_Meta (with_hash s h)) !! LabelNameStorageHash = Some h
  ∧ (∀ (c : Controller W) x t w1,
       c ∈ addControllers → x ∈ objs w1 → obj_kind x = ct_For c → ct_For c ∈ [KStore; KCompactor; KIngester] →
       carries StorageLabelKey (storage_key s) x →
       request_of x ∈ enqueued c {| ev_Type := t; ev_Object := OStorage (with_hash s h) |} w1)
  ∧ (∀ st name sn tr h1 (w1 w1' w2 : W) o op,
       Containers (ssp_Common (st_Spec st)) = "" → store_label st StorageLabelKey = storage_key s →
       GetStorageHash (storage_key s) w1 = (Ok h1, w1') →
       store_statefulSet st name sn tr w1 = (Ok (Some (o, op)), w2) → hash_in_pods h1 o)
  ∧ (∀ cmp h1 (w1 w1' w2 : W) o op,
       Containers (csp_Common (cmp_Spec cmp)) = "" → compactor_label cmp StorageLabelKey = storage_key s →
       GetStorageHash (storage_key s) w1 = (Ok h1, w1') →
       compactor_statefulSet cmp w1 = (Ok (Some (o, op)), w2) → hash_in_pods h1 o).
Proof.
  intros He Hs H3 Hns Hr Hkeys Hh. split; [eapply secret_event_reaches; try done|]. {
    destruct (Hkeys s Hs s3 H3) as [Ha Hk]. by rewrite refers_to_spec, bool_decide_true. }
  split.
  { unfold updateHashAnnotation. rewrite (bind_step _ _ _ _ _ Hh).
    destruct (om_Annotations (stg_Meta s) !! LabelNameStorageHash) as [v|]; [|done].
    destruct (String.eqb_spec v h) as [->|Hv]; [by rewrite bool_decide_true|].
    by rewrite bool_decide_false by congruence. }
  split; [apply lookup_insert_eq|]. split; [intros; by apply storage_event_reaches|]. split.
  - intros st name sn tr h1 w1 w1' w2 o op Hraw <- Hh1 Hrun.
    apply (store_carries_hash Hget) in Hrun as (h2 & w3 & Hh2 & Hp); [|done]. rewrite Hh1 in Hh2. by inversion Hh2; subst.
  - intros cmp h1 w1 w1' w2 o op Hraw <- Hh1 Hrun.
    apply (compactor_carries_hash Hget) in Hrun as (h2 & w3 & Hh2 & Hp); [|done]. rewrite Hh1 in Hh2. by inversion Hh2; subst.
Qed.
End events.
