(* ===== verification/GatewayWorkloadFacts.v ===== *)
(** What the gateway's workload guarantees: the tenants its configuration admits,
    the upstreams it is started with, and that the rulers' credentials are the
    ones it accepts. *)
From stdpp Require Import base gmap strings list pretty sorting.
From Stdlib Require Import Ascii String.
From S2P Require Import Prelude GoStd K8s Api Objects Client Base Workload Web WorkloadFacts Tenant GoNet GoNetFacts Gateway GatewayFacts Watcher Ingester Router Query QueryFrontend QueryFacts Ruler GatewayWorkload RulerWorkload.
Open Scope nat_scope.

(** ** Admission, from the tenants' objects to the handler *)

Section admission.
Context {W : Type} {HK : Kube W} {HL : K8sLib} {HM : MapRange} {HB : BaseLib} {HE : WebLib} {HG : GatewayLib} {HW : WatchLib}.

(** A tenant that is not being deleted and carries the label of the gateway's service. *)
Definition live_member (g : Gateway) (x : Tenant) : Prop :=
  time_IsZero (om_DeletionTimestamp (tn_Meta x)) = true
  ∧ om_Labels (tn_Meta x) !! ServiceLabelKey = Some (map_get (om_Labels (gw_Meta g)) ServiceLabelKey).

Lemma tenant_admitted_spec g x : tenant_admitted g x = true ↔ live_member g x.
Proof.
  unfold tenant_admitted, live_member. rewrite andb_true_iff. apply and_iff_compat_l.
  destruct (om_Labels (tn_Meta x) !! ServiceLabelKey) as [v|]; [|done].
  rewrite String.eqb_eq. split; [by intros ->|by intros [= ->]].
Qed.

Lemma admitted_spec g items t :
  t ∈ admitted_tenants g items ↔ ∃ x, x ∈ items ∧ live_member g x ∧ tsp_Tenant (tn_Spec x) = t.
Proof.
  unfold admitted_tenants. rewrite list_elem_of_fmap. split.
  - intros (x & -> & [Ha Hx]%list_elem_of_filter). exists x. by rewrite <-tenant_admitted_spec.
  - intros (x & Hx & Ha & <-). exists x. split; [done|]. apply list_elem_of_filter. by rewrite tenant_admitted_spec.
Qed.

(** C4: tenant admission end to end, when the watcher's JSON decoder reads what the
    operator's encoder wrote: the config map of the gateway, mounted in its pod
    as the file its flag names, is loaded to the names of the tenants that are
    live and of the gateway's service, and a handler that is given it after any
    earlier configurations admits those tenants and no others. *)
Theorem gateway_admits_its_tenants svc g (w w' : W) o options before :
  (∀ l data, json_AdmissionConfig l = inr data → json_Tenants data = inr l ∧ data ≠ "") →
  gsp_EnabledTenantsAdmission (gw_Spec g) = true →
  tenantsAdmissionConfigMap svc g w = (Ok (Some (o, OperationCreateOrUpdate)), w') →
  o_EnabledTenantsAdmission options = true → Forall (λ c, "/-/" ∉ c) before →
  ∃ items cm data tenants hash,
    List (A:=Tenant) everywhere w = (Ok items, w')
    ∧ o = OConfigMap cm ∧ cm_Data cm !! tenantsAdmissionConfigFile = Some data
    ∧ admission_volumes g = ([config_volume "tenants-admission-config" (om_Name (cm_Meta cm))],
                             [ro_mount "tenants-admission-config" WhizardConfigMountPath])
    ∧ ("--tenant.admission-control-config-file=" +:+ WhizardConfigMountPath +:+ tenantsAdmissionConfigFile)
        ∈ gateway_base_args svc g (gsp_WebConfig (gw_Spec g))
    ∧ loadConfig (Some data) = inr (tenants, hash)
    ∧ (Forall (λ x, tsp_Tenant (tn_Spec x) ≠ "/-/") items →
       ∃ m, set_all options ∅ (before ++ [tenants]) = Ok m
            ∧ ∀ t, t ≠ "/-/" → (is_Some (m !! t) ↔
                ∃ x, x ∈ items ∧ live_member g x ∧ tsp_Tenant (tn_Spec x) = t)).
Proof.
  intros Hjson Hen H Hopt Hbefore. unfold tenantsAdmissionConfigMap in H. rewrite Hen in H.
  apply bind_Ok_inv in H as (items & w1 & Hl & H). apply bind_Ok_inv in H as (data & w2 & Hd & H).
  destruct (json_AdmissionConfig (admitted_tenants g items)) as [e|d] eqn:Ej; [done|]. inversion Hd; subst.
  apply owned_by_inv in H as (_ & <- & refs & ->). destruct (Hjson _ _ Ej) as [Hdec Hne].
  eexists items, _, data, (admitted_tenants g items), _. split; [done|]. split; [done|].
  split; [apply lookup_insert_eq|]. split; [unfold admission_volumes; by rewrite Hen|]. split.
  { unfold gateway_base_args. rewrite Hen, !elem_of_app. do 5 right. left. by left. }
  split.
  { unfold loadConfig, ParseConfig. apply String.eqb_neq in Hne. by rewrite Hne, Hdec. }
  intros Hbad. assert (Hgood : "/-/" ∉ admitted_tenants g items).
  { rewrite admitted_spec. intros (x & Hx & _ & Ht). rewrite list.Forall_forall in Hbad. by apply (Hbad x). }
  destruct (set_all_refines options Hopt ∅ None (before ++ [admitted_tenants g items]) eq_refl) as (m & Hm & Ha).
  { apply Forall_app. split; [done|]. by apply Forall_singleton. }
  exists m. split; [done|]. rewrite last_snoc in Ha. destruct Ha as [_ Ha]. intros t Ht.
  by rewrite (Ha t Ht), admitted_spec.
Qed.
End admission.

(** ** Upstreams *)

Section upstreams.
Context {W : Type} {HK : Kube W} {HL : K8sLib} {HG : GatewayLib}.

(** The address of a component of a service. *)
Definition served_at (scheme name ns : string) (port : Z) : string :=
  scheme +:+ "://" +:+ name +:+ "." +:+ ns +:+ ".svc:" +:+ itoa port.
Definition scheme_of (wc : option WebConfig) : string := if server_tls wc then "https" else "http".

Lemma only_one_inv {A} svc what none (address : A → M W string) items (w w' : W) addr :
  only_one svc what none address items w = (Ok addr, w') →
  (items = [] ∧ none w = (Ok addr, w')) ∨ ∃ a, items = [a] ∧ address a w = (Ok addr, w').
Proof. destruct items as [|a [|b l]]; simpl; [by left|by right; exists a|done]. Qed.

(** What a lookup of the only component found. *)
Definition found {A} (items : list A) (address : A → Service → string) (addr : string) : Prop :=
  (items = [] ∧ addr = "") ∨ ∃ a svc, items = [a] ∧ addr = address a svc.

Lemma queryfrontend_found svc g (w w' : W) addr :
  queryfrontendAddress svc g w = (Ok addr, w') → ∃ items w1,
    List (A:=QueryFrontend) (same_service g) w = (Ok items, w1)
    ∧ found items (λ q s, served_at (scheme_of (qfs_WebConfig (qf_Spec q))) (frontend_name q [ServiceNameSuffix])
                            (om_Namespace (sv_Meta s)) HTTPPort) addr.
Proof.
  unfold queryfrontendAddress. intros (items & w1 & Hl & H)%bind_Ok_inv. exists items, w1. split; [done|].
  apply only_one_inv in H as [[-> H]|(q & -> & H)]; [left; by inversion H|].
  apply bind_Ok_inv in H as (s & w2 & _ & H). inversion H; subst. right. exists q, s. split; [done|].
  unfold scheme_of. by destruct (server_tls _).
Qed.

Lemma query_found svc g (w w' : W) addr :
  gateway_queryAddress svc g w = (Ok addr, w') → ∃ items w1,
    List (A:=Query) (same_service g) w = (Ok items, w1)
    ∧ found items (λ q s, served_at (scheme_of (qsp_WebConfig (q_Spec q))) (query_name q [ServiceNameSuffix])
                            (om_Namespace (sv_Meta s)) HTTPPort) addr.
Proof.
  unfold gateway_queryAddress. intros (items & w1 & Hl & H)%bind_Ok_inv. exists items, w1. split; [done|].
  apply only_one_inv in H as [[-> H]|(q & -> & H)]; [left; by inversion H|].
  apply bind_Ok_inv in H as (s & w2 & _ & H). inversion H; subst. right. exists q, s. split; [done|].
  unfold scheme_of. by destruct (server_tls _).
Qed.

Lemma parse_or_inv err url (w w' : W) u : parse_or err url w = (Ok u, w') → url_Parse url = inr u ∧ w' = w.
Proof. unfold parse_or. destruct (url_Parse url); [done|]. by intros [= -> ->]. Qed.

Lemma frontend_or_query_inv svc fa qa (w w' : W) addr :
  frontend_or_query svc fa qa w = (Ok addr, w') → addr ≠ "" ∧ w' = w ∧ addr = if String.eqb fa "" then qa else fa.
Proof.
  unfold frontend_or_query. cbv zeta. destruct (String.eqb_spec (if String.eqb fa "" then qa else fa) "") as [|Hne]; [done|].
  intros [= <- <-]. done.
Qed.

Lemma local_query_inv svc fa qa (w w' : W) args :
  sv_RemoteQuery (sv_Spec svc) = None → query_upstream_args svc fa qa w = (Ok args, w') →
  let addr := if String.eqb fa "" then qa else fa in
  ∃ u, w' = w ∧ addr ≠ "" ∧ url_Parse addr = inr u ∧ args = ["--query.address=" +:+ addr] ++ tls_arg "--query.config=" u.
Proof.
  intros Hrq. unfold query_upstream_args. rewrite Hrq. intros (addr & w1 & Ha & H)%bind_Ok_inv.
  apply bind_Ok_inv in H as (u & w2 & Hu & H). apply frontend_or_query_inv in Ha as (Hne & -> & ->).
  apply parse_or_inv in Hu as [Hu ->]. inversion H; subst. by exists u.
Qed.

Lemma router_upstream_inv svc g qa (w w' : W) args :
  router_upstream_args svc g qa w = (Ok args, w') →
  ∃ router rsvc w1 u, List (A:=Router) (same_service g) w = (Ok [router], w1)
    ∧ url_Parse (router_RemoteWriteAddr rsvc router) = inr u
    ∧ args = ["--remote-write.address=" +:+ router_RemoteWriteAddr rsvc router] ++ tls_arg "--remote-write.config=" u.
Proof.
  unfold router_upstream_args, remoteWriteAddress. intros (a & w1 & Ha & H)%bind_Ok_inv.
  apply bind_Ok_inv in Ha as (items & w2 & Hl & Ha). apply only_one_inv in Ha as [[_ Ha]|(r & -> & Ha)]; [done|].
  apply bind_Ok_inv in Ha as (s & w3 & _ & Ha). inversion Ha; subst.
  apply bind_Ok_inv in H as (u & w4 & Hu & H). apply parse_or_inv in Hu as [Hu _]. inversion H; subst.
  by exists r, s, w2, u.
Qed.

(** Without a remote query, the gateway is started only when its service has a
    router and a query frontend or a querier, and at most one of each; it sends
    its queries to the frontend when there is one and to the querier when there
    is none, the writes to the router, and skips the verification of a
    certificate exactly when the address is https. *)
Theorem gateway_upstreams svc g (w w' : W) args :
  sv_RemoteQuery (sv_Spec svc) = None → upstream_args svc g w = (Ok args, w') →
  ∃ frontends queries w1 w2 w3 fa qa rsvc router w4 w5 u ru rest,
    List (A:=QueryFrontend) (same_service g) w = (Ok frontends, w1)
    ∧ List (A:=Query) (same_service g) w2 = (Ok queries, w3)
    ∧ List (A:=Router) (same_service g) w4 = (Ok [router], w5)
    ∧ found frontends (λ q s, served_at (scheme_of (qfs_WebConfig (qf_Spec q))) (frontend_name q [ServiceNameSuffix])
                                (om_Namespace (sv_Meta s)) HTTPPort) fa
    ∧ found queries (λ q s, served_at (scheme_of (qsp_WebConfig (q_Spec q))) (query_name q [ServiceNameSuffix])
                              (om_Namespace (sv_Meta s)) HTTPPort) qa
    ∧ (frontends ≠ [] ∨ queries ≠ [])
    ∧ let addr := match frontends with [] => qa | _ => fa end in
      url_Parse addr = inr u ∧ url_Parse (router_RemoteWriteAddr rsvc router) = inr ru
      ∧ args = ["--query.address=" +:+ addr] ++ tls_arg "--query.config=" u
               ++ ["--remote-write.address=" +:+ router_RemoteWriteAddr rsvc router]
               ++ tls_arg "--remote-write.config=" ru ++ ["--external-remote-writes.config=" +:+ rest].
Proof.
  intros Hrq. unfold upstream_args. intros (fa & w1 & Hf & H)%bind_Ok_inv.
  apply bind_Ok_inv in H as (qa & w2 & Hq & H). apply bind_Ok_inv in H as (qs & w3 & Ha & H).
  apply bind_Ok_inv in H as (ws & w4 & Hr & H). apply bind_Ok_inv in H as (es & w5 & He & H).
  apply local_query_inv in Ha as (u & -> & Hne & Hu & ->); [|done].
  apply router_upstream_inv in Hr as (router & rsvc & wr & ru & Hrl & Hru & ->).
  apply bind_Ok_inv in He as (cfgs & we & _ & He). apply bind_Ok_inv in He as (rest & we' & _ & He).
  destruct (queryfrontend_found _ _ _ _ _ Hf) as (frontends & wf & Hfl & Hff).
  destruct (query_found _ _ _ _ _ Hq) as (queries & wq & Hql & Hqf).
  exists frontends, queries, wf, w1, wq, fa, qa, rsvc, router, w2, wr, u, ru, rest. do 5 (split; [done|]).
  assert (Hfa : String.eqb fa "" = match frontends with [] => true | _ => false end).
  { destruct Hff as [[-> ->]|(a & s & -> & ->)]; [done|]. unfold served_at, scheme_of. by destruct (server_tls _). }
  rewrite Hfa in *. split.
  - destruct frontends; [|by left]. right. intros ->. destruct Hqf as [[_ ->]|(a & s & [=] & _)]. done.
  - cbv zeta. inversion H; inversion He; subst. by destruct frontends.
Qed.

(** With a remote query the address of the rules is not the one that was
    checked: the frontend's presence is enough, and then the rules are read from
    the empty address when there is no querier; and whether the certificate of
    the querier is verified is decided by the scheme of the frontend. *)
Theorem rules_address_is_not_checked svc rq fa qa (w w' : W) args :
  fa ≠ "" → remote_query_args svc rq fa qa w = (Ok args, w') →
  ("--rules-query.address=" +:+ qa) ∈ args
  ∧ (∀ u, url_Parse fa = inr u → HasScheme "https" u = false →
     ∀ buff, ("--rules-query.config=" +:+ buff) ∉ args).
Proof.
  intros Hfa. unfold remote_query_args. intros (ru & w1 & Hru & H)%bind_Ok_inv.
  apply bind_Ok_inv in H as (auth & w2 & _ & H). cbv zeta in H.
  apply bind_Ok_inv in H as (addr & w3 & Ha & H). apply bind_Ok_inv in H as (u & w4 & Hu & H).
  apply frontend_or_query_inv in Ha as (_ & _ & ->). apply String.eqb_neq in Hfa. rewrite Hfa in Hu.
  apply parse_or_inv in Hu as [Hu _]. apply (f_equal fst) in H. simpl in H. injection H as <-. split.
  - apply elem_of_cons. right. apply elem_of_app. right. by left.
  - intros u' Hu' Hs buff. rewrite Hu in Hu'. inversion Hu'; subst. unfold tls_arg. rewrite Hs.
    intros Hin%list_elem_of_In. destruct (decide _); simpl in Hin; naive_solver.
Qed.
End upstreams.

(** ** The built-in user *)

Section built_in.
Context {W : Type} {HK : Kube W} {HL : K8sLib} {HM : MapRange} {HB : BaseLib} {HE : WebLib} {HG : GatewayLib} {HR : RulerLib}.

Lemma fold_each_snoc {A B} (f : B → A → M W B) b l x :
  ∀ (w w' : W) r, fold_each f b (l ++ [x]) w = (Ok r, w') → ∃ b' w1, fold_each f b l w = (Ok b', w1) ∧ f b' x w1 = (Ok r, w').
Proof.
  revert b. induction l as [|y l IH]; intros b w w' r H.
  - exists b, w. split; [done|]. simpl in H. apply bind_Ok_inv in H as (b1 & w1 & H & E). by inversion E; subst.
  - simpl in H. apply bind_Ok_inv in H as (b1 & w1 & H1 & H). destruct (IH _ _ _ _ H) as (b' & w2 & H2 & H3).
    exists b', w2. split; [|done]. simpl. by rewrite (bind_step _ _ _ _ _ H1).
Qed.

(** Reading leaves the world as it is. *)
Context (Hread : ∀ k key (w : W), (kube_get k key w).2 = w).

Lemma kube_get_keeps k key : keeps (kube_get (W:=W) k key).
Proof. intros w r w' H. by rewrite <-(Hread k key w), H. Qed.

Lemma keeps_SetService m : keeps (SetService (W:=W) m).
Proof.
  unfold SetService. destruct (String.eqb _ _); [intros w r w' H; by inversion H|].
  do 2 (apply keeps_bind; [intros w r w' H; by inversion H|]; intros ?).
  apply keeps_bind; [apply (keeps_Get kube_get_keeps)|]. intros s w r w' H. by inversion H.
Qed.

Lemma keeps_fold {A B} (f : B → A → M W B) l : (∀ b x, keeps (f b x)) → ∀ b, keeps (fold_each f b l).
Proof.
  intros Hf. induction l as [|x l IH]; intros b; [intros w r w' H; by inversion H|].
  apply keeps_bind; [apply Hf|done].
Qed.

Lemma keeps_add_user ns users ba : keeps (add_user (W:=W) ns users ba).
Proof.
  apply keeps_bind; [apply (keeps_Get kube_get_keeps)|]. intros u. apply keeps_bind; [apply (keeps_Get kube_get_keeps)|].
  intros p w r w' H. by inversion H.
Qed.

(** C6: the rulers are let in by the gateway: when the secret of the built-in user
    is the one the gateway's reconciliation generates, as the API server keeps
    it, the web configuration the gateway is started with has the user with the
    hash of the password that the rulers of its service send, whatever users
    the specification lists before it. *)
Theorem gateway_lets_its_rulers_in svc g wc sec hash (w w' : W) secret op wc' :
  gsp_WebConfig (gw_Spec g) = Some wc → wc_BasicAuthUsers wc ≠ [] →
  bcrypt_GenerateFromPassword (randomString "password" 32) = inr hash →
  sec_Data sec = sec_StringData (built_in_secret svc g (randomString "user" 16) hash (randomString "password" 32)) →
  Get (A:=Secret) {| nn_Namespace := om_Namespace (gw_Meta g); nn_Name := built_in_user g |} w = (Ok sec, w) →
  gateway_webConfigSecret svc g (Some wc) w = (Ok (Some (OSecret secret, op), wc'), w') →
  (∃ file, yaml_Marshal_web file = inr (map_get (sec_Data secret) WhizardWebConfigFile)
           ∧ wf_Users file !! randomString "user" 16 = Some hash)
  ∧ ∀ s, SetService (gw_Meta g) w = (Ok s, w) →
      gateway_user g w = (Ok (randomString "user" 16, randomString "password" 32), w).
Proof.
  intros Hwc Husers _. generalize (randomString "user" 16) (randomString "password" 32). intros user clear Hdata Hsec H.
  assert (Hget : map_get (sec_Data sec) "username" = user ∧ map_get (sec_Data sec) "password" = hash
                 ∧ map_get (sec_Data sec) "cpassword" = clear).
  { rewrite Hdata. unfold map_get. cbn [sec_StringData built_in_secret]. by simplify_map_eq. }
  destruct Hget as (Huser & Hpass & Hclear). split.
  - unfold gateway_webConfigSecret in H. destruct (wc_BasicAuthUsers wc) as [|u us] eqn:Eu; [done|].
    apply bind_Ok_inv in H as (wc1 & w1 & H1 & H). apply bind_Ok_inv in H1 as ([] & w2 & He & H1).
    unfold ensure_built_in_user in He. apply bind_Ok_inv in He as (found & w0 & Hf & He). unfold attempt in Hf.
    rewrite Hsec in Hf. inversion Hf; subst found w0. inversion He; subst w2. inversion H1; subst wc1 w1.
    apply bind_Ok_inv in H as (s & w3 & H & Hs). inversion Hs; subst. unfold web_config_secret in H.
    apply bind_Ok_inv in H as (body & w4 & Hbody & H). apply owned_by_inv in H as (_ & _ & refs & E).
    inversion E; subst. cbn [obj_set_meta sec_Data]. unfold CreateWebConfig in Hbody.
    apply bind_Ok_inv in Hbody as (users & w5 & Hu & Hbody).
    destruct (yaml_Marshal_web _) as [e|b] eqn:Ey; [done|]. inversion Hbody; subst. eexists. split.
    { cbn [set_sec_Meta sec_Data]. unfold map_get. rewrite lookup_insert_eq. exact Ey. }
    cbn [wf_Users]. unfold createBasicAuthUsers in Hu. cbn [wc_BasicAuthUsers add_built_in] in Hu.
    apply fold_each_snoc in Hu as (users' & w6 & Hus & Hu).
    apply (keeps_fold _ _ (keeps_add_user _)) in Hus. subst w6. unfold add_user in Hu. cbn [sks_Name ba_Username ba_Password built_in_auth] in Hu.
    apply bind_Ok_inv in Hu as (s1 & w7 & Hs1 & Hu). rewrite Hsec in Hs1. inversion Hs1; subst.
    apply bind_Ok_inv in Hu as (s2 & w8 & Hs2 & Hu). rewrite Hsec in Hs2. inversion Hs2; subst. inversion Hu; subst.
    apply lookup_insert_eq.
  - intros s Hs. unfold gateway_user, has_users. rewrite Hwc. destruct (wc_BasicAuthUsers wc); [done|].
    unfold getBuiltInUser, GetValueFromSecret, getValueFromSecret. cbv zeta. rewrite (bind_step _ _ _ _ _ Hs). cbn [sks_Name sks_Key].
    repeat (erewrite bind_step; [|erewrite bind_step; [reflexivity|apply Hsec]]).
    by rewrite Huser, Hclear.
Qed.
End built_in.
