(* ===== verification/CommandFacts.v ===== *)
(** What the commands guarantee when they are started by the operator: the
    gateway and the block manager read from their command lines what the custom
    resources say. *)
From stdpp Require Import base gmap strings list pretty sorting.
From Stdlib Require Import Ascii String.
From S2P Require Import Prelude GoStd K8s Api Objects Client Base Workload Web WorkloadFacts Url Tenant GoNet GoNetFacts Duration Gateway GatewayFacts Watcher Ingester Router Query QueryFrontend QueryFacts GatewayWorkload GatewayWorkloadFacts BlockManager Block Flags Proxy GatewayCommand AgentCommand Controllers ManagerCommand.
Open Scope nat_scope.

(** ** Command lines *)

Lemma opt_given_names n v : (opt_given n v).*1 `sublist_of` [n].
Proof. unfold opt_given. destruct (String.eqb v ""); [apply sublist_nil_l|done]. Qed.

(** The first flags of a command that has others. *)
Lemma flag_named_app flags others n :
  is_Some (flag_named flags n) → flag_named (flags ++ others) n = flag_named flags n.
Proof.
  unfold flag_named. destruct (list_find _ flags) as [[i f]|] eqn:E; [|by intros [? ?]]. intros _.
  by rewrite (list_find_app_l _ _ _ _ _ E).
Qed.

Lemma may_give_app flags others nv : may_give flags nv = true → may_give (flags ++ others) nv = true.
Proof.
  unfold may_give. destruct (flag_named flags nv.1) as [f|] eqn:E; [|done].
  by rewrite flag_named_app, E by eauto.
Qed.

Lemma flag_arg_app flags others nv :
  may_give flags nv = true → flag_arg (flags ++ others) nv = flag_arg flags nv.
Proof.
  unfold may_give, flag_arg. destruct (flag_named flags nv.1) as [f|] eqn:E; [|done].
  by rewrite flag_named_app, E by eauto.
Qed.

Lemma flag_args_app flags others given :
  Forall (λ nv, may_give flags nv = true) given →
  flag_arg (flags ++ others) <$> given = flag_arg flags <$> given.
Proof. intros H. apply list_fmap_ext. intros i nv Hi. apply flag_arg_app. by eapply list.Forall_lookup_1 in H. Qed.

Definition plain_name (f : Flag) : bool := negb (contains_char "="%char (fl_Name f)).

(** What is given to the first flags of a command. *)
Lemma well_given_app flags others given :
  NoDup (fl_Name <$> flags ++ others) → forallb plain_name (flags ++ others) = true → NoDup given.*1 → Forall (λ nv, may_give flags nv = true) given →
  well_given (flags ++ others) given = true.
Proof.
  intros Hf Hp Hg Hm. unfold well_given. rewrite !bool_decide_true by done. unfold plain_name in Hp. rewrite Hp. apply forallb_forall.
  intros nv Hin%list_elem_of_In. rewrite list.Forall_forall in Hm. by apply may_give_app, Hm.
Qed.

Lemma opt_arg_given flags flag n v :
  flag = "--" +:+ n +:+ "=" → (∃ f, flag_named flags n = Some f ∧ fl_Kind f ≠ KBool) →
  opt_arg flag v = flag_arg flags <$> opt_given n v.
Proof.
  intros -> (f & Hf & Hk). unfold opt_arg, opt_given. destruct (String.eqb v ""); [done|]. cbn [fmap list_fmap].
  unfold flag_arg. cbn [fst snd]. rewrite Hf, !append_assoc. by destruct (fl_Kind f).
Qed.

(** A flag that is found by evaluation. *)
Ltac flag_found := eexists; split; [vm_compute; reflexivity|done].

(** ** The block manager *)

Section block.
Context {HP : Pflag}.

Definition dur_given (n : string) (d : option Z) : list (string * string) :=
  match d with Some d => if (d =? 0)%Z then [] else [(n, time_Duration_String d)] | None => [] end.

Lemma dur_given_names n d : (dur_given n d).*1 `sublist_of` [n].
Proof. destruct d as [d|]; [|apply sublist_nil_l]. simpl. destruct (d =? 0)%Z; [apply sublist_nil_l|done]. Qed.

Lemma opt_duration_given flags flag n d :
  flag = "--" +:+ n +:+ "=" → (∃ f, flag_named flags n = Some f ∧ fl_Kind f ≠ KBool) →
  opt_duration flag d = flag_arg flags <$> dur_given n d.
Proof.
  intros -> (f & Hf & Hk). destruct d as [d|]; [|done]. unfold opt_duration, dur_given.
  destruct (d =? 0)%Z; [done|]. cbn [fmap list_fmap].
  unfold flag_arg. cbn [fst snd]. rewrite Hf, !append_assoc. by destruct (fl_Kind f).
Qed.

Lemma assoc_dur n k d :
  assoc n (dur_given k d) = if String.eqb k n then assoc k (dur_given k d) else None.
Proof.
  destruct d as [d|]; simpl; [|by destruct (String.eqb k n)].
  destruct (d =? 0)%Z; simpl; rewrite ?String.eqb_refl; by destruct (String.eqb k n).
Qed.

(** The duration a collector runs with. *)
Definition duration_or (dflt : Z) (d : option Z) : Z :=
  match d with Some d => if (d =? 0)%Z then dflt else d | None => dflt end.
Definition int64_duration (d : option Z) : Prop := ∀ x, d = Some x → (min_int64 ≤ x ≤ max_int64)%Z.

Lemma dur_text k dflt d :
  int64_duration d → (min_int64 ≤ dflt ≤ max_int64)%Z →
  time_ParseDuration (default (time_Duration_String dflt) (assoc k (dur_given k d))) = inr (duration_or dflt d).
Proof.
  intros Hd Hdf. destruct d as [d|]; [|by apply ParseDuration_String']. simpl.
  destruct (d =? 0)%Z; [by apply ParseDuration_String'|]. simpl. rewrite String.eqb_refl.
  by apply ParseDuration_String', Hd.
Qed.

Definition gc_given (gc : BlockGC) (cfg : string) : list (string * string) :=
  [("objstore.config", cfg)] ++ dur_given "gc.interval" (gc_GCInterval gc)
  ++ dur_given "gc.cleanup-timeout" (gc_CleanupTimeout gc)
  ++ opt_given "tenant.default-id" (gc_DefaultTenantId gc) ++ opt_given "tenant.label-name" (gc_TenantLabelName gc).

Lemma gc_args_given gc cfg : gc_args gc cfg = flag_arg block_AddFlags <$> gc_given gc cfg.
Proof.
  unfold gc_args, gc_given. rewrite !fmap_app. f_equal.
  rewrite (opt_duration_given block_AddFlags "--gc.interval=" "gc.interval"),
    (opt_duration_given block_AddFlags "--gc.cleanup-timeout=" "gc.cleanup-timeout"),
    (opt_arg_given block_AddFlags "--tenant.default-id=" "tenant.default-id"),
    (opt_arg_given block_AddFlags "--tenant.label-name=" "tenant.label-name");
    (done || flag_found).
Qed.

Lemma gc_given_names gc cfg : NoDup (gc_given gc cfg).*1.
Proof.
  eapply (sublist_NoDup _ ["objstore.config"; "gc.interval"; "gc.cleanup-timeout"; "tenant.default-id"; "tenant.label-name"]).
  - decide_in.
  - unfold gc_given. rewrite !fmap_app. apply (sublist_app _ ["objstore.config"]); [done|].
    apply (sublist_app _ ["gc.interval"]); [apply dur_given_names|].
    apply (sublist_app _ ["gc.cleanup-timeout"]); [apply dur_given_names|].
    apply (sublist_app _ ["tenant.default-id"]); apply opt_given_names.
Qed.

Lemma gc_given_legal gc cfg : Forall (λ nv, may_give block_AddFlags nv = true) (gc_given gc cfg).
Proof.
  unfold gc_given, dur_given, opt_given. rewrite !Forall_app. split_and!; [by constructor| | | |].
  - destruct (gc_GCInterval gc) as [d|]; [destruct (d =? 0)%Z|]; by repeat constructor.
  - destruct (gc_CleanupTimeout gc) as [d|]; [destruct (d =? 0)%Z|]; by repeat constructor.
  - destruct (String.eqb _ _); by repeat constructor.
  - destruct (String.eqb _ _); by repeat constructor.
Qed.

(** The texts of its flags. *)
Lemma gc_text gc cfg n :
  assoc n (gc_given gc cfg) =
    if String.eqb "objstore.config" n then Some cfg
    else if String.eqb "gc.interval" n then assoc "gc.interval" (dur_given "gc.interval" (gc_GCInterval gc))
    else if String.eqb "gc.cleanup-timeout" n
         then assoc "gc.cleanup-timeout" (dur_given "gc.cleanup-timeout" (gc_CleanupTimeout gc))
    else if String.eqb "tenant.default-id" n
         then (if String.eqb (gc_DefaultTenantId gc) "" then None else Some (gc_DefaultTenantId gc))
    else if String.eqb "tenant.label-name" n
         then (if String.eqb (gc_TenantLabelName gc) "" then None else Some (gc_TenantLabelName gc))
    else None.
Proof.
  unfold gc_given. rewrite !assoc_app, !assoc_opt, (assoc_dur n "gc.interval"), (assoc_dur n "gc.cleanup-timeout").
  cbn [assoc]. destruct (String.eqb_spec "objstore.config" n) as [<-|]; [done|].
  destruct (String.eqb_spec "gc.interval" n) as [<-|]; [by destruct (assoc _ _)|].
  destruct (String.eqb_spec "gc.cleanup-timeout" n) as [<-|]; [by destruct (assoc _ _)|].
  destruct (String.eqb_spec "tenant.default-id" n) as [<-|]; [by destruct (String.eqb _ _)|].
  destruct (String.eqb_spec "tenant.label-name" n) as [<-|]; [by destruct (String.eqb _ _)|done].
Qed.

(** The flags that Go adds have other names and legal defaults. *)
Definition legal_goflags (goflags : list Flag) : Prop :=
  NoDup (fl_Name <$> block_flags goflags)
  ∧ Forall (λ f, is_Some (flag_value time_ParseDuration (fl_Kind f) (fl_Default f)) ∧ plain_name f = true
                 ∧ fl_Name f ∉ fl_Name <$> block_AddFlags) goflags.

Lemma gc_values goflags gc cfg :
  legal_goflags goflags →
  int64_duration (gc_GCInterval gc) → int64_duration (gc_CleanupTimeout gc) →
  is_Some (flag_values time_ParseDuration (block_flags goflags) (gc_given gc cfg)).
Proof.
  intros [Hnd Hgo] Hi Hc. apply flag_values_is_Some.
  { apply well_given_app; [done| |apply gc_given_names|apply gc_given_legal].
    rewrite forallb_app. apply andb_true_iff. split; [done|]. apply forallb_forall. intros f Hf%list_elem_of_In.
    rewrite list.Forall_forall in Hgo. by apply Hgo. }
  unfold block_flags. apply Forall_app. split.
  - unfold block_AddFlags. rewrite !Forall_cons. split_and!; try done;
      unfold flag_value, given_text, mkFlag; cbn [fl_Kind fl_Name fl_Default]; rewrite gc_text; cbn [String.eqb Ascii.eqb Bool.eqb];
      (rewrite dur_text; [done|done|split; vm_compute; discriminate]).
  - eapply list.Forall_impl; [exact Hgo|]. intros f (Hf & _ & Hout). unfold given_text.
    assert (E : assoc (fl_Name f) (gc_given gc cfg) = None); [|by rewrite E].
    rewrite gc_text.
    repeat lazymatch goal with |- context [if String.eqb ?k ?n then _ else _] =>
      destruct (String.eqb_spec k n) as [E|]; [destruct Hout; rewrite <-E; decide_in|] end.
    done.
Qed.

(** C22: the collector runs with the settings of its storage: whatever the
    settings, the arguments of its container are read by the block manager's
    command, to the nanosecond for the two durations; a setting that is left
    out, and a zero duration, leave the command's default. *)
Theorem collector_reads_its_settings goflags gc cfg :
  legal_goflags goflags →
  int64_duration (gc_GCInterval gc) → int64_duration (gc_CleanupTimeout gc) →
  ∃ m, cl_Parse (block_flags goflags) (gc_args gc cfg) = inr m
    ∧ block_manager_of m = {|
        br_Manager := {| bm_tenantLabelName := or_default (gc_TenantLabelName gc) "tenant_id";
                         bm_defaultTenantId := or_default (gc_DefaultTenantId gc) "default-tenant";
                         bm_storageConfig := cfg; bm_storageConfigFile := "" |};
        br_gcInterval := duration_or (10 * minute) (gc_GCInterval gc);
        br_gcCleanupTimeout := duration_or hour (gc_CleanupTimeout gc) |}.
Proof.
  intros Hgo Hi Hc. destruct (gc_values goflags gc cfg Hgo Hi Hc) as [m Hm]. exists m. split.
  { rewrite gc_args_given, <-(flag_args_app _ goflags) by apply gc_given_legal. by apply cl_Parse_given. }
  assert (Hs : ∀ n d, mkFlag n KString d ∈ block_AddFlags → get_string m n = default d (assoc n (gc_given gc cfg))).
  { intros n d Hf. apply (get_string_given _ _ _ _ (mkFlag n KString d) Hm); [|done].
    apply elem_of_app. by left. }
  assert (Hd : ∀ n d x, mkFlag n KDuration (time_Duration_String d) ∈ block_AddFlags →
    time_ParseDuration (default (time_Duration_String d) (assoc n (gc_given gc cfg))) = inr x → get_duration m n = x).
  { intros n d x Hf Hx. eapply (get_duration_given _ _ _ _ (mkFlag n KDuration (time_Duration_String d)) _ Hm); [|done|exact Hx].
    apply elem_of_app. by left. }
  unfold block_manager_of, NewBlockManager, or_default.
  rewrite (Hs "tenant.label-name" "tenant_id"), (Hs "tenant.default-id" "default-tenant"), (Hs "objstore.config" ""),
    (Hs "objstore.config-file" ""), !gc_text by (unfold block_AddFlags; decide_in).
  rewrite (Hd "gc.interval" (minute * 10)%Z (duration_or (10 * minute) (gc_GCInterval gc))),
    (Hd "gc.cleanup-timeout" hour (duration_or hour (gc_CleanupTimeout gc)));
    [|by do 5 right; left| |by do 4 right; left|];
    [|rewrite gc_text; cbn [String.eqb Ascii.eqb Bool.eqb];
      rewrite dur_text; [reflexivity|done|split; vm_compute; discriminate]..].
  cbn [String.eqb Ascii.eqb Bool.eqb default]. by rewrite !default_opt.
Qed.
End block.

(** ** The agent proxy *)

Section agent.
Context {HK : Kingpin} {HC : ClientConfigs} {HCm : CommandLib} {HA : AgentLib} {HW : WatchLib}.

(** The flags of the command, with those of the third-party helper spelled
    out. *)
Definition agent_command_flags : list Flag :=
  app_flags ++ RegisterHTTPFlags
  ++ [mkFlag "gateway.config-file" KString ""; mkFlag "gateway.config" KString "";
      mkFlag "gateway.address" KString ""; mkFlag "gateway.client-tls-key" KString "";
      mkFlag "gateway.client-tls-cert" KString ""; mkFlag "gateway.server-tls-client-ca" KString "";
      mkFlag "gateway.server-name" KString ""; mkFlag "gateway.insecure-skip-verify" KBool "false";
      mkFlag "maxIdleConnsPerHost" KInt "100"; mkFlag "maxConnsPerHost" KInt "0";
      mkFlag "server-tls-key" KString ""; mkFlag "server-tls-cert" KString "";
      mkFlag "server-tls-client-ca" KString ""; mkFlag "tenant" KString ""].

Lemma command_flags_agent : command_flags CAgentProxy = agent_command_flags.
Proof. unfold command_flags, agent_registerFlag. by rewrite RegisterPathOrContent_flags. Qed.

(** The command line of the chart: an address and a tenant. *)
Definition agent_args (address tenant : string) : list string :=
  ["--gateway.address=" +:+ address; "--tenant=" +:+ tenant].
Definition agent_given (address tenant : string) : list (string * string) :=
  [("gateway.address", address); ("tenant", tenant)].

(** What it is read to. *)
Definition chart_config (address tenant : string) : agentProxyConfig := {|
  apc_http := {| hs_BindAddr := "0.0.0.0:9090"; hs_GracePeriod := 120 * second; hs_TLSConfig := "" |};
  apc_serverTlsKey := ""; apc_serverTlsCert := ""; apc_serverTlsClientCa := "";
  apc_gatewayConfig := {|
    gwc_clientConfigPath := {| poc_Path := ""; poc_Content := "" |}; gwc_address := address;
    gwc_clientTlsKey := ""; gwc_clientTlsCert := ""; gwc_serverTlsClientCa := ""; gwc_serverName := "";
    gwc_insecureSkipVerify := false; gwc_maxIdleConnsPerHost := 100; gwc_maxConnsPerHost := 0 |};
  apc_tenant := tenant |}.

Lemma agent_values address tenant :
  is_Some (flag_values model_ParseDuration agent_command_flags (agent_given address tenant)).
Proof.
  apply flag_values_is_Some.
  { unfold well_given. rewrite !bool_decide_true; [done|cbn; decide_in|decide_in]. }
  unfold agent_command_flags, app_flags, RegisterHTTPFlags. cbn [app].
  repeat apply Forall_cons_2; try done. cbn. by rewrite model_2m.
Qed.

Lemma agent_config_read address tenant m :
  flag_values model_ParseDuration agent_command_flags (agent_given address tenant) = Some m →
  agentProxyConfig_of m = chart_config address tenant.
Proof.
  intros Hm.
  assert (Hv : ∀ n f, flag_named agent_command_flags n = Some f → ∃ v,
    flag_value model_ParseDuration (fl_Kind f) (given_text (agent_given address tenant) f) = Some v ∧ m !! n = Some v).
  { intros n f [Hf <-]%flag_named_name. by apply (flag_values_lookup _ _ _ _ _ Hm). }
  assert (Hs : ∀ n f x, flag_named agent_command_flags n = Some f → fl_Kind f = KString →
    given_text (agent_given address tenant) f = x → get_string m n = x).
  { intros n f x [Hf <-]%flag_named_name Hk <-. by apply (get_string_given _ _ _ _ f Hm). }
  unfold agentProxyConfig_of, gatewayCfg_of, http_of, path_or_content. lazy beta iota delta [String.append].
  repeat lazymatch goal with
  | |- context [get_string m ?n] => erewrite (Hs n); [|vm_compute; reflexivity|done|reflexivity]
  end.
  unfold get_bool, get_int, get_duration.
  destruct (Hv "http-grace-period" _ eq_refl) as (v & Hg & ->). cbn in Hg. rewrite model_2m in Hg. injection Hg as <-.
  destruct (Hv "gateway.insecure-skip-verify" _ eq_refl) as (v & Hi & ->). vm_compute in Hi. injection Hi as <-.
  destruct (Hv "maxIdleConnsPerHost" _ eq_refl) as (v & H1 & ->). vm_compute in H1. injection H1 as <-.
  destruct (Hv "maxConnsPerHost" _ eq_refl) as (v & H2 & ->). vm_compute in H2. by injection H2 as <-.
Qed.
Lemma agent_main_reads address tenant watch file :
  main watch file CAgentProxy (agent_args address tenant)
  = wrap_err "preparing agent-proxy command failed"
      (r ←? agent_setup (chart_config address tenant); inr (match r with Some r => RunsAgent r | None => RunsNothing end)).
Proof.
  destruct (agent_values address tenant) as [m Hm]. unfold main.
  change (agent_args address tenant) with (flag_arg agent_command_flags <$> agent_given address tenant).
  rewrite command_flags_agent, (cl_Parse_given _ _ _ Hm). cbn [sum_bind setup]. by rewrite (agent_config_read _ _ _ Hm).
Qed.

(** The round tripper the flags describe. *)
Definition chart_tripper (address tenant : string) : GoError + RoundTripper :=
  newRoundTripperFromConfig (flags_client (apc_gatewayConfig (chart_config address tenant))) "agent-proxy".

Lemma agent_setup_chart address tenant rt u :
  address ≠ "" → tenant ≠ "" → chart_tripper address tenant = inr rt → url_Parse address = inr u →
  agent_setup (chart_config address tenant) = inr (Some {|
    ar_Server := apc_http (chart_config address tenant); ar_Tenant := tenant; ar_Endpoint := u;
    ar_GatewayProxy := agent_NewSingleHostReverseProxy u rt |}).
Proof.
  intros Ha%String.eqb_neq Ht%String.eqb_neq Hrt Hu. unfold agent_setup, chart_tripper in *.
  cbn [apc_gatewayConfig chart_config gwc_clientConfigPath gwc_address apc_tenant] in *.
  rewrite Content_literal by done. cbn [sum_bind]. rewrite Ha, Ht. unfold runAgentProxy.
  cbn [String.eqb sum_bind apc_gatewayConfig chart_config gwc_address] in *. rewrite Hrt. cbn [sum_bind]. by rewrite Hu.
Qed.

(** The path of a request behind a tenant, as the agent sends it. *)
Definition tenant_path (tenant path : string) : string :=
  "/" +:+ tenant +:+ (if String.eqb path AgentProxy.write then AgentProxy.receive else path).

(** C37: an agent that is started with the address of a gateway and a tenant sends
    every request to that host, with the tenant in front of the path,
    Prometheus's "write" as "receive", the query string as it was and the host
    header of the client; without a tenant the command succeeds and nothing
    serves. *)
Theorem agent_sends_to_its_gateway address tenant watch file rt u :
  address ≠ "" → chart_tripper address tenant = inr rt → url_Parse address = inr u →
  u_Path u = "" ∨ u_Path u = "/" → u_RawPath u = "" → u_RawQuery u = "" →
  if decide (tenant = "") then main watch file CAgentProxy (agent_args address tenant) = inr RunsNothing
  else ∃ run, main watch file CAgentProxy (agent_args address tenant) = inr (RunsAgent run)
    ∧ ∀ r, u_RawPath (og_URL r) = "" → let sent := og_URL (agent_handler run r) in
      u_Scheme sent = u_Scheme u ∧ u_Host sent = u_Host u ∧ u_Path sent = tenant_path tenant (u_Path (og_URL r))
      ∧ u_RawQuery sent = u_RawQuery (og_URL r) ∧ og_Host (agent_handler run r) = og_Host r.
Proof.
  intros Ha Hrt Hu Hpath Hraw Hquery. rewrite agent_main_reads. destruct (decide (tenant = "")) as [->|Ht].
  - unfold agent_setup. cbn [apc_gatewayConfig chart_config gwc_clientConfigPath gwc_address apc_tenant].
    rewrite Content_literal by done. apply String.eqb_neq in Ha. cbn [sum_bind]. by rewrite Ha.
  - rewrite (agent_setup_chart _ _ _ _ Ha Ht Hrt Hu). eexists. split; [reflexivity|]. intros r Hr sent.
    assert (Hp : ∀ p, singleJoiningSlash (u_Path u) ("/" +:+ p) = "/" +:+ p).
    { intros p. apply singleJoiningSlash_root; [done|]. apply has_prefix_app. }
    subst sent. unfold agent_handler. cbn [ar_Tenant ar_GatewayProxy]. apply String.eqb_neq in Ht. rewrite Ht.
    cbn [negb px_Director agent_NewSingleHostReverseProxy single_host_director og_URL og_Host].
    unfold rewriteRequestURL, joinURLPath. cbn [u_RawPath set_path]. rewrite Hraw, Hr, Hquery.
    cbn [String.eqb andb]. cbn [u_Scheme u_Host u_Path u_RawQuery set_path]. rewrite Hp. by split_and!.
Qed.
End agent.

(** ** The operator's command *)

(** The flags of the logging library have other names and legal defaults. *)
Definition legal_klog (klog : list Flag) (s : ControllerManagerOptions) : Prop :=
  NoDup (fl_Name <$> manager_Flags klog s)
  ∧ Forall (λ f, is_Some (flag_value time_ParseDuration (fl_Kind f) (fl_Default f)) ∧ plain_name f = true) klog.

(** The command without arguments runs with the options its flags were made
    from. *)
Theorem manager_flags_keep_defaults `{HP : Pflag} klog s :
  legal_klog klog s →
  ∃ m, cl_Parse (manager_Flags klog s) [] = inr m ∧ manager_options_of m = s.
Proof.
  intros [Hnd Hk].
  assert (Hown : Forall (λ f, is_Some (flag_value time_ParseDuration (fl_Kind f) (fl_Default f)) ∧ plain_name f = true)
    (manager_Flags [] s)).
  { unfold manager_Flags. cbn [app]. repeat apply Forall_cons_2; try done; (split; [|done]); try done; unfold bool_text; by case_match. }
  assert (Hall : Forall (λ f, is_Some (flag_value time_ParseDuration (fl_Kind f) (fl_Default f)) ∧ plain_name f = true)
    (manager_Flags klog s)) by (apply Forall_app; by split).
  destruct (flag_values_is_Some time_ParseDuration (manager_Flags klog s) []) as [m Hm].
  { unfold well_given. rewrite !bool_decide_true by (done || apply NoDup_nil_2).
    rewrite andb_true_r, andb_true_r. simpl. apply forallb_forall. intros f Hf%list_elem_of_In.
    rewrite list.Forall_forall in Hall. by apply (Hall f). }
  { eapply list.Forall_impl; [exact Hall|]. by intros f [Hf _]. }
  exists m. split; [exact (cl_Parse_given _ _ _ Hm)|].
  assert (Hin : ∀ f, f ∈ manager_Flags [] s → f ∈ manager_Flags klog s).
  { intros f Hf. apply elem_of_app. by right. }
  assert (Hs : ∀ n d, mkFlag n KString d ∈ manager_Flags [] s → get_string m n = d).
  { intros n d Hf. exact (get_string_given _ _ _ _ (mkFlag n KString d) Hm (Hin _ Hf) eq_refl). }
  assert (Hb : ∀ n b, mkFlag n KBool (bool_text b) ∈ manager_Flags [] s → get_bool m n = b).
  { intros n b Hf. apply (get_bool_given _ _ _ _ (mkFlag n KBool (bool_text b)) b Hm (Hin _ Hf) eq_refl). by destruct b. }
  unfold manager_options_of.
  rewrite (Hs "metrics-bind-address" (MetricsAddr s)), (Hb "metrics-secure" (SecureMetrics s)),
    (Hs "metrics-cert-path" (MetricsCertPath s)), (Hs "metrics-cert-name" (MetricsCertName s)),
    (Hs "metrics-cert-key" (MetricsCertKey s)), (Hb "enable-http2" (EnableHTTP2 s)),
    (Hs "health-probe-bind-address" (ProbeAddr s)), (Hb "leader-elect" (EnableLeaderElection s)).
  { by destruct s. }
  all: unfold manager_Flags; cbn [app]; repeat first [by left | right].
Qed.
