(* ===== verification/GatewayCommandFacts.v ===== *)
(** The gateway that the operator starts: from the custom resources, through the
    arguments of its container, to the handler, the proxies and the clients it
    runs with. *)
From stdpp Require Import base gmap strings list pretty sorting.
From Stdlib Require Import Ascii String.
From S2P Require Import Prelude GoStd K8s Api Objects Client Base Workload Web WorkloadFacts Url Tenant GoNet GoNetFacts Duration Gateway GatewayFacts Watcher Ingester Router Query QueryFrontend QueryFacts GatewayWorkload GatewayWorkloadFacts BlockManager Block Flags Proxy GatewayCommand AgentCommand Controllers ManagerCommand CommandFacts.
Open Scope nat_scope.

(** ** The arguments of the container *)

(** The upstreams of a gateway: addresses, and the configurations of their
    transports. Rules have an upstream of their own behind a remote query. *)
Record Upstreams := {
  up_query : string; up_query_config : option string; up_rules : option (string * option string);
  up_write : string; up_write_config : option string; up_external : string;
}.

Definition config_given (n : string) (c : option string) : list (string * string) :=
  match c with Some c => [(n, c)] | None => [] end.

Lemma config_given_names n c : (config_given n c).*1 `sublist_of` [n].
Proof. destruct c; [done|apply sublist_nil_l]. Qed.

Definition tls_text `{!GatewayLib} (u : URL) : option string :=
  if HasScheme "https" u then Some (config_text insecure_config) else None.

(** The flags of the command, with those of the third-party helper spelled
    out. *)
Definition poc_flags (n : string) : list Flag := [mkFlag (n +:+ "-file") KString ""; mkFlag n KString ""].
Definition gateway_command_flags : list Flag :=
  app_flags ++ RegisterHTTPFlags
  ++ [mkFlag "debug.enable-ui" KBool "false";
      mkFlag "tenant.header" KString "WHIZARD-TENANT"; mkFlag "tenant.label-name" KString "tenant_id";
      mkFlag "tenant.admission-control-config-file" KString "";
      mkFlag "tenant.admission-control-config" KString "";
      mkFlag "tenant.admission-control-config-file-refresh-interval" KDuration "1m"]
  ++ poc_flags "external-remote-writes.config"
  ++ mkFlag "query.address" KString "" :: poc_flags "query.config"
  ++ mkFlag "rules-query.address" KString "" :: poc_flags "rules-query.config"
  ++ mkFlag "remote-write.address" KString "" :: poc_flags "remote-write.config".

Abbreviation arg_texts := (fmap (flag_arg gateway_command_flags)).

Section arguments.
Context {HG : GatewayLib} {HK : Kingpin}.

Definition upstream_given (u : Upstreams) : list (string * string) :=
  [("query.address", up_query u)] ++ config_given "query.config" (up_query_config u)
  ++ config_given "rules-query.address" (fst <$> up_rules u) ++ config_given "rules-query.config" (up_rules u ≫= snd)
  ++ [("remote-write.address", up_write u)] ++ config_given "remote-write.config" (up_write_config u)
  ++ [("external-remote-writes.config", up_external u)].

Definition base_given (service : Service) (g : Gateway) (wc : option WebConfig) : list (string * string) :=
  opt_given "log.level" (LogLevel (gsp_Common (gw_Spec g))) ++ opt_given "log.format" (LogFormat (gsp_Common (gw_Spec g)))
  ++ opt_given "tenant.header" (sv_TenantHeader (sv_Spec service))
  ++ opt_given "tenant.label-name" (sv_TenantLabelName (sv_Spec service))
  ++ (if gsp_DebugMode (gw_Spec g) then [("debug.enable-ui", "true")] else [])
  ++ (if gsp_EnabledTenantsAdmission (gw_Spec g)
      then [("tenant.admission-control-config-file", WhizardConfigMountPath +:+ tenantsAdmissionConfigFile)] else [])
  ++ match wc with Some _ => [("http.config", WhizardWebConfigMountPath +:+ WhizardWebConfigFile)] | None => [] end.

Definition gateway_given service g wc u : list (string * string) := base_given service g wc ++ upstream_given u.

Lemma command_flags_gateway : command_flags CGateway = gateway_command_flags.
Proof.
  unfold command_flags, gateway_registerFlag, QueryConfig_RegisterFlag, RulesQueryConfig_RegisterFlag,
    RemoteWriteConfig_RegisterFlag. by rewrite !RegisterPathOrContent_flags.
Qed.

Lemma upstream_arg_given u :
  ["--query.address=" +:+ up_query u] ++ (match up_query_config u with Some c => ["--query.config=" +:+ c] | None => [] end)
  ++ (match up_rules u with
      | Some (a, c) => ["--rules-query.address=" +:+ a]
                       ++ match c with Some c => ["--rules-query.config=" +:+ c] | None => [] end
      | None => []
      end)
  ++ ["--remote-write.address=" +:+ up_write u]
  ++ (match up_write_config u with Some c => ["--remote-write.config=" +:+ c] | None => [] end)
  ++ ["--external-remote-writes.config=" +:+ up_external u]
  = arg_texts (upstream_given u).
Proof. unfold upstream_given. rewrite !fmap_app. by destruct (up_query_config u), (up_rules u) as [[? [?|]]|], (up_write_config u). Qed.

Lemma base_arg_given service g wc : gateway_base_args service g wc = arg_texts (base_given service g wc).
Proof.
  unfold gateway_base_args, base_given. rewrite !fmap_app. cbv zeta.
  rewrite (opt_arg_given gateway_command_flags "--log.level=" "log.level"),
    (opt_arg_given gateway_command_flags "--log.format=" "log.format"),
    (opt_arg_given gateway_command_flags "--tenant.header=" "tenant.header"),
    (opt_arg_given gateway_command_flags "--tenant.label-name=" "tenant.label-name"); try (done || flag_found).
  do 4 f_equal. by destruct (gsp_DebugMode _), (gsp_EnabledTenantsAdmission _), wc.
Qed.

Definition given_names : list string :=
  ["log.level"; "log.format"; "tenant.header"; "tenant.label-name"; "debug.enable-ui";
   "tenant.admission-control-config-file"; "http.config"; "query.address"; "query.config";
   "rules-query.address"; "rules-query.config"; "remote-write.address"; "remote-write.config"; "external-remote-writes.config"].

Lemma gateway_given_names service g wc u : NoDup (gateway_given service g wc u).*1.
Proof.
  eapply (sublist_NoDup _ given_names); [decide_in|].
  unfold gateway_given, base_given, upstream_given. rewrite <-!(assoc_L (++)), !fmap_app.
  do 4 (apply (sublist_app _ [_]); [apply opt_given_names|]).
  do 3 (apply (sublist_app _ [_]); [case_match; [done|apply sublist_nil_l]|]).
  apply (sublist_app _ [_]); [done|]. do 3 (apply (sublist_app _ [_]); [apply config_given_names|]).
  apply (sublist_app _ [_]); [done|]. apply (sublist_app _ [_]); [apply config_given_names|done].
Qed.

Lemma gateway_given_legal service g wc u :
  Forall (λ nv, may_give gateway_command_flags nv = true) (gateway_given service g wc u).
Proof.
  unfold gateway_given, base_given, upstream_given, opt_given, config_given. rewrite !Forall_app.
  split_and!; repeat case_match; repeat constructor; simplify_option_eq; repeat constructor.
Qed.

(** *** What they mean *)

Lemma assoc_config n k c : assoc n (config_given k c) = if String.eqb k n then c else None.
Proof. destruct c; simpl; by destruct (String.eqb k n). Qed.

Lemma assoc_cond n k v (b : bool) :
  assoc n (if b then [(k, v)] else []) = if String.eqb k n then (if b then Some v else None) else None.
Proof. destruct b; simpl; by destruct (String.eqb k n). Qed.

Lemma assoc_one n k v : assoc n [(k, v)] = if String.eqb k n then Some v else None.
Proof. done. Qed.

Lemma assoc_web n k v (wc : option WebConfig) :
  assoc n (match wc with Some _ => [(k, v)] | None => [] end)
  = if String.eqb k n then (match wc with Some _ => Some v | None => None end) else None.
Proof. destruct wc; simpl; by destruct (String.eqb k n). Qed.

(** The configuration the command reads. *)
Definition deployed_config (service : Service) (g : Gateway) (wc : option WebConfig) (u : Upstreams) : gatewayConfig := {|
  gcf_http := {| hs_BindAddr := "0.0.0.0:9090"; hs_GracePeriod := 120 * second;
    hs_TLSConfig := match wc with Some _ => WhizardWebConfigMountPath +:+ WhizardWebConfigFile | None => "" end |};
  gcf_debugEnabledUI := gsp_DebugMode (gw_Spec g);
  gcf_tenantsFilePath := if gsp_EnabledTenantsAdmission (gw_Spec g)
                         then WhizardConfigMountPath +:+ tenantsAdmissionConfigFile else "";
  gcf_tenantsFileContent := ""; gcf_refreshInterval := 60 * second;
  gcf_tenantHeader := or_default (sv_TenantHeader (sv_Spec service)) "WHIZARD-TENANT";
  gcf_tenantLabelName := or_default (sv_TenantLabelName (sv_Spec service)) "tenant_id";
  gcf_ExternalRemoteWrites := {| poc_Path := ""; poc_Content := up_external u |};
  gcf_queryConfig := {| ds_URL := up_query u; ds_Tripper := {| poc_Path := ""; poc_Content := default "" (up_query_config u) |} |};
  gcf_rulesQueryConfig := {| ds_URL := default "" (fst <$> up_rules u);
    ds_Tripper := {| poc_Path := ""; poc_Content := default "" (up_rules u ≫= snd) |} |};
  gcf_remoteWriteConfig := {| ds_URL := up_write u;
    ds_Tripper := {| poc_Path := ""; poc_Content := default "" (up_write_config u) |} |} |}.

(** A log level or format the command accepts. *)
Definition legal_logging (common : CommonSpec) : Prop :=
  LogLevel common ∈ [""; "error"; "warn"; "info"; "debug"] ∧ LogFormat common ∈ [""; "logfmt"; "json"].

(** The text of every flag. *)
Lemma gateway_text service g wc u n :
  assoc n (gateway_given service g wc u) =
    let when (b : bool) v := if b then Some v else None in
    let unless v := if String.eqb v "" then None else Some v in
    if String.eqb "log.level" n then unless (LogLevel (gsp_Common (gw_Spec g)))
    else if String.eqb "log.format" n then unless (LogFormat (gsp_Common (gw_Spec g)))
    else if String.eqb "tenant.header" n then unless (sv_TenantHeader (sv_Spec service))
    else if String.eqb "tenant.label-name" n then unless (sv_TenantLabelName (sv_Spec service))
    else if String.eqb "debug.enable-ui" n then when (gsp_DebugMode (gw_Spec g)) "true"
    else if String.eqb "tenant.admission-control-config-file" n
         then when (gsp_EnabledTenantsAdmission (gw_Spec g)) (WhizardConfigMountPath +:+ tenantsAdmissionConfigFile)
    else if String.eqb "http.config" n
         then match wc with Some _ => Some (WhizardWebConfigMountPath +:+ WhizardWebConfigFile) | None => None end
    else if String.eqb "query.address" n then Some (up_query u)
    else if String.eqb "query.config" n then up_query_config u
    else if String.eqb "rules-query.address" n then fst <$> up_rules u
    else if String.eqb "rules-query.config" n then up_rules u ≫= snd
    else if String.eqb "remote-write.address" n then Some (up_write u)
    else if String.eqb "remote-write.config" n then up_write_config u
    else if String.eqb "external-remote-writes.config" n then Some (up_external u)
    else None.
Proof.
  cbv zeta. unfold gateway_given, base_given, upstream_given.
  rewrite !assoc_app, !assoc_opt, !assoc_config, !assoc_cond, assoc_web, !assoc_one.
  repeat lazymatch goal with |- context [if String.eqb ?k n then _ else _] =>
    destruct (String.eqb_spec k n) as [<-|]; [cbn [String.eqb Ascii.eqb Bool.eqb]; by repeat case_match|] end.
  done.
Qed.

Ltac given_text :=
  unfold given_text, mkFlag; cbn [fl_Name fl_Default fl_Kind]; rewrite gateway_text;
  cbn [String.eqb Ascii.eqb Bool.eqb default].

Lemma gateway_values service g wc u :
  legal_logging (gsp_Common (gw_Spec g)) →
  is_Some (flag_values model_ParseDuration gateway_command_flags (gateway_given service g wc u)).
Proof.
  intros [Hlevel Hformat]. apply flag_values_is_Some.
  { unfold well_given. rewrite !bool_decide_true; [|apply gateway_given_names|decide_in].
    apply forallb_forall. intros nv Hin%list_elem_of_In. revert nv Hin. apply list.Forall_forall, gateway_given_legal. }
  unfold gateway_command_flags, app_flags, RegisterHTTPFlags, poc_flags. cbn [app].
  repeat apply Forall_cons_2; try done; unfold flag_value, mkFlag; cbn [fl_Kind].
  - rewrite bool_decide_true; [done|]. given_text. destruct (String.eqb_spec (LogLevel (gsp_Common (gw_Spec g))) "") as [|Hn]; [decide_in|].
    apply elem_of_cons in Hlevel as [|Hlevel]; done.
  - rewrite bool_decide_true; [done|]. given_text. destruct (String.eqb_spec (LogFormat (gsp_Common (gw_Spec g))) "") as [|Hn]; [decide_in|].
    apply elem_of_cons in Hformat as [|Hformat]; done.
  - given_text. by rewrite model_2m.
  - given_text. by destruct (gsp_DebugMode (gw_Spec g)).
  - given_text. by rewrite model_1m.
Qed.

Lemma gateway_config_read service g wc u m :
  flag_values model_ParseDuration gateway_command_flags (gateway_given service g wc u) = Some m →
  gatewayConfig_of m = deployed_config service g wc u.
Proof.
  intros Hm.
  assert (Hs : ∀ n f x, flag_named gateway_command_flags n = Some f → fl_Kind f = KString →
    given_text (gateway_given service g wc u) f = x → get_string m n = x).
  { intros n f x [Hf <-]%flag_named_name Hk <-. by apply (get_string_given _ _ _ _ f Hm). }
  assert (Hb : get_bool m "debug.enable-ui" = gsp_DebugMode (gw_Spec g)).
  { apply (get_bool_given _ _ _ _ (mkFlag "debug.enable-ui" KBool "false") _ Hm); [decide_in|done|].
    given_text. by destruct (gsp_DebugMode (gw_Spec g)). }
  assert (Hd : ∀ n f x, flag_named gateway_command_flags n = Some f → fl_Kind f = KDuration →
    model_ParseDuration (given_text (gateway_given service g wc u) f) = inr x → get_duration m n = x).
  { intros n f x [Hf <-]%flag_named_name Hk Hx. by apply (get_duration_given _ _ _ _ f x Hm). }
  unfold gatewayConfig_of, http_of, downstream_of, path_or_content. lazy beta iota delta [String.append].
  rewrite Hb. repeat lazymatch goal with
  | |- context [get_string m ?n] => erewrite (Hs n); [|vm_compute; reflexivity|done|given_text; reflexivity]
  | |- context [get_duration m ?n] =>
      erewrite (Hd n); [|vm_compute; reflexivity|done|given_text; first [apply model_1m|apply model_2m]]
  end.
  unfold deployed_config, or_default.
  by destruct (String.eqb (sv_TenantHeader (sv_Spec service)) ""), (String.eqb (sv_TenantLabelName (sv_Spec service)) ""), wc, (gsp_EnabledTenantsAdmission (gw_Spec g)), (up_query_config u), (up_rules u) as [[? [?|]]|], (up_write_config u).
Qed.
End arguments.

(** ** What the command runs *)

Section deployed.
Context {W : Type} {HKu : Kube W} {HL : K8sLib} {HM : MapRange} {HG : GatewayLib} {HK : Kingpin}
  {HC : ClientConfigs} {HCm : CommandLib} {HA : AgentLib} {HW : WatchLib}.

(** What the decoders of the gateway make of what the operator encoded. *)
Definition tls_of (insecure : bool) : ClientTLS := {|
  ct_CAFile := ""; ct_CertFile := ""; ct_KeyFile := ""; ct_ServerName := ""; ct_InsecureSkipVerify := insecure;
  ct_Rest := no_TLSRest |}.
Definition auth_of (a : option (string * string)) : option ClientAuth :=
  (λ up, {| ca_Username := up.1; ca_Password := up.2; ca_PasswordFile := "" |}) <$> a.
Definition client_config_of (c : ProxyConfig) : ClientConfig := {|
  cc_BasicAuth := auth_of (pc_BasicAuth c); cc_BearerToken := pc_BearerToken c; cc_BearerTokenFile := "";
  cc_ProxyURL := ""; cc_TLSConfig := tls_of (pc_InsecureSkipVerify c); cc_Rest := no_ClientRest |}.
Definition tripper_of (c : ProxyConfig) : DownstreamTripperConfig := {|
  dt_IdleConnTimeout := 0; dt_ResponseHeaderTimeout := 0; dt_TLSHandshakeTimeout := 0; dt_ExpectContinueTimeout := 0;
  dt_MaxIdleConns := None; dt_MaxIdleConnsPerHost := None; dt_MaxConnsPerHost := None;
  dt_HTTPClientConfig := client_config_of c |}.
Definition loaded_of (c : ExternalRemoteWriteConfig) : LoadedRemoteWrite := {|
  lw_Name := er_Name c; lw_URL := er_URL c; lw_Headers := er_Headers c; lw_RemoteTimeout := er_RemoteTimeout c;
  lw_BasicAuth := auth_of (er_BasicAuth c); lw_BearerToken := er_BearerToken c;
  lw_TLSConfig := tls_of (er_InsecureSkipVerify c) |}.

(** A client configuration that refers to nothing outside itself. *)
Definition names_no_file (c : ClientConfig) : Prop :=
  cc_BearerTokenFile c = "" ∧ cc_ProxyURL c = "" ∧ cc_Rest c = no_ClientRest
  ∧ ct_CAFile (cc_TLSConfig c) = "" ∧ ct_CertFile (cc_TLSConfig c) = "" ∧ ct_KeyFile (cc_TLSConfig c) = ""
  ∧ ct_Rest (cc_TLSConfig c) = no_TLSRest
  ∧ match cc_BasicAuth c with Some a => ca_PasswordFile a = "" | None => True end.

(** The constructors of HTTP clients fail only over the files, and the like,
    that a configuration names. *)
Definition file_less_clients : Prop :=
  ∀ c, names_no_file c → (∃ rt, NewRoundTripperFromConfig c "" = inr rt)
                         ∧ ∃ t, NewClientFromConfig c "remote_storage_write_client" = inr t.

Lemma declared_names_no_file c : names_no_file (client_config_of c).
Proof. destruct c as [[[? ?]|] ? ?]; by repeat split. Qed.

Lemma external_names_no_file c : names_no_file (external_client_config (loaded_of c)).
Proof. destruct c as [? ? ? ? [[? ?]|] ? ?]; by repeat split. Qed.

(** A text that is taken literally and is not empty. *)
Definition literal (text : string) : Prop := text ≠ "" ∧ contains_char "$"%char text = false.

(** A configuration is read back. *)
Definition config_read_back (c : ProxyConfig) : Prop :=
  literal (config_text c) ∧ yaml_tripper (config_text c) = inr (tripper_of c).

(** A proxy to an upstream with the transport of a configuration. *)
Definition reaches_with (c : ProxyConfig) (u : URL) (p : option (ReverseProxy Tripper)) : Prop :=
  ∃ t, p = Some (NewSingleHostReverseProxy u t)
    ∧ if decide (c = no_config) then t = TTransport default_transport
      else ∃ rt, NewRoundTripperFromConfig (client_config_of c) "" = inr rt ∧ t = TClient rt.

(** Certificates are verified unless the scheme is https. *)
Definition tls_config (u : URL) : ProxyConfig := if HasScheme "https" u then insecure_config else no_config.
Definition reaches (u : URL) : option (ReverseProxy Tripper) → Prop := reaches_with (tls_config u) u.

Definition written (c : ProxyConfig) : option string := if decide (c = no_config) then None else Some (config_text c).

Lemma tls_text_written u : tls_text u = written (tls_config u).
Proof. unfold tls_text, written, tls_config. by destruct (HasScheme "https" u). Qed.

Lemma client_config_zero c : client_config_of c = no_ClientConfig → c = no_config.
Proof.
  destruct c as [[[? ?]|] bearer skip]; unfold client_config_of, no_ClientConfig, tls_of, no_ClientTLS, no_config; simpl; [done|].
  intros H. by inversion H.
Qed.

Lemma Content_empty : Content {| poc_Path := ""; poc_Content := "" |} = inr "".
Proof. by apply Content_literal. Qed.

Lemma proxy_reaches what url u c :
  url ≠ "" → url_Parse url = inr u → (c ≠ no_config → config_read_back c) → file_less_clients →
  ∃ p, downstream_proxy what {| ds_URL := url; ds_Tripper := {| poc_Path := ""; poc_Content := default "" (written c) |} |}
       = inr p ∧ reaches_with c u p.
Proof.
  intros Hne Hu Hback Hrts. destruct (Hrts _ (declared_names_no_file c)) as [[rt Hrt] _]. apply String.eqb_neq in Hne.
  unfold downstream_proxy, reaches_with, written. cbn [ds_URL ds_Tripper]. rewrite Hne, Hu. cbn [wrap_err sum_bind].
  destruct (decide (c = no_config)) as [E|E]; cbn [default id].
  - rewrite Content_empty. eexists. split; [done|]. by eexists.
  - destruct (Hback E) as [[Hne' Hlit] Hyaml]. apply String.eqb_neq in Hne'.
    rewrite Content_literal by done. cbn [sum_bind]. unfold ParseTransportConfiguration. rewrite Hne', Hyaml.
    cbn [wrap_err sum_bind dt_HTTPClientConfig tripper_of]. case_decide as E'; [by apply client_config_zero in E'|].
    rewrite Hrt. eexists. split; [done|]. eexists. split; [done|]. by eexists.
Qed.

(** The client of an external remote write. *)
Definition remote_client (c : ExternalRemoteWriteConfig) : remoteWriteClient := {|
  rc_url := url_String (er_URL c); rc_timeout := or_positive (er_RemoteTimeout c) (30 * second);
  rc_headers := er_Headers c |}.

Lemma clients_of cfgs :
  file_less_clients →
  ∃ clients, NewExternalRemoteWriteClients (loaded_of <$> cfgs) = inr clients
             ∧ ec_Client <$> clients = remote_client <$> cfgs.
Proof.
  intros Hc. induction cfgs as [|c cfgs (cls & IH & E)]; [by exists []|].
  destruct (Hc _ (external_names_no_file c)) as [_ [t Ht]]. rewrite fmap_cons. cbn [NewExternalRemoteWriteClients].
  unfold newExternalRemoteWriteClient at 1. rewrite Ht. cbn [sum_bind]. rewrite IH. eexists. split; [done|]. csimpl. by rewrite E.
Qed.

(** What the operator made of a remote write of the service. *)
Definition encoded_write (rw : RemoteWriteSpec) (c : ExternalRemoteWriteConfig) : Prop :=
  url_Parse (rw_URL rw) = inr (er_URL c) ∧ er_Headers c = rw_Headers rw
  ∧ (if String.eqb (rw_RemoteTimeout rw) "" then er_RemoteTimeout c = 0%Z
     else time_ParseDuration (rw_RemoteTimeout rw) = inr (er_RemoteTimeout c)).

Lemma encoded_write_inv svc rw (w w' : W) c : external_remote_write svc rw w = (Ok c, w') → encoded_write rw c.
Proof.
  unfold external_remote_write, encoded_write. intros (u & w1 & Hu & H)%bind_Ok_inv.
  apply parse_or_inv in Hu as [Hu _]. apply bind_Ok_inv in H as (t & w2 & Ht & H).
  apply bind_Ok_inv in H as (a & w3 & _ & H). inversion H; subst. cbn. split; [done|]. split; [done|].
  destruct (String.eqb (rw_RemoteTimeout rw) ""); [by inversion Ht|].
  destruct (time_ParseDuration _); by inversion Ht.
Qed.

Definition external_step (svc : Service) (acc : list ExternalRemoteWriteConfig) (rw : RemoteWriteSpec)
    : M W (list ExternalRemoteWriteConfig) := c ← external_remote_write svc rw; mret (acc ++ [c]).

Lemma external_fold_inv svc rws : ∀ acc (w w' : W) cfgs,
  fold_each (external_step svc) acc rws w = (Ok cfgs, w') → ∃ l, cfgs = acc ++ l ∧ Forall2 encoded_write rws l.
Proof.
  induction rws as [|rw rws IH]; intros acc w w' cfgs H.
  - inversion H; subst. exists []. by rewrite app_nil_r.
  - apply bind_Ok_inv in H as (acc' & w1 & H1 & H). apply bind_Ok_inv in H1 as (c & w2 & Hc & H1). inversion H1; subst.
    apply encoded_write_inv in Hc. apply IH in H as (l & -> & Hl). exists (c :: l). rewrite <-(assoc_L (++)).
    split; [done|]. by constructor.
Qed.

(** The remote writes of the service are read back. *)
Definition external_read_back (svc : Service) : Prop :=
  ∀ (w w' : W) cfgs buff, fold_each (external_step svc) [] (sv_RemoteWrites (sv_Spec svc)) w = (Ok cfgs, w') →
    yaml_Marshal_external cfgs = inr buff →
    literal buff ∧ yaml_remote_writes buff = inr (loaded_of <$> cfgs).

Lemma external_args_inv svc (w w' : W) args :
  external_args svc w = (Ok args, w') → ∃ cfgs buff,
    args = ["--external-remote-writes.config=" +:+ buff] ∧ Forall2 encoded_write (sv_RemoteWrites (sv_Spec svc)) cfgs
    ∧ (external_read_back svc → literal buff ∧ yaml_remote_writes buff = inr (loaded_of <$> cfgs)).
Proof.
  unfold external_args. intros (cfgs & w1 & Hf & H)%bind_Ok_inv. apply bind_Ok_inv in H as (buff & w2 & Hb & H).
  inversion H; subst. destruct (yaml_Marshal_external cfgs) as [e|b] eqn:E; inversion Hb; subst.
  exists cfgs, buff. split; [done|]. split; [by apply external_fold_inv in Hf as (l & -> & Hl)|].
  intros Hr. exact (Hr _ _ _ _ Hf E).
Qed.

(** The upstreams of a gateway without a remote query. *)
Lemma local_upstreams_inv svc g (w w' : W) args :
  sv_RemoteQuery (sv_Spec svc) = None → upstream_args svc g w = (Ok args, w') →
  ∃ u ru up cfgs w1 w2 w3 w4 fa qa, args = arg_texts (upstream_given up)
    ∧ up_query_config up = tls_text u ∧ up_rules up = None ∧ up_write_config up = tls_text ru
    ∧ queryfrontendAddress svc g w = (Ok fa, w1) ∧ gateway_queryAddress svc g w1 = (Ok qa, w2)
    ∧ remoteWriteAddress svc g w3 = (Ok (up_write up), w4)
    ∧ up_query up = (if String.eqb fa "" then qa else fa) ∧ up_query up ≠ "" ∧ up_write up ≠ ""
    ∧ url_Parse (up_query up) = inr u ∧ url_Parse (up_write up) = inr ru
    ∧ Forall2 encoded_write (sv_RemoteWrites (sv_Spec svc)) cfgs
    ∧ (external_read_back svc →
       literal (up_external up) ∧ yaml_remote_writes (up_external up) = inr (loaded_of <$> cfgs)).
Proof.
  intros Hrq. unfold upstream_args. intros (fa & w1 & Hf & H)%bind_Ok_inv.
  apply bind_Ok_inv in H as (qa & w2 & Hq & H). apply bind_Ok_inv in H as (qs & w3 & Ha & H).
  apply bind_Ok_inv in H as (ws & w4 & Hr & H). apply bind_Ok_inv in H as (es & w5 & He & H).
  apply local_query_inv in Ha as (u & -> & Hne & Hu & ->); [|done].
  apply bind_Ok_inv in Hr as (wa & w6 & Hw & Hr). apply bind_Ok_inv in Hr as (ru & w7 & Hru & Hr).
  apply parse_or_inv in Hru as [Hru ->]. inversion Hr; subst ws.
  apply external_args_inv in He as (cfgs & buff & -> & Hall & Hread). inversion H; subst args.
  exists u, ru, {| up_query := if String.eqb fa "" then qa else fa; up_query_config := tls_text u; up_rules := None; up_write := wa;
                   up_write_config := tls_text ru; up_external := buff |}, cfgs, w1, w2, w2, w6, fa, qa.
  split; [|split_and!; try done].
  - rewrite <-upstream_arg_given. unfold tls_text, tls_arg. cbn [up_query up_query_config up_rules up_write up_write_config up_external].
    by destruct (HasScheme "https" u), (HasScheme "https" ru).
  - cbn. unfold remoteWriteAddress in Hw. apply bind_Ok_inv in Hw as (items & w8 & _ & Hw).
    apply only_one_inv in Hw as [[_ Hw]|(r & _ & Hw)]; [done|]. apply bind_Ok_inv in Hw as (s & w9 & _ & Hw).
    inversion Hw. unfold router_RemoteWriteAddr. done.
Qed.
(** A client sends to the URL of a remote write with its headers and, when it
    has one that is positive, its timeout; otherwise it waits for 30 seconds. *)
Definition sends_as_declared (rw : RemoteWriteSpec) (c : remoteWriteClient) : Prop :=
  ∃ u d, url_Parse (rw_URL rw) = inr u ∧ rc_url c = url_String u ∧ rc_headers c = rw_Headers rw
    ∧ (if String.eqb (rw_RemoteTimeout rw) "" then d = 0%Z else time_ParseDuration (rw_RemoteTimeout rw) = inr d)
    ∧ rc_timeout c = if (0 <? d)%Z then d else (30 * second)%Z.

Lemma remote_client_sends rw c : encoded_write rw c → sends_as_declared rw (remote_client c).
Proof. intros (Hu & Hh & Ht). by exists (er_URL c), (er_RemoteTimeout c). Qed.

Definition admission_path : string := WhizardConfigMountPath +:+ tenantsAdmissionConfigFile.

(** The file of the admitted tenants is there and valid when it is needed. *)
Definition admission_ready (g : Gateway) (watch : string → GoError + unit) (file : string → option string) : Prop :=
  gsp_EnabledTenantsAdmission (gw_Spec g) = true →
  watch admission_path = inr tt ∧ ∃ c, loadConfig (file admission_path) = inr c.

Lemma admission_source_of svc g wc up watch file :
  admission_ready g watch file →
  admission_source watch file (deployed_config svc g wc up)
  = inr (if gsp_EnabledTenantsAdmission (gw_Spec g) then FromFile admission_path (60 * second) else FromContent []).
Proof.
  intros H. unfold admission_source, admission_ready in *. cbn [gcf_tenantsFilePath gcf_tenantsFileContent deployed_config].
  destruct (gsp_EnabledTenantsAdmission (gw_Spec g)); [|done]. destruct (H eq_refl) as (Hw & c & Hc). unfold admission_path in *.
  by rewrite Hw, Hc.
Qed.

(** The arguments of the container are read to the deployed configuration. *)
Lemma main_reads svc g wc up watch file :
  legal_logging (gsp_Common (gw_Spec g)) →
  main watch file CGateway (c_Args (gateway_container svc g wc (arg_texts (upstream_given up))))
  = wrap_err "preparing gateway command failed"
      (r ←? runGateway watch file (deployed_config svc g wc up); inr (RunsGateway r)).
Proof.
  intros Hlog. destruct (gateway_values svc g wc up Hlog) as [m Hm].
  unfold main. cbn [c_Args gateway_container]. rewrite base_arg_given, <-fmap_app, command_flags_gateway.
  fold (gateway_given svc g wc up). rewrite (cl_Parse_given _ _ _ Hm). cbn [sum_bind setup].
  by rewrite (gateway_config_read _ _ _ _ _ Hm).
Qed.

(** The command, once its proxies and clients are there. *)
Lemma main_runs svc g wc up watch file qp rp wp cfgs :
  legal_logging (gsp_Common (gw_Spec g)) → admission_ready g watch file →
  let conf := deployed_config svc g wc up in
  downstream_proxy "query" (gcf_queryConfig conf) = inr qp →
  downstream_proxy "rules query" (gcf_rulesQueryConfig conf) = inr rp →
  downstream_proxy "remote write" (gcf_remoteWriteConfig conf) = inr wp →
  literal (up_external up) → yaml_remote_writes (up_external up) = inr (loaded_of <$> cfgs) →
  file_less_clients →
  ∃ run, main watch file CGateway (c_Args (gateway_container svc g wc (arg_texts (upstream_given up)))) = inr (RunsGateway run)
    ∧ run_Server run = gcf_http conf ∧ run_QueryProxy run = qp ∧ run_RulesQueryProxy run = rp ∧ run_RemoteWriteProxy run = wp
    ∧ run_Options run = gateway_options conf qp rp wp (run_ExternalRWClients run)
    ∧ ec_Client <$> run_ExternalRWClients run = remote_client <$> cfgs
    ∧ run_Admission run = (if gsp_EnabledTenantsAdmission (gw_Spec g) then FromFile admission_path (60 * second) else FromContent []).
Proof.
  intros Hlog Hadm conf Hq Hr Hw [Hene Helit] Hyaml Hcl. destruct (clients_of cfgs Hcl) as (clients & Hclients & E).
  rewrite main_reads by done. fold conf. unfold runGateway. rewrite Hq, Hr, Hw. cbn [sum_bind].
  change (gcf_ExternalRemoteWrites conf) with {| poc_Path := ""; poc_Content := up_external up |}.
  rewrite Content_literal by done. cbn [sum_bind]. unfold LoadExternalRemoteWriteConfig. cbn [String.eqb sum_bind].
  apply String.eqb_neq in Hene. rewrite Hene, Hyaml. cbn [wrap_err sum_bind]. rewrite Hclients. cbn [sum_bind].
  unfold conf. rewrite (admission_source_of _ _ _ _ _ _ Hadm). cbn [sum_bind wrap_err]. eexists. split; [reflexivity|].
  by split_and!.
Qed.

(** A frontend, or the querier without one. *)
Definition query_address (fa qa : string) : string := if String.eqb fa "" then qa else fa.

(** C7: the gateway runs as its resources say: when the operator finds its
    upstreams, there is no remote query, the log level and format are ones the
    command knows, and the admission file is mounted when admission is enabled,
    the container's command line is accepted, and the gateway listens
    at the port of its service, takes the header and the label of the tenants
    from the service, enforces admission exactly when it is enabled and from the
    mounted file, sends queries to the frontend, or to the querier without one,
    and writes to the router, verifying certificates unless the address is
    https, and forwards writes to every remote write of the service, in order,
    with its headers and timeout. Of the libraries: the configurations the
    operator encodes as YAML hold no dollar sign (which kingpin's content flags
    would expand) and are decoded as they were encoded, and an HTTP client whose
    configuration names no file can be made. *)
Theorem gateway_runs_as_declared svc g wc (w w' : W) args watch file :
  sv_RemoteQuery (sv_Spec svc) = None → upstream_args svc g w = (Ok args, w') →
  legal_logging (gsp_Common (gw_Spec g)) → config_read_back insecure_config → external_read_back svc →
  file_less_clients →
  admission_ready g watch file →
  ∃ run, main watch file CGateway (c_Args (gateway_container svc g wc args)) = inr (RunsGateway run)
    ∧ hs_BindAddr (run_Server run) = "0.0.0.0:" +:+ itoa gateway_port
    ∧ let o := run_Options run in
      o_TenantHeader o = or_default (sv_TenantHeader (sv_Spec svc)) "WHIZARD-TENANT"
    ∧ o_TenantLabelName o = or_default (sv_TenantLabelName (sv_Spec svc)) "tenant_id"
    ∧ o_EnabledTenantsAdmission o = gsp_EnabledTenantsAdmission (gw_Spec g)
    ∧ run_Admission run = (if gsp_EnabledTenantsAdmission (gw_Spec g) then FromFile admission_path (60 * second) else FromContent [])
    ∧ o_EnabledQueryUI o = gsp_DebugMode (gw_Spec g)
    ∧ (∃ w1 w2 fa qa u, queryfrontendAddress svc g w = (Ok fa, w1) ∧ gateway_queryAddress svc g w1 = (Ok qa, w2)
       ∧ url_Parse (query_address fa qa) = inr u ∧ reaches u (run_QueryProxy run))
    ∧ o_QueryProxy o = true ∧ o_RulesQueryProxy o = false
    ∧ (∃ w1 w2 wa u, remoteWriteAddress svc g w1 = (Ok wa, w2) ∧ url_Parse wa = inr u ∧ reaches u (run_RemoteWriteProxy run))
    ∧ o_RemoteWriteProxy o = true
    ∧ Forall2 sends_as_declared (sv_RemoteWrites (sv_Spec svc)) (o_ExternalRWClients o).
Proof.
  intros Hrq Hup Hlog Hins Hext Hcl Hadm.
  apply local_upstreams_inv in Hup as (u & ru & up & cfgs & w1 & w2 & w3 & w4 & fa & qa & -> & Hqc & Hrc & Hwc & Hf & Hq & Hw
    & Hqe & Hqne & Hwne & Hu & Hru & Hall & Hread); [|done]. destruct (Hread Hext) as [Hlit Hyaml].
  assert (Hback : ∀ v, tls_config v ≠ no_config → config_read_back (tls_config v)).
  { intros v. unfold tls_config. by destruct (HasScheme "https" v). }
  destruct (proxy_reaches "query" _ u (tls_config u) Hqne Hu) as (qp & Hqp & Hreach); [apply Hback|exact Hcl|].
  destruct (proxy_reaches "remote write" _ ru (tls_config ru) Hwne Hru) as (wp & Hwp & Hwreach); [apply Hback|exact Hcl|].
  rewrite <-tls_text_written in Hqp, Hwp. rewrite <-Hqc in Hqp. rewrite <-Hwc in Hwp.
  destruct (main_runs svc g wc up watch file qp None wp cfgs) as (run & Hrun & Hs & Eq & Er & Ew & Eo & Ec & Ea); [try done..|].
  { cbn [gcf_rulesQueryConfig deployed_config]. by rewrite Hrc. }
  exists run. split; [done|]. rewrite Hs, Eo. cbv zeta.
  cbn [gateway_options o_TenantHeader o_TenantLabelName o_EnabledTenantsAdmission o_EnabledQueryUI o_QueryProxy o_RulesQueryProxy
    o_RemoteWriteProxy o_ExternalRWClients gcf_http gcf_tenantHeader gcf_tenantLabelName gcf_debugEnabledUI
    gcf_tenantsFileContent gcf_tenantsFilePath deployed_config]. rewrite Eq, Ew, Ea, Ec.
  split_and!; try done.
  - by destruct (gsp_EnabledTenantsAdmission (gw_Spec g)).
  - exists w1, w2, fa, qa, u. unfold query_address. by rewrite <-Hqe.
  - by destruct Hreach as (t & -> & _).
  - by exists w3, w4, (up_write up), ru.
  - by destruct Hwreach as (t & -> & _).
  - apply Forall2_fmap_r. eapply Forall2_impl; [exact Hall|]. apply remote_client_sends.
Qed.

(** ** With a remote query *)

(** The configuration of a remote query, from its specification and the user
    and password it refers to. *)
Definition remote_config (rq : RemoteQuerySpec) (u : URL) (auth : option (string * string)) : ProxyConfig := {|
  pc_BasicAuth := auth; pc_BearerToken := hc_BearerToken (rq_HTTPClientConfig rq);
  pc_InsecureSkipVerify := HasScheme "https" u |}.

Lemma remote_upstreams_inv svc g rq (w w' : W) args :
  sv_RemoteQuery (sv_Spec svc) = Some rq → rq_URL rq ≠ "" → upstream_args svc g w = (Ok args, w') →
  ∃ u ru uf auth up cfgs w1 w2 w3 w4 w5 fa qa, args = arg_texts (upstream_given up)
    ∧ queryfrontendAddress svc g w = (Ok fa, w1) ∧ gateway_queryAddress svc g w1 = (Ok qa, w2)
    ∧ basic_auth svc (hc_BasicAuth (rq_HTTPClientConfig rq)) w2 = (Ok auth, w3)
    ∧ remoteWriteAddress svc g w4 = (Ok (up_write up), w5)
    ∧ up_query up = rq_URL rq ∧ url_Parse (rq_URL rq) = inr u ∧ up_query_config up = written (remote_config rq u auth)
    ∧ query_address fa qa ≠ "" ∧ url_Parse (query_address fa qa) = inr uf ∧ up_rules up = Some (qa, tls_text uf)
    ∧ up_write up ≠ "" ∧ url_Parse (up_write up) = inr ru ∧ up_write_config up = tls_text ru
    ∧ Forall2 encoded_write (sv_RemoteWrites (sv_Spec svc)) cfgs
    ∧ (external_read_back svc →
       literal (up_external up) ∧ yaml_remote_writes (up_external up) = inr (loaded_of <$> cfgs)).
Proof.
  intros Hrq Hurl. unfold upstream_args. intros (fa & w1 & Hf & H)%bind_Ok_inv.
  apply bind_Ok_inv in H as (qa & w2 & Hq & H). apply bind_Ok_inv in H as (qs & w3 & Ha & H).
  apply bind_Ok_inv in H as (ws & w4 & Hr & H). apply bind_Ok_inv in H as (es & w5 & He & H).
  unfold query_upstream_args in Ha. rewrite Hrq in Ha. apply String.eqb_neq in Hurl. rewrite Hurl in Ha.
  apply bind_Ok_inv in Ha as (u & wu & Hu & Ha). apply parse_or_inv in Hu as [Hu ->].
  apply bind_Ok_inv in Ha as (auth & w6 & Hauth & Ha). apply bind_Ok_inv in Ha as (addr & w7 & Haddr & Ha).
  apply frontend_or_query_inv in Haddr as (Hne & -> & ->). apply bind_Ok_inv in Ha as (uf & w8 & Huf & Ha).
  apply parse_or_inv in Huf as [Huf ->]. inversion Ha; subst qs w3.
  apply bind_Ok_inv in Hr as (wa & w9 & Hw & Hr). apply bind_Ok_inv in Hr as (ru & w10 & Hru & Hr).
  apply parse_or_inv in Hru as [Hru ->]. inversion Hr; subst ws.
  apply external_args_inv in He as (cfgs & buff & -> & Hall & Hread). inversion H; subst args.
  exists u, ru, uf, auth, {| up_query := rq_URL rq; up_query_config := written (remote_config rq u auth);
    up_rules := Some (qa, tls_text uf); up_write := wa; up_write_config := tls_text ru; up_external := buff |},
    cfgs, w1, w2, w6, w6, w9, fa, qa.
  split; [|split_and!; try done].
  - rewrite <-upstream_arg_given. unfold tls_text, tls_arg, written, remote_config.
    cbn [up_query up_query_config up_rules up_write up_write_config up_external].
    by destruct (decide _), (HasScheme "https" uf), (HasScheme "https" ru).
  - cbn. unfold remoteWriteAddress in Hw. apply bind_Ok_inv in Hw as (items & w11 & _ & Hw).
    apply only_one_inv in Hw as [[_ Hw]|(r & _ & Hw)]; [done|]. apply bind_Ok_inv in Hw as (s & w12 & _ & Hw).
    inversion Hw. done.
Qed.
(** C8: with a remote query, the gateway sends queries to it, with the user, the
    password and the token of the service's specification; rules are read from
    the querier of the service when there is one, with the transport that the
    scheme of the frontend asks for; when there is only a frontend the rules
    have no upstream of their own, and are asked of the remote query. This is so
    when the operator finds the upstreams, the address of the querier parses,
    the log level and format are ones the command knows and the admission file
    is mounted when admission is enabled; of the libraries, as for a gateway
    without a remote query: the configurations encoded as YAML hold no dollar
    sign and are decoded as they were encoded, and an HTTP client whose
    configuration names no file can be made. *)
Theorem remote_query_gateway svc g wc rq (w w' : W) args watch file :
  sv_RemoteQuery (sv_Spec svc) = Some rq → rq_URL rq ≠ "" → upstream_args svc g w = (Ok args, w') →
  legal_logging (gsp_Common (gw_Spec g)) → config_read_back insecure_config → external_read_back svc →
  (∀ u auth (w1 w2 : W), url_Parse (rq_URL rq) = inr u →
     basic_auth svc (hc_BasicAuth (rq_HTTPClientConfig rq)) w1 = (Ok auth, w2) →
     remote_config rq u auth ≠ no_config → config_read_back (remote_config rq u auth)) →
  (∀ fa qa (w1 w2 : W), queryfrontendAddress svc g w = (Ok fa, w1) → gateway_queryAddress svc g w1 = (Ok qa, w2) →
     qa = "" ∨ ∃ u, url_Parse qa = inr u) →
  file_less_clients →
  admission_ready g watch file →
  ∃ run u auth fa qa uf w1 w2 w3,
    main watch file CGateway (c_Args (gateway_container svc g wc args)) = inr (RunsGateway run)
    ∧ queryfrontendAddress svc g w = (Ok fa, w1) ∧ gateway_queryAddress svc g w1 = (Ok qa, w2)
    ∧ basic_auth svc (hc_BasicAuth (rq_HTTPClientConfig rq)) w2 = (Ok auth, w3)
    ∧ url_Parse (rq_URL rq) = inr u ∧ reaches_with (remote_config rq u auth) u (run_QueryProxy run)
    ∧ url_Parse (query_address fa qa) = inr uf
    ∧ (if decide (qa = "") then run_RulesQueryProxy run = None
       else ∃ uq, url_Parse qa = inr uq ∧ reaches_with (tls_config uf) uq (run_RulesQueryProxy run))
    ∧ o_QueryProxy (run_Options run) = true
    ∧ o_RulesQueryProxy (run_Options run) = negb (String.eqb qa "").
Proof.
  intros Hrq Hurl Hup Hlog Hins Hext Hauth Hqurl Hcl Hadm.
  apply (remote_upstreams_inv _ _ _ _ _ _ Hrq Hurl) in Hup as (u & ru & uf & auth & up & cfgs & w1 & w2 & w3 & w4 & w5 & fa & qa
    & -> & Hf & Hq & Ha & Hw & Equ & Hu & Equc & Hne & Huf & Eru & Hwne & Hru & Ewc & Hall & Hread).
  destruct (Hread Hext) as [Hlit Hyaml].
  assert (Hback : ∀ v, tls_config v ≠ no_config → config_read_back (tls_config v)).
  { intros v. unfold tls_config. by destruct (HasScheme "https" v). }
  destruct (proxy_reaches "query" _ u (remote_config rq u auth) Hurl Hu) as (qp & Hqp & Hreach); [by eapply Hauth|exact Hcl|].
  destruct (proxy_reaches "remote write" _ ru (tls_config ru) Hwne Hru) as (wp & Hwp & Hwreach); [apply Hback|exact Hcl|].
  rewrite <-tls_text_written in Hwp. rewrite <-Ewc in Hwp. rewrite <-Equc, <-Equ in Hqp.
  assert (Hrules : ∃ rp, downstream_proxy "rules query" (gcf_rulesQueryConfig (deployed_config svc g wc up)) = inr rp
    ∧ is_some rp = negb (String.eqb qa "")
    ∧ if decide (qa = "") then rp = None else ∃ uq, url_Parse qa = inr uq ∧ reaches_with (tls_config uf) uq rp).
  { cbn [gcf_rulesQueryConfig deployed_config]. rewrite Eru. cbn [default fmap option_fmap option_map fst id mbind option_bind snd].
    destruct (decide (qa = "")) as [->|Hqa]; [by eexists|].
    destruct (Hqurl _ _ _ _ Hf Hq) as [->|[uq Huq]]; [done|].
    destruct (proxy_reaches "rules query" qa uq (tls_config uf) Hqa Huq) as (rp & Hrp & Hrr); [apply Hback|exact Hcl|].
    rewrite tls_text_written. exists rp. split; [exact Hrp|]. apply String.eqb_neq in Hqa. rewrite Hqa. split; [|by exists uq].
    by destruct Hrr as (t & -> & _). }
  destruct Hrules as (rp & Hrp & Eis & Hrr).
  destruct (main_runs svc g wc up watch file qp rp wp cfgs) as (run & Hrun & _ & Eq & Er & _ & Eo & _); [try done..|].
  exists run, u, auth, fa, qa, uf, w1, w2, w3. rewrite Eq, Er, Eo. cbn [gateway_options o_QueryProxy o_RulesQueryProxy].
  split_and!; try done. by destruct Hreach as (t & -> & _).
Qed.
End deployed.

(** ** The configurations of the admitted tenants *)

Section updates.
Context {HM : MapRange}.
Variable options : Options.

(** The loop applies them one after the other; the gateway is ready after the
    first. *)
Lemma update_loop_set_all updates : ∀ st,
  update_loop options st updates =
    match set_all options (gs_Admission st) updates with
    | Ok m => Ok {| gs_Admission := m; gs_Ready := match updates with [] => gs_Ready st | _ => true end |}
    | Err e => Err (EWrap "failed to set tenants admission config in gateway" e)
    | Panic p => Panic p
    end.
Proof.
  induction updates as [|c cs IH]; intros st; [by destruct st|]. simpl.
  destruct (SetAdmissionControlHandler options (gs_Admission st) c) as [m|e|p]; [|done..].
  rewrite IH. simpl. destruct (set_all options m cs); [|done..]. by destruct cs.
Qed.

(** A gateway with admission control is not ready before it has applied a
    configuration, and admits no tenant until then; once it is ready it admits
    exactly the tenants of the last configuration it was given. *)
Theorem ready_means_admitting updates :
  o_EnabledTenantsAdmission options = true → Forall (λ c, "/-/" ∉ c) updates →
  ∃ st, update_loop options gateway_start updates = Ok st
    ∧ match last updates with
      | None => gs_Ready st = false ∧ ∀ t, gs_Admission st !! t = None
      | Some tenants => gs_Ready st = true ∧ ∀ t, t ≠ "/-/" → (is_Some (gs_Admission st !! t) ↔ t ∈ tenants)
      end.
Proof.
  intros Hon Hbad. rewrite update_loop_set_all.
  destruct (set_all_refines options Hon ∅ None updates eq_refl Hbad) as (m & Hm & Ha).
  change (gs_Admission gateway_start) with (∅ : AdmissionMap). rewrite Hm. eexists. split; [done|].
  destruct (last updates) as [tenants|] eqn:El.
  - destruct Ha as [_ Ha]. split; [|exact Ha]. by destruct updates.
  - apply last_None in El as ->. inversion Hm; subst. split; [done|]. intros t. apply lookup_empty.
Qed.
End updates.

(** ** Transports *)

(** Of a transport whose client is configured too, the limits and timeouts are
    dropped. *)
Theorem client_config_hides_limits `{HC : ClientConfigs} {HCm : CommandLib} a b ca cb :
  a ≠ "" → b ≠ "" → yaml_tripper a = inr ca → yaml_tripper b = inr cb →
  dt_HTTPClientConfig ca ≠ no_ClientConfig → dt_HTTPClientConfig ca = dt_HTTPClientConfig cb →
  ParseTransportConfiguration a = ParseTransportConfiguration b.
Proof.
  intros Ha%String.eqb_neq Hb%String.eqb_neq Hca Hcb Hne E. unfold ParseTransportConfiguration.
  rewrite Ha, Hb, Hca, Hcb. cbn [wrap_err sum_bind]. rewrite <-E. by case_decide.
Qed.
