(* ===== verification/GatewayProcessFacts.v ===== *)
(** What the running gateway guarantees, whatever the order in which its
    goroutines are scheduled: it admits what its file says, it does not panic,
    and when its shutdown ends. *)
From stdpp Require Import base gmap strings list pretty sorting.
From Stdlib Require Import Ascii String.
From S2P Require Import Prelude GoStd K8s Base Url Gateway GatewayFacts Watcher Flags Proxy GatewayCommand GatewayProcess GatewayCommandFacts.
Open Scope nat_scope.

(** ** Runs *)

(** The files that a run reads, and the configurations they are good for. *)
Definition read_of (l : Label) : option (option string) :=
  match l with
  | LWatch (WFirst file) => Some file
  | LWatch (WEvent ev) => reread ev
  | _ => None
  end.

(** The first file of a run and the events after it, as [Watcher.Run] takes
    them. *)
Definition first_of (l : Label) : option (option string) :=
  match l with LWatch (WFirst file) => Some file | _ => None end.
Definition clear_done (ev : Event) : Event :=
  match ev with
  | EvFile name op content _ => EvFile name op content false
  | EvTick content _ => EvTick content false
  | EvError e => EvError e
  end.
Definition event_of (l : Label) : option Event :=
  match l with LWatch (WEvent ev) => Some (clear_done ev) | _ => None end.

Section facts.
Context `{!WatchLib} `{!RunGroup}.

Definition goods_of (tr : list Label) : list (string * list string) := omap good (omap read_of tr).

Definition watched (tr : list Label) : ConfigWatcher :=
  match omap first_of tr with
  | file :: _ => Run file (omap event_of tr) NewConfigWatcher
  | [] => NewConfigWatcher
  end.

Variable options : Options.
Variable source : AdmissionSource.
Local Abbreviation start := (start source).
Local Abbreviation perform := (perform options source).
Local Abbreviation exec := (exec options source).

(** The configurations that a run may give the gateway. *)
Definition offered (tr : list Label) : list (list string) :=
  match source with FromFile _ _ => (goods_of tr).*2 | FromContent cf => [cf] end.

(** The configurations that have left their source, and those on their way. *)
Definition outbox (s : Process) : list (list string) :=
  match source with FromFile _ _ => cw_ch (gp_Watcher s) | FromContent cf => [cf] end.
Definition is_file : Prop := match source with FromFile _ _ => True | FromContent _ => False end.
Definition in_hand (s : Process) : list (list string) := match gp_Source s with SSend c => [c] | _ => [] end.
Definition pending (s : Process) : list (list string) := match gp_Run s with RSend c => [c] | _ => [] end.

(** ** The watcher, in two halves *)

Lemma refresh_halves file cw :
  refresh file false cw = match to_send file cw with
                          | Some c => sent c (refresh file true cw)
                          | None => refresh file true cw
                          end.
Proof.
  unfold refresh, to_send. destruct (loadConfig file) as [e|[config h]]; [done|].
  by destruct (lastLoadedConfigHash cw =? h)%Z.
Qed.

Lemma Run_step_reads cw ev :
  Run_step cw (clear_done ev) = match reread ev with Some file => refresh file false cw | None => Run_step cw ev end.
Proof. destruct ev as [name op content d|content d|[e|]]; simpl; try done. by destruct (String.eqb name ""), (op_ignored op). Qed.

Lemma refresh_keeps file cw : cw_ch (refresh file true cw) = cw_ch cw.
Proof. unfold refresh. destruct (loadConfig file) as [e|[config h]]; [done|]. by destruct (_ =? _)%Z. Qed.

Lemma to_send_good file cw c : to_send file cw = Some c → ∃ content, good file = Some (content, c).
Proof.
  unfold to_send. destruct (loadConfig_good file) as [E Hb]. destruct (good file) as [[content c']|].
  - rewrite E. destruct (_ =? _)%Z; [done|]. intros [= ->]. by exists content.
  - by destruct Hb as [e ->].
Qed.

Lemma Run_step_keeps cw ev : reread ev = None → cw_ch (Run_step cw ev) = cw_ch cw.
Proof. destruct ev as [name op content d|content d|[e|]]; simpl; try done. by destruct (String.eqb name ""), (op_ignored op). Qed.

(** ** Who runs *)

Lemma running_return a b e s : running b (return_ a e s) = running b s && bool_decide (a ≠ b).
Proof.
  unfold running, return_. cbn [gp_returned]. rewrite fmap_app. apply eq_bool_prop_intro.
  rewrite andb_True, !bool_decide_spec. set_solver.
Qed.

Lemma running_spec a s : running a s = true ↔ a ∉ (gp_returned s).*1.
Proof. apply bool_decide_eq_true. Qed.

(** ** The steps *)

(** The steps that succeed, with what enables them. *)
Inductive moves (s : Process) : Label → Process → Prop :=
  | mv_serve : moves s LServe (set_serving true true s)
  | mv_other l a e : (l = LServerReturns e ∨ l = LSignal ∨ l = LCanceled ∨ l = LReloadCanceled) →
      a ≠ ASource → a ≠ AUpdater → moves s l (return_ a e s)
  | mv_hangup ch : moves s LHangup (set_reload ch s)
  | mv_idle : moves s LHangup s
  | mv_first file : gp_Run s = RStart → moves s (LWatch (WFirst file)) (refresh_select file s)
  | mv_reread ev file : gp_Run s = RSelect → reread ev = Some file → moves s (LWatch (WEvent ev)) (refresh_select file s)
  | mv_skip ev : gp_Run s = RSelect → reread ev = None →
      moves s (LWatch (WEvent ev)) (set_run (Run_step (gp_Watcher s) ev) RSelect s)
  | mv_stop : gp_Run s = RSelect → interrupted ASource s = true → moves s (LWatch WStop) (set_run (gp_Watcher s) RStopped s)
  | mv_give_up c : gp_Run s = RSend c → interrupted ASource s = true →
      moves s (LWatch WGiveUp) (set_run (gp_Watcher s) RSelect s)
  | mv_start : is_file → gp_Source s = SStart → running ASource s = true →
      moves s (LSource FStart) (set_source SWait (gp_updates s) (set_run (gp_Watcher s) RStart s))
  | mv_receive c : is_file → gp_Source s = SWait → gp_Run s = RSend c → running ASource s = true →
      moves s (LSource FReceive) (set_source (SSend c) (gp_updates s) (set_run (sent c (gp_Watcher s)) RSelect s))
  | mv_end f e : f = FStopped ∨ f = FDone → gp_Source s = SWait → running ASource s = true → (gp_Run s = RStopped ∨ interrupted ASource s = true) →
      moves s (LSource f) (return_ ASource e (set_source SWait
        {| ch_cap := ch_cap (gp_updates s); ch_buf := ch_buf (gp_updates s); ch_closed := true |} s))
  | mv_send c : gp_Source s = SSend c → running ASource s = true → length (ch_buf (gp_updates s)) < ch_cap (gp_updates s) →
      moves s (LSource FSend) (set_source SWait
        {| ch_cap := ch_cap (gp_updates s); ch_buf := ch_buf (gp_updates s) ++ [c]; ch_closed := false |} s)
  | mv_update c rest m : running AUpdater s = true → ch_buf (gp_updates s) = c :: rest →
      SetAdmissionControlHandler options (gs_Admission (gp_Gateway s)) c = Ok m →
      moves s (LUpdate UReceive) (set_gateway
        {| ch_cap := ch_cap (gp_updates s); ch_buf := rest; ch_closed := ch_closed (gp_updates s) |}
        {| gs_Admission := m; gs_Ready := true |} s)
  | mv_update_fails c rest e : running AUpdater s = true → ch_buf (gp_updates s) = c :: rest →
      SetAdmissionControlHandler options (gs_Admission (gp_Gateway s)) c = Err e →
      moves s (LUpdate UReceive) (return_ AUpdater (Some (EWrap "failed to set tenants admission config in gateway" e))
        (set_gateway {| ch_cap := ch_cap (gp_updates s); ch_buf := rest; ch_closed := ch_closed (gp_updates s) |}
           (gp_Gateway s) s))
  | mv_update_ends u : running AUpdater s = true →
      (ch_closed (gp_updates s) = true ∨ interrupted AUpdater s = true) → moves s (LUpdate u) (return_ AUpdater None s)
  | mv_interrupt a : rg_interrupt (gp_returned s) (gp_interrupted s) = Some a → moves s LInterrupt (interrupt_actor a s).

Lemma source_moves f s s' : source_at source f s = Some (Ok s') → moves s (LSource f) s'.
Proof.
  unfold source_at. destruct (running ASource s) eqn:Hr; [|done]. intros Hf.
  assert (Hend : ∀ e, f = FStopped ∨ f = FDone → gp_Source s = SWait → (gp_Run s = RStopped ∨ interrupted ASource s = true) →
    close_updates e s = Ok s' → moves s (LSource f) s').
  { intros e Hfe Hs Hi. unfold close_updates, chan_close. destruct (ch_closed (gp_updates s)); [done|].
    intros [= <-]. rewrite Hs. by apply mv_end. }
  assert (Hsend : ∀ c, f = FSend → gp_Source s = SSend c → send_update s = Some (Ok s') → moves s (LSource f) s').
  { intros c -> Hs. unfold send_update, chan_send. rewrite Hs. destruct (ch_closed _); [done|].
    destruct (Nat.ltb_spec (length (ch_buf (gp_updates s))) (ch_cap (gp_updates s))); [|done]. intros [= <-]. by apply mv_send. }
  unfold ConfigFromWatcher_at, content_at, is_file in *. destruct (gp_Source s) eqn:Hs, f, source as [path n|cf] eqn:Hsrc;
    simplify_eq; try done; eauto; try (destruct (gp_Run s) eqn:Hrun; simplify_eq; eauto);
    try (destruct (interrupted ASource s) eqn:Hi; simplify_eq; eauto).
  all: econstructor; unfold is_file; rewrite ?Hsrc; eauto.
Qed.

Lemma updater_moves u s s' : updater_at options u s = Some (Ok s') → moves s (LUpdate u) s'.
Proof.
  unfold updater_at, chan_recv. destruct (running AUpdater s) eqn:Hr; [|done]. destruct u.
  - destruct (ch_buf (gp_updates s)) as [|c rest] eqn:Hb.
    + destruct (ch_closed (gp_updates s)) eqn:Hc; [|done]. intros [= <-]. apply mv_update_ends; auto.
    + cbn [update_loop]. destruct (SetAdmissionControlHandler options (gs_Admission (gp_Gateway s)) c) as [m|e|p] eqn:E; [| |done].
      * intros [= <-]. by eapply mv_update.
      * intros [= <-]. by eapply mv_update_fails.
  - destruct (interrupted AUpdater s) eqn:Hi; [|done]. intros [= <-]. apply mv_update_ends; auto.
Qed.

Lemma perform_moves l s s' : perform l s = Some (Ok s') → moves s l s'.
Proof.
  destruct l as [|e|w|f|u| | | | |]; cbn [GatewayProcess.perform]; try apply source_moves; try apply updater_moves.
  all: unfold server_at, Run_at, interrupt_at, reload_at; intros Hp.
  all: repeat (case_match; try done); simplify_eq/=; try done; by (econstructor; eauto).
Qed.

(** ** The shape of the process *)

Record shape (s : Process) : Prop := {
  sh_cap : ch_cap (gp_updates s) = 1;
  sh_buf : length (ch_buf (gp_updates s)) ≤ 1;
  sh_closed : ch_closed (gp_updates s) = true → running ASource s = false;
  sh_mode : match source with
            | FromFile _ _ => gp_Source s = SStart ↔ gp_Run s = RIdle
            | FromContent _ => gp_Run s = RIdle ∧ gp_Source s ≠ SStart
            end;
  sh_stopped : gp_Run s = RStopped → interrupted ASource s = true;
  sh_source : running ASource s = false → interrupted ASource s = true;
  sh_returned : gp_interrupted s ≠ [] → gp_returned s ≠ [];
}.

Lemma shape_start : shape start.
Proof. split; try done; [simpl; lia|]. by destruct source. Qed.

Ltac proc := cbn [set_run set_source set_gateway set_serving set_reload return_ set_interrupted refresh_select
  gp_Watcher gp_Run gp_Source gp_updates gp_Gateway gp_Serving gp_Healthy gp_reload gp_returned gp_interrupted
  ch_cap ch_buf ch_closed gs_Admission gs_Ready].

Lemma interrupt_actor_same a s :
  gp_Watcher (interrupt_actor a s) = gp_Watcher s ∧ gp_Run (interrupt_actor a s) = gp_Run s
  ∧ gp_Source (interrupt_actor a s) = gp_Source s ∧ gp_updates (interrupt_actor a s) = gp_updates s
  ∧ gs_Admission (gp_Gateway (interrupt_actor a s)) = gs_Admission (gp_Gateway s)
  ∧ gp_Serving (interrupt_actor a s) = gp_Serving s
  ∧ gp_returned (interrupt_actor a s) = gp_returned s ∧ gp_interrupted (interrupt_actor a s) = gp_interrupted s ++ [a].
Proof. by destruct a. Qed.

Lemma interrupted_mono a b s : interrupted a s = true → interrupted a (interrupt_actor b s) = true.
Proof.
  unfold interrupted. destruct (interrupt_actor_same b s) as (_ & _ & _ & _ & _ & _ & _ & ->).
  rewrite !bool_decide_eq_true. set_solver.
Qed.

(** A step that leaves the channel and what writes it alone, and lets nobody
    return but somebody else. *)
Lemma shape_same s s' :
  shape s → gp_updates s' = gp_updates s → gp_Source s' = gp_Source s → gp_Run s' = gp_Run s →
  running ASource s' = running ASource s → (interrupted ASource s = true → interrupted ASource s' = true) →
  (gp_interrupted s' ≠ [] → gp_returned s' ≠ []) → shape s'.
Proof.
  intros [H1 H2 H3 H4 H5 H6 H7] Hu Hs Hr Hrun Hi Hret. split; rewrite ?Hu, ?Hs, ?Hr, ?Hrun; auto.
Qed.

Lemma shape_run s cw r :
  shape s → gp_Run s ≠ RIdle → r ≠ RIdle → (r = RStopped → interrupted ASource s = true) → shape (set_run cw r s).
Proof.
  intros [H1 H2 H3 H4 H5 H6 H7] Hne Hne' Hst. split; proc; auto.
  destruct source; [|by destruct H4]. rewrite H4. naive_solver.
Qed.

Lemma at_select_live o : at_select o ≠ RIdle ∧ at_select o ≠ RStopped.
Proof. by destruct o. Qed.

Lemma shape_moves l s s' : shape s → moves s l s' → shape s'.
Proof.
  intros Hs Hm. pose proof Hs as [H1 H2 H3 H4 H5 H6 H7].
  assert (Hret : ∀ a e, (gp_returned s ++ [(a, e)] : list (Actor * option GoError)) ≠ []) by (intros a e; by destruct (gp_returned s)).
  destruct Hm as [|l a e _ Ha1 Ha2|ch| |file Hr|ev file Hr _|ev Hr _|Hr Hi|c Hr Hi|Hf Hsrc Hrun|c Hf Hsrc Hr Hrun|f e _ Hsrc Hrun Hi
    |c Hsrc Hrun Hlen|c rest m Hrun Hb _|c rest e Hrun Hb _|u Hrun _|a Ha].
  - by eapply shape_same.
  - eapply shape_same; try done; [by rewrite running_return, bool_decide_true, andb_true_r|intros _; apply Hret].
  - by eapply shape_same.
  - done.
  - apply shape_run; [done|by rewrite Hr|apply at_select_live|intros E; by apply at_select_live in E].
  - apply shape_run; [done|by rewrite Hr|apply at_select_live|intros E; by apply at_select_live in E].
  - apply shape_run; try done; by rewrite Hr.
  - apply shape_run; try done; by rewrite Hr.
  - apply shape_run; try done; by rewrite Hr.
  - unfold is_file in Hf. split; proc; try done; destruct source; done.
  - unfold is_file in Hf. split; proc; try done; destruct source; done.
  - assert (Hr : running ASource (return_ ASource e s) = false) by (rewrite running_return; by destruct (running ASource s)).
    split; proc; auto.
    + destruct source; [|by destruct H4]. rewrite <-H4, Hsrc. done.
    + intros _. destruct Hi as [Hi|Hi]; [by apply H5|exact Hi].
  - split; proc; auto; [rewrite length_app; simpl; lia|done|].
    destruct source; [|by destruct H4]. rewrite <-H4, Hsrc. done.
  - split; proc; auto. rewrite Hb in H2. simpl in H2. lia.
  - rewrite Hb in H2. simpl in H2. split; proc; auto; try lia.
    + intros Hc. rewrite running_return. change (running ASource _) with (running ASource s). by rewrite H3.
    + intros Hr. apply H6. rewrite running_return in Hr. change (running ASource _) with (running ASource s) in Hr.
      by rewrite bool_decide_true, andb_true_r in Hr by done.
  - eapply shape_same; try done; [by rewrite running_return, bool_decide_true, andb_true_r|intros _; apply Hret].
  - destruct (interrupt_actor_same a s) as (_ & Er & Es & Eu & _ & _ & Eret & Eint).
    eapply shape_same; try done; [unfold running; by rewrite Eret|apply interrupted_mono|].
    rewrite Eret. intros _ E. rewrite E, rg_waits in Ha. done.
Qed.

Lemma exec_ind_moves (P : list Label → Process → Prop) :
  P [] start → (∀ tr s l s', exec start tr s → P tr s → moves s l s' → P (tr ++ [l]) s') →
  ∀ tr s, exec start tr s → P tr s.
Proof.
  intros Hbase Hstep tr s Hx. remember start as s0 eqn:E.
  induction Hx as [|s0 tr s1 l s2 Hx IH Hp]; [by subst|]. subst.
  eapply Hstep; [exact Hx|by apply IH|by apply perform_moves].
Qed.

Lemma exec_shape tr s : exec start tr s → shape s.
Proof. revert tr s. apply exec_ind_moves; [apply shape_start|]. intros tr s l s' _ Hs Hm. by eapply shape_moves. Qed.

(** ** The watcher in the process is the watcher alone *)

Definition after_send (s : Process) : ConfigWatcher :=
  match gp_Run s with RSend c => sent c (gp_Watcher s) | _ => gp_Watcher s end.
Definition idle (s : Process) : Prop := gp_Run s = RIdle ∨ gp_Run s = RStart.

Record follows (tr : list Label) (s : Process) : Prop := {
  fo_idle : idle s → omap first_of tr = [] ∧ omap event_of tr = [] ∧ gp_Watcher s = NewConfigWatcher;
  fo_first : ¬ idle s → omap first_of tr ≠ [];
  fo_watched : gp_interrupted s = [] → after_send s = watched tr;
  fo_good : Forall (λ c, c ∈ (goods_of tr).*2) (cw_ch (gp_Watcher s) ++ pending s);
}.

Lemma watched_first tr file :
  omap first_of tr = [] → omap event_of tr = [] →
  watched (tr ++ [LWatch (WFirst file)]) = refresh file false NewConfigWatcher.
Proof. intros Hf He. unfold watched. by rewrite !omap_app, Hf, He. Qed.

Lemma watched_event tr ev :
  omap first_of tr ≠ [] → watched (tr ++ [LWatch (WEvent ev)]) = Run_step (watched tr) (clear_done ev).
Proof.
  intros Hf. unfold watched. rewrite !omap_app. cbn [omap list_omap first_of event_of]. rewrite app_nil_r.
  destruct (omap first_of tr) as [|file rest]; [done|]. unfold Run. by rewrite foldl_app.
Qed.

Lemma goods_snoc tr l : goods_of (tr ++ [l]) = goods_of tr ++ omap good (omap read_of [l]).
Proof. unfold goods_of. by rewrite !omap_app. Qed.

Lemma goods_more tr l c : c ∈ (goods_of tr).*2 → c ∈ (goods_of (tr ++ [l])).*2.
Proof. rewrite goods_snoc, fmap_app. set_solver. Qed.

(** A step that reads nothing. *)
Lemma follows_quiet tr l s s' :
  follows tr s → first_of l = None → event_of l = None → (idle s' ↔ idle s) → (idle s → gp_Watcher s' = gp_Watcher s) →
  (gp_interrupted s' = [] → gp_interrupted s = [] ∧ after_send s' = after_send s) →
  cw_ch (gp_Watcher s') ++ pending s' ⊆ cw_ch (gp_Watcher s) ++ pending s → follows (tr ++ [l]) s'.
Proof.
  intros [H1 H2 H3 H4] Hf He Hidle Hw Hi Hsub. split.
  1-3: unfold watched; rewrite !omap_app; cbn [omap list_omap]; rewrite ?Hf, ?He, ?app_nil_r, ?Hidle.
  - intros Hs. rewrite Hw by done. by apply H1.
  - done.
  - intros [Hint ->]%Hi. by apply H3.
  - rewrite list.Forall_forall in *. intros c Hc. by apply goods_more, H4, Hsub.
Qed.

Lemma follows_same tr l s s' :
  follows tr s → first_of l = None → event_of l = None → gp_Watcher s' = gp_Watcher s → gp_Run s' = gp_Run s →
  (gp_interrupted s' = [] → gp_interrupted s = []) → follows (tr ++ [l]) s'.
Proof.
  intros Hs Hf He Hw Hr Hi. eapply follows_quiet; try done; unfold idle, after_send, pending; rewrite ?Hr, ?Hw; auto.
Qed.

(** A refresh: from the watcher as it is before, and of what the trace says. *)
Lemma follows_refresh tr l s file :
  follows tr s → pending s = [] → read_of l = Some file → omap first_of (tr ++ [l]) ≠ [] →
  (gp_interrupted s = [] → watched (tr ++ [l]) = refresh file false (gp_Watcher s)) →
  follows (tr ++ [l]) (refresh_select file s).
Proof.
  intros [_ _ _ H4] Hp Hread Hf Hw. unfold refresh_select. split; proc.
  - intros [E|E]; exfalso; revert E; proc; by destruct (to_send file _).
  - done.
  - intros Hi. rewrite (Hw Hi), refresh_halves. unfold after_send. proc. by destruct (to_send file (gp_Watcher s)).
  - rewrite refresh_keeps. rewrite Hp, app_nil_r in H4. apply Forall_app. split.
    + eapply list.Forall_impl; [exact H4|]. intros c. apply goods_more.
    + unfold pending. proc. destruct (to_send file (gp_Watcher s)) as [c|] eqn:E; [|constructor].
      apply to_send_good in E as [content E]. apply Forall_singleton. rewrite goods_snoc, fmap_app. simpl. rewrite Hread. simpl.
      rewrite E. set_solver.
Qed.

(** An event that does not make the watcher read. *)
Lemma follows_skip tr s ev :
  follows tr s → gp_Run s = RSelect → reread ev = None →
  follows (tr ++ [LWatch (WEvent ev)]) (set_run (Run_step (gp_Watcher s) ev) RSelect s).
Proof.
  intros [H1 H2 H3 H4] Hr Hread. assert (Hn : ¬ idle s) by (unfold idle; rewrite Hr; naive_solver). specialize (H2 Hn).
  split; proc.
  - by intros [E|E].
  - intros _. rewrite omap_app. by destruct (omap first_of tr).
  - intros Hi. specialize (H3 Hi). unfold after_send in *. rewrite Hr in H3. proc.
    by rewrite watched_event, Run_step_reads, Hread, H3.
  - rewrite Run_step_keeps by done. unfold pending in *. rewrite Hr in H4. proc. rewrite list.Forall_forall in *.
    intros c Hc. by apply goods_more, H4.
Qed.

Lemma follows_moves tr s l s' : shape s → follows tr s → moves s l s' → follows (tr ++ [l]) s'.
Proof.
  intros Hsh Hs Hm. pose proof Hs as [H1 H2 H3 _].
  assert (Hint : interrupted ASource s = true → gp_interrupted s ≠ []).
  { unfold interrupted. rewrite bool_decide_eq_true. intros Hin E. rewrite E in Hin. by apply elem_of_nil in Hin. }
  destruct Hm as [|l a e Hl _ _|ch| |file Hr|ev file Hr Hread|ev Hr Hread|Hr Hi|c Hr Hi|Hf Hsrc Hrun|c Hf Hsrc Hr Hrun
    |f e Hsrc Hrun Hi|c Hsrc Hrun Hlen|c rest m Hrun Hb _|c rest e Hrun Hb _|u Hrun _|a Ha].
  all: try (by eapply follows_same).
  - eapply follows_same; try done; by destruct Hl as [-> | [-> | [-> | ->]]].
  - destruct H1 as (E1 & E2 & E3); [by right|]. eapply follows_refresh; [done| |done| |].
    + unfold pending. by rewrite Hr.
    + by rewrite omap_app, E1.
    + intros _. by rewrite watched_first, E3.
  - assert (Hn : ¬ idle s) by (unfold idle; rewrite Hr; naive_solver). specialize (H2 Hn).
    eapply follows_refresh; [done| |done| |].
    + unfold pending. by rewrite Hr.
    + rewrite omap_app. by destruct (omap first_of tr).
    + intros Hi. specialize (H3 Hi). unfold after_send in H3. rewrite Hr in H3.
      by rewrite watched_event, Run_step_reads, Hread, H3.
  - by apply follows_skip.
  - eapply follows_quiet; try done; unfold idle, pending; rewrite ?Hr; proc; [naive_solver|by apply Hint in Hi|done].
  - eapply follows_quiet; try done; unfold idle, pending; rewrite ?Hr; proc; [naive_solver|by apply Hint in Hi|set_solver].
  - pose proof (sh_mode _ Hsh) as Hmode. unfold is_file in Hf. destruct source; [|done]. apply Hmode in Hsrc.
    eapply follows_quiet; try done; unfold idle, pending, after_send; rewrite ?Hsrc; proc; [naive_solver|done|done].
  - eapply follows_quiet; try done; unfold idle, pending, after_send; rewrite ?Hr; proc; [naive_solver|naive_solver|done|].
    cbn [sent cw_ch]. by rewrite app_nil_r.
  - destruct (interrupt_actor_same a s) as (Ew & Er & _ & _ & _ & _ & _ & Ei).
    eapply follows_same; try done. rewrite Ei. by destruct (gp_interrupted s).
Qed.

Lemma follows_start : follows [] start.
Proof. split; [done| |done|constructor]. intros Hn. destruct Hn. by left. Qed.

Lemma exec_follows tr s : exec start tr s → follows tr s.
Proof.
  intros Hx. assert (Hb : shape s ∧ follows tr s); [|by destruct Hb]. revert tr s Hx. apply exec_ind_moves.
  - split; [apply shape_start|apply follows_start].
  - intros tr s l s' _ [Hs Hf] Hm. split; [by eapply shape_moves|by eapply follows_moves].
Qed.

(** ** The updates go through in order *)

Lemma set_all_snoc m applied c :
  set_all options m (applied ++ [c])
  = match set_all options m applied with
    | Ok m => SetAdmissionControlHandler options m c
    | Err e => Err e
    | Panic p => Panic p
    end.
Proof.
  revert m. induction applied as [|c0 applied IH]; intros m; simpl.
  - by destruct (SetAdmissionControlHandler options m c).
  - by destruct (SetAdmissionControlHandler options m c0).
Qed.

(** What the loop has applied, and what it has not seen. *)
Definition pipeline (s : Process) : Prop :=
  ∃ applied rest, outbox s = applied ++ rest
    ∧ set_all options ∅ applied = Ok (gs_Admission (gp_Gateway s))
    ∧ (running AUpdater s = true → rest = ch_buf (gp_updates s) ++ in_hand s)
    ∧ (gp_interrupted s = [] → gs_Ready (gp_Gateway s) = match applied with [] => false | _ => true end).

Lemma pipeline_start : pipeline start.
Proof.
  exists [], (outbox start). split_and!; try done. intros _. unfold outbox, in_hand, GatewayProcess.start. by destruct source.
Qed.

Lemma pipeline_same s s' more :
  pipeline s → outbox s' = outbox s ++ more →
  gs_Admission (gp_Gateway s') = gs_Admission (gp_Gateway s) →
  (running AUpdater s' = true → running AUpdater s = true
     ∧ ch_buf (gp_updates s') ++ in_hand s' = ch_buf (gp_updates s) ++ in_hand s ++ more) →
  (gp_interrupted s' = [] → gp_interrupted s = [] ∧ gs_Ready (gp_Gateway s') = gs_Ready (gp_Gateway s)) →
  pipeline s'.
Proof.
  intros (applied & rest & E & Ha & Hr & Hi) Eo Eg Hup Hint. exists applied, (rest ++ more). split_and!.
  - by rewrite Eo, E, app_assoc.
  - by rewrite Eg.
  - intros [Hrun ->]%Hup. by rewrite (Hr Hrun), app_assoc.
  - intros [Hn ->]%Hint. by apply Hi.
Qed.

Lemma pipeline_moves s l s' : pipeline s → moves s l s' → pipeline s'.
Proof.
  intros Hs Hm. pose proof Hs as (applied & rest & E & Ha & Hr & Hi).
  destruct Hm as [|l a e _ Ha1 Ha2|ch| |file Hw|ev file Hw _|ev Hw Hread|Hw _|c Hw _|Hf Hsrc Hrun|c Hf Hsrc Hw Hrun|f e _ Hsrc Hrun _
    |c Hsrc Hrun Hlen|c rest' m Hrun Hb Hm|c rest' e Hrun Hb _|u Hrun _|a Hint].
  all: try (eapply (pipeline_same s _ []); [done|by rewrite app_nil_r| | |]; by (rewrite ?app_nil_r; auto)).
  - eapply (pipeline_same s _ []); try done; rewrite ?app_nil_r; auto.
    rewrite running_return. intros Hx. by apply andb_true_iff in Hx as [Hx _].
  - eapply (pipeline_same s _ []); try done; rewrite ?app_nil_r; auto.
    unfold outbox. destruct source; [|done]. proc. apply refresh_keeps.
  - eapply (pipeline_same s _ []); try done; rewrite ?app_nil_r; auto.
    unfold outbox. destruct source; [|done]. proc. apply refresh_keeps.
  - eapply (pipeline_same s _ []); try done; rewrite ?app_nil_r; auto.
    unfold outbox. destruct source; [|done]. by apply Run_step_keeps.
  - eapply (pipeline_same s _ []); try done; rewrite ?app_nil_r; auto.
    unfold in_hand. proc. by rewrite Hsrc, app_nil_r.
  - eapply (pipeline_same s _ [c]); try done; auto.
    + unfold outbox, is_file in *. by destruct source.
    + unfold in_hand. proc. rewrite Hsrc. auto.
  - eapply (pipeline_same s _ []); try done; rewrite ?app_nil_r; auto.
    rewrite running_return. intros Hx. apply andb_true_iff in Hx as [Hx _]. split; [exact Hx|]. unfold in_hand. proc. by rewrite Hsrc, ?app_nil_r.
  - eapply (pipeline_same s _ []); try done; rewrite ?app_nil_r; auto.
    intros Hx. unfold in_hand. proc. rewrite Hsrc. split; [done|]. by rewrite ?app_nil_r.
  - specialize (Hr Hrun). rewrite Hb in Hr. subst rest. exists (applied ++ [c]), (rest' ++ in_hand s). split_and!.
    + by rewrite <-app_assoc.
    + by rewrite set_all_snoc, Ha.
    + done.
    + intros _. by destruct applied.
  - exists applied, rest. split_and!; try done. rewrite running_return. intros Hx. apply andb_true_iff in Hx as [_ Hx].
    by rewrite bool_decide_eq_true in Hx.
  - destruct (interrupt_actor_same a s) as (Ew & Er & Es & Eu & Eg & _ & Eret & Ei).
    eapply (pipeline_same s _ []); [done| |done| |]; rewrite ?app_nil_r.
    + unfold outbox. by rewrite Ew.
    + unfold running, in_hand. by rewrite Eret, Es, Eu.
    + rewrite Ei. by destruct (gp_interrupted s).
Qed.

Lemma exec_pipeline tr s : exec start tr s → pipeline s.
Proof. revert tr s. apply exec_ind_moves; [apply pipeline_start|]. intros tr s l s' _ Hs Hm. by eapply pipeline_moves. Qed.

(** ** No step fails *)

Definition harmless (tr : list Label) : Prop := Forall (λ c, "/-/" ∉ c) (offered tr).

Lemma harmless_app tr more : harmless (tr ++ more) → harmless tr.
Proof.
  unfold harmless, offered. destruct source; [|done]. unfold goods_of. rewrite !omap_app, fmap_app.
  by intros [H1 _]%Forall_app.
Qed.

Lemma set_applies applied c m :
  Forall (λ c, "/-/" ∉ c) applied → "/-/" ∉ c → set_all options ∅ applied = Ok m →
  ∃ m', SetAdmissionControlHandler options m c = Ok m'.
Proof.
  intros Hf Hc Hm. destruct (o_EnabledTenantsAdmission options) eqn:Hon.
  - destruct (set_all_refines options Hon ∅ None applied eq_refl Hf) as (m1 & E & Ha).
    rewrite Hm in E. injection E as <-. by destruct (SetAdmission_refines options Hon m _ c Ha Hc) as (m2 & -> & _); eauto.
  - unfold SetAdmissionControlHandler, SetAdmission_ops. rewrite Hon. by eexists.
Qed.

Lemma outbox_offered tr s : exec start tr s → Forall (λ c, c ∈ offered tr) (outbox s).
Proof.
  intros Hx. pose proof (fo_good _ _ (exec_follows _ _ Hx)) as Hg. unfold outbox, offered.
  destruct source; [by apply Forall_app in Hg as [Hg _]|]. apply Forall_singleton. set_solver.
Qed.

Lemma next_applies tr s c rest :
  exec start tr s → harmless tr → running AUpdater s = true → ch_buf (gp_updates s) = c :: rest →
  ∃ m, SetAdmissionControlHandler options (gs_Admission (gp_Gateway s)) c = Ok m.
Proof.
  intros Hx Hok Hrun Hb. destruct (exec_pipeline _ _ Hx) as (applied & r & E & Ha & Hr & _).
  rewrite (Hr Hrun), Hb in E. pose proof (outbox_offered _ _ Hx) as Ho. unfold harmless in Hok.
  rewrite list.Forall_forall in Hok. rewrite E, list.Forall_forall in Ho.
  eapply (set_applies applied); [|apply Hok, Ho; set_solver|done].
  apply list.Forall_forall. intros x Hin. apply Hok, Ho. set_solver.
Qed.

Lemma updater_runs tr s :
  exec start tr s → harmless tr → running AUpdater s = false → gp_interrupted s ≠ [].
Proof.
  revert tr s. apply (exec_ind_moves (λ tr s, harmless tr → running AUpdater s = false → gp_interrupted s ≠ [])); [done|].
  intros tr s l s' Hx IH Hm Hok Hrun. specialize (IH (harmless_app _ _ Hok)).
  pose proof (exec_shape _ _ Hx) as Hs. destruct Hm; try (by apply IH).
  - apply IH. rewrite running_return, bool_decide_true, andb_true_r in Hrun by done. done.
  - apply IH. rewrite running_return, bool_decide_true, andb_true_r in Hrun by done. done.
  - destruct (next_applies tr s c rest) as [m Hm]; [done|by eapply harmless_app|done..|]. congruence.
  - proc. match goal with Hc : _ ∨ _ |- _ => rename Hc into Hend end. destruct Hend as [Hc|Hc].
    + intros E. apply (sh_closed _ Hs), (sh_source _ Hs) in Hc. unfold interrupted in Hc. rewrite E in Hc. done.
    + intros E. unfold interrupted in Hc. rewrite E in Hc. done.
  - destruct (interrupt_actor_same a s) as (_ & _ & _ & _ & _ & _ & _ & ->). by destruct (gp_interrupted s).
Qed.

(** C31: the gateway does not panic, whatever the schedule: no goroutine sends on
    a channel that is closed or closes one twice, at run time and during the
    shutdown, and no configuration breaks the admission map, as long as none
    names the tenant ["/-/"]. *)
Theorem gateway_process_never_panics tr s l p :
  exec start tr s → harmless tr → perform l s ≠ Some (Panic p).
Proof.
  intros Hx Hok. pose proof (exec_shape _ _ Hx) as Hs.
  assert (Hopen : running ASource s = true → ch_closed (gp_updates s) = false).
  { intros Hr. destruct (ch_closed (gp_updates s)) eqn:E; [|done]. by rewrite (sh_closed _ Hs E) in Hr. }
  assert (Hmap : ∀ o : option Process, (Ok <$> o) ≠ Some (Panic p)) by (by intros []).
  destruct l as [|e|w|f|u| | | | |]; cbn [GatewayProcess.perform]; try apply Hmap; [| |by destruct (rg_interrupt _ _)].
  - unfold source_at. destruct (running ASource s) eqn:Hr; [|done]. specialize (Hopen eq_refl).
    unfold ConfigFromWatcher_at, content_at, send_update, close_updates, chan_send, chan_close. rewrite Hopen.
    destruct source, (gp_Source s), f; try done; repeat case_match; simplify_eq; done.
  - unfold updater_at, chan_recv. destruct (running AUpdater s) eqn:Hr; [|done]. destruct u; [|by destruct (interrupted AUpdater s)].
    destruct (ch_buf (gp_updates s)) as [|c rest] eqn:Hb; [by destruct (ch_closed _)|].
    destruct (next_applies _ _ _ _ Hx Hok Hr Hb) as [m Hm]. cbn [update_loop]. by rewrite Hm.
Qed.

(** ** Settling *)

(** The steps that forward a configuration towards the admission map. *)
Definition forwards (l : Label) : bool :=
  match l with LSource FStart | LSource FReceive | LSource FSend | LUpdate UReceive => true | _ => false end.

(** Nothing is left to forward. *)
Definition settled (s : Process) : Prop := ∀ l, forwards l = true → perform l s = None.

(** How many steps are left, at most. *)
Definition to_forward (s : Process) : nat :=
  match gp_Source s with SStart => 1 | _ => 0 end
  + 3 * length (pending s) + 2 * length (in_hand s) + length (ch_buf (gp_updates s))
  + (if running AUpdater s then 1 else 0).

Lemma forwards_less l s s' : forwards l = true → moves s l s' → to_forward s' < to_forward s.
Proof.
  intros Hf Hm. unfold to_forward, pending, in_hand.
  assert (Hsame : ∀ s', gp_returned s' = gp_returned s → running AUpdater s' = running AUpdater s)
    by (intros s'' E; unfold running; by rewrite E).
  destruct Hm; try done; try (by destruct_or!; subst);
    proc; rewrite ?running_return;
    try match goal with |- context [running AUpdater ?x] => rewrite (Hsame x eq_refl) end;
    repeat match goal with
      | E : gp_Source _ = _ |- _ => rewrite E; clear E
      | E : gp_Run _ = _ |- _ => rewrite E; clear E
      | E : ch_buf _ = _ |- _ => rewrite E; clear E
      | E : running AUpdater _ = true |- _ => rewrite E; clear E
      end; rewrite ?length_app, ?andb_false_r; simpl; try destruct (running AUpdater s); lia.
Qed.

Lemma exec_app s tr s1 tr' s2 : exec s tr s1 → exec s1 tr' s2 → exec s (tr ++ tr') s2.
Proof.
  intros H1 H2. induction H2 as [|s1 tr' s2 l s3 _ IH Hp]; [by rewrite app_nil_r|].
  rewrite app_assoc. eapply exec_step; [by apply IH|done].
Qed.

Lemma forwards_bound s tr s' :
  Forall (λ l, forwards l = true) tr → exec s tr s' → length tr + to_forward s' ≤ to_forward s ∧ gp_interrupted s' = gp_interrupted s.
Proof.
  intros Hf Hx. induction Hx as [s|s tr s1 l s2 Hx IH Hp]; [done|].
  apply Forall_app in Hf as [Hf Hl]. rewrite Forall_singleton in Hl. destruct (IH Hf) as [Hlen Hi].
  apply perform_moves in Hp. pose proof (forwards_less _ _ _ Hl Hp). rewrite length_app. simpl. split; [lia|].
  rewrite <-Hi. destruct Hp; try done.
Qed.

Lemma to_forward_bound s : shape s → to_forward s ≤ 7.
Proof.
  intros [_ Hb _ Hm _ _ _]. unfold to_forward, pending, in_hand.
  assert (gp_Source s = SStart → gp_Run s = RIdle) by (destruct source; [apply Hm|by intros ?%(proj2 Hm)]).
  destruct (gp_Source s), (gp_Run s); simpl; destruct (running AUpdater s); try lia; naive_solver.
Qed.

Lemma watch_moves s w s' :
  moves s (LWatch w) s' → match w with WFirst _ => gp_Run s = RStart | WEvent _ => gp_Run s = RSelect | _ => True end.
Proof. inversion 1; subst; try done. by destruct_or!. Qed.

Lemma schedule_exec tr s s' : schedule options source tr s = Some s' → exec s tr s'.
Proof.
  revert s. induction tr as [|l tr IH]; intros s Hs; [injection Hs as <-; constructor|]. cbn [schedule] in Hs.
  destruct (perform l s) as [[s1|e|p]|] eqn:E; try done. apply (exec_app s [l] s1); [|by apply IH].
  eapply (exec_step _ _ s [] s); [constructor|done].
Qed.

(** Reading the trace as the watcher's: the first file, then the events. *)
Lemma exec_reads tr s :
  exec start tr s →
  omap read_of tr = match omap first_of tr with
                    | file :: _ => file :: omap reread (omap event_of tr)
                    | [] => []
                    end.
Proof.
  revert tr s. apply (exec_ind_moves (λ tr s, omap read_of tr = match omap first_of tr with
    | file :: _ => file :: omap reread (omap event_of tr) | [] => [] end)); [done|].
  intros tr s l s' Hx IH Hm. pose proof (exec_follows _ _ Hx) as [Hidle Hfirst _ _]. rewrite !omap_app, IH.
  destruct l as [| |[file|ev| |]| | | | | | |]; cbn [omap list_omap read_of first_of event_of]; rewrite ?app_nil_r; try done.
  - apply watch_moves in Hm. destruct Hidle as (E1 & E2 & _); [by right|]. by rewrite E1, E2.
  - apply watch_moves in Hm. assert (Hn : omap first_of tr ≠ []) by (apply Hfirst; unfold idle; rewrite Hm; naive_solver).
    destruct (omap first_of tr) as [|file rest]; [done|]. simpl. f_equal. f_equal.
    by destruct ev as [name op content d|content d|[e|]].
Qed.

Lemma settled_empty s :
  shape s → is_file → gp_interrupted s = [] → running AUpdater s = true → settled s →
  pending s = [] ∧ ch_buf (gp_updates s) = [] ∧ in_hand s = [].
Proof.
  intros Hs Hf Hi Hrun Hset. unfold is_file in Hf.
  assert (Hsrc : running ASource s = true).
  { destruct (running ASource s) eqn:E; [done|]. pose proof (sh_source _ Hs E) as Hx. unfold interrupted in Hx. by rewrite Hi in Hx. }
  assert (Hb : ch_buf (gp_updates s) = []).
  { specialize (Hset (LUpdate UReceive) eq_refl). cbn [GatewayProcess.perform] in Hset. unfold updater_at, chan_recv in Hset.
    rewrite Hrun in Hset. by destruct (ch_buf (gp_updates s)). }
  assert (Hopen : ch_closed (gp_updates s) = false).
  { destruct (ch_closed (gp_updates s)) eqn:E; [|done]. by rewrite (sh_closed _ Hs E) in Hsrc. }
  pose proof (Hset (LSource FStart) eq_refl) as H1. pose proof (Hset (LSource FReceive) eq_refl) as H2.
  pose proof (Hset (LSource FSend) eq_refl) as H3. unfold pending, in_hand.
  cbn [GatewayProcess.perform] in H1, H2, H3. unfold source_at, ConfigFromWatcher_at in H1, H2, H3. rewrite Hsrc in H1, H2, H3.
  destruct source; [|done]. destruct (gp_Source s) as [| |c] eqn:Es; [done|by destruct (gp_Run s)|].
  unfold send_update, chan_send in H3. rewrite Es, Hopen, Hb, (sh_cap _ Hs) in H3. done.
Qed.

(** What a settled gateway has applied: all that the watcher alone would have
    sent. *)
Lemma settled_applied tr s :
  exec start tr s → is_file → harmless tr → gp_interrupted s = [] → settled s →
  set_all options ∅ (cw_ch (watched tr)) = Ok (gs_Admission (gp_Gateway s))
  ∧ gs_Ready (gp_Gateway s) = match cw_ch (watched tr) with [] => false | _ => true end.
Proof.
  intros Hx Hf Hok Hi Hset.
  assert (Hrun : running AUpdater s = true).
  { destruct (running AUpdater s) eqn:E; [done|]. by destruct (updater_runs _ _ Hx Hok E). }
  destruct (settled_empty s) as (Hp & Hb & Hh); [by eapply exec_shape|done..|].
  pose proof (fo_watched _ _ (exec_follows _ _ Hx) Hi) as Hw. unfold after_send, pending in *.
  destruct (exec_pipeline _ _ Hx) as (applied & rest & E & Ha & Hr & Hready). rewrite (Hr Hrun), Hb, Hh, !app_nil_r in E.
  assert (Ew : cw_ch (watched tr) = applied).
  { rewrite <-E. unfold outbox, is_file in *. destruct source; [|done]. rewrite <-Hw. by destruct (gp_Run s). }
  rewrite Ew. split; [done|by apply Hready].
Qed.

Lemma watched_tracks tr s content tenants :
  exec start tr s → no_collision (goods_of tr) → last (goods_of tr) = Some (content, tenants) →
  last (cw_ch (watched tr)) = Some tenants ∧ Forall (λ c, ∃ x, (x, c) ∈ goods_of tr) (cw_ch (watched tr)).
Proof.
  intros Hx Hnc Hlast. pose proof (exec_reads _ _ Hx) as Hreads. unfold watched.
  destruct (omap first_of tr) as [|file rest].
  { unfold goods_of in Hlast. by rewrite Hreads in Hlast. }
  assert (Hgoods : goods_of tr = run_goods file (omap event_of tr)) by (unfold goods_of, run_goods; by rewrite Hreads).
  rewrite Hgoods in *. pose proof (Run_tracks file (omap event_of tr)) as Ht.
  assert (Hnd : Forall not_done (omap event_of tr)).
  { apply list.Forall_forall. intros ev (l & _ & Hl)%list_elem_of_omap. destruct l as [| |[|ev0| |]| | | | | | |]; try done.
    injection Hl as <-. by destruct ev0. }
  specialize (Ht Hnd Hnc). unfold tracks in Ht. rewrite Hlast in Ht. by destruct Ht as (_ & H1 & H2).
Qed.

(** C30: the running gateway follows its file: at any moment before its shutdown,
    however the watcher, the forwarder, the update loop, the server and the
    signals have been scheduled, at most seven more forwarding steps are
    possible; when none is left the gateway is ready and admits the tenants of
    the last good content that the watcher has read, provided the hashes of the
    contents do not collide. *)
Theorem running_gateway_follows_file path interval tr s content tenants :
  source = FromFile path interval → o_EnabledTenantsAdmission options = true →
  exec start tr s → gp_interrupted s = [] →
  no_collision (goods_of tr) → Forall (λ g, "/-/" ∉ g.2) (goods_of tr) → last (goods_of tr) = Some (content, tenants) →
  ∀ tr' s', Forall (λ l, forwards l = true) tr' → exec s tr' s' →
    length tr' ≤ 7
    ∧ (settled s' → gs_Ready (gp_Gateway s') = true
         ∧ ∀ t, t ≠ "/-/" → (is_Some (gs_Admission (gp_Gateway s') !! t) ↔ t ∈ tenants)).
Proof.
  intros Hsrc Hon Hx Hi Hnc Hbad Hlast tr' s' Hf Hx'.
  destruct (forwards_bound _ _ _ Hf Hx') as [Hlen Hi']. pose proof (to_forward_bound _ (exec_shape _ _ Hx)) as Hmax.
  split; [lia|]. intros Hset. pose proof (exec_app _ _ _ _ _ Hx Hx') as Hxx.
  assert (Hg : goods_of (tr ++ tr') = goods_of tr).
  { unfold goods_of. rewrite !omap_app. enough (omap read_of tr' = []) as -> by by rewrite app_nil_r.
    clear -Hf. induction Hf as [|l tr' Hl _ IH]; [done|]. cbn [omap list_omap]. rewrite IH. by destruct l as [| |[]|[]|[]| | | | |]. }
  assert (Hok : harmless (tr ++ tr')) by (unfold harmless, offered; rewrite Hsrc, Hg; by apply Forall_fmap).
  destruct (settled_applied _ _ Hxx) as [Ha Hr]; [by unfold is_file; rewrite Hsrc|done|by rewrite Hi'|done|].
  destruct (watched_tracks (tr ++ tr') s' content tenants) as [Hch Hall]; [done|by rewrite Hg..|].
  assert (Hgood : Forall (λ c, "/-/" ∉ c) (cw_ch (watched (tr ++ tr')))).
  { eapply list.Forall_impl; [exact Hall|]. intros c [x Hc]. rewrite Hg in Hc. rewrite list.Forall_forall in Hbad. exact (Hbad _ Hc). }
  rewrite Hr. destruct (set_all_refines options Hon ∅ None _ eq_refl Hgood) as (m & Hm & Hadm).
  rewrite Ha in Hm. injection Hm as <-. rewrite Hch in Hadm. destruct Hadm as [_ Hadm]. split; [|done].
  by destruct (cw_ch (watched (tr ++ tr'))).
Qed.

(** ** The shutdown *)

(** The source of the updates is about to send one, there is no room for it, and
    the loop that would make room has returned. *)
Definition wedged (s : Process) : Prop :=
  running ASource s = true ∧ running AUpdater s = false ∧ in_hand s ≠ []
  ∧ ch_cap (gp_updates s) ≤ length (ch_buf (gp_updates s)).

Lemma wedged_moves s l s' : wedged s → moves s l s' → wedged s'.
Proof.
  intros (Hr & Hu & Hh & Hb) Hm. unfold wedged, in_hand in *.
  destruct Hm as [|l a e _ Ha1 Ha2|ch| |file Hw|ev file Hw _|ev Hw Hread|Hw _|c Hw _|Hf Hsrc _|c Hf Hsrc Hw _|f e _ Hsrc _ _
    |c Hsrc Hrun Hlen|c rest m Hrun _ _|c rest e Hrun _ _|u Hrun _|a _]; try done; try congruence; try (by rewrite Hsrc in Hh).
  - by rewrite !running_return, !bool_decide_true, !andb_true_r.
  - lia.
  - destruct (interrupt_actor_same a s) as (_ & _ & Es & Eu & _ & _ & Eret & _). unfold running in *. by rewrite Es, Eu, Eret.
Qed.

Lemma wedged_forever s tr s' : wedged s → exec s tr s' → wedged s'.
Proof. intros Hw Hx. induction Hx as [s|s tr s1 l s2 _ IH Hp]; [done|]. eapply wedged_moves; [by apply IH|by apply perform_moves]. Qed.

Lemma exec_returned s tr s' : exec s tr s' → ∃ more, gp_returned s' = gp_returned s ++ more.
Proof.
  intros Hx. induction Hx as [s|s tr s1 l s2 _ [more IH] Hp]; [exists []; by rewrite app_nil_r|].
  apply perform_moves in Hp. assert (∃ more, gp_returned s2 = gp_returned s1 ++ more) as [more' ->].
  { destruct Hp; try (by exists []; rewrite app_nil_r); try (by eexists).
    destruct (interrupt_actor_same a s1) as (_ & _ & _ & _ & _ & _ & -> & _). exists []. by rewrite app_nil_r. }
  exists (more ++ more'). by rewrite IH, app_assoc.
Qed.

(** The actors that are not in a list, and what a shutdown still has to do. *)
Definition others (l : list Actor) : nat := length (filter (λ a, a ∉ l) actors).

Definition remaining (s : Process) : nat :=
  others (gp_interrupted s) + others (gp_returned s).*1 + (if gp_Serving s then 0 else 1)
  + match gp_Source s with SStart => 2 | SWait => 1 | SSend _ => 4 end + 2 * length (ch_buf (gp_updates s)).

Lemma others_snoc l a : a ∉ l → others (l ++ [a]) < others l.
Proof.
  intros Ha. unfold others.
  replace (filter (λ b, b ∉ l ++ [a]) actors) with (filter (λ b, b ≠ a) (filter (λ b, b ∉ l) actors)).
  - apply (length_filter_lt _ _ a); [|naive_solver]. apply list_elem_of_filter. split; [done|]. destruct a; set_solver.
  - rewrite list_filter_filter. apply list_filter_iff. set_solver.
Qed.

Lemma others_return s a e : running a s = true → others (gp_returned s ++ [(a, e)]).*1 < others (gp_returned s).*1.
Proof. intros Ha. rewrite fmap_app. apply others_snoc. by apply running_spec. Qed.

(** One step of the shutdown. *)
Definition steps_down (s : Process) : Prop :=
  ∃ l s', perform l s = Some (Ok s') ∧ remaining s' < remaining s ∧ ¬ wedged s' ∧ read_of l = None.

Lemma down_interrupt s a :
  rg_interrupt (gp_returned s) (gp_interrupted s) = Some a → ¬ wedged s → steps_down s.
Proof.
  intros Ha Hw. exists LInterrupt, (interrupt_actor a s).
  destruct (interrupt_actor_same a s) as (_ & _ & Es & Eu & _ & Esv & Eret & Ei). split_and!.
  - cbn [GatewayProcess.perform]. by rewrite Ha.
  - unfold remaining. rewrite Es, Eu, Esv, Eret, Ei. pose proof (others_snoc _ _ (rg_once _ _ _ Ha)). lia.
  - contradict Hw. unfold wedged, running, in_hand in *. by rewrite Es, Eu, Eret in Hw.
  - done.
Qed.

Lemma down_other s a : a ∈ [AServer; AInterrupt; AReload] → running a s = true → interrupted a s = true → ¬ wedged s → steps_down s.
Proof.
  intros Ha Hr Hi Hw. set (e := if decide (a = AServer) then None else Some (EMsg "canceled")).
  assert (Hgo : ∀ l, perform l s = Some (Ok (return_ a e s)) → read_of l = None → steps_down s).
  { intros l Hl Hread. exists l, (return_ a e s). split_and!; [done| | |done].
    - pose proof (others_return s a e Hr). unfold remaining. proc. lia.
    - contradict Hw. unfold wedged in *. rewrite !running_return, !andb_true_iff in Hw.
      rewrite (bool_decide_true (a ≠ AUpdater)), andb_true_r in Hw by set_solver. naive_solver. }
  repeat (apply elem_of_cons in Ha as [->|Ha]); [| | |by apply elem_of_nil in Ha].
  - destruct (gp_Serving s) eqn:Hs.
    + apply (Hgo (LServerReturns None)); [|done]. cbn [GatewayProcess.perform]. unfold server_at. by rewrite Hr, Hs.
    + exists LServe, (set_serving true true s). split_and!; [|unfold remaining; proc; rewrite Hs; lia|done|done].
      cbn [GatewayProcess.perform]. unfold server_at. by rewrite Hr, Hs.
  - apply (Hgo LCanceled); [|done]. cbn [GatewayProcess.perform]. unfold interrupt_at. by rewrite Hr, Hi.
  - apply (Hgo LReloadCanceled); [|done]. cbn [GatewayProcess.perform]. unfold reload_at. by rewrite Hr, Hi.
Qed.

Lemma down_update tr s :
  exec start tr s → harmless tr → running AUpdater s = true → ch_buf (gp_updates s) ≠ [] → steps_down s.
Proof.
  intros Hx Hok Hr Hb. destruct (ch_buf (gp_updates s)) as [|c rest] eqn:E; [done|].
  destruct (next_applies _ _ _ _ Hx Hok Hr E) as [m Hm].
  exists (LUpdate UReceive), (set_gateway {| ch_cap := ch_cap (gp_updates s); ch_buf := rest; ch_closed := ch_closed (gp_updates s) |}
    {| gs_Admission := m; gs_Ready := true |} s). split_and!; [|unfold remaining; proc|intros (_ & Hu & _ & _)|done].
  - cbn [GatewayProcess.perform]. unfold updater_at, chan_recv. rewrite Hr, E. cbn [update_loop]. rewrite Hm. reflexivity.
  - rewrite E. simpl. lia.
  - unfold running in *. revert Hu. proc. congruence.
Qed.

Lemma down_end s e :
  gp_Source s = SWait → running ASource s = true → ch_closed (gp_updates s) = false → interrupted ASource s = true →
  perform (LSource FDone) s = Some (close_updates e s) → steps_down s.
Proof.
  intros Hs Hr Hc Hi Hp. unfold close_updates, chan_close in Hp. rewrite Hc in Hp.
  eexists (LSource FDone), _. split_and!; [exact Hp| | |done].
  - pose proof (others_return s ASource e Hr). unfold remaining. proc. lia.
  - intros (Hx & _). rewrite running_return, bool_decide_false, andb_false_r in Hx by naive_solver. done.
Qed.

Lemma down_source tr s :
  exec start tr s → harmless tr → running ASource s = true → interrupted ASource s = true → ¬ wedged s → steps_down s.
Proof.
  intros Hx Hok Hr Hi Hw. pose proof (exec_shape _ _ Hx) as Hs.
  assert (Hc : ch_closed (gp_updates s) = false).
  { destruct (ch_closed (gp_updates s)) eqn:E; [|done]. by rewrite (sh_closed _ Hs E) in Hr. }
  destruct (gp_Source s) as [| |c] eqn:Es.
  - pose proof (sh_mode _ Hs) as Hm. destruct source as [path n|cf] eqn:Hsrc; [|by destruct Hm].
    exists (LSource FStart), (set_source SWait (gp_updates s) (set_run (gp_Watcher s) RStart s)). split_and!; [|unfold remaining; proc; rewrite Es; lia|intros (_ & _ & Hh & _); by apply Hh|done].
    cbn [GatewayProcess.perform]. unfold source_at, ConfigFromWatcher_at. by rewrite Hr, Es, Hsrc.
  - apply (down_end s (match source with FromFile _ _ => Some (EMsg "context canceled") | FromContent _ => None end)); try done.
    cbn [GatewayProcess.perform]. unfold source_at, ConfigFromWatcher_at, content_at. rewrite Hr, Es, Hi. by destruct source.
  - destruct (ch_buf (gp_updates s)) as [|c' rest] eqn:Eb.
    + exists (LSource FSend), (set_source SWait {| ch_cap := 1; ch_buf := [c]; ch_closed := false |} s). split_and!; [|unfold remaining; proc; rewrite Es, Eb; simpl; lia|intros (_ & _ & Hh & _); by apply Hh|done].
      cbn [GatewayProcess.perform]. unfold source_at, ConfigFromWatcher_at, content_at, send_update, chan_send.
      rewrite Hr, Es, Hc, Eb, (sh_cap _ Hs). by destruct source.
    + destruct (running AUpdater s) eqn:Hu; [eapply down_update; try done; by rewrite Eb|].
      destruct Hw. unfold wedged, in_hand. rewrite Es, Eb, (sh_cap _ Hs). simpl. split_and!; try done. lia.
Qed.

Lemma down_updater s :
  running AUpdater s = true → interrupted AUpdater s = true → running ASource s = false → steps_down s.
Proof.
  intros Hr Hi Hs. eexists (LUpdate UCancel), _. split_and!; [| | |done].
  - cbn [GatewayProcess.perform]. unfold updater_at. rewrite Hr, Hi. reflexivity.
  - pose proof (others_return s AUpdater None Hr). unfold remaining. proc. lia.
  - intros (Hx & _). by rewrite running_return, Hs in Hx.
Qed.

Lemma one_down tr s a :
  exec start tr s → harmless tr → gp_returned s ≠ [] → ¬ wedged s → running a s = true → steps_down s.
Proof.
  intros Hx Hok Hret Hw Ha.
  destruct (rg_interrupt (gp_returned s) (gp_interrupted s)) as [b|] eqn:E; [by eapply down_interrupt|].
  assert (Hint : ∀ b, running b s = true → interrupted b s = true).
  { intros b Hb. unfold interrupted. apply bool_decide_eq_true. eapply rg_all; [done..| |by apply running_spec]. by destruct b; set_solver. }
  destruct a; [eapply down_other; [by left|done|by apply Hint|done]| | |
    eapply down_other; [by right; left|done|by apply Hint|done]|eapply down_other; [by right; right; left|done|by apply Hint|done]].
  - eapply down_source; try done. by apply Hint.
  - destruct (running ASource s) eqn:Hs; [eapply down_source; try done; by apply Hint|]. apply down_updater; [done|by apply Hint|done].
Qed.

Lemma down tr s :
  exec start tr s → harmless tr → gp_returned s ≠ [] → ¬ wedged s →
  ∃ tr' s', exec s tr' s' ∧ ∀ a, running a s' = false.
Proof.
  remember (remaining s) as n eqn:En. revert tr s En. induction (lt_wf n) as [n _ IH]. intros tr s -> Hx Hok Hret Hw.
  destruct (decide (Exists (λ a, running a s = true) actors)) as [Hex|Hall].
  - apply Exists_exists in Hex as (a & _ & Ha).
    destruct (one_down tr s a) as (l & s1 & Hp & Hlt & Hw1 & Hread); [done..|].
    assert (Hstep : exec s [l] s1) by (eapply (exec_step _ _ _ []); [constructor|done]).
    assert (Hok1 : harmless (tr ++ [l])).
    { unfold harmless, offered in *. destruct source; [|done]. unfold goods_of in *. rewrite !omap_app. cbn [omap list_omap].
      by rewrite Hread, app_nil_r. }
    destruct (IH (remaining s1) Hlt (tr ++ [l]) s1) as (tr' & s' & Hx' & Hend); [done|by eapply exec_app|done| |done|].
    + destruct (exec_returned _ _ _ Hstep) as [more ->]. by destruct (gp_returned s).
    + exists ([l] ++ tr'), s'. split; [by eapply exec_app|done].
  - exists [], s. split; [constructor|]. intros a. destruct (running a s) eqn:E; [|done].
    destruct Hall. apply Exists_exists. exists a. split; [by destruct a; set_solver|done].
Qed.

(** C32: the shutdown of the gateway ends exactly when it is not wedged: once an
    actor has returned, on a signal, an error or a server that stops, the others
    can all be brought to return, and the process exits with the status of that
    first actor, unless the forwarder holds a configuration for which the
    channel has no room while the update loop is gone: that process never
    exits. *)
Theorem shutdown_ends_unless_wedged tr s a e rest :
  exec start tr s → harmless tr → gp_returned s = (a, e) :: rest →
  (∃ tr' s', exec s tr' s' ∧ exit_status s' = Some (match e with Some _ => 1%Z | None => 0%Z end)) ↔ ¬ wedged s.
Proof.
  intros Hx Hok Hret. split.
  - intros (tr' & s' & Hx' & Hexit) Hw. destruct (wedged_forever _ _ _ Hw Hx') as [Hr _].
    unfold exit_status in Hexit. rewrite (rg_running _ ASource) in Hexit; [done|set_solver|by apply running_spec].
  - intros Hw. destruct (down tr s) as (tr' & s' & Hx' & Hend); [done..|by rewrite Hret|done|].
    exists tr', s'. split; [done|]. destruct (exec_returned _ _ _ Hx') as [more Hmore]. unfold exit_status.
    rewrite Hmore, Hret. simpl. rewrite (rg_first a e); [done|]. intros b _. specialize (Hend b).
    unfold running in Hend. rewrite bool_decide_eq_false, Hmore, Hret in Hend. apply dec_stable in Hend. exact Hend.
Qed.
End facts.
