(* ===== verification/Std.v ===== *)
(** Concrete instances of the third-party parameters of the workloads, of the
    gateway and of the configuration watcher: they show that the laws the models
    assume can hold together, and let the witnesses evaluate the models. *)
From stdpp Require Import base gmap strings list pretty.
From Stdlib Require Import Ascii String.
From S2P Require Import Prelude GoStd K8s Api Base Workload Web Router Store Compactor Url Gateway Watcher GoNet Query QueryFrontend GatewayWorkload Ruler RulerWorkload.
Open Scope nat_scope.

(** ** The router *)

(** A path segment and the rest of the path, from the next slash on. *)
Fixpoint cut_segment (s : string) : string * string :=
  match s with
  | EmptyString => ("", "")
  | String a s' => if Ascii.eqb a "/" then ("", s)
                   else let '(x, y) := cut_segment s' in (String a x, y)
  end.

Definition std_template (tpl path : string) : option (gmap string string) :=
  if contains_char "{"%char tpl then
    if has_prefix tpl "/{tenant_id}" then
      match path with
      | String c rest =>
          let '(t, r) := cut_segment rest in
          if Ascii.eqb c "/" && negb (String.eqb t "") && String.eqb r (trim_prefix tpl "/{tenant_id}")
          then Some (<["tenant_id" := t]> ∅) else None
      | EmptyString => None
      end
    else None
  else if String.eqb path tpl then Some ∅ else None.

Definition std_prefix (tpl path : string) : bool := has_prefix path tpl.

Fixpoint std_handler (rs : list Route) (req : Request) : option (Route * gmap string string) :=
  match rs with
  | [] => None
  | r :: rs' =>
      match path_matches std_template std_prefix r (rq_Path req) with
      | Some vars => if bool_decide (r_Methods r = [] ∨ rq_Method req ∈ r_Methods r)
                     then Some (r, vars) else std_handler rs' req
      | None => std_handler rs' req
      end
  end.

Lemma cut_segment_app t r :
  contains_char "/"%char t = false → cut_segment (t +:+ String "/" r) = (t, String "/" r).
Proof.
  induction t as [|a t IH]; intros Ht; [done|]. simpl in Ht. apply orb_false_iff in Ht as [Ha Ht].
  change (String a t +:+ String "/" r) with (String a (t +:+ String "/" r)). cbn [cut_segment].
  rewrite Ha. by rewrite IH.
Qed.

Lemma cut_segment_inv s t r :
  cut_segment s = (t, r) → s = t +:+ r ∧ contains_char "/"%char t = false.
Proof.
  revert t r. induction s as [|a s IH]; intros t r H; simpl in H; [by inversion H|].
  destruct (Ascii.eqb a "/") eqn:Ha; [by inversion H|].
  destruct (cut_segment s) as [x y]. inversion H; subst. destruct (IH x r eq_refl) as [-> Hx].
  split; [done|]. cbn [contains_char]. by rewrite Ha.
Qed.

Lemma std_template_tenant ep path vars :
  contains_char "{"%char ep = false → has_prefix ep "/" = true →
  std_template ("/{tenant_id}" +:+ ep) path = Some vars ↔
  ∃ t, t ≠ "" ∧ contains_char "/"%char t = false ∧ path = "/" +:+ t +:+ ep ∧ vars = <["tenant_id" := t]> ∅.
Proof.
  intros _ Hep. apply has_prefix_inv in Hep as [p ->]. change ("/" +:+ p) with (String "/" p).
  unfold std_template. rewrite trim_prefix_app. change (contains_char "{" ("/{tenant_id}" +:+ _)) with true.
  rewrite has_prefix_app. cbv iota. split.
  - destruct path as [|c rest]; [done|]. destruct (cut_segment rest) as [t r] eqn:E.
    destruct (Ascii.eqb_spec c "/") as [->|]; [|done]. destruct (String.eqb_spec t ""); [done|].
    destruct (String.eqb_spec r (String "/" p)) as [->|]; [|done]. intros [= <-].
    apply cut_segment_inv in E as [-> Ht]. by exists t.
  - intros (t & Hne & Ht & -> & ->). change ("/" +:+ ?x) with (String "/" x). cbv iota.
    rewrite cut_segment_app by done. rewrite (proj2 (String.eqb_neq t "")) by done.
    by rewrite String.eqb_refl.
Qed.

Lemma std_handler_first rs req r vars :
  std_handler rs req = Some (r, vars) ↔
  ∃ before after, rs = before ++ r :: after ∧ route_matches std_template std_prefix r req vars
    ∧ Forall (λ r', ∀ vars', ¬ route_matches std_template std_prefix r' req vars') before.
Proof.
  induction rs as [|r0 rs IH].
  { split; [done|]. by intros ([|??] & ? & ? & _). }
  assert (Hstep : (∀ vars', ¬ route_matches std_template std_prefix r0 req vars') →
    (∃ before after, rs = before ++ r :: after ∧ route_matches std_template std_prefix r req vars
       ∧ Forall (λ r', ∀ vars', ¬ route_matches std_template std_prefix r' req vars') before) ↔
    (∃ before after, r0 :: rs = before ++ r :: after ∧ route_matches std_template std_prefix r req vars
       ∧ Forall (λ r', ∀ vars', ¬ route_matches std_template std_prefix r' req vars') before)).
  { intros H0. split.
    - intros (b & a & -> & Hr & Hb). exists (r0 :: b), a. split_and!; [done|done|by constructor].
    - intros ([|r1 b] & a & Heq & Hr & Hb); inversion Heq; subst; [by edestruct H0|].
      apply Forall_cons in Hb as [_ Hb]. by exists b, a. }
  cbn [std_handler]. unfold route_matches in Hstep |- *.
  destruct (path_matches std_template std_prefix r0 (rq_Path req)) as [v0|] eqn:E0.
  - destruct (bool_decide_reflect (r_Methods r0 = [] ∨ rq_Method req ∈ r_Methods r0)) as [Hm|Hm].
    + split.
      * intros [= <- <-]. exists [], rs. by repeat split.
      * intros ([|r1 b] & a & Heq & [Hp _] & Hb); inversion Heq; subst; [by simplify_eq|].
        apply Forall_cons in Hb as [Hb _]. by destruct (Hb v0).
    + unfold route_matches in IH. rewrite IH. apply Hstep. by intros vars' [_ ?].
  - unfold route_matches in IH. rewrite IH. apply Hstep. intros vars' [? _]. congruence.
Qed.

#[export] Program Instance std_mux : Mux := {
  template_match := std_template; prefix_match := std_prefix; mux_handler := std_handler;
}.
Next Obligation. intros tpl path H. unfold std_template. by rewrite H. Qed.
Next Obligation. apply std_template_tenant. Qed.
Next Obligation. done. Qed.
Next Obligation. apply std_handler_first. Qed.

(** ** PromQL *)

(** A query and the matchers it has been given. *)
#[export] Program Instance std_promql : PromQL := {
  Expr := string * list Matcher;
  ParseExpr s := if String.eqb s "" then inl (EMsg "parse error") else inr (s, []);
  Expr_String e := e.1 +:+ "{" +:+ join "," ((λ m, m_Name m +:+ m_Type m +:+ m_Value m) <$> e.2) +:+ "}";
  EnforceNode m e := inr (e.1, e.2 ++ [m]);
  IsIllegalLabelMatcher _ := false;
  restricted m e := m ∈ e.2;
  ParseMetricSelector s := if String.eqb s "" then inl (EMsg "parse error") else inr [MatchEqual "__name__" s];
  Matcher_String m := m_Name m +:+ m_Type m +:+ m_Value m;
}.
Next Obligation. intros m e e' [= <-]. simpl. apply elem_of_app. right. by left. Qed.

(** ** Clients and configuration *)

#[export] Instance std_http_client : HttpClient := {
  NewRequest_err url := if String.eqb url "" then Some (EMsg "empty url") else None;
  Client_Do _ := inr (200%Z, "200 OK", "");
}.

(** A list of tenants separated by commas. *)
#[export] Instance std_watchlib : WatchLib := {
  watch_md5 := toy_md5;
  json_Tenants content := if has_prefix content "[" then inr (split_on ","%char (trim_prefix content "["))
                          else inl (EMsg "invalid character");
}.

(** ** Workloads *)

(** The merge of an ingester's specification: its tenants only. *)
Definition merge_tenants (dst src : IngesterSpec) : IngesterSpec :=
  {| isp_Tenants := match isp_Tenants dst with [] => isp_Tenants src | l => l end;
     isp_LocalTsdbRetention := isp_LocalTsdbRetention dst;
     isp_OtlpEnableTargetInfo := isp_OtlpEnableTargetInfo dst;
     isp_OtlpResourceAttributes := isp_OtlpResourceAttributes dst;
     isp_IngesterTSDBCleanUp := isp_IngesterTSDBCleanUp dst; isp_DataVolume := isp_DataVolume dst;
     isp_Common := isp_Common dst |}.

#[export] Program Instance std_worklib : WorkLib := {
  mergo_Merge_IngesterSpec dst src := inr (merge_tenants dst src);
  decode_containers raw := inl (EMsg "invalid character");
  MergePatchContainers base patches := inr (base ++ patches);
  Duration_String d := itoa (d / second) +:+ "s";
}.
Next Obligation. by intros dst src r [= <-]. Qed.

#[export] Instance std_weblib : WebLib := {
  yaml_Marshal_web f := inr ("cert_file: " +:+ wt_TLSCertPath (wf_TLSConfig f));
}.

#[export] Instance std_routerlib : RouterLib := {
  json_Hashrings rings :=
    inr (join ";" ((λ h, hr_Hashring h +:+ "=" +:+ join "," (hr_Tenants h) +:+ "@"
                         +:+ join "," (ep_Address <$> hr_Endpoints h)) <$> rings));
  mergo_Merge_RouterSpec dst _ := inr dst;
}.

#[export] Instance std_storelib : StoreLib := { mergo_Merge_StoreSpec dst _ := inr dst }.

#[export] Instance std_compactorlib : CompactorLib := { mergo_Merge_CompactorSpec dst _ := inr dst }.

#[export] Instance std_querylib : QueryLib := {
  yaml_Marshal_targets groups :=
    inr (join ";" ((λ m : StrMap, join "," ((λ kv, kv.1 +:+ "=" +:+ kv.2) <$> map_to_list m)) <$> groups));
  mergo_Merge_QuerySpec dst _ := inr dst;
}.

#[export] Instance std_frontendlib : FrontendLib := {
  yaml_Marshal_cache kind _ := inr ("type: " +:+ kind);
  yaml_Marshal_tripper_insecure := inr "tls_config: {insecure_skip_verify: true}";
  mergo_Merge_QueryFrontendSpec dst _ := inr dst;
}.

(** Tenants without commas, in the notation of the watcher's instance; the
    fields of a configuration separated by bars; and a random source that starts
    anywhere. *)
#[export] Program Instance std_gatewaylib : GatewayLib := {
  json_AdmissionConfig tenants :=
    let data := join "," tenants in
    if bool_decide (split_on ","%char data = tenants) then inr ("[" +:+ data) else inl (EMsg "unsupported value");
  yaml_Marshal_config c := inr (join "|" [
    match pc_BasicAuth c with Some (u, p) => u +:+ ":" +:+ p | None => "" end; pc_BearerToken c;
    if pc_InsecureSkipVerify c then "insecure" else ""]);
  yaml_Marshal_external l := inr (String.concat "" ((λ c, join "|"
    [er_Name c; url_String (er_URL c); itoa (er_RemoteTimeout c); er_BearerToken c;
     if er_InsecureSkipVerify c then "insecure" else ""] +:+ ";") <$> l) +:+ ".");
  bcrypt_GenerateFromPassword s := inr ("$2a$10$" +:+ s);
  rand_Intn site i n := Nat.modulo (String.length site + i) n;
  mergo_Merge_GatewaySpec dst _ := inr dst;
}.
Next Obligation. intros site i n Hn. apply Nat.mod_upper_bound. lia. Qed.

#[export] Instance std_rulelib : RuleLib := {
  yaml_Marshal_rules _ := inr "groups: []"; ValidateRule _ := [];
}.

#[export] Instance std_rulerlib : RulerLib := {
  CreateConfigReloader o := {|
    c_Name := ro_Name o; c_Image := ""; c_ImagePullPolicy := ""; c_Command := [];
    c_Args := ["--reload-url=" +:+ ro_Scheme o +:+ "://" +:+ ro_Host o +:+ ro_Path o]
              ++ ((λ d, "--watched-dir=" +:+ d) <$> ro_WatchedDirectories o);
    c_Resources := emptyResources; c_Ports := []; c_Env := []; c_VolumeMounts := ro_VolumeMounts o;
    c_LivenessProbe := None; c_ReadinessProbe := None |};
  yaml_Marshal_http_configs l := inr (join "," ((λ c, hq_Scheme c +:+ "://" +:+ join "," (hq_StaticAddresses c)) <$> l));
  yaml_Marshal_remote_write u := inr ("url: " +:+ url_String u);
  yaml_Marshal_cortex c := inr ("target: " +:+ ct_Target c);
  mergo_Merge_RulerSpec dst _ := inr dst;
}.
