(* ===== verification/Witnesses.v ===== *)
(** The hypotheses of the theorems hold together: each theorem that has some is
    applied at a concrete cluster, request, file or configuration. *)
From stdpp Require Import base gmap strings list pretty sorting.
From Stdlib Require Import Ascii String.
From S2P Require Import Prelude GoStd K8s Api Objects Client Clients Base WorkloadFacts Workload Tenant TenantFacts Ingester IngesterFacts Web Router RouterFacts Store StoreFacts Compactor CompactorFacts Url Block BlockFacts Gateway GatewayFacts Watcher Ruler RulerFacts Std.
Open Scope nat_scope.

(** Two proofs of a decidable proposition by evaluation. *)
Ltac decide_by_eval := apply (bool_decide_unpack _); vm_compute; exact I.
Ltac eval_eq := vm_compute; reflexivity.

(** ** Values, URLs, hashes *)

Lemma tenant_digest_order_witness :
  let a := Cluster.tenant "a" "a" "kube.whizard" [] None in
  let b := Cluster.tenant "b" "b" "kube.whizard" [] None in
  let gone := Cluster.tenant "c" "c" "kube.whizard" [] (Some 5%Z) in
  tenant_digest [a; gone; b] = tenant_digest [b; a].
Proof. apply tenant_digest_order. change (["a"; "b"] ≡ₚ ["b"; "a"]). apply perm_swap. Defined.

Lemma ParseQuery_Encode_witness :
  let v : Values := <["match[]" := ["up{a=b c}"; "x&y=z"]]> (<["limit" := [""]]> ∅) in
  ParseQuery (values_Encode v) = (v, false).
Proof.
  apply ParseQuery_Encode. intros k vs. rewrite !lookup_insert_Some, lookup_empty.
  intros [[_ <-]|[_ [[_ <-]|[_ ?]]]]; done.
Defined.

Module File.
Definition one : string := "[t1,t2".
Definition two : string := "[t2,t3".
Definition events : list Event :=
  [EvTick (Some one) false; EvFile "" op_Write (Some two) false; EvError None;
   EvFile "config.yaml" op_Remove None false; EvFile "config.yaml" op_Write (Some "oops") false;
   EvFile "config.yaml" (op_Write + op_Create) (Some two) false;
   EvFile "config.yaml" (op_Chmod + op_Remove) (Some one) false; EvError (Some (EMsg "overflow"))].
Definition goods : list (string * list string) :=
  [(one, ["t1"; "t2"]); (one, ["t1"; "t2"]); (two, ["t2"; "t3"])].
Definition options : Options := {|
  o_TenantHeader := "WHIZARD-TENANT"; o_TenantLabelName := "tenant_id";
  o_QueryProxy := true; o_RulesQueryProxy := true; o_RemoteWriteProxy := true;
  o_ExternalRWClients := [{| rc_url := "http://a/w"; rc_timeout := 5; rc_headers := ∅ |};
                          {| rc_url := "http://b/w"; rc_timeout := 5; rc_headers := <["X-K" := "1"]> ∅ |}];
  o_CertAuthenticator := false; o_EnabledTenantsAdmission := true; o_EnabledQueryUI := false |}.

(** No two of the contents have the same hash. *)
Lemma goods_apart : no_collision goods.
Proof.
  split.
  - intros x c Hx. apply list_elem_of_In in Hx. simpl in Hx. decompose [or] Hx; simplify_eq; try done; by vm_compute.
  - intros x1 c1 x2 c2 H1 H2. apply list_elem_of_In in H1, H2. simpl in H1, H2.
    decompose [or] H1; decompose [or] H2; simplify_eq; try done; by vm_compute.
Qed.
End File.

Lemma admission_follows_file_witness :
  ∃ m, set_all File.options ∅ (cw_ch (Run (Some File.one) File.events NewConfigWatcher)) = Ok m
       ∧ ∀ t, t ≠ "/-/" → (is_Some (m !! t) ↔ t ∈ ["t2"; "t3"]).
Proof.
  assert (Hgoods : run_goods (Some File.one) File.events = File.goods) by eval_eq.
  apply (admission_follows_file File.options (Some File.one) File.events File.two).
  - reflexivity.
  - repeat constructor.
  - rewrite Hgoods. exact File.goods_apart.
  - rewrite Hgoods. decide_by_eval.
  - by rewrite Hgoods.
Defined.

(** ** Tenants *)

Module Sample.
Definition svc : option Service := Some Cluster.whizard.
Definition t1 : Tenant := Cluster.tenant "t1" "t1" "kube.whizard" [] None.
Definition renamed : Tenant := Cluster.tenant "t1" "customer-one" "kube.whizard" [] None.
Definition labels : StrMap := <[StorageLabelKey := "kube.s3"]> (<[ServiceLabelKey := "kube.whizard"]> ∅).
Definition ingester (n : string) (annotations : StrMap) (tenants : list string) : Ingester :=
  new_ingester (new_meta ("whizard-s3-auto-" +:+ n) "" "kube" labels annotations) tenants.
Definition full : Ingester := ingester "0" ∅ ["a"; "b"].
Definition room : Ingester := ingester "1" ∅ ["c"].
Definition leaving : Ingester :=
  ingester "0" (<[LabelNameIngesterState := IngesterStateDeleting]>
                  (<[LabelNameIngesterDeletingTime := "1700000000"]> (<["note" := "kept"]> ∅))) [].
Definition ref : ObjectReference := {| ref_Namespace := "kube"; ref_Name := "whizard-s3-auto-0" |}.
Definition compactor : Compactor := new_compactor (new_meta "whizard-s3-x" "" "kube" labels ∅) ["z"].
End Sample.

(** A tenant without labels that is being deleted, and what a server stores
    under a tenant's name. *)
Definition new_tenant_of (name : string) : Tenant :=
  let t := Cluster.tenant name name "" [FinalizerIngester] (Some 5%Z) in
  set_tn_Meta (set_om_Labels ∅ (tn_Meta t)) t.
Definition stored_tenant (name : string) (s : Mem) : Tenant :=
  match mem_objs s !! (KTenant, "", name) with Some (OTenant t) => t | _ => new_tenant_of name end.

Lemma choose_ingester_placed_witness :
  ∃ k r, choose_ingester Sample.svc Sample.t1 (ingester_mapping [Sample.full; Sample.room]) = Ok r ∧ k ≤ 2
    ∧ placed_at Sample.svc Sample.t1 "whizard-s3-auto" 2 (ingester_mapping [Sample.full; Sample.room]) k r
    ∧ (∀ j, j < k → full_at "whizard-s3-auto" 2 (ingester_mapping [Sample.full; Sample.room]) j)
    ∧ "t1" ∈ isp_Tenants (ig_Spec r)
    ∧ (Z.of_nat (length (isp_Tenants (ig_Spec r))) ≤ Z.max 1 2)%Z.
Proof.
  apply (choose_ingester_placed Sample.svc Sample.t1 (ingester_mapping [Sample.full; Sample.room])
           "whizard-s3-auto" 2); eval_eq.
Defined.

Lemma assigned_ingester_fits_witness :
  (∃ r, choose_ingester Sample.svc Sample.t1 (ingester_mapping [Sample.full; Sample.room]) = Ok r
        ∧ ingester_mismatch Sample.svc Sample.t1 r = false).
Proof.
  apply (assigned_ingester_fits Sample.svc Sample.t1 [Sample.full; Sample.room] "whizard-s3-auto" 2).
  - eval_eq.
  - eval_eq.
  - intros i Hi. apply list_elem_of_In in Hi. simpl in Hi.
    destruct Hi as [<-|[<-|[]]]; (split; [eval_eq|split; [eval_eq|intros [_ H]; discriminate H]]).
  - by vm_compute.
Defined.

Lemma compactor_reset_loop_witness :
  ∃ r, pick_compactor Sample.renamed (Ok 2%Z) [Sample.compactor] = Ok (Some r)
       ∧ compactor_mismatch Sample.svc Sample.renamed r = true.
Proof.
  eexists. split; [reflexivity|].
  eapply (compactor_reset_loop Sample.svc Sample.renamed 2%Z [Sample.compactor]).
  - by vm_compute.
  - intros c Hc. apply list_elem_of_singleton in Hc as ->. decide_by_eval.
  - reflexivity.
Defined.

Lemma removal_keeps_others_witness :
  let i := Sample.ingester "0" ∅ ["t1"] in
  let s := mem_of [OIngester i] in
  let stored := default i (match mem_objs s !! (KIngester, "kube", "whizard-s3-auto-0") with
                           | Some (OIngester x) => Some x | _ => None end) in
  isp_Tenants (ig_Spec (left_ingester (sv_Spec Cluster.whizard) Sample.t1 stored)) = []
  ∧ om_Annotations (ig_Meta (left_ingester (sv_Spec Cluster.whizard) Sample.t1 stored))
      !! LabelNameIngesterState = Some IngesterStateDeleting.
Proof.
  intros i s stored.
  assert (Hempty : isp_Tenants (ig_Spec (left_ingester (sv_Spec Cluster.whizard) Sample.t1 stored)) = [])
    by eval_eq.
  split; [exact Hempty|].
  eapply (removal_keeps_others Cluster.whizard Sample.t1 Sample.ref stored s s).
  - eval_eq.
  - decide_by_eval.
  - decide_by_eval.
  - exact Hempty.
Defined.

Lemma joining_revives_ingester_witness :
  let a := om_Annotations (ig_Meta (addTenantToIngesterInstance Sample.t1 Sample.leaving)) in
  a !! LabelNameIngesterState = Some IngesterStateRunning ∧ a !! LabelNameIngesterDeletingTime = Some ""
  ∧ ∀ k, k ≠ LabelNameIngesterState → k ≠ LabelNameIngesterDeletingTime →
      a !! k = om_Annotations (ig_Meta Sample.leaving) !! k.
Proof. apply (joining_revives_ingester Sample.t1 Sample.leaving). eval_eq. Defined.

Lemma ruler_name_bounded_witness :
  let name := "a-tenant-with-a-name-of-more-than-thirty-bytes" in
  ∃ out, ruler_name name = Ok out ∧ String.length out ≤ 39 ∧ (String.length name ≤ 30 → out = name).
Proof. apply ruler_name_bounded. apply Nat.leb_le. eval_eq. Defined.

Lemma unlabelled_tenant_untouched_witness :
  let t := new_tenant_of "t1" in
  let s := mem_of [OTenant t] in
  TenantReconciler_Reconcile {| nn_Namespace := ""; nn_Name := "t1" |} s = (Ok tt, s).
Proof.
  intros t s.
  apply (unlabelled_tenant_untouched _ (stored_tenant "t1" s) s s).
  - eval_eq.
  - eval_eq.
Defined.

Lemma store_reconciles_difference_witness :
  let s : Logged Mem := {| lg_calls := []; lg_world := Cluster.fresh |} in
  ∃ s', store_world Sample.svc s = (Ok tt, s')
  ∧ ∃ stores items s1 s2 s3 updates stale created,
      List (A:=Store) everywhere s = (Ok stores, s1) ∧ for_each Delete (duplicates [] stores) s1 = (Ok tt, s2)
      ∧ List (A:=Tenant) everywhere s2 = (Ok items, s3)
      ∧ writes (lg_calls s') = ((CDelete ∘ OStore) <$> duplicates [] stores) ++ updates
                               ++ ((CDelete ∘ OStore) <$> stale) ++ ((CCreate ∘ OStore) <$> created).
Proof.
  intros s. assert (H : (store_world Sample.svc s).1 = Ok tt) by eval_eq.
  destruct (store_world Sample.svc s) as [r s'] eqn:E. simpl in H. subst r.
  exists s'. split; [reflexivity|].
  destruct (store_reconciles_difference Sample.svc _ _ E)
    as (stores & items & s1 & s2 & s3 & updates & stale & created & H1 & H2 & H3 & H4 & _).
  exists stores, items, s1, s2, s3, updates, stale, created.
  exact (conj H1 (conj H2 (conj H3 H4))).
Defined.

(** ** Ingesters *)

Lemma recycled_after_retention_witness :
  let C1 : Clock := {| ParseDuration := @ParseDuration fixed_clock; now := 1700000000123456789%Z |} in
  let C2 : Clock := {| ParseDuration := @ParseDuration fixed_clock; now := 1700000005000000000%Z |} in
  let i' := @left_ingester C1 (sv_Spec Cluster.whizard) Sample.t1 (Sample.ingester "0" ∅ ["t1"]) in
  let deadline := ((@now C1 + @retention_period C1 (sv_Spec Cluster.whizard) (Sample.ingester "0" ∅ ["t1"]))
                   / second * second)%Z in
  isp_Tenants (ig_Spec i') = []
  ∧ @recycle C2 i' = (if (@now C2 <? deadline)%Z then RWait (deadline - @now C2)%Z else RDelete)
  ∧ @recycle C2 (addTenantToIngesterInstance Sample.t1 i') = RNothing.
Proof.
  intros C1 C2 i' deadline.
  assert (Hnil : isp_Tenants (ig_Spec i') = []) by eval_eq.
  destruct (recycled_after_retention C1 C2 Cluster.whizard Sample.t1 (Sample.ingester "0" ∅ ["t1"]))
    as [H1 H2]; [exact Hnil|apply (bool_decide_unpack _); vm_compute; exact I|
                 apply (bool_decide_unpack _); vm_compute; exact I|].
  exact (conj Hnil (conj H1 (H2 Sample.t1))).
Defined.

Lemma ingester_flags_merged_witness :
  length (named "--log.level" (ingester_args Cluster.whizard Sample.room ["--objstore.config=type: S3"])) ≤ 1.
Proof.
  destruct (ingester_flags_merged Cluster.whizard Sample.room ["--objstore.config=type: S3"])
    as (_ & _ & H & _); [exists "type: S3"; left; reflexivity|].
  apply H; [decide_by_eval|discriminate].
Defined.

(** ** Routers *)

Module Ring.
Definition router : Router := {|
  rt_Type := zeroType;
  rt_Meta := new_meta "whizard" "" "kube" Sample.labels ∅;
  rt_Spec := RouterTemplateSpec (sv_Spec Cluster.whizard) |}.
Definition soft : Ingester :=
  new_ingester (new_meta "soft" "" "kube" (<[SoftTenantLabelKey := "true"]> Sample.labels) ∅) [].
Definition cluster : Mem :=
  mem_of [OService Cluster.whizard; OIngester Sample.full; OIngester Sample.room; OIngester soft].
End Ring.

Lemma tenant_routed_to_its_ingester_witness :
  ∃ o op w' rings, hashringsConfigMap Cluster.whizard Ring.router Ring.cluster = (Ok (Some (o, op)), w')
    ∧ ∃ items, ∀ t, match find (serves t) items with
           | Some i => ∃ hosts, hosts_of (W:=Mem) i hosts ∧ hashring_for t rings = Some (ring_of i hosts)
           | None => ∃ eps, hashring_for t rings = Some (soft_ring eps)
           end.
Proof.
  assert (H : ∃ x, (hashringsConfigMap Cluster.whizard Ring.router Ring.cluster).1 = Ok (Some x))
    by (eexists; eval_eq).
  destruct H as [[o op] H].
  destruct (hashringsConfigMap Cluster.whizard Ring.router Ring.cluster) as [x w'] eqn:E. cbn [fst] in H. subst x.
  destruct (tenant_routed_to_its_ingester Cluster.whizard Ring.router Ring.cluster w' o op E)
    as (items & w1 & rings & data & hostss & _ & _ & _ & _ & _ & _ & Hr).
  exists o, op, w', rings. split; [reflexivity|]. exists items. intros t. specialize (Hr t).
  destruct (find (serves t) items); [exact Hr|]. eexists. exact Hr.
Defined.

(** ** Stores *)

(** The API server in memory as a cache. *)
Definition cached (s : Mem) : list Object := (map_to_list (mem_objs s)).*2.
Lemma cache_lists k opts w :
  kube_list k opts w = (Ok (filter (λ o, mem_matches k opts o = true) (cached w)), w).
Proof. reflexivity. Qed.
Lemma cache_reads k key : keeps (kube_get (W:=Mem) k key).
Proof. intros w r w' H. cbn in H. unfold mem_get in H. by case_match; inversion H. Qed.


(** ** Compactors *)

Module Leaving.
Definition compactor : Compactor :=
  let c := new_compactor (new_meta "c1" "" "kube" Sample.labels ∅) ["t1"] in
  {| cmp_Type := cmp_Type c; cmp_Spec := cmp_Spec c;
     cmp_Meta := {| om_Name := "c1"; om_GenerateName := ""; om_Namespace := "kube"; om_UID := "c1";
       om_ResourceVersion := ""; om_Labels := Sample.labels; om_Annotations := ∅;
       om_Finalizers := [FinalizerDeletePVC]; om_DeletionTimestamp := Some 5%Z; om_OwnerReferences := [] |} |}.
Definition cluster : Mem :=
  mem_of [OService Cluster.whizard; OCompactor compactor;
          OStatefulSet (empty_sts (new_meta "compactor-c1" "" "kube" ∅ ∅))].
Definition key : NamespacedName := {| nn_Namespace := "kube"; nn_Name := "c1" |}.
End Leaving.

Lemma compactor_deletion_stuck_witness :
  CompactorReconciler_Reconcile Leaving.key Leaving.cluster = (Err err_NotFound, Leaving.cluster)
  ∧ compactor_name Leaving.compactor [] ≠ "c1".
Proof.
  apply (compactor_deletion_stuck Leaving.key Leaving.compactor Leaving.compactor Cluster.whizard
           {| nn_Namespace := "kube"; nn_Name := "whizard" |} Leaving.cluster Leaving.cluster Leaving.cluster).
  - eval_eq.
  - decide_by_eval.
  - decide_by_eval.
  - eval_eq.
  - eval_eq.
  - reflexivity.
  - eval_eq.
  - eval_eq.
Defined.

(** ** Blocks *)

Module Bin.
Definition bucket : Bucket := {|
  bk_cluster := mem_of [OTenant (Cluster.tenant "t1" "t1" "kube.whizard" [] None)];
  bk_marked := ∅; bk_list := "01A:t1,01B:gone" |}.
End Bin.

Lemma gc_marks_orphans_witness :
  ∃ r w' blocks items, gc_round bucket_manager Bin.bucket = (r, w') ∧ round_lists Bin.bucket blocks items
  ∧ (∀ id, id ∈ marked w' → id ∈ marked Bin.bucket ∨ ∃ m, m ∈ blocks ∧ id = m_ULID m ∧ orphan bucket_manager items m)
  ∧ "01B" ∈ marked w'.
Proof.
  destruct (gc_round bucket_manager Bin.bucket) as [r w'] eqn:E.
  destruct (gc_marks_orphans bucket_manager Bin.bucket r w' E) as [H _].
  assert (Hl : round_lists Bin.bucket [parse_block "01A:t1"; parse_block "01B:gone"]
                 [Cluster.tenant "t1" "t1" "kube.whizard" [] None]).
  { exists "01A:t1,01B:gone", Bin.bucket, Bin.bucket. split; [reflexivity|]. split; eval_eq. }
  exists r, w', [parse_block "01A:t1"; parse_block "01B:gone"], [Cluster.tenant "t1" "t1" "kube.whizard" [] None].
  destruct (H _ _ Hl) as (_ & H1 & H2). split; [reflexivity|]. split; [exact Hl|]. split; [exact H1|].
  apply (H2 ltac:(intros m w; by eexists _, _) (parse_block "01B:gone")); [by right; left|].
  split; [discriminate|]. split; [discriminate|]. by intros t ->%list_elem_of_singleton _ [=].
Defined.

(** ** Requests *)

Module Http.
Definition request (method path raw body : string) (tenant : option string) : Request := {|
  rq_Method := method; rq_Path := path; rq_RawQuery := raw;
  rq_Header := <["Content-Type" := ["application/x-www-form-urlencoded"]]> (<["Whizard-Tenant" := ["t2"]]> ∅);
  rq_Body := body; rq_BodyErr := None; rq_ContentLength := Z.of_nat (String.length body); rq_Vars := ∅;
  rq_TLS := Some ["t9"]; rq_Info := tenant |}.
Definition form : Request :=
  request "POST" "/api/v1/query" "query=a%2Bb&query=c" "query=up&query=down&time=5" (Some "t1").
Definition series : Request :=
  request "GET" "/api/v1/series" "match%5B%5D=up&match%5B%5D=down&start=1" "" (Some "t1").
Definition write : Request := request "POST" "/api/v1/receive" "" "samples" (Some "t1").
Definition unbound (path : string) (method : string) : Request := request method path "" "" None.
End Http.

Lemma admission_is_last_config_witness :
  ∃ m, set_all File.options ∅ ([["t1"; "t2"]; []; ["t3"; "t1"]] ++ [["t2"; "t3"]]) = Ok m
       ∧ ∀ t, t ≠ "/-/" → (is_Some (m !! t) ↔ t ∈ ["t2"; "t3"]).
Proof. apply admission_is_last_config; [reflexivity|decide_by_eval]. Defined.

Lemma admission_update_is_gradual_witness :
  let m : AdmissionMap := <["t1" := AV_true]> (<["t2" := AV_true]> (<["/-/" := AV_tenants ["t1"; "t2"]]> ∅)) in
  ∃ ops, SetAdmission_ops File.options m ["t2"; "t3"] = Ok ops ∧ length ops = 3
    ∧ is_Some (foldl admission_step m (take 2 ops) !! "t2")
    ∧ foldl admission_step m (take 2 ops) !! "t4" = None.
Proof.
  intros m. eexists. split; [reflexivity|]. split; [reflexivity|].
  assert (Hm : admits m (Some ["t1"; "t2"])).
  { split; [eval_eq|]. intros t Ht. unfold m. rewrite !lookup_insert_is_Some', lookup_empty. split.
    - intros [<-|[<-|[<-|[]]]]; [decide_by_eval..|done|done].
    - intros H. apply list_elem_of_In in H. simpl in H. naive_solver. }
  split.
  - eapply (admission_update_is_gradual File.options m ["t1"; "t2"] ["t2"; "t3"] _ 2 "t2");
      [reflexivity|exact Hm|reflexivity|done|decide_by_eval|decide_by_eval].
  - eapply (admission_update_is_gradual File.options m ["t1"; "t2"] ["t2"; "t3"] _ 2 "t4");
      [reflexivity|exact Hm|reflexivity|done|decide_by_eval|decide_by_eval].
Defined.

Lemma not_admitted_not_forwarded_witness :
  let req := set_rq_Vars (<["tenant_id" := "t2"]> ∅) (Http.unbound "/t2/api/v1/query" "GET") in
  ∃ msg s', wrap File.options (<["t1" := AV_true]> ∅) (query File.options) req gw_empty = (Ok tt, s')
    ∧ gw_Errors s' = [(403%Z, msg)] ∧ gw_Sent s' = [] ∧ gw_Counts s' = [].
Proof.
  intros req. apply (not_admitted_not_forwarded File.options (<["t1" := AV_true]> ∅) (query File.options) req gw_empty).
  right. split; eval_eq.
Defined.

Lemma cert_mismatch_is_forwarded_witness :
  ∃ s', withAuthorization (query File.options) Http.form gw_empty = query File.options Http.form s'
    ∧ gw_Sent s' = [] ∧ gw_Errors s' ≠ [] ∧ Forall (λ e, e = (401%Z, "invalid cert")) (gw_Errors s').
Proof. apply (cert_mismatch_is_forwarded (query File.options) Http.form ["t9"] "t1" gw_empty); done. Defined.

Lemma query_is_confined_witness :
  ∃ out, gw_Sent (query File.options Http.form gw_empty).2 = [{| s_Target := TQuery; s_Req := out |}]
         ∧ query_ok File.options "t1" out.
Proof.
  assert (Hsent : length (gw_Sent (query File.options Http.form gw_empty).2) = 1) by eval_eq.
  destruct (query File.options Http.form gw_empty) as [r s'] eqn:E. cbn [snd] in Hsent |- *.
  destruct (query_is_confined File.options Http.form "t1" gw_empty r s' eq_refl E) as [H|(out & H & Hq & _)].
  - rewrite H in Hsent. discriminate Hsent.
  - exists out. split; [exact H|exact Hq].
Defined.

Lemma matcher_is_confined_witness :
  ∃ out q, gw_Sent (matcher File.options matchersParam Http.series gw_empty).2 = [out]
    ∧ s_Target out = TQuery ∧ ParseQuery (rq_RawQuery (s_Req out)) = (q, false)
    ∧ ∃ sels, q !! matchersParam = Some sels ∧ confined_selectors File.options "t1" ["up"; "down"] sels.
Proof.
  assert (Hsent : length (gw_Sent (matcher File.options matchersParam Http.series gw_empty).2) = 1) by eval_eq.
  destruct (matcher File.options matchersParam Http.series gw_empty) as [r s'] eqn:E. cbn [snd] in Hsent |- *.
  destruct (matcher_is_confined File.options Http.series "t1" gw_empty r s' eq_refl ltac:(discriminate) E)
    as [H|(out & q & H & Ht & Hq & Hs & _)].
  - rewrite H in Hsent. discriminate Hsent.
  - exists out, q. exact (conj H (conj Ht (conj Hq Hs))).
Defined.

Lemma remoteWrite_fans_out_witness :
  ∃ out ds s', remoteWrite File.options Http.write gw_empty = (Ok tt, s')
    ∧ gw_Sent s' = {| s_Target := TWrite; s_Req := out |} :: omap delivery_sent ds
    ∧ header_Get (rq_Header out) "WHIZARD-TENANT" = "t1" ∧ rq_Body out = "samples"
    ∧ d_client <$> ds ≡ₚ o_ExternalRWClients File.options
    ∧ Forall (delivered File.options "t1" "samples") ds ∧ length (gw_Counts s') = 2.
Proof.
  destruct (remoteWrite_fans_out File.options Http.write "t1" gw_empty eq_refl eq_refl eq_refl ltac:(discriminate))
    as (out & ds & s' & H & Hs & _ & Hh & Hb & _ & Hc & Hd & Hn).
  exists out, ds, s'. refine (conj H (conj Hs (conj Hh (conj Hb (conj Hc (conj Hd _)))))).
  rewrite Hn. simpl. rewrite length_fmap, <-(length_fmap d_client), Hc. eval_eq.
Defined.

Lemma strip_tenant_prefix_witness :
  strip_tenant ("/" +:+ "t1" +:+ String "/" "api/v1/query") = String "/" "api/v1/query".
Proof. apply strip_tenant_prefix. eval_eq. Defined.

Lemma tenant_endpoint_served_witness :
  let req := Http.unbound "/t1/api/v1/query" "GET" in
  serve (NewHandler File.options no_ui) (<["t1" := AV_true]> ∅) req
  = query File.options (set_rq_Info (Some "t1") (set_rq_Path "/api/v1/query"
      (set_rq_Vars (<["tenant_id" := "t1"]> ∅) req))).
Proof.
  intros req.
  rewrite (tenant_endpoint_served File.options no_ui "/query" ["GET"; "POST"] (query File.options)
    (<["t1" := AV_true]> ∅) req "t1"); [|by left|eval_eq|discriminate|decide_by_eval|eval_eq].
  by rewrite bool_decide_false.
Defined.

Lemma label_values_not_found_witness :
  serve (NewHandler File.options no_ui) ∅ (Http.unbound "/t1/api/v1/label/job/values" "GET") gw_empty
  = http_Error "404 page not found" 404 gw_empty.
Proof. apply (label_values_not_found File.options ∅ _ "t1" "job"); [eval_eq|eval_eq|discriminate|eval_eq]. Defined.

Lemma agent_route_reaches_gateway_witness :
  let req := Http.unbound "/api/v1/write" "POST" in
  ∃ ep methods f, (ep, methods, f) ∈ tenant_endpoints File.options ∧ "/api/v1/receive" = "/api/v1" +:+ ep
    ∧ serve (NewHandler File.options no_ui) (<["t1" := AV_true]> ∅) (AgentProxy.wrap "t1" req)
      = f (set_rq_Info (Some "t1") (set_rq_Path "/api/v1/receive" (set_rq_Vars (<["tenant_id" := "t1"]> ∅) req))).
Proof.
  intros req.
  destruct (agent_route_reaches_gateway File.options no_ui "POST" "/api/v1/write" (<["t1" := AV_true]> ∅) req "t1")
    as (ep & methods & f & He & Hp & Hs); [decide_by_eval|discriminate|eval_eq|discriminate|eval_eq|eval_eq|].
  exists ep, methods, f. split; [exact He|]. split; [exact Hp|]. rewrite Hs. by rewrite bool_decide_false.
Defined.

(** ** Rules *)

Lemma sum64_last_eight_bytes_witness :
  let hash := md5_Sum "kube-rules.yaml/group" in
  sum64 hash = big_endian (drop 8 hash) ∧ (0 ≤ sum64 hash < 2 ^ 64)%Z
  ∧ ∀ shards, (0 < shards)%Z → (0 ≤ sum64 hash mod shards < shards)%Z.
Proof.
  intros hash. apply sum64_last_eight_bytes; [eval_eq|].
  apply (bool_decide_unpack _). vm_compute. exact I.
Defined.

Lemma pack_partitions_witness :
  let files : gmap string string := <["a.yaml" := "groups"]> (<["b.yaml" := "more"]> ∅) in
  Forall (λ b, bucketSize b ≤ maxConfigMapDataSize)%Z (pack files)
  ∧ ∀ n v, files !! n = Some v ↔ ∃ i b, pack files !! i = Some b ∧ b !! n = Some v.
Proof.
  intros files.
  assert (H : ∀ n v, files !! n = Some v → (file_size v ≤ maxConfigMapDataSize)%Z).
  { intros n v. unfold files. rewrite !lookup_insert_Some, lookup_empty.
    intros [[_ <-]|[_ [[_ <-]|[_ ?]]]]; [by vm_compute..|done]. }
  destruct (pack_partitions files H) as (H1 & H2 & _). exact (conj H1 H2).
Defined.

Lemma shard_groups_partition_witness :
  let spec := {| prs_Groups := [{| rg_Name := "a"; rg_Body := "up" |}; {| rg_Name := "b"; rg_Body := "up" |}] |} in
  length (shard_groups 3 "kube-rules.yaml" spec) = 3
  ∧ mjoin (shard_groups 3 "kube-rules.yaml" spec) ≡ₚ prs_Groups spec.
Proof.
  intros spec. destruct (shard_groups_partition 3 "kube-rules.yaml" spec) as (H1 & _ & H2); [lia|]. exact (conj H1 H2).
Defined.
