(* ===== verification/WorkloadWitnesses.v ===== *)
(** The hypotheses of the theorems on the query, the query frontend, the gateway,
    the block manager and the rulers hold together: each theorem that has some
    is applied at a concrete cluster. *)
From stdpp Require Import base gmap strings list pretty sorting.
From Stdlib Require Import Ascii String.
From S2P Require Import Prelude GoStd K8s Api Objects Client Clients Base Workload Web WorkloadFacts GoNet GoNetFacts Tenant TenantFacts Ingester Router Store Gateway GatewayFacts Watcher Query QueryFrontend QueryFacts GatewayWorkload GatewayWorkloadFacts BlockManager BlockManagerFacts Ruler RulerFacts RulerWorkload RulerWorkloadFacts Pods Std Witnesses.
Open Scope nat_scope.

(** A run that returns a value of which a test is true. Only the test is
    computed, not the value nor the cluster that is left. *)
Definition returns {A W} (P : A → bool) (r : Outcome A * W) : bool := match r.1 with Ok a => P a | _ => false end.

Lemma returns_inv {A W} (P : A → bool) (r : Outcome A * W) :
  returns P r = true → ∃ a w', r = (Ok a, w') ∧ P a = true.
Proof. destruct r as [[a|e|p] w']; [by exists a, w'|done..]. Qed.

Ltac run_returns run P a w E HP :=
  let H := fresh in
  assert (H : returns P run = true) by (vm_compute; reflexivity);
  apply returns_inv in H as (a & w & E & HP).

Definition any {A} (_ : A) : bool := true.
Definition an_object (r : option (Object * Operation)) : bool := match r with Some _ => true | None => false end.
Definition an_upsert (r : option (Object * Operation)) : bool :=
  match r with Some (_, OperationCreateOrUpdate) => true | _ => false end.

Definition a_secret (r : option (Object * Operation) * option WebConfig) : bool :=
  match r with (Some (OSecret _, _), _) => true | _ => false end.

(** A run that ends with an object. *)
Ltac runs_to run E :=
  let H := fresh in
  assert (H : returns an_object run = true) by (vm_compute; reflexivity);
  apply returns_inv in H as ([[? ?]|] & ? & E & H); [clear H|discriminate H].

Module Fleet.
Definition a_meta (name : string) : ObjectMeta := new_meta name "" "kube" Sample.labels ∅.
Definition a_common (flags : list string) : CommonSpec := {|
  Replicas := Some 2%Z; Image := "image"; ImagePullPolicy := ""; Resources := emptyResources;
  LogLevel := "debug"; LogFormat := ""; Flags := flags; PodMetadata := None; ConfigMaps := [];
  Secrets := []; Containers := ""; EmbeddedContainers := []; ImagePullSecrets := [];
  NodeSelector := NodeSelector zeroCommon; Tolerations := Tolerations zeroCommon; Affinity := Affinity zeroCommon;
  SecurityContext := SecurityContext zeroCommon |}.
Definition a_ca : SecretKeySelector := {| sks_Name := "store-ca"; sks_Key := "ca.crt" |}.
Definition a_query : Query := {| q_Type := zeroType; q_Meta := a_meta "whizard"; q_Spec := {|
  qsp_PromqlEngine := "thanos"; qsp_SelectorLabels := ∅; qsp_ReplicaLabelNames := ["replica"];
  qsp_WebConfig := None;
  qsp_Stores := [{| qs_Addresses := ["10.0.0.1:10901"]; qs_CASecret := None |};
                 {| qs_Addresses := ["store.example:443"; "[fd00::1]:10901"]; qs_CASecret := Some a_ca |}];
  qsp_Envoy := zeroSidecar; qsp_Common := a_common ["--endpoint=extra:10901"; "--query.timeout=5m"] |} |}.
Definition a_frontend : QueryFrontend := {| qf_Type := zeroType; qf_Meta := a_meta "whizard"; qf_Spec := {|
  qfs_CacheConfig := None; qfs_WebConfig := None; qfs_Common := a_common [] |} |}.
Definition a_user : BasicAuth := {|
  ba_Username := {| sks_Name := "admin"; sks_Key := "user" |}; ba_Password := {| sks_Name := "admin"; sks_Key := "hash" |} |}.
Definition a_web : WebConfig := {|
  wc_HTTPServerTLSConfig := None; wc_HTTPServerConfig := None; wc_BasicAuthUsers := [a_user] |}.
Definition a_gateway : Gateway := {| gw_Type := zeroType; gw_Meta := a_meta "whizard"; gw_Spec := {|
  gsp_WebConfig := Some a_web; gsp_DebugMode := false; gsp_EnabledTenantsAdmission := true; gsp_NodePort := 0;
  gsp_Common := a_common [] |} |}.
Definition a_admin : Secret := {| sec_Meta := new_meta "admin" "" "kube" ∅ ∅;
  sec_Data := <["user" := "root"]> (<["hash" := "$2a$10$root"]> ∅); sec_StringData := ∅ |}.
Definition a_ruler (flags : list string) : Ruler := {| rl_Type := zeroType; rl_Meta := a_meta "a"; rl_Spec := {|
  rls_RuleSelectors := []; rls_RuleNamespaceSelector := None; rls_Shards := Some 2%Z; rls_Tenant := "t1";
  rls_QueryConfig := None; rls_RemoteWriteConfig := None; rls_Labels := <["cluster" := "east"]> ∅;
  rls_AlertDropLabels := []; rls_AlertmanagersURL := ["http://am"]; rls_AlertmanagersConfig := None;
  rls_EvaluationInterval := "1m"; rls_DataVolume := None; rls_RulerQueryProxy := zeroSidecar;
  rls_RulerWriteProxy := zeroSidecar; rls_PrometheusConfigReloader := zeroSidecar; rls_Common := a_common flags |} |}.
Definition a_sts (name : string) : StatefulSet := empty_sts (new_meta name "" "kube" ∅ ∅).
Definition a_sets : list Object :=
  OStatefulSet <$> [a_sts "ruler-a-0"; a_sts "ruler-a-7"; a_sts "ruler-a-0-1"; a_sts "ruler-b-7"; a_sts "other"].
Definition a_cluster : Mem :=
  mem_of ([OService Cluster.whizard; OIngester Sample.full; OQuery a_query; OQueryFrontend a_frontend; OGateway a_gateway;
           ORouter Ring.router; ORuler (a_ruler []); OTenant Sample.t1; OSecret a_admin] ++ a_sets).
(** The cluster after the gateway's reconciliation has made the built-in user. *)
Definition with_user : Mem := (ensure_built_in_user Cluster.whizard a_gateway a_cluster).2.
End Fleet.

Lemma pods_well_formed_witness :
  match query_deployment Cluster.whizard Fleet.a_query Fleet.a_cluster with
  | (Ok (Some (o, _)), _) => ∃ d, o = ODeployment d ∧ NoDup (vol_Name <$> ps_Volumes (pt_Spec (dep_Template d)))
  | _ => False
  end.
Proof.
  runs_to (query_deployment Cluster.whizard Fleet.a_query Fleet.a_cluster) E. rewrite E.
  destruct (pods_well_formed _ _ _ _ _ _ (built_query Cluster.whizard Fleet.a_query eq_refl) E)
    as (d & Ho & _ & _ & _ & Hv).
  exists d. split; [exact Ho|]. apply Hv. apply NoDup_singleton.
Defined.

Lemma query_reads_every_component_witness :
  ∃ d c (ingesters : list Ingester) (stores : list Store) (rulers : list Ruler),
    c ∈ ps_Containers (pt_Spec (dep_Template d))
    ∧ named "--endpoint" (c_Args c) ≡ₚ
        ((λ e, "--endpoint=" +:+ e) <$>
           (ingesters ≫= ingester_Endpoints) ++ (stores ≫= store_Endpoints) ++ (rulers ≫= ruler_endpoints))
        ++ ["--endpoint=extra:10901"].
Proof.
  runs_to (query_deployment Cluster.whizard Fleet.a_query Fleet.a_cluster) E.
  destruct (query_reads_every_component Cluster.whizard Fleet.a_query Fleet.a_cluster _ _ _ eq_refl E)
    as (d & c & ings & sts & rls & w1 & w2 & w3 & _ & Hc & _ & _ & _ & _ & Hp & _).
  exists d, c, ings, sts, rls. split; [exact Hc|exact Hp].
Defined.

Definition fleet_stores : Stores := match query_stores Fleet.a_query with inr s => s | inl _ => {| DirectStores := []; ProxyStores := [] |} end.

Lemma proxied_stores_listen_witness :
  DirectStores fleet_stores = ["10.0.0.1:10901"] ∧ NoDup (ListenPort <$> ProxyStores fleet_stores)
  ∧ length (ProxyStores fleet_stores) = 2.
Proof.
  assert (E : query_stores Fleet.a_query = inr fleet_stores) by eval_eq.
  destruct (proxied_stores_listen Fleet.a_query fleet_stores E) as (Hd & Hf & _ & Hn & _).
  split; [exact Hd|]. split; [apply Hn; by vm_compute|]. apply Forall2_length in Hf. rewrite <-Hf. eval_eq.
Defined.

Lemma proxied_addresses_accepted_witness : ∃ stores, query_stores Fleet.a_query = inr stores.
Proof.
  apply (proxied_addresses_accepted Fleet.a_query).
  change (proxied_addresses Fleet.a_query) with [(Fleet.a_ca, "store.example:443"); (Fleet.a_ca, "[fd00::1]:10901")].
  apply Forall_cons. split; [|apply Forall_singleton].
  - exists "store.example", 443%Z. split; [by vm_compute|]. left. by vm_compute.
  - exists "fd00::1", 10901%Z. split; [by vm_compute|]. right. by vm_compute.
Defined.

Lemma frontend_reaches_its_querier_witness :
  ∃ d c, ps_Containers (pt_Spec (dep_Template d)) = [c]
    ∧ ∃ url, named "--query-frontend.downstream-url" (c_Args c) = ["--query-frontend.downstream-url=" +:+ url].
Proof.
  runs_to (frontend_deployment Cluster.whizard Fleet.a_frontend Fleet.a_cluster) E.
  assert (Hf : named "--query-frontend.downstream-url" (Flags (qfs_Common (qf_Spec Fleet.a_frontend))) = []) by eval_eq.
  destruct (frontend_reaches_its_querier Cluster.whizard Fleet.a_frontend Fleet.a_cluster _ _ _ eq_refl Hf E)
    as (d & c & q & s & w1 & w2 & w3 & _ & Hc & _ & _ & Hn & _).
  exists d, c. split; [exact Hc|]. eexists. exact Hn.
Defined.

(** ** The gateway *)

Lemma std_admission_codec l data :
  json_AdmissionConfig l = inr data → json_Tenants data = inr l ∧ data ≠ "".
Proof.
  cbn. destruct (bool_decide_reflect (split_on ","%char (join "," l) = l)) as [Hl|]; [|done]. intros [= <-].
  change (String "[" (join "," l)) with ("[" +:+ join "," l). rewrite has_prefix_app, trim_prefix_app, Hl. done.
Qed.

Lemma gateway_admits_its_tenants_witness :
  ∃ items tenants hash data m, length items = 1
    ∧ loadConfig (Some data) = inr (tenants, hash) ∧ set_all File.options ∅ ([["old"]] ++ [tenants]) = Ok m
    ∧ ∀ t, t ≠ "/-/" → (is_Some (m !! t) ↔
        ∃ x, x ∈ items ∧ live_member Fleet.a_gateway x ∧ tsp_Tenant (tn_Spec x) = t).
Proof.
  run_returns (tenantsAdmissionConfigMap Cluster.whizard Fleet.a_gateway Fleet.a_cluster) an_upsert o w' E Hop.
  destruct o as [[o []]|]; [|discriminate Hop..].
  assert (Hb : Forall (λ c : list string, "/-/" ∉ c) [["old"]]) by decide_by_eval.
  destruct (gateway_admits_its_tenants Cluster.whizard Fleet.a_gateway Fleet.a_cluster _ _ File.options [["old"]]
              std_admission_codec eq_refl E eq_refl Hb)
    as (items & cm & data & tenants & hash & Hl & _ & _ & _ & _ & Hload & Hm).
  set (names (l : list Tenant) := bool_decide (map (λ x, tsp_Tenant (tn_Spec x)) l = ["t1"])).
  run_returns (List (W:=Mem) (A:=Tenant) everywhere Fleet.a_cluster) names items' w2 E2 Hnames.
  rewrite E2 in Hl. injection Hl as -> ->. apply bool_decide_eq_true in Hnames.
  destruct items as [|x [|y items]]; [discriminate Hnames| |discriminate Hnames].
  destruct Hm as (m & Hm & Hspec); [apply Forall_singleton; by injection Hnames as ->|].
  exists [x], tenants, hash, data, m. split; [reflexivity|]. split; [exact Hload|]. split; [exact Hm|exact Hspec].
Defined.

Lemma gateway_upstreams_witness :
  ∃ args addr rest, (upstream_args Cluster.whizard Fleet.a_gateway Fleet.a_cluster).1 = Ok args
    ∧ args = ("--query.address=" +:+ addr) :: rest.
Proof.
  run_returns (upstream_args Cluster.whizard Fleet.a_gateway Fleet.a_cluster) (any (A:=list string)) args w' E HP.
  rewrite E.
  destruct (gateway_upstreams Cluster.whizard Fleet.a_gateway Fleet.a_cluster w' args eq_refl E)
    as (fr & qs & w1 & w2 & w3 & fa & qa & rs & ro & w4 & w5 & u & ru & rest & _ & _ & _ & _ & _ & _ & _ & _ & ->).
  eexists _, _, _. split; reflexivity.
Defined.

Lemma rules_address_is_not_checked_witness :
  let rq := {| rq_Name := ""; rq_URL := "http://remote";
    rq_HTTPClientConfig := {| hc_BasicAuth := no_auth; hc_BearerToken := "" |} |} in
  ∃ args, (remote_query_args Cluster.whizard rq "http://frontend:10902" "" Fleet.a_cluster).1 = Ok args
          ∧ "--rules-query.address=" ∈ args.
Proof.
  intros rq.
  run_returns (remote_query_args Cluster.whizard rq "http://frontend:10902" "" Fleet.a_cluster)
    (any (A:=list string)) args w' E HP.
  rewrite E. eexists. split; [reflexivity|].
  apply (rules_address_is_not_checked Cluster.whizard rq "http://frontend:10902" "" Fleet.a_cluster w' args); [done|exact E].
Defined.

Lemma gateway_lets_its_rulers_in_witness :
  (gateway_user Fleet.a_gateway Fleet.with_user).1
  = Ok (randomString "user" 16, randomString "password" 32)
  ∧ ∃ file hash, bcrypt_GenerateFromPassword (randomString "password" 32) = inr hash
      ∧ wf_Users file !! randomString "user" 16 = Some hash.
Proof.
  assert (Hread : ∀ k key (w : Mem), (kube_get k key w).2 = w).
  { intros k key w. cbn. unfold mem_get. by destruct (mem_objs w !! _). }
  set (key := {| nn_Namespace := om_Namespace (gw_Meta Fleet.a_gateway); nn_Name := built_in_user Fleet.a_gateway |}).
  set (data := sec_StringData (built_in_secret Cluster.whizard Fleet.a_gateway (randomString "user" 16)
                 ("$2a$10$" +:+ randomString "password" 32) (randomString "password" 32))).
  run_returns (Get (W:=Mem) (A:=Secret) key Fleet.with_user) (λ sec, bool_decide (sec_Data sec = data)) sec w0 Es Hd.
  apply bool_decide_eq_true in Hd.
  assert (w0 = Fleet.with_user) as -> by (by apply (keeps_Get (kube_get_keeps Hread)) in Es).
  run_returns (SetService (W:=Mem) (gw_Meta Fleet.a_gateway) Fleet.with_user) (any (A:=Service)) s w1 Ev Hs.
  assert (w1 = Fleet.with_user) as -> by (by apply (keeps_SetService Hread) in Ev).
  run_returns (gateway_webConfigSecret Cluster.whizard Fleet.a_gateway (Some Fleet.a_web) Fleet.with_user)
    a_secret p w' E Hp.
  destruct p as [[[o op]|] wc']; [|discriminate Hp]. destruct o; try discriminate Hp.
  destruct (gateway_lets_its_rulers_in Hread Cluster.whizard Fleet.a_gateway Fleet.a_web sec
              ("$2a$10$" +:+ randomString "password" 32) Fleet.with_user w' _ op wc' eq_refl ltac:(discriminate) eq_refl Hd Es E)
    as [(file & _ & Hf) Hu].
  split; [by rewrite (Hu _ Ev)|]. exists file, ("$2a$10$" +:+ randomString "password" 32). split; [reflexivity|exact Hf].
Defined.

(** ** The block manager and the rulers *)

Lemma block_manager_containers_witness :
  let gc := {| gc_Enable := Some true; gc_Resources := emptyResources; gc_Image := "gc:v2"; gc_ImagePullPolicy := "";
    gc_GCInterval := Some 60%Z; gc_CleanupTimeout := None; gc_DefaultTenantId := "unknown"; gc_TenantLabelName := "" |} in
  let bm := {| bm_Enable := Some true; bm_Common := Fleet.a_common []; bm_ServiceAccountName := ""; bm_NodePort := 0;
    bm_BlockSyncInterval := None; bm_GC := Some gc |} in
  let found := [empty_container "sidecar"; empty_container "gc"] in
  c_Name <$> edited bm [] "config" found = ["sidecar"; "gc"; "web"]
  ∧ NoDup (c_Name <$> edited bm [] "config" found)
  ∧ of_name "sidecar" (edited bm [] "config" found) = [empty_container "sidecar"].
Proof.
  intros gc bm found. split; [reflexivity|].
  assert (Hnd : NoDup (c_Name <$> found)) by decide_by_eval.
  destruct (block_manager_containers bm [] "config" found Hnd) as (_ & _ & Ho & Hn).
  split; [exact Hn|]. rewrite (Ho "sidecar") by done. reflexivity.
Defined.

Lemma stale_statefulsets_deleted_witness :
  ∃ fs stale, fs = (ruler_statefulSet Cluster.whizard (Fleet.a_ruler []) [[]; []] <$> seq 0 2)
                   ++ ((λ sts, (mret (Some (OStatefulSet sts, OperationDelete)) : M Mem _)) <$> stale)
    ∧ Fleet.a_sts "ruler-a-7" ∈ stale ∧ Fleet.a_sts "ruler-a-0" ∉ stale ∧ Fleet.a_sts "ruler-a-0-1" ∉ stale
    ∧ Fleet.a_sts "ruler-b-7" ∉ stale.
Proof.
  set (r := Fleet.a_ruler []). set (ls := List (W:=Mem) (A:=StatefulSet) (InNamespace (om_Namespace (rl_Meta r)))).
  run_returns (ls Fleet.a_cluster) (λ l : list StatefulSet, bool_decide (Fleet.a_sts "ruler-a-7" ∈ l)) items w1 El Hin.
  apply bool_decide_eq_true in Hin.
  run_returns (ruler_statefulSets Cluster.whizard r [[]; []] Fleet.a_cluster) (any (A:=list (ResourceFn Mem))) fs w2 E HP.
  destruct (stale_statefulsets_deleted Cluster.whizard r [[]; []] 2%Z items Fleet.a_cluster w1 w2 fs eq_refl El E)
    as (stale & Hfs & Hs & _).
  exists fs, stale. split; [exact Hfs|].
  assert (Hname : ∀ k n, n = shard_name r k → n = "ruler-a-" +:+ itoa (Z.of_nat k)) by (intros k n ->; reflexivity).
  split.
  - apply Hs. split; [exact Hin|exists 7; split; [lia|reflexivity]].
  - split_and!; rewrite Hs; intros [_ (k & Hk & Hn%Hname)].
    + change (om_Name (sts_Meta (Fleet.a_sts "ruler-a-0"))) with ("ruler-a-" +:+ itoa (Z.of_nat 0)) in Hn.
      apply append_inj_l, itoa_inj in Hn. change (Z.to_nat 2) with 2 in Hk. lia.
    + change (om_Name (sts_Meta (Fleet.a_sts "ruler-a-0-1"))) with ("ruler-a-" +:+ "0-1") in Hn.
      apply append_inj_l in Hn. pose proof (digits_no_dash _ (itoa_digits k)) as Hd. by rewrite <-Hn in Hd.
    + by inversion Hn.
Defined.

Lemma rules_carry_the_labels_witness :
  ∃ c : Container, named "--label" (c_Args c) ≡ₚ ["--label=b=2"; label_arg ("cluster", "east")].
Proof.
  set (r := Fleet.a_ruler ["--label=a=1"; "--label=b=2"]).
  runs_to (ruler_statefulSet Cluster.whizard r [["rules-0"]; []] 0 Fleet.with_user) E.
  destruct (rules_carry_the_labels Cluster.whizard r [["rules-0"]; []] 0 Fleet.with_user _ _ _ eq_refl E)
    as (sts & c & _ & _ & _ & Hp).
  exists c. exact Hp.
Defined.
