(* ===== verification/ControllersWitnesses.v ===== *)
(** The theorems on the wiring of the controllers applied at a concrete cluster,
    with an implementation of controller-runtime's queue. *)
From stdpp Require Import base gmap strings list.
From Stdlib Require Import Ascii String.
From S2P Require Import Prelude GoStd K8s Api Objects Client Clients Base Workload Web WorkloadFacts Tenant TenantFacts GoNet Ingester Router Store Compactor Query QueryFrontend GatewayWorkload BlockManager Ruler RulerWorkload Controllers ControllersFacts Std Witnesses WorkloadWitnesses.
Open Scope nat_scope.

(** The queue gets the object itself, and what the watches that take the event
    map it to. *)
Definition std_enqueued {W} (c : Controller W) (e : ObjectEvent) (w : W) : list NamespacedName :=
  (if decide (obj_kind (ev_Object e) = ct_For c) then [request_of (ev_Object e)] else [])
  ++ (filter (λ wt, wt_Kind wt = obj_kind (ev_Object e) ∧ wt_Predicate wt e = true) (ct_Watches c)
      ≫= λ wt, match (wt_Map wt (ev_Object e) w).1 with Ok l => l | _ => [] end).

#[export] Program Instance std_runtime {W} : RuntimeLib W := { enqueued := std_enqueued }.
Next Obligation. intros W c e w H. apply elem_of_app. left. rewrite decide_True by done. by left. Qed.
Next Obligation.
  intros W c e w wt l w' Hin Hk Hp Hm k Hkl. apply elem_of_app. right. apply list_elem_of_bind. exists wt.
  split; [by rewrite Hm|]. by apply list_elem_of_filter.
Qed.
Next Obligation.
  intros W c e w k [H|H]%elem_of_app; [left; case_decide; [done|by apply elem_of_nil in H]|]. right. right.
  apply list_elem_of_bind in H as (wt & _ & [Hw Hin]%list_elem_of_filter). by exists wt.
Qed.

Module Events.
Definition selector (name key : string) : SecretKeySelector := {| sks_Name := name; sks_Key := key |}.
Definition a_s3 : S3 := {|
  s3_Bucket := "blocks"; s3_Endpoint := ""; s3_Region := ""; s3_DisableDualstack := false;
  s3_AWSSDKAuth := false; s3_AccessKey := Some (selector "s3-keys" "access"); s3_Insecure := false;
  s3_SignatureV2 := false; s3_SecretKey := Some (selector "s3-keys" "secret"); s3_PutUserMetadata := ∅;
  s3_HTTPConfig := {| h_IdleConnTimeout := 0; h_ResponseHeaderTimeout := 0; h_InsecureSkipVerify := false;
    h_TLSHandshakeTimeout := 0; h_ExpectContinueTimeout := 0; h_MaxIdleConns := 0; h_MaxIdleConnsPerHost := 0;
    h_MaxConnsPerHost := 0;
    h_TLSConfig := {| tls_CA := Some (selector "s3-ca" "ca.crt"); tls_Cert := None; tls_Key := None;
      tls_ServerName := ""; tls_InsecureSkipVerify := false |}; h_DisableCompression := false |};
  s3_Trace := false; s3_ListObjectsVersion := ""; s3_SendContentMd5 := false; s3_DisableMultipart := false;
  s3_PartSize := 0; s3_SSEConfig := {| sse_Type := ""; sse_KMSKeyID := ""; sse_KMSEncryptionContext := ∅; sse_EncryptionKey := "" |};
  s3_STSEndpoint := "" |}.
Definition a_storage : Storage := {| stg_Type := zeroType; stg_Meta := new_meta "s3" "" "kube" ∅ ∅;
  stg_Spec := {| sto_BlockManager := None; sto_S3 := Some a_s3 |} |}.
Definition a_store : Store := new_store (new_meta "whizard-s3" "" "kube" Sample.labels ∅).
Definition keys : Secret := {| sec_Meta := new_meta "s3-keys" "" "kube" ∅ ∅;
  sec_Data := <["access" := "AK"]> (<["secret" := "SK"]> ∅); sec_StringData := ∅ |}.
Definition ca : Secret := {| sec_Meta := new_meta "s3-ca" "" "kube" ∅ ∅; sec_Data := <["ca.crt" := "PEM"]> ∅; sec_StringData := ∅ |}.
Definition objects : list Object :=
  [OService Cluster.whizard; OIngester Sample.full; OQuery Fleet.a_query; OStorage a_storage; OStore a_store;
   OSecret keys; OSecret ca].
Definition cluster : Mem := mem_of objects.
Definition with_keys (o : Object) : bool :=
  match o with
  | OStorage s => match sto_S3 (stg_Spec s) with
                  | Some s3 => negb (is_nil (s3_AccessKey s3)) && negb (is_nil (s3_SecretKey s3)) | None => true end
  | _ => true
  end.
Lemma with_keys_spec s : with_keys (OStorage s) = true → has_keys s.
Proof.
  simpl. intros H s3 E. rewrite E in H. apply andb_true_iff in H as [H1 H2].
  destruct (s3_AccessKey s3), (s3_SecretKey s3); try done; by split; eexists.
Qed.
Lemma all_with_keys x : OStorage x ∈ cached cluster → has_keys x.
Proof.
  assert (Hl : forallb with_keys (cached cluster) = true) by eval_eq. revert Hl. generalize (cached cluster). intros l Hl Hx.
  apply with_keys_spec. rewrite forallb_forall in Hl. by apply Hl, list_elem_of_In.
Qed.
End Events.

Lemma reconciled_kinds_are_heard_witness :
  let c : Controller (Logged Mem) := store_SetupWithManager in
  let calls := calls_from (ct_Reconcile c {| nn_Namespace := "kube"; nn_Name := "whizard-s3" |}) Events.cluster in
  2 ≤ length calls ∧ Forall (is_heard c) calls.
Proof.
  split; [apply Nat.leb_le; vm_compute; reflexivity|]. apply reconciled_kinds_are_heard.
  unfold addControllers. repeat first [by left|right].
Defined.

Lemma service_event_reaches_witness :
  request_of (OQuery Fleet.a_query)
  ∈ enqueued query_SetupWithManager {| ev_Type := CreateEvent; ev_Object := OService Cluster.whizard |} Events.cluster.
Proof.
  apply (service_event_reaches cached cache_lists).
  - unfold addControllers. repeat first [by left|right].
  - decide_by_eval.
  - reflexivity.
  - discriminate.
  - eval_eq.
  - discriminate.
Defined.

Lemma component_event_reaches_witness :
  request_of (OQuery Fleet.a_query)
  ∈ enqueued query_SetupWithManager {| ev_Type := DeleteEvent; ev_Object := OIngester Sample.full |} Events.cluster.
Proof.
  apply (component_event_reaches cached cache_lists _ _ _ "kube.whizard").
  - unfold addControllers. repeat first [by left|right].
  - decide_by_eval.
  - reflexivity.
  - decide_by_eval.
  - discriminate.
  - eval_eq.
  - eval_eq.
Defined.

Lemma secret_rotation_reaches_pods_witness :
  request_of (OStorage Events.a_storage)
  ∈ enqueued storage_SetupWithManager {| ev_Type := UpdateEvent (OSecret Events.keys); ev_Object := OSecret Events.keys |} Events.cluster
  ∧ ∃ h w', updateHashAnnotation Events.a_storage Events.cluster
            = (Ok (Some (OStorage (with_hash Events.a_storage h), OperationCreateOrUpdate)), w').
Proof.
  run_returns (GetStorageHash (storage_key Events.a_storage) Events.cluster) (any (A:=string)) h w' E HP.
  destruct (secret_rotation_reaches_pods cached cache_lists cache_reads Events.a_storage Events.a_s3 Events.keys
              {| ev_Type := UpdateEvent (OSecret Events.keys); ev_Object := OSecret Events.keys |} h Events.cluster w') as (H1 & H2 & _).
  - reflexivity.
  - decide_by_eval.
  - reflexivity.
  - reflexivity.
  - decide_by_eval.
  - exact Events.all_with_keys.
  - exact E.
  - split; [exact H1|]. exists h, w'. exact H2.
Defined.
