(* ===== verification/CommandWitnesses.v ===== *)
(** Concrete parsers of command lines and clients, and the theorems on the
    commands applied with them. *)
From stdpp Require Import base gmap strings list pretty sorting.
From Stdlib Require Import Ascii String.
From S2P Require Import Prelude GoStd K8s Api Objects Client Clients Base Workload Web WorkloadFacts Url GoNet GoNetFacts Duration Tenant TenantFacts Ingester Router Store Gateway GatewayFacts Watcher Query QueryFrontend QueryFacts GatewayWorkload GatewayWorkloadFacts BlockManager Block Flags Proxy GatewayCommand AgentCommand Controllers ManagerCommand CommandFacts GatewayCommandFacts Std Witnesses WorkloadWitnesses.
Open Scope nat_scope.

(** ** Command lines *)

(** An argument in the long form: the text after the first equals sign. *)
Definition parse_arg (arg : string) : option (string * string) :=
  if has_prefix arg "--" then
    let nv := drop_str 2 arg in
    Some (match cut_char "="%char nv with Some r => r | None => (nv, "true") end)
  else None.

Definition parse_args (dur : string → GoError + Z) (flags : list Flag) (args : list string) : GoError + FlagValues :=
  match mapM parse_arg args ≫= flag_values dur flags with
  | Some m => inr m
  | None => inl (EMsg "error parsing commandline arguments")
  end.

Lemma parse_arg_flag flags nv :
  forallb (λ f, negb (contains_char "="%char (fl_Name f))) flags = true → may_give flags nv = true →
  parse_arg (flag_arg flags nv) = Some nv.
Proof.
  intros Hp Hm. destruct nv as [n v]. unfold may_give, flag_arg, parse_arg in *. cbn [fst snd] in *.
  destruct (flag_named flags n) as [f|] eqn:E; [|done]. apply flag_named_name in E as [Hf <-].
  rewrite forallb_forall in Hp. specialize (Hp f (proj1 (list_elem_of_In _ _) Hf)). apply negb_true_iff in Hp.
  assert (Hcut : cut_char "=" (fl_Name f +:+ "=" +:+ v) = Some (fl_Name f, v)) by (by apply cut_char_app).
  assert (Hnone : cut_char "=" (fl_Name f) = None).
  { clear -Hp. revert Hp. generalize (fl_Name f) as s. induction s as [|a s IH]; [done|]. cbn [contains_char cut_char].
    intros [Ha Hs]%orb_false_iff. by rewrite Ha, IH. }
  destruct (fl_Kind f); rewrite has_prefix_app, (drop_str_append "--"); rewrite ?Hcut; try done.
  apply String.eqb_eq in Hm as ->. by rewrite Hnone.
Qed.

#[export] Program Instance std_commandline dur : CommandLine dur := { cl_Parse := parse_args dur }.
Next Obligation.
  intros dur flags given m H. unfold parse_args. assert (Hw : well_given flags given = true).
  { unfold flag_values in H. by destruct (well_given flags given). }
  unfold well_given in Hw. rewrite !andb_true_iff in Hw. destruct Hw as [[[_ Hp] _] Hm].
  assert (E : mapM parse_arg (flag_arg flags <$> given) = Some given); [|by rewrite E; simpl; rewrite H].
  apply mapM_Some. rewrite forallb_forall in Hm. apply Forall2_fmap_l, Forall_Forall2_diag, list.Forall_forall.
  intros nv Hin. by apply parse_arg_flag, Hm, list_elem_of_In.
Qed.

#[export] Program Instance std_kingpin : Kingpin := {
  model_ParseDuration := time_ParseDuration;
  RegisterPathOrContent name := [mkFlag (name +:+ "-file") KString ""; mkFlag name KString ""];
  Content p := if String.eqb (poc_Path p) "" && negb (contains_char "$"%char (poc_Content p))
               then inr (poc_Content p) else inl (EMsg "no such file");
}.
Next Obligation. vm_compute. reflexivity. Qed.
Next Obligation. vm_compute. reflexivity. Qed.
Next Obligation. done. Qed.
Next Obligation. intros text H. simpl. by rewrite H. Qed.

#[export] Instance std_pflag : Pflag := {}.
#[export] Instance std_kong : Kong := {}.

(** ** Clients *)

#[export] Instance std_configs : ClientConfigs := {
  TLSRest := unit; no_TLSRest := tt; ClientRest := unit; no_ClientRest := tt;
}.

(** The inverses of the encoders of [std_gatewaylib]. *)
Definition decode_auth (s : string) : option (string * string) := cut_char ":"%char s.
Definition decode_config (s : string) : GoError + DownstreamTripperConfig :=
  match split_on "|"%char s with
  | [auth; bearer; flag] => inr (tripper_of {| pc_BasicAuth := decode_auth auth; pc_BearerToken := bearer;
                                               pc_InsecureSkipVerify := String.eqb flag "insecure" |})
  | _ => inl (EMsg "yaml: unmarshal errors")
  end.
Definition decode_write (s : string) : option ExternalRemoteWriteConfig :=
  match split_on "|"%char s with
  | [name; url; timeout; bearer; flag] =>
      match url_Parse url, parse_int64 timeout with
      | inr u, Some t => Some {| er_Name := name; er_URL := u; er_Headers := ∅; er_RemoteTimeout := t; er_BasicAuth := None;
                                 er_BearerToken := bearer; er_InsecureSkipVerify := String.eqb flag "insecure" |}
      | _, _ => None
      end
  | _ => None
  end.

#[export] Instance std_commandlib : CommandLib := {
  RoundTripper := ClientConfig;
  NewRoundTripperFromConfig c _ := inr c;
  NewClientFromConfig c _ := inr c;
  yaml_tripper := decode_config;
  yaml_remote_writes s :=
    match mapM decode_write (filter (λ x, x ≠ ".") (split_on ";"%char s)) with
    | Some l => inr (loaded_of <$> l)
    | None => inl (EMsg "yaml: unmarshal errors")
    end;
  os_ReadFile _ := inl (EMsg "no such file");
}.

#[export] Program Instance std_agentlib : AgentLib := {
  TransportRest := unit;
  NewDefaultHTTPClientConfig := {|
    th_BasicAuth := {| ca_Username := ""; ca_Password := ""; ca_PasswordFile := "" |}; th_BearerToken := "";
    th_BearerTokenFile := ""; th_ProxyURL := ""; th_TLSConfig := no_ClientTLS;
    th_TransportConfig := {| tt_MaxIdleConnsPerHost := 100; tt_MaxConnsPerHost := 0; tt_Rest := tt |} |};
  yaml_thanos_client _ := inl (EMsg "yaml: unmarshal errors");
  BasicAuth_IsZero a := bool_decide (a = {| ca_Username := ""; ca_Password := ""; ca_PasswordFile := "" |});
  yaml_config_URL s := inr s;
  Validate _ := None;
  thanos_NewRoundTripper c _ _ := inr c;
}.
Next Obligation. intros a. apply bool_decide_eq_true. Qed.

(** The client that the flags of an agent describe. *)
Definition flags_client_config (c : agentProxyConfig) : ClientConfig :=
  match newRoundTripperFromConfig (flags_client (apc_gatewayConfig c)) "" with inr rt => rt | inl _ => no_ClientConfig end.

(** ** The theorems, applied *)

Module Commands.
(** The flag that the client of the cluster registers. *)
Definition goflags : list Flag := [mkFlag "kubeconfig" KString ""].
Definition a_gc : BlockGC := {|
  gc_Enable := Some true; gc_Image := "image"; gc_ImagePullPolicy := ""; gc_Resources := emptyResources;
  gc_GCInterval := Some 330000000001%Z; gc_CleanupTimeout := Some 0%Z;
  gc_DefaultTenantId := ""; gc_TenantLabelName := "tenant" |}.
Definition no_client : HTTPClientConfig := {| hc_BasicAuth := no_auth; hc_BearerToken := "" |}.
Definition a_write (url timeout : string) : RemoteWriteSpec := {|
  rw_Name := "archive"; rw_URL := url; rw_Headers := ∅; rw_RemoteTimeout := timeout; rw_HTTPClientConfig := no_client |}.
Definition with_remotes (s : Service) (rq : option RemoteQuerySpec) (rws : list RemoteWriteSpec) : Service :=
  let p := sv_Spec s in {| sv_Type := sv_Type s; sv_Meta := sv_Meta s; sv_Spec := {|
  sv_TenantHeader := sv_TenantHeader p; sv_DefaultTenantId := sv_DefaultTenantId p;
  sv_TenantLabelName := sv_TenantLabelName p; sv_Storage := sv_Storage p; sv_RemoteWrites := rws; sv_RemoteQuery := rq;
  GatewayTemplateSpec := GatewayTemplateSpec p; QueryFrontendTemplateSpec := QueryFrontendTemplateSpec p;
  QueryTemplateSpec := QueryTemplateSpec p; sv_RulerTemplateSpec := sv_RulerTemplateSpec p;
  RouterTemplateSpec := RouterTemplateSpec p; sv_IngesterTemplateSpec := sv_IngesterTemplateSpec p;
  StoreTemplateSpec := StoreTemplateSpec p; sv_CompactorTemplateSpec := sv_CompactorTemplateSpec p |} |}.
Definition writes : list RemoteWriteSpec := [a_write "https://archive/write" "45s"; a_write "http://backup/write" ""].
Definition archived : Service := with_remotes Cluster.whizard None writes.
Definition a_remote : RemoteQuerySpec := {|
  rq_Name := "remote"; rq_URL := "https://remote/prom"; rq_HTTPClientConfig := {| hc_BasicAuth := no_auth; hc_BearerToken := "token" |} |}.
Definition remote : Service := with_remotes Cluster.whizard (Some a_remote) [].
Definition gateway_url (path : string) : URL := {|
  u_Scheme := "http"; u_Opaque := ""; u_User := None; u_Host := "gateway:9090"; u_OmitHost := false; u_Path := path;
  u_RawPath := ""; u_ForceQuery := false; u_RawQuery := ""; u_Fragment := ""; u_RawFragment := "" |}.
Definition a_request : Outgoing :=
  {| og_URL := set_path "/api/v1/write" no_url; og_Host := "agent"; og_Header := ∅ |}.
Definition files (path : string) : option string := Some "[t1".
Definition watch (path : string) : GoError + unit := inr tt.
End Commands.

Lemma collector_reads_its_settings_witness :
  ∃ m, cl_Parse (dur:=time_ParseDuration) (block_flags Commands.goflags) (gc_args Commands.a_gc "type: S3") = inr m
       ∧ br_gcInterval (block_manager_of m) = 330000000001%Z ∧ br_gcCleanupTimeout (block_manager_of m) = hour
       ∧ bm_tenantLabelName (br_Manager (block_manager_of m)) = "tenant"
       ∧ bm_defaultTenantId (br_Manager (block_manager_of m)) = "default-tenant".
Proof.
  destruct (collector_reads_its_settings Commands.goflags Commands.a_gc "type: S3") as (m & Hp & E).
  - split; [decide_by_eval|]. apply Forall_singleton. split; [by eexists|]. split; [done|decide_by_eval].
  - intros x [= <-]. split; vm_compute; discriminate.
  - intros x [= <-]. split; vm_compute; discriminate.
  - exists m. rewrite E. by split_and!.
Defined.

Lemma agent_sends_to_its_gateway_witness :
  main Commands.watch Commands.files CAgentProxy (agent_args "http://gateway:9090" "") = inr RunsNothing
  ∧ ∃ run, main Commands.watch Commands.files CAgentProxy (agent_args "http://gateway:9090/" "t1") = inr (RunsAgent run)
      ∧ let sent := og_URL (agent_handler run Commands.a_request) in
        u_Host sent = "gateway:9090" ∧ u_Path sent = "/t1/api/v1/receive".
Proof.
  split.
  - apply (agent_sends_to_its_gateway (HCm:=std_commandlib) "http://gateway:9090" "" Commands.watch Commands.files
      (flags_client_config (chart_config "http://gateway:9090" "")) (Commands.gateway_url ""));
      [done|reflexivity|vm_compute; reflexivity|by left|done..].
  - destruct (agent_sends_to_its_gateway (HCm:=std_commandlib) "http://gateway:9090/" "t1" Commands.watch Commands.files
      (flags_client_config (chart_config "http://gateway:9090/" "t1")) (Commands.gateway_url "/")) as (run & Hm & Hr);
      [done|reflexivity|vm_compute; reflexivity|by right|done..|].
    exists run. split; [exact Hm|]. destruct (Hr Commands.a_request eq_refl) as (_ & Eh & Ep & _). by split.
Defined.

(** The remote writes of a service whose credentials are all empty are read
    whatever the cluster. *)
Lemma writes_fold (w : Mem) :
  ∃ cfgs, fold_each (external_step Commands.archived) [] Commands.writes w = (Ok cfgs, w)
    ∧ literal (match yaml_Marshal_external cfgs with inr b => b | inl _ => "" end)
    ∧ yaml_remote_writes (match yaml_Marshal_external cfgs with inr b => b | inl _ => "" end) = inr (loaded_of <$> cfgs).
Proof. eexists. split; [reflexivity|]. split; [split; [vm_compute; discriminate|vm_compute; reflexivity]|vm_compute; reflexivity]. Qed.

Lemma archived_read_back : external_read_back (W:=Mem) Commands.archived.
Proof.
  intros w w' cfgs buff H Hb. destruct (writes_fold w) as (cfgs' & H' & Hl & Hr).
  change (sv_RemoteWrites (sv_Spec Commands.archived)) with Commands.writes in H. rewrite H' in H. inversion H; subst cfgs' w'.
  rewrite Hb in Hl, Hr. by split.
Qed.

Lemma insecure_read_back : config_read_back insecure_config.
Proof. split; [split; [vm_compute; discriminate|vm_compute; reflexivity]|vm_compute; reflexivity]. Qed.

Lemma gateway_runs_as_declared_witness :
  ∃ args w', upstream_args Commands.archived Fleet.a_gateway Fleet.a_cluster = (Ok args, w') ∧
  ∃ run, main Commands.watch Commands.files CGateway
           (c_Args (gateway_container Commands.archived Fleet.a_gateway (Some Fleet.a_web) args)) = inr (RunsGateway run)
    ∧ run_Admission run = FromFile admission_path (60 * second)
    ∧ rc_timeout <$> o_ExternalRWClients (run_Options run) = [45 * second; 30 * second]%Z.
Proof.
  run_returns (upstream_args Commands.archived Fleet.a_gateway Fleet.a_cluster) (any (A:=list string)) args w' E HP.
  exists args, w'. split; [exact E|].
  destruct (gateway_runs_as_declared Commands.archived Fleet.a_gateway (Some Fleet.a_web) Fleet.a_cluster w' args
    Commands.watch Commands.files eq_refl E) as (run & Hm & _ & _ & _ & _ & Ha & _ & _ & _ & _ & _ & _ & Hx).
  - split; decide_by_eval.
  - apply insecure_read_back.
  - apply archived_read_back.
  - intros c _. split; by eexists.
  - intros _. split; [done|]. eexists. vm_compute. reflexivity.
  - exists run. split; [exact Hm|]. split; [exact Ha|]. revert Hx.
    change (sv_RemoteWrites (sv_Spec Commands.archived)) with Commands.writes. generalize (o_ExternalRWClients (run_Options run)).
    intros l Hx. inversion Hx as [|? c1 ? l1 H1 Hx1]; subst. inversion Hx1 as [|? c2 ? l2 H2 Hx2]; subst. inversion Hx2; subst.
    destruct H1 as (u1 & d1 & _ & _ & _ & Hd1 & H1). destruct H2 as (u2 & d2 & _ & _ & _ & Hd2 & H2).
    assert (d1 = 45 * second)%Z as -> by (vm_compute in Hd1; by injection Hd1 as <-).
    vm_compute in Hd2. subst d2. csimpl. rewrite H1, H2. reflexivity.
Defined.

Definition address_ok (s : string) : bool := match url_Parse s with inr _ => negb (String.eqb s "") | inl _ => false end.

(** The querier of the cluster has an address. *)
Lemma addresses_parse fa qa (w1 w2 : Mem) :
  queryfrontendAddress Commands.remote Fleet.a_gateway Fleet.a_cluster = (Ok fa, w1) →
  gateway_queryAddress Commands.remote Fleet.a_gateway w1 = (Ok qa, w2) →
  ∃ u, url_Parse qa = inr u ∧ qa ≠ "".
Proof.
  intros Hf Hq.
  run_returns ((fa ← queryfrontendAddress Commands.remote Fleet.a_gateway; gateway_queryAddress Commands.remote Fleet.a_gateway)
    Fleet.a_cluster) address_ok q w E HP.
  rewrite (bind_step _ _ _ _ _ Hf), Hq in E. inversion E; subst. unfold address_ok in HP.
  destruct (url_Parse q) as [|u]; [done|]. exists u. split; [done|]. by apply String.eqb_neq, negb_true_iff.
Qed.

Lemma url_of_remote u : url_Parse (rq_URL Commands.a_remote) = inr u →
  u = {| u_Scheme := "https"; u_Opaque := ""; u_User := None; u_Host := "remote"; u_OmitHost := false; u_Path := "/prom";
         u_RawPath := ""; u_ForceQuery := false; u_RawQuery := ""; u_Fragment := ""; u_RawFragment := "" |}.
Proof. intros H. vm_compute in H. by injection H as <-. Qed.

Lemma remote_query_gateway_witness :
  ∃ args w', upstream_args Commands.remote Fleet.a_gateway Fleet.a_cluster = (Ok args, w') ∧
  ∃ run u, main Commands.watch Commands.files CGateway
             (c_Args (gateway_container Commands.remote Fleet.a_gateway None args)) = inr (RunsGateway run)
    ∧ reaches_with (remote_config Commands.a_remote u None) u (run_QueryProxy run)
    ∧ o_RulesQueryProxy (run_Options run) = true.
Proof.
  run_returns (upstream_args Commands.remote Fleet.a_gateway Fleet.a_cluster) (any (A:=list string)) args w' E HP.
  exists args, w'. split; [exact E|].
  destruct (remote_query_gateway Commands.remote Fleet.a_gateway None Commands.a_remote Fleet.a_cluster w' args
    Commands.watch Commands.files eq_refl) as (run & u & auth & fa & qa & uf & w1 & w2 & w3 & Hm & Hf & Hq & Ha & _ & Hr & _ & _ & _ & Ho).
  - done.
  - exact E.
  - split; decide_by_eval.
  - apply insecure_read_back.
  - intros wa wb cfgs buff H Hb. inversion H; subst. injection Hb as <-. vm_compute. split; [by split|done].
  - intros u auth w1 w2 Hu Ha _. apply url_of_remote in Hu. inversion Ha; subst.
    split; [split; [vm_compute; discriminate|vm_compute; reflexivity]|vm_compute; reflexivity].
  - intros fa qa w1 w2 Hf Hq. right.
    destruct (addresses_parse fa qa w1 w2 Hf Hq) as (u & Hu & _). by exists u.
  - intros c _. split; by eexists.
  - intros _. split; [done|]. eexists. vm_compute. reflexivity.
  - exists run, u. split; [exact Hm|]. destruct (addresses_parse fa qa w1 w2 Hf Hq) as (v & _ & Hne).
    inversion Ha; subst. split; [exact Hr|]. rewrite Ho. apply String.eqb_neq in Hne. by rewrite Hne.
Defined.

Lemma ready_means_admitting_witness :
  let o := {| o_TenantHeader := "h"; o_TenantLabelName := "l"; o_QueryProxy := true; o_RulesQueryProxy := false;
    o_RemoteWriteProxy := true; o_ExternalRWClients := []; o_CertAuthenticator := false; o_EnabledTenantsAdmission := true;
    o_EnabledQueryUI := false |} in
  ∃ st, update_loop o gateway_start [["a"; "b"]; ["b"]] = Ok st ∧ gs_Ready st = true
        ∧ is_Some (gs_Admission st !! "b") ∧ ¬ is_Some (gs_Admission st !! "a").
Proof.
  intros o. destruct (ready_means_admitting o [["a"; "b"]; ["b"]]) as (st & Hst & Hr & Ha); [done|decide_by_eval|].
  exists st. split; [exact Hst|]. split; [exact Hr|]. split; [by apply Ha; [|decide_by_eval]|].
  rewrite Ha by done. decide_by_eval.
Defined.

Lemma client_config_hides_limits_witness :
  ParseTransportConfiguration "|token|" = ParseTransportConfiguration "|token|-".
Proof.
  eapply (client_config_hides_limits "|token|" "|token|-"); [done|done|reflexivity|reflexivity|done|done].
Defined.

Lemma manager_flags_keep_defaults_witness :
  ∃ m, cl_Parse (dur:=time_ParseDuration) (manager_Flags Commands.goflags NewControllerManagerOptions) [] = inr m
       ∧ manager_options_of m = NewControllerManagerOptions.
Proof.
  apply (manager_flags_keep_defaults (HP:=std_pflag) Commands.goflags NewControllerManagerOptions). split; [decide_by_eval|].
  apply Forall_singleton. split; [by eexists|done].
Defined.
