(* ===== verification/ProcessWitnesses.v ===== *)
(** A concrete group of actors, and the theorems on the running gateway applied
    to concrete schedules: one that follows its file, one that shuts down, and
    one that wedges. *)
From stdpp Require Import base gmap strings list pretty sorting.
From Stdlib Require Import Ascii String.
From S2P Require Import Prelude GoStd K8s Base Url Gateway GatewayFacts Watcher Flags Proxy GatewayCommand GatewayProcess GatewayCommandFacts GatewayProcessFacts Std Witnesses.
Open Scope nat_scope.

(** The group interrupts the actors in the order they were added. *)
Definition next_interrupt (returned : list (Actor * option GoError)) (interrupted : list Actor) : option Actor :=
  match returned with [] => None | _ => head (filter (λ a, a ∉ interrupted) actors) end.
Definition run_result (returned : list (Actor * option GoError)) : option (option GoError) :=
  if bool_decide (Forall (λ a, a ∈ returned.*1) actors) then snd <$> head returned else None.

#[export] Program Instance std_group : RunGroup := { rg_interrupt := next_interrupt; rg_Run := run_result }.
Next Obligation. done. Qed.
Next Obligation.
  intros [|x returned] interrupted a Ha; [done|]. apply head_Some_elem_of in Ha. by apply list_elem_of_filter in Ha as [Ha _].
Qed.
Next Obligation.
  intros [|x returned] interrupted Hne Hnone a Ha _; [done|]. apply head_None in Hnone.
  destruct (decide (a ∈ interrupted)) as [Hin|Hout]; [done|]. exfalso.
  assert (Hx : a ∈ filter (λ a, a ∉ interrupted) actors) by (by apply list_elem_of_filter). rewrite Hnone in Hx. by apply elem_of_nil in Hx.
Qed.
Next Obligation. intros a e returned Hall. unfold run_result. rewrite bool_decide_true; [done|]. by apply list.Forall_forall. Qed.
Next Obligation.
  intros returned a Ha Hout. unfold run_result. rewrite bool_decide_false; [done|]. rewrite list.Forall_forall. intros Hx. by apply Hout, Hx.
Qed.

Module Schedule.
Definition source : AdmissionSource := FromFile "/etc/whizard/tenants.json" 60.
Definition tick (content : string) : Label := LWatch (WEvent (EvTick (Some content) false)).

(** The file changes while the first configuration is on its way. *)
Definition following : list Label :=
  [LServe; LSource FStart; LWatch (WFirst (Some File.one)); LSource FReceive; tick File.one; LSource FSend; LHangup;
   tick File.two].
Definition forwarding : list Label := [LSource FReceive; LUpdate UReceive; LSource FSend; LUpdate UReceive].

(** A signal while nothing is on its way. *)
Definition signalled : list Label := [LServe; LSource FStart; LWatch (WFirst (Some File.one)); LSource FReceive; LSource FSend;
  LUpdate UReceive; LSignal].

(** A signal while the channel is full and a third configuration is held: the
    update loop sees that it is cancelled first. *)
Definition wedging : list Label :=
  [LServe; LSource FStart; LWatch (WFirst (Some File.one)); LSource FReceive; LSource FSend; tick File.two; LSource FReceive;
   LSignal; LInterrupt; LInterrupt; LInterrupt; LUpdate UCancel].

Definition wedgedb (s : Process) : bool :=
  running ASource s && negb (running AUpdater s) && match in_hand s with [] => false | _ => true end
  && (ch_cap (gp_updates s) <=? length (ch_buf (gp_updates s))).
Lemma wedgedb_spec s : wedgedb s = true ↔ wedged s.
Proof.
  unfold wedgedb, wedged. rewrite !andb_true_iff, negb_true_iff, Nat.leb_le. destruct (in_hand s); naive_solver.
Qed.

Definition settledb (s : Process) : bool :=
  forallb (λ l, match perform File.options source l s with None => true | _ => false end)
    [LSource FStart; LSource FReceive; LSource FSend; LUpdate UReceive].
Lemma settledb_spec s : settledb s = true → settled File.options source s.
Proof.
  unfold settledb. rewrite forallb_forall. intros H l Hl.
  assert (Hin : In l [LSource FStart; LSource FReceive; LSource FSend; LUpdate UReceive])
    by (destruct l as [| | |[]|[]| | | | |]; try done; simpl; auto).
  specialize (H l Hin). by destruct (perform _ _ l s).
Qed.

Lemma run_check tr s (P : Process → bool) :
  match schedule File.options source tr s with Some s' => P s' | None => false end = true →
  ∃ s', schedule File.options source tr s = Some s' ∧ exec File.options source s tr s' ∧ P s' = true.
Proof.
  destruct (schedule File.options source tr s) as [s'|] eqn:E; [|done]. intros H. exists s'. split_and!; [done| |done].
  by apply schedule_exec.
Qed.
End Schedule.

Lemma running_gateway_follows_file_witness :
  ∃ s s', exec File.options Schedule.source (start Schedule.source) Schedule.following s
    ∧ exec File.options Schedule.source s Schedule.forwarding s'
    ∧ gs_Ready (gp_Gateway s') = true
    ∧ is_Some (gs_Admission (gp_Gateway s') !! "t3") ∧ ¬ is_Some (gs_Admission (gp_Gateway s') !! "t1").
Proof.
  destruct (Schedule.run_check Schedule.following (start Schedule.source)
    (λ s, match gp_interrupted s with [] => true | _ => false end
          && match schedule File.options Schedule.source Schedule.forwarding s with Some s' => Schedule.settledb s' | None => false end))
    as (s & _ & Hx & Hs); [eval_eq|].
  apply andb_true_iff in Hs as [Hi Hs]. destruct (Schedule.run_check _ _ _ Hs) as (s' & _ & Hx' & Hset).
  exists s, s'. split; [exact Hx|]. split; [exact Hx'|].
  assert (Hgoods : goods_of Schedule.following = File.goods) by eval_eq.
  destruct (running_gateway_follows_file File.options Schedule.source "/etc/whizard/tenants.json" 60 Schedule.following s
              File.two ["t2"; "t3"]) with (tr' := Schedule.forwarding) (s' := s') as [_ Hdone].
  - reflexivity.
  - reflexivity.
  - exact Hx.
  - by destruct (gp_interrupted s).
  - rewrite Hgoods. exact File.goods_apart.
  - rewrite Hgoods. decide_by_eval.
  - by rewrite Hgoods.
  - repeat constructor.
  - exact Hx'.
  - destruct (Hdone (Schedule.settledb_spec _ Hset)) as [Hr Ha]. split; [exact Hr|].
    split; [by apply Ha; [|decide_by_eval]|]. rewrite Ha by done. decide_by_eval.
Defined.

(** One shutdown ends with the status 0, and one never does. *)
Lemma shutdown_ends_unless_wedged_witness :
  (∃ tr s, exec File.options Schedule.source (start Schedule.source) tr s ∧ exit_status s = Some 0%Z)
  ∧ ∃ s, exec File.options Schedule.source (start Schedule.source) Schedule.wedging s
       ∧ ∀ tr' s', exec File.options Schedule.source s tr' s' → exit_status s' ≠ Some 0%Z.
Proof.
  assert (Hok : ∀ tr, goods_of tr = [] ∨ goods_of tr = [(File.one, ["t1"; "t2"])] ∨
    goods_of tr = [(File.one, ["t1"; "t2"]); (File.two, ["t2"; "t3"])] → harmless Schedule.source tr).
  { intros tr H. unfold harmless, offered. cbn [Schedule.source]. destruct H as [-> | [-> | ->]]; decide_by_eval. }
  split.
  - destruct (Schedule.run_check Schedule.signalled (start Schedule.source)
      (λ s, bool_decide (gp_returned s = [(AInterrupt, None)]) && negb (Schedule.wedgedb s))) as (s & _ & Hx & Hs); [eval_eq|].
    apply andb_true_iff in Hs as [Hret%bool_decide_eq_true Hw%negb_true_iff].
    destruct (shutdown_ends_unless_wedged File.options Schedule.source Schedule.signalled s AInterrupt None []) as [_ Hend].
    + exact Hx.
    + apply Hok. right; left. eval_eq.
    + exact Hret.
    + destruct Hend as (tr' & s' & Hx' & Hexit); [by rewrite <-Schedule.wedgedb_spec, Hw|].
      exists (Schedule.signalled ++ tr'), s'. split; [by eapply exec_app|exact Hexit].
  - destruct (Schedule.run_check Schedule.wedging (start Schedule.source)
      (λ s, bool_decide (gp_returned s = [(AInterrupt, None); (AUpdater, None)]) && Schedule.wedgedb s)) as (s & _ & Hx & Hs); [eval_eq|].
    apply andb_true_iff in Hs as [Hret%bool_decide_eq_true Hw]. exists s. split; [exact Hx|]. intros tr' s' Hx' Hexit.
    destruct (shutdown_ends_unless_wedged File.options Schedule.source Schedule.wedging s AInterrupt None [(AUpdater, None)]) as [Hnever _].
    + exact Hx.
    + apply Hok. right; right. eval_eq.
    + exact Hret.
    + apply Hnever; [by exists tr', s'|]. by apply Schedule.wedgedb_spec.
Defined.

Lemma gateway_process_never_panics_witness :
  ∃ s, exec File.options Schedule.source (start Schedule.source) Schedule.wedging s
    ∧ ∀ l p, perform File.options Schedule.source l s ≠ Some (Panic p).
Proof.
  destruct (Schedule.run_check Schedule.wedging (start Schedule.source) (λ _, true)) as (s & _ & Hx & _); [eval_eq|].
  exists s. split; [exact Hx|]. intros l p. apply (gateway_process_never_panics _ _ _ _ _ _ Hx).
  unfold harmless, offered. cbn [Schedule.source].
  assert (E : goods_of Schedule.wedging = [(File.one, ["t1"; "t2"]); (File.two, ["t2"; "t3"])]) by eval_eq. rewrite E. decide_by_eval.
Defined.
